(** * The POSIX backend of the S3 gateway: a shallow embedding

    This development embeds the object operations of
    [backend/posix/posix.go] as functions over an explicit file-system
    state and proves the properties the design document states about
    them.

    Conventions of the embedding.
    - A Go [string] is a Rocq [string] (a sequence of 8-bit characters), a
      [[]byte] is a [list byte]; [[]byte(s)] and [string(b)] are the two
      conversions of the standard library.
    - [int64] and [int32] values are [Z]; the operations below never leave
      the range on the inputs that reach them, file sizes being lengths.
    - The process works in the gateway root.  The file system is a finite
      map from normalised relative paths to nodes, each node carrying its
      extended attributes.  There are no symbolic links, no ownership, no
      time stamps and no I/O faults (EIO, EDQUOT, EACCES): a system call
      fails only for a structural reason.
    - A pointer field the code tests against [nil] is an [option]; a
      pointer it dereferences without a test is the value itself. *)

From Stdlib Require Import ZArith List Strings.String Strings.Ascii Strings.Byte Lia.
From Stdlib Require Import DecimalString Sorted.
From stdpp Require Import base option list gmap strings.

Local Open Scope string_scope.
Local Open Scope Z_scope.

(** ** Bytes, hexadecimal and decimal text *)

Abbreviation bytes := (list byte).

(** [[]byte(s)] *)
Definition bytes_of (s : string) : bytes := list_byte_of_string s.

(** [string(b)] *)
Definition string_of (b : bytes) : string := string_of_list_byte b.

Definition byte_val (b : byte) : Z := Z.of_N (Byte.to_N b).

Definition byte_of_Z (z : Z) : byte :=
  match Byte.of_N (Z.to_N (Z.land z 255)) with
  | Some b => b
  | None => x00
  end.

Definition hex_digit (n : Z) : ascii :=
  if n <? 10 then ascii_of_N (Z.to_N (48 + n))
  else ascii_of_N (Z.to_N (87 + n)).

(** [hex.EncodeToString]: two lower-case digits for each byte. *)
Fixpoint hex_EncodeToString (b : bytes) : string :=
  match b with
  | [] => EmptyString
  | x :: r =>
      String (hex_digit (Z.shiftr (byte_val x) 4))
        (String (hex_digit (Z.land (byte_val x) 15)) (hex_EncodeToString r))
  end.

Definition hex_value (c : ascii) : option Z :=
  let n := Z.of_N (N_of_ascii c) in
  if (48 <=? n) && (n <=? 57) then Some (n - 48)
  else if (97 <=? n) && (n <=? 102) then Some (n - 87)
  else if (65 <=? n) && (n <=? 70) then Some (n - 55)
  else None.

(** [hex.DecodeString]: fails on an odd length and on a character that
    is not a hexadecimal digit. *)
Fixpoint hex_DecodeString (s : string) : option bytes :=
  match s with
  | EmptyString => Some []
  | String c1 (String c2 r) =>
      match hex_value c1, hex_value c2, hex_DecodeString r with
      | Some h, Some l, Some t => Some (byte_of_Z (16 * h + l) :: t)
      | _, _, _ => None
      end
  | String _ EmptyString => None
  end.

(** [fmt.Sprintf("%d", n)] and [fmt.Sprintf("%v", n)] for an integer. *)
Definition itoa (n : Z) : string := NilZero.string_of_int (Z.to_int n).

(** ** MD5 (RFC 1321), the function behind [crypto/md5] *)

Module MD5.

Definition mask32 : Z := 0xFFFFFFFF.
Definition w32 (x : Z) : Z := Z.land x mask32.
Definition add32 (x y : Z) : Z := w32 (x + y).
Definition not32 (x : Z) : Z := Z.lxor x mask32.
Definition rotl32 (x n : Z) : Z :=
  w32 (Z.lor (Z.shiftl x n) (Z.shiftr x (32 - n))).

Definition K : list Z :=
  [ 0xd76aa478; 0xe8c7b756; 0x242070db; 0xc1bdceee;
    0xf57c0faf; 0x4787c62a; 0xa8304613; 0xfd469501;
    0x698098d8; 0x8b44f7af; 0xffff5bb1; 0x895cd7be;
    0x6b901122; 0xfd987193; 0xa679438e; 0x49b40821;
    0xf61e2562; 0xc040b340; 0x265e5a51; 0xe9b6c7aa;
    0xd62f105d; 0x02441453; 0xd8a1e681; 0xe7d3fbc8;
    0x21e1cde6; 0xc33707d6; 0xf4d50d87; 0x455a14ed;
    0xa9e3e905; 0xfcefa3f8; 0x676f02d9; 0x8d2a4c8a;
    0xfffa3942; 0x8771f681; 0x6d9d6122; 0xfde5380c;
    0xa4beea44; 0x4bdecfa9; 0xf6bb4b60; 0xbebfbc70;
    0x289b7ec6; 0xeaa127fa; 0xd4ef3085; 0x04881d05;
    0xd9d4d039; 0xe6db99e5; 0x1fa27cf8; 0xc4ac5665;
    0xf4292244; 0x432aff97; 0xab9423a7; 0xfc93a039;
    0x655b59c3; 0x8f0ccc92; 0xffeff47d; 0x85845dd1;
    0x6fa87e4f; 0xfe2ce6e0; 0xa3014314; 0x4e0811a1;
    0xf7537e82; 0xbd3af235; 0x2ad7d2bb; 0xeb86d391 ].

Definition S : list Z :=
  [ 7; 12; 17; 22; 7; 12; 17; 22; 7; 12; 17; 22; 7; 12; 17; 22;
    5; 9; 14; 20; 5; 9; 14; 20; 5; 9; 14; 20; 5; 9; 14; 20;
    4; 11; 16; 23; 4; 11; 16; 23; 4; 11; 16; 23; 4; 11; 16; 23;
    6; 10; 15; 21; 6; 10; 15; 21; 6; 10; 15; 21; 6; 10; 15; 21 ].

Record digest := Digest { dA : Z; dB : Z; dC : Z; dD : Z }.

Definition init : digest :=
  Digest 0x67452301 0xefcdab89 0x98badcfe 0x10325476.

(** One of the 64 operations of a block, on the message words [m]. *)
Definition step (m : list Z) (d : digest) (i : nat) : digest :=
  let '(Digest a b c dd) := d in
  let iz := Z.of_nat i in
  let '(f, g) :=
    if iz <? 16 then (Z.lor (Z.land b c) (Z.land (not32 b) dd), iz)
    else if iz <? 32 then
      (Z.lor (Z.land dd b) (Z.land (not32 dd) c), (5 * iz + 1) mod 16)
    else if iz <? 48 then (Z.lxor b (Z.lxor c dd), (3 * iz + 5) mod 16)
    else (Z.lxor c (Z.lor b (not32 dd)), (7 * iz) mod 16) in
  let f' := add32 (add32 (add32 f a) (nth i K 0)) (nth (Z.to_nat g) m 0) in
  Digest dd (add32 b (rotl32 f' (nth i S 0))) b c.

(** Little-endian 32-bit words of a byte sequence. *)
Fixpoint words (b : list Z) : list Z :=
  match b with
  | b0 :: b1 :: b2 :: b3 :: r =>
      (b0 + 256 * b1 + 65536 * b2 + 16777216 * b3) :: words r
  | _ => []
  end.

Definition block (d : digest) (blk : list Z) : digest :=
  let m := words blk in
  let '(Digest a b c dd) := fold_left (step m) (seq 0 64) d in
  Digest (add32 (dA d) a) (add32 (dB d) b) (add32 (dC d) c) (add32 (dD d) dd).

Fixpoint le_bytes (n : nat) (x : Z) : list Z :=
  match n with
  | O => []
  | Datatypes.S n' => Z.land x 255 :: le_bytes n' (Z.shiftr x 8)
  end.

(** The message followed by 0x80, zeros up to 56 modulo 64, and the bit
    length on 8 bytes. *)
Definition pad (msg : list Z) : list Z :=
  let len := Z.of_nat (length msg) in
  let zeros := Z.to_nat ((55 - len) mod 64) in
  msg ++ 128 :: repeat 0 zeros ++ le_bytes 8 (8 * len).

Fixpoint blocks (n : nat) (d : digest) (data : list Z) : digest :=
  match n with
  | O => d
  | Datatypes.S n' => blocks n' (block d (firstn 64 data)) (skipn 64 data)
  end.

Definition sum (msg : bytes) : bytes :=
  let p := pad (map byte_val msg) in
  let '(Digest a b c dd) := blocks (Nat.div (length p) 64) init p in
  map byte_of_Z (le_bytes 4 a ++ le_bytes 4 b ++ le_bytes 4 c ++ le_bytes 4 dd).

End MD5.

(** [md5.Sum] *)
Definition md5_Sum (b : bytes) : bytes := MD5.sum b.




(** ** Paths: the functions of [path/filepath] on Unix *)

Definition slash : ascii := "/"%char.

(** [strings.Split(s, sep)] for a separator of one character. *)
Fixpoint split_on (sep : ascii) (s : string) : list string :=
  match s with
  | EmptyString => [EmptyString]
  | String c r =>
      if Ascii.eqb c sep then EmptyString :: split_on sep r
      else match split_on sep r with
           | h :: t => String c h :: t
           | [] => [String c EmptyString]
           end
  end.

Definition split_slash (s : string) : list string := split_on slash s.

Definition is_rooted (s : string) : bool :=
  match s with
  | String c _ => Ascii.eqb c slash
  | EmptyString => false
  end.

(** One element of a path against the elements kept so far (last element
    first): empty and [.] elements vanish, [..] removes the element before
    it, and stays when there is none to remove unless the path is rooted. *)
Definition clean_step (rooted : bool) (stack : list string) (c : string)
  : list string :=
  if String.eqb c "" || String.eqb c "." then stack
  else if String.eqb c ".." then
    match stack with
    | top :: rest => if String.eqb top ".." then c :: stack else rest
    | [] => if rooted then [] else [c]
    end
  else c :: stack.

Definition clean_parts (s : string) : bool * list string :=
  (is_rooted s, rev (fold_left (clean_step (is_rooted s)) (split_slash s) [])).

Definition join_slash (l : list string) : string := String.concat "/" l.

(** [filepath.Clean] *)
Definition filepath_Clean (s : string) : string :=
  let '(rooted, parts) := clean_parts s in
  if rooted then "/" ++ join_slash parts
  else match parts with
       | [] => "."
       | _ => join_slash parts
       end.

(** [filepath.Join]: the elements from the first non-empty one on, joined
    by a slash and cleaned; the empty string when all are empty. *)
Fixpoint filepath_Join (elem : list string) : string :=
  match elem with
  | [] => ""
  | e :: r =>
      if String.eqb e "" then filepath_Join r
      else filepath_Clean (join_slash elem)
  end.

(** The text of a path up to its last slash, slash included. *)
Fixpoint upto_last_slash (s : string) : option string :=
  match s with
  | EmptyString => None
  | String c r =>
      match upto_last_slash r with
      | Some t => Some (String c t)
      | None => if Ascii.eqb c slash then Some (String c EmptyString) else None
      end
  end.

(** [filepath.Dir] *)
Definition filepath_Dir (s : string) : string :=
  filepath_Clean (default "" (upto_last_slash s)).

(** [strings.HasSuffix] and [strings.HasPrefix] *)
Definition strings_HasPrefix (s p : string) : bool := String.prefix p s.

Fixpoint strings_HasSuffix (s suf : string) : bool :=
  String.eqb s suf ||
  match s with
  | EmptyString => false
  | String _ r => strings_HasSuffix r suf
  end.




(** ** The file system *)

Abbreviation path := (list string).
Abbreviation xattrs := (gmap string bytes).

Inductive node :=
  | File (data : bytes) (attrs : xattrs)
  | Dir (attrs : xattrs).

Definition node_attrs (n : node) : xattrs :=
  match n with File _ a => a | Dir a => a end.

Definition set_attrs (a : xattrs) (n : node) : node :=
  match n with File d _ => File d a | Dir _ => Dir a end.

Definition IsDir (n : node) : bool :=
  match n with Dir _ => true | File _ _ => false end.

(** [fi.Size()]; the size of a directory is not used by the code. *)
Definition Size (n : node) : Z :=
  match n with File d _ => Z.of_nat (length d) | Dir _ => 0 end.

(** The tree below the gateway root, by normalised path; the root itself
    is the empty path and is not stored. *)
Abbreviation fsys := (gmap path node).

Inductive errno :=
  ENOENT | ENOTDIR | ENOTEMPTY | EEXIST | EISDIR | EINVAL | EACCES | EDQUOT.

Global Instance errno_eq_dec : EqDecision errno.
Proof. solve_decision. Defined.

(** The place a path names from the working directory: [None] when it is
    rooted or climbs above the gateway root, which the model does not
    cover. *)
Definition resolve (name : string) : option path :=
  match clean_parts name with
  | (true, _) => None
  | (false, parts) =>
      match parts with
      | top :: _ => if String.eqb top ".." then None else Some parts
      | [] => Some []
      end
  end.

Definition lookup_node (fs : fsys) (p : path) : option node :=
  match p with
  | [] => Some (Dir ∅)
  | _ => fs !! p
  end.

Definition is_dir (fs : fsys) (p : path) : bool :=
  match lookup_node fs p with
  | Some (Dir _) => true
  | _ => false
  end.

(** Does a regular file stand on the way to [p]? *)
Fixpoint file_on_way (fs : fsys) (pre : path) (rest : path) : bool :=
  match rest with
  | [] => false
  | c :: r =>
      match fs !! (pre ++ [c])%list with
      | Some (File _ _) => match r with [] => false | _ => true end
      | _ => file_on_way fs (pre ++ [c])%list r
      end
  end.

Definition missing (fs : fsys) (p : path) : errno :=
  if file_on_way fs [] p then ENOTDIR else ENOENT.

Definition is_child (p q : path) : Prop := q ≠ [] ∧ removelast q = p.

Global Instance is_child_dec p q : Decision (is_child p q).
Proof. unfold is_child. apply _. Defined.

Definition has_children (fs : fsys) (p : path) : bool :=
  bool_decide (map_Exists (λ q _, is_child p q) fs).

Definition is_below (p q : path) : Prop := p `prefix_of` q.

(** ** Errors *)

(** The constants of [s3err] the backend returns here. *)
Inductive ErrorCode :=
  | ErrInvalidBucketName
  | ErrNoSuchKey
  | ErrNoSuchUpload
  | ErrInvalidRequest
  | ErrNoSuchBucket
  | ErrInvalidPart
  | ErrQuotaExceeded
  | ErrDirectoryObjectContainsData
  | ErrExistingObjectIsDirectory
  | ErrInvalidTag
  | ErrInvalidRange
  | ErrInvalidBucketObjectLockConfiguration
  | ErrBucketTaggingNotFound.

Global Instance ErrorCode_eq_dec : EqDecision ErrorCode.
Proof. solve_decision. Defined.

(** A Go [error] value: an API error of [s3err.GetAPIError], a failed
    system call, [meta.ErrNoSuchKey], a decoding error of [encoding/json],
    [fmt.Errorf] with [%w] (the chain is kept) and without. *)
Inductive error :=
  | APIError (c : ErrorCode)
  | PathError (op name : string) (e : errno)
  | MetaErrNoSuchKey
  | JSONError
  | Wrap (msg : string) (e : error)
  | Errorf (msg : string).

Global Instance error_eq_dec : EqDecision error.
Proof. solve_decision. Defined.

Fixpoint errors_Is_errno (e : error) (n : errno) : bool :=
  match e with
  | PathError _ _ n' => bool_decide (n' = n)
  | Wrap _ e' => errors_Is_errno e' n
  | _ => false
  end.

(** [errors.Is(err, fs.ErrNotExist)] *)
Definition is_ErrNotExist (e : error) : bool := errors_Is_errno e ENOENT.

(** [errors.Is(err, syscall.EDQUOT)] *)
Definition is_EDQUOT (e : error) : bool := errors_Is_errno e EDQUOT.

(** [errors.Is(err, meta.ErrNoSuchKey)] *)
Fixpoint is_MetaErrNoSuchKey (e : error) : bool :=
  match e with
  | MetaErrNoSuchKey => true
  | Wrap _ e' => is_MetaErrNoSuchKey e'
  | _ => false
  end.

(** [errors.Is(err, s3err.GetAPIError(c))] *)
Fixpoint is_APIError (e : error) (c : ErrorCode) : bool :=
  match e with
  | APIError c' => bool_decide (c' = c)
  | Wrap _ e' => is_APIError e' c
  | _ => false
  end.


Inductive result (A : Type) :=
  | Ok (a : A)
  | Err (e : error).
Arguments Ok {A} a.
Arguments Err {A} e.

Definition is_Ok {A} (r : result A) : bool :=
  match r with Ok _ => true | Err _ => false end.

(** ** Computations over the file system

    A backend operation reads and changes the tree and either returns a
    value or returns early with an error; what it changed before the
    error stays changed. *)

Definition M (A : Type) : Type := fsys → result A * fsys.

Global Instance M_ret : MRet M := λ A a fs, (Ok a, fs).

Global Instance M_bind : MBind M := λ A B f m fs,
  match m fs with
  | (Ok a, fs') => f a fs'
  | (Err e, fs') => (Err e, fs')
  end.

Definition fail {A} (e : error) : M A := λ fs, (Err e, fs).

(** A read of the current tree. *)
Definition reads {A} (f : fsys → result A) : M A := λ fs, (f fs, fs).

(** [on_err m h]: the [if err != nil { ... }] that follows a call. *)
Definition on_err {A} (m : M A) (h : error → M A) : M A := λ fs,
  match m fs with
  | (Ok a, fs') => (Ok a, fs')
  | (Err e, fs') => h e fs'
  end.

(** A call whose error the code drops. *)
Definition ignore_err {A} (m : M A) : M unit := λ fs,
  match m fs with
  | (_, fs') => (Ok tt, fs')
  end.

(** The error of a call as a value, for code that inspects it. *)
Definition attempt {A} (m : M A) : M (result A) := λ fs,
  match m fs with
  | (r, fs') => (Ok r, fs')
  end.

(** ** System calls of package [os] *)

Definition os_Stat (name : string) (fs : fsys) : result node :=
  if String.eqb name "" then Err (PathError "stat" name ENOENT)
  else match resolve name with
       | None => Err (PathError "stat" name EACCES)
       | Some p =>
           match lookup_node fs p with
           | Some n => Ok n
           | None => Err (PathError "stat" name (missing fs p))
           end
       end.

(** Without symbolic links [os.Lstat] is [os.Stat]. *)
Definition os_Lstat (name : string) (fs : fsys) : result node :=
  match os_Stat name fs with
  | Err (PathError _ n e) => Err (PathError "lstat" n e)
  | r => r
  end.

(** [os.Open] followed by reading the file to its end. *)
Definition os_ReadFile (name : string) (fs : fsys) : result bytes :=
  match os_Stat name fs with
  | Ok (File d _) => Ok d
  | Ok (Dir _) => Err (PathError "read" name EISDIR)
  | Err (PathError _ n e) => Err (PathError "open" n e)
  | Err e => Err e
  end.

(** [os.Remove]: unlinks a file, removes an empty directory. *)
Definition os_Remove (name : string) : M unit := λ fs,
  if String.eqb name "" then (Err (PathError "remove" name ENOENT), fs)
  else match resolve name with
       | None => (Err (PathError "remove" name EACCES), fs)
       | Some [] => (Err (PathError "remove" name EINVAL), fs)
       | Some p =>
           match fs !! p with
           | None => (Err (PathError "remove" name (missing fs p)), fs)
           | Some (File _ _) => (Ok tt, delete p fs)
           | Some (Dir _) =>
               if has_children fs p
               then (Err (PathError "remove" name ENOTEMPTY), fs)
               else (Ok tt, delete p fs)
           end
       end.

(** [os.RemoveAll]: removes the path and everything below it; a path that
    does not exist is no error. *)
Definition os_RemoveAll (name : string) : M unit := λ fs,
  if String.eqb name "" then (Ok tt, fs)
  else match resolve name with
       | None => (Err (PathError "unlinkat" name EACCES), fs)
       | Some [] => (Err (PathError "RemoveAll" name EINVAL), fs)
       | Some p => (Ok tt, filter (λ kv, ¬ is_below p kv.1) fs)
       end.

(** The directories of [rest] below [pre], created where missing. *)
Fixpoint mkdir_all (pre rest : path) (name : string) : M unit := λ fs,
  match rest with
  | [] => (Ok tt, fs)
  | c :: r =>
      let q := (pre ++ [c])%list in
      match fs !! q with
      | Some (Dir _) => mkdir_all q r name fs
      | Some (File _ _) => (Err (PathError "mkdir" name ENOTDIR), fs)
      | None => mkdir_all q r name (<[q := Dir ∅]> fs)
      end
  end.

(** Modelled from the spec: [backend.MkdirAll], which is not among the
    sources; section 4.5 describes it as [mkdir -p] of the path, the new
    directories owned by the account when chown is enabled.  Ownership is
    not part of the model. *)
Definition backend_MkdirAll (name : string) : M unit := λ fs,
  if String.eqb name "" then (Err (PathError "mkdir" name ENOENT), fs)
  else match resolve name with
       | None => (Err (PathError "mkdir" name EACCES), fs)
       | Some p => mkdir_all [] p name fs
       end.

(** ** The metadata store *)

(** The capability set of [meta.MetadataStorer] (section 4.1 of the
    design): attributes of the path of an object in a bucket, the empty
    object naming the bucket itself. *)
Record MetadataStorer := {
  RetrieveAttribute : string → string → string → fsys → result bytes;
  StoreAttribute : string → string → string → bytes → M unit;
  DeleteAttribute : string → string → string → M unit;
  ListAttributes : string → string → fsys → result (list string);
  DeleteAttributes : string → string → M unit;
}.

Module Xattr.

Definition get (bucket object attribute : string) (fs : fsys)
  : result bytes :=
  let name := filepath_Join [bucket; object] in
  match os_Stat name fs with
  | Err (PathError _ n e) => Err (PathError "getxattr" n e)
  | Err e => Err e
  | Ok n =>
      match node_attrs n !! attribute with
      | Some v => Ok v
      | None => Err MetaErrNoSuchKey
      end
  end.

(** The attributes of the node at a path, replaced by [f] of them. *)
Definition update (op : string) (bucket object : string)
    (f : xattrs → result xattrs) : M unit := λ fs,
  let name := filepath_Join [bucket; object] in
  if String.eqb name "" then (Err (PathError op name ENOENT), fs)
  else match resolve name with
       | None | Some [] => (Err (PathError op name EACCES), fs)
       | Some p =>
           match fs !! p with
           | None => (Err (PathError op name (missing fs p)), fs)
           | Some n =>
               match f (node_attrs n) with
               | Ok a => (Ok tt, <[p := set_attrs a n]> fs)
               | Err e => (Err e, fs)
               end
           end
       end.

Definition set (bucket object attribute : string) (value : bytes) : M unit :=
  update "setxattr" bucket object (λ a, Ok (<[attribute := value]> a)).

Definition remove (bucket object attribute : string) : M unit :=
  update "removexattr" bucket object (λ a,
    match a !! attribute with
    | Some _ => Ok (delete attribute a)
    | None => Err MetaErrNoSuchKey
    end).

Definition list (bucket object : string) (fs : fsys) : result (list string) :=
  match os_Stat (filepath_Join [bucket; object]) fs with
  | Err (PathError _ n e) => Err (PathError "listxattr" n e)
  | Err e => Err e
  | Ok n => Ok (map fst (map_to_list (node_attrs n)))
  end.

(** The attributes go with the file: nothing is left to delete once the
    path is gone, and a path still there loses them all. *)
Definition remove_all (bucket object : string) : M unit := λ fs,
  match update "removexattr" bucket object (λ _, Ok ∅) fs with
  | (Ok _, fs') => (Ok tt, fs')
  | (Err _, _) => (Ok tt, fs)
  end.

End Xattr.

(** Modelled from the spec: the extended-attribute variant of the metadata
    store ([meta.XattrMeta]), which is not among the sources.  Section 4.1:
    the attributes are extended attributes of the path itself, [retrieve]
    answers [ErrNoSuchKey] for an attribute that is not set; a path that
    does not exist is the error of the system call. *)
Definition XattrMeta : MetadataStorer := {|
  RetrieveAttribute := Xattr.get;
  StoreAttribute := Xattr.set;
  DeleteAttribute := Xattr.remove;
  ListAttributes := Xattr.list;
  DeleteAttributes := Xattr.remove_all;
|}.

(** The backend: the fields of [Posix] the operations below use. *)
Record Posix := { meta : MetadataStorer }.

Definition posix_xattr : Posix := {| meta := XattrMeta |}.

(** ** The temp-file publisher *)

Record tmpfile := {
  tmp_bucket : string;
  tmp_objname : string;
  tmp_data : bytes;
}.

(** Modelled from the spec: [openTmpFile], which is not among the sources.
    Sections 3 and 4.6: an unlinked file is allocated within the staging
    directory, which an object write leaves behind in the bucket; the file
    has no name until it is linked. *)
Definition openTmpFile (dir bucket obj : string) (size : Z) : M tmpfile :=
  on_err (backend_MkdirAll dir) (λ e, fail (Wrap "make temp dir" e)) ≫= λ _,
  mret {| tmp_bucket := bucket; tmp_objname := obj; tmp_data := [] |}.

(** [io.Copy(f, r)] into the temp file. *)
Definition tmp_write (f : tmpfile) (b : bytes) : tmpfile :=
  {| tmp_bucket := tmp_bucket f; tmp_objname := tmp_objname f;
     tmp_data := (tmp_data f ++ b)%list |}.

(** Modelled from the spec: [tmpfile.link], which is not among the sources.
    Sections 4.6 and 9: the file is published at the target path in one
    step, with its data and no attribute yet; the step fails when the
    target is a directory or its parent is not one. *)
Definition tmp_link (f : tmpfile) : M unit := λ fs,
  let name := filepath_Join [tmp_bucket f; tmp_objname f] in
  match resolve name with
  | None => (Err (PathError "link" name EACCES), fs)
  | Some [] => (Err (PathError "link" name EEXIST), fs)
  | Some p =>
      if negb (is_dir fs (removelast p))
      then (Err (PathError "link" name (missing fs p)), fs)
      else match fs !! p with
           | Some (Dir _) => (Err (PathError "link" name EEXIST), fs)
           | _ => (Ok tt, <[p := File (tmp_data f) ∅]> fs)
           end
  end.

(** ** What the backend takes from other packages *)

(** [auth.BucketLockConfig], as far as the backend reads it. *)
Record BucketLockConfig := { Enabled : bool }.

(** [types.Object] of a listing, without its time stamp. *)
Record Object := {
  obj_ETag : string;
  obj_Key : string;
  obj_Size : option Z;
}.

(** [backend.WalkResults] *)
Record WalkResults := {
  CommonPrefixes : list string;
  Objects : list Object;
  Truncated : bool;
  NextMarker : string;
}.

(** Functions of the Go library and of packages of the gateway that are
    not among the sources; the operations are stated over any of them. *)
Class Externals := {
  (** [fmt.Sprintf("%x", sha256.Sum256([]byte(s)))] *)
  sha256_hex : string → string;
  (** [json.Marshal] and [json.Unmarshal] of a [map[string]string] *)
  json_Marshal_tags : gmap string string → bytes;
  json_Unmarshal_tags : bytes → option (gmap string string);
  (** [json.Unmarshal] into an [auth.BucketLockConfig] *)
  json_Unmarshal_BucketLockConfig : bytes → option BucketLockConfig;
  (** [json.Marshal] of a [types.ObjectLockRetention] *)
  json_Marshal_retention : string → option Z → bytes;
  (** The code and the description of [s3err.GetAPIError(c)] *)
  s3err_Code : ErrorCode → string;
  s3err_Description : ErrorCode → string;
  (** [backend.Walk] over [os.DirFS(bucket)]: prefix, delimiter, marker,
      maximum, the function that makes an object of an entry, the
      directories to skip *)
  backend_Walk : fsys → string → string → string → string → Z →
                 (string → bool → result (option Object)) → list string →
                 result WalkResults;
}.

(** ** Constants of the backend *)

Definition metaTmpDir : string := ".sgwtmp".
Definition metaTmpMultipartDir : string := metaTmpDir ++ "/multipart".
Definition onameAttr : string := "objname".
Definition tagHdr : string := "X-Amz-Tagging".
Definition metaHdr : string := "X-Amz-Meta".
Definition contentTypeHdr : string := "content-type".
Definition contentEncHdr : string := "content-encoding".
Definition emptyMD5 : string := "d41d8cd98f00b204e9800998ecf8427e".
Definition etagkey : string := "etag".
Definition bucketLockKey : string := "bucket-lock".
Definition objectRetentionKey : string := "object-retention".
Definition objectLegalHoldKey : string := "object-legal-hold".

(** ** Requests and answers *)

Record CompletedPart := {
  PartNumber : Z;
  ETag : string;
}.

Record CompleteMultipartUploadInput := {
  cmu_Bucket : option string;
  cmu_Key : option string;
  cmu_UploadId : option string;
  cmu_MultipartUpload : option (list CompletedPart);
}.

Record CompleteMultipartUploadOutput := {
  cmo_Bucket : string;
  cmo_ETag : string;
  cmo_Key : string;
}.

Record UploadPartInput := {
  upi_Bucket : option string;
  upi_Key : option string;
  upi_UploadId : string;
  upi_PartNumber : Z;
  upi_ContentLength : option Z;
  upi_Body : bytes;
}.

Record PutObjectInput := {
  po_Bucket : option string;
  po_Key : option string;
  po_Body : bytes;
  po_ContentLength : option Z;
  po_Metadata : gmap string string;
  po_Tagging : option string;
  po_ObjectLockLegalHoldStatus : string;
  po_ObjectLockMode : string;
  po_ObjectLockRetainUntilDate : option Z;
}.

Record GetObjectInput := {
  goi_Bucket : option string;
  goi_Key : option string;
  goi_Range : option string;
}.

Record GetObjectOutput := {
  goo_AcceptRanges : string;
  goo_ContentLength : Z;
  goo_ContentEncoding : string;
  goo_ContentType : string;
  goo_ETag : string;
  goo_Metadata : gmap string string;
  goo_TagCount : option Z;
  goo_ContentRange : string;
}.

Record DeleteObjectInput := {
  doi_Bucket : option string;
  doi_Key : option string;
}.






Record ListObjectsV2Input := {
  lv2_Bucket : option string;
  lv2_Prefix : option string;
  lv2_ContinuationToken : option string;
  lv2_StartAfter : option string;
  lv2_Delimiter : option string;
  lv2_MaxKeys : option Z;
}.

Record ListObjectsV2Output := {
  lvo_CommonPrefixes : list string;
  lvo_Contents : list Object;
  lvo_Delimiter : string;
  lvo_IsTruncated : bool;
  lvo_ContinuationToken : string;
  lvo_MaxKeys : Z;
  lvo_Name : string;
  lvo_NextContinuationToken : string;
  lvo_Prefix : string;
  lvo_KeyCount : Z;
}.

(** ** Comparison of strings

    Go compares strings byte by byte. *)

Fixpoint string_gtb (a b : string) : bool :=
  match a, b with
  | EmptyString, _ => false
  | String _ _, EmptyString => true
  | String x a', String y b' =>
      if (nat_of_ascii y <? nat_of_ascii x)%nat then true
      else if (nat_of_ascii x <? nat_of_ascii y)%nat then false
      else string_gtb a' b'
  end.

(** The lexicographic order of the design, as a relation. *)
Inductive lex_le : string → string → Prop :=
  | lex_le_nil b : lex_le EmptyString b
  | lex_le_lt x a y b :
      (nat_of_ascii x < nat_of_ascii y)%nat → lex_le (String x a) (String y b)
  | lex_le_eq x a b : lex_le a b → lex_le (String x a) (String x b).

(** [strings.EqualFold] on the ASCII letters. *)
Definition lower (c : ascii) : ascii :=
  let n := nat_of_ascii c in
  if ((65 <=? n) && (n <=? 90))%nat then ascii_of_nat (n + 32) else c.

Fixpoint strings_EqualFold (a b : string) : bool :=
  match a, b with
  | EmptyString, EmptyString => true
  | String x a', String y b' =>
      Ascii.eqb (lower x) (lower y) && strings_EqualFold a' b'
  | _, _ => false
  end.

(** [strings.TrimPrefix] *)
Fixpoint strings_TrimPrefix (s p : string) : string :=
  match p, s with
  | EmptyString, _ => s
  | String y p', String x s' =>
      if Ascii.eqb x y && String.prefix p' s' then strings_TrimPrefix s' p'
      else s
  | String _ _, EmptyString => s
  end.

Definition dquote : string := String (ascii_of_nat 34) EmptyString.

(** [fmt.Sprintf("%q", s)], escapes aside. *)
Definition quoted (s : string) : string := dquote ++ s ++ dquote.

(** ** The operations of the backend *)

Section Backend.

Context `{Externals}.


(** The test every operation starts with:
    [os.Stat(bucket)], [NoSuchBucket] when the bucket is not there. *)
Definition stat_bucket (bucket : string) : M unit :=
  on_err (reads (os_Stat bucket)) (λ e,
    if is_ErrNotExist e then fail (APIError ErrNoSuchBucket)
    else fail (Wrap "stat bucket" e)) ≫= λ _, mret tt.

Definition isValidMeta (val : string) : bool :=
  if strings_HasPrefix val metaHdr then true
  else if strings_EqualFold val "Expires" then true
  else false.

(** The loop of [loadUserMetaData] over the attribute names. *)
Fixpoint load_meta_entries (p : Posix) (bucket object : string)
    (ents : list string) (m : gmap string string) (fs : fsys)
  : gmap string string :=
  match ents with
  | [] => m
  | e :: r =>
      if negb (isValidMeta e) then load_meta_entries p bucket object r m fs
      else match RetrieveAttribute (meta p) bucket object e fs with
           | Err _ => load_meta_entries p bucket object r m fs
           | Ok b =>
               load_meta_entries p bucket object r
                 (<[strings_TrimPrefix e (metaHdr ++ ".") := string_of b]> m) fs
           end
  end.

(** [loadUserMetaData]: the map filled in, the content type and the
    content encoding. *)
Definition loadUserMetaData (p : Posix) (bucket object : string)
    (m : gmap string string) (fs : fsys)
  : gmap string string * string * string :=
  match ListAttributes (meta p) bucket object fs with
  | Err _ | Ok [] => (m, "", "")
  | Ok ents =>
      let m := load_meta_entries p bucket object ents m fs in
      let contentType :=
        match RetrieveAttribute (meta p) bucket object contentTypeHdr fs with
        | Ok b => string_of b
        | Err _ => ""
        end in
      let m := if String.eqb contentType "" then m
               else <[contentTypeHdr := contentType]> m in
      let contentEncoding :=
        match RetrieveAttribute (meta p) bucket object contentEncHdr fs with
        | Ok b => string_of b
        | Err _ => ""
        end in
      let m := if String.eqb contentEncoding "" then m
               else <[contentEncHdr := contentEncoding]> m in
      (m, contentType, contentEncoding)
  end.

(** *** Multipart uploads *)

Definition checkUploadIDExists (bucket object uploadID : string) : M string :=
  let sum := sha256_hex object in
  let objdir := filepath_Join [bucket; metaTmpMultipartDir; sum] in
  on_err (reads (os_Stat (filepath_Join [objdir; uploadID]))) (λ e,
    if is_ErrNotExist e then fail (APIError ErrNoSuchUpload)
    else fail (Wrap "stat upload" e)) ≫= λ _,
  mret sum.

(** The path of a part inside the bucket. *)
Definition partObjPath (objdir uploadID : string) (part : CompletedPart)
  : string :=
  filepath_Join [objdir; uploadID; itoa (PartNumber part)].

(** The etag kept with a part: the empty string when there is none. *)
Definition stored_etag (p : Posix) (bucket partPath : string) (fs : fsys)
  : string :=
  match RetrieveAttribute (meta p) bucket partPath etagkey fs with
  | Ok b => string_of b
  | Err _ => ""
  end.

(** The loop that checks the parts: [i] is the index, [partsize] the size
    of the first part, [totalsize] the sum so far. *)
Fixpoint check_parts (p : Posix) (bucket objdir uploadID : string)
    (last i partsize totalsize : Z) (parts : list CompletedPart) (fs : fsys)
  : result Z :=
  match parts with
  | [] => Ok totalsize
  | part :: rest =>
      let partPath := partObjPath objdir uploadID part in
      let fullPartPath := filepath_Join [bucket; partPath] in
      match os_Lstat fullPartPath fs with
      | Err _ => Err (APIError ErrInvalidPart)
      | Ok fi =>
          let partsize := if i =? 0 then Size fi else partsize in
          let totalsize := totalsize + Size fi in
          if (i <? last) && negb (partsize =? Size fi)
          then Err (APIError ErrInvalidPart)
          else if negb (String.eqb (stored_etag p bucket partPath fs) (ETag part))
          then Err (APIError ErrInvalidPart)
          else check_parts p bucket objdir uploadID last (i + 1)
                 partsize totalsize rest fs
      end
  end.

(** The loop that copies the parts into the temp file. *)
Fixpoint copy_parts (bucket objdir uploadID : string)
    (parts : list CompletedPart) (f : tmpfile) : M tmpfile :=
  match parts with
  | [] => mret f
  | part :: rest =>
      let fullPartPath :=
        filepath_Join [bucket; partObjPath objdir uploadID part] in
      on_err (reads (os_ReadFile fullPartPath)) (λ e,
        if errors_Is_errno e EISDIR
        then fail (Errorf ("copy part " ++ itoa (PartNumber part)))
        else fail (Errorf ("open part " ++ itoa (PartNumber part)))) ≫= λ d,
      copy_parts bucket objdir uploadID rest (tmp_write f d)
  end.

Definition etag_bytes (etag : string) : bytes :=
  match hex_DecodeString etag with
  | Some b => b
  | None => bytes_of etag
  end.

(** Modelled from the spec: [backend.GetMultipartMD5], which is not among
    the sources.  Section 4.7: the composite etag is the hexadecimal MD5
    of the concatenation of the MD5 bytes of each part, then a dash and
    the number of parts; the MD5 bytes of a part are what its etag
    spells in hexadecimal. *)
Definition GetMultipartMD5 (parts : list CompletedPart) : string :=
  hex_EncodeToString (md5_Sum (concat (map (λ part, etag_bytes (ETag part)) parts)))
  ++ "-" ++ itoa (Z.of_nat (length parts)).

(** The loop that stores user metadata on the new object. *)
Fixpoint store_user_meta (p : Posix) (bucket object objname : string)
    (kvs : list (string * string)) : M unit :=
  match kvs with
  | [] => mret tt
  | (k, v) :: r =>
      on_err (StoreAttribute (meta p) bucket object k (bytes_of v)) (λ e,
        ignore_err (os_Remove objname) ≫= λ _,
        fail (Wrap ("set user attr " ++ quoted k) e)) ≫= λ _,
      store_user_meta p bucket object objname r
  end.

Definition CompleteMultipartUpload (p : Posix)
    (input : CompleteMultipartUploadInput) : M CompleteMultipartUploadOutput :=
  match cmu_Bucket input, cmu_Key input, cmu_UploadId input,
        cmu_MultipartUpload input with
  | None, _, _, _ => fail (APIError ErrInvalidBucketName)
  | Some _, None, _, _ => fail (APIError ErrNoSuchKey)
  | Some _, Some _, None, _ => fail (APIError ErrNoSuchUpload)
  | Some _, Some _, Some _, None => fail (APIError ErrInvalidRequest)
  | Some bucket, Some object, Some uploadID, Some parts =>
      stat_bucket bucket ≫= λ _,
      sum ← checkUploadIDExists bucket object uploadID;
      let objdir := filepath_Join [metaTmpMultipartDir; sum] in
      (* check all parts ok *)
      let last := Z.of_nat (length parts) - 1 in
      totalsize ← reads (check_parts p bucket objdir uploadID last 0 0 0 parts);
      f ← on_err (openTmpFile (filepath_Join [bucket; metaTmpDir])
                    bucket object totalsize) (λ e,
             if is_EDQUOT e then fail (APIError ErrQuotaExceeded)
             else fail (Wrap "open temp file" e));
      f ← copy_parts bucket objdir uploadID parts f;
      let upiddir := filepath_Join [objdir; uploadID] in
      '(userMetaData, _, _) ←
        reads (λ fs, Ok (loadUserMetaData p bucket objdir ∅ fs));
      let objname := filepath_Join [bucket; object] in
      let dir := filepath_Dir objname in
      (if String.eqb dir "" then mret tt else backend_MkdirAll dir) ≫= λ _,
      on_err (tmp_link f) (λ e, fail (Wrap "link object in namespace" e)) ≫= λ _,
      store_user_meta p bucket object objname (map_to_list userMetaData) ≫= λ _,
      (* Calculate s3 compatible md5sum for complete multipart. *)
      let s3MD5 := GetMultipartMD5 parts in
      on_err (StoreAttribute (meta p) bucket object etagkey (bytes_of s3MD5))
        (λ e, ignore_err (os_Remove objname) ≫= λ _,
              fail (Wrap "set etag attr" e)) ≫= λ _,
      (* cleanup tmp dirs *)
      ignore_err (os_RemoveAll upiddir) ≫= λ _,
      ignore_err (os_Remove (filepath_Join [bucket; objdir])) ≫= λ _,
      mret {| cmo_Bucket := bucket; cmo_ETag := s3MD5; cmo_Key := object |}
  end.

Definition UploadPart (p : Posix) (input : UploadPartInput) : M string :=
  match upi_Bucket input, upi_Key input with
  | None, _ => fail (APIError ErrInvalidBucketName)
  | Some _, None => fail (APIError ErrNoSuchKey)
  | Some bucket, Some object =>
      let uploadID := upi_UploadId input in
      let part := upi_PartNumber input in
      let length := default 0 (upi_ContentLength input) in
      let r := upi_Body input in
      stat_bucket bucket ≫= λ _,
      let sum := sha256_hex object in
      let objdir := filepath_Join [metaTmpMultipartDir; sum] in
      on_err (reads (os_Stat (filepath_Join [bucket; objdir; uploadID]))) (λ e,
        if is_ErrNotExist e then fail (APIError ErrNoSuchUpload)
        else fail (Wrap "stat uploadid" e)) ≫= λ _,
      let partPath := filepath_Join [objdir; uploadID; itoa part] in
      f ← on_err (openTmpFile (filepath_Join [bucket; objdir])
                    bucket partPath length) (λ e,
             if is_EDQUOT e then fail (APIError ErrQuotaExceeded)
             else fail (Wrap "open temp file" e));
      let f := tmp_write f r in
      on_err (tmp_link f) (λ e, fail (Wrap "link object in namespace" e)) ≫= λ _,
      let dataSum := md5_Sum r in
      let etag := hex_EncodeToString dataSum in
      on_err (StoreAttribute (meta p) bucket partPath etagkey (bytes_of etag))
        (λ e, fail (Wrap "set etag attr" e)) ≫= λ _,
      mret etag
  end.

(** *** Tagging and object lock *)

Definition getAttrTags (p : Posix) (bucket object : string) (fs : fsys)
  : result (gmap string string) :=
  match RetrieveAttribute (meta p) bucket object tagHdr fs with
  | Err e =>
      if is_ErrNotExist e then Err (APIError ErrNoSuchKey)
      else if is_MetaErrNoSuchKey e then Err (APIError ErrBucketTaggingNotFound)
      else Err (Wrap "get tags" e)
  | Ok b =>
      match json_Unmarshal_tags b with
      | None => Err (Wrap "unmarshal tags" JSONError)
      | Some tags => Ok tags
      end
  end.

Definition PutObjectTagging (p : Posix) (bucket object : string)
    (tags : option (gmap string string)) : M unit :=
  stat_bucket bucket ≫= λ _,
  match tags with
  | None =>
      on_err (DeleteAttribute (meta p) bucket object tagHdr) (λ e,
        if is_ErrNotExist e then fail (APIError ErrNoSuchKey)
        else if is_MetaErrNoSuchKey e then mret tt
        else fail (Wrap "remove tags" e))
  | Some tags =>
      let b := json_Marshal_tags tags in
      on_err (StoreAttribute (meta p) bucket object tagHdr b) (λ e,
        if is_ErrNotExist e then fail (APIError ErrNoSuchKey)
        else fail (Wrap "set tags" e))
  end.

(** The bucket lock test shared by the two operations below. *)
Definition require_bucket_lock (p : Posix) (bucket : string) : M unit :=
  cfg ← on_err (reads (RetrieveAttribute (meta p) bucket "" bucketLockKey))
           (λ e, if is_MetaErrNoSuchKey e
                 then fail (APIError ErrInvalidBucketObjectLockConfiguration)
                 else fail (Wrap "get object lock config" e));
  match json_Unmarshal_BucketLockConfig cfg with
  | None => fail (Wrap "parse bucket lock config" JSONError)
  | Some bucketLockConfig =>
      if negb (Enabled bucketLockConfig)
      then fail (APIError ErrInvalidBucketObjectLockConfiguration)
      else mret tt
  end.

Definition PutObjectLegalHold (p : Posix) (bucket object versionId : string)
    (status : bool) : M unit :=
  stat_bucket bucket ≫= λ _,
  require_bucket_lock p bucket ≫= λ _,
  let statusData := if status then [x01] else [x00] in
  on_err (StoreAttribute (meta p) bucket object objectLegalHoldKey statusData)
    (λ e, if is_ErrNotExist e then fail (APIError ErrNoSuchKey)
          else fail (Wrap "set object lock config" e)).

Definition PutObjectRetention (p : Posix) (bucket object versionId : string)
    (retention : bytes) : M unit :=
  stat_bucket bucket ≫= λ _,
  require_bucket_lock p bucket ≫= λ _,
  on_err (StoreAttribute (meta p) bucket object objectRetentionKey retention)
    (λ e, if is_ErrNotExist e then fail (APIError ErrNoSuchKey)
          else fail (Wrap "set object lock config" e)).

(** *** PutObject *)

(** The loop over the pieces of the [X-Amz-Tagging] header. *)
Fixpoint parse_tags (tagParts : list string) (tags : gmap string string)
  : result (gmap string string) :=
  match tagParts with
  | [] => Ok tags
  | prt :: r =>
      match split_on "="%char prt with
      | [k; v] =>
          if ((128 <? String.length k) || (256 <? String.length v))%nat
          then Err (APIError ErrInvalidTag)
          else parse_tags r (<[k := v]> tags)
      | _ => Err (APIError ErrInvalidTag)
      end
  end.

(** The loop that stores the user metadata of a put. *)
Fixpoint put_user_meta (p : Posix) (bucket key : string)
    (kvs : list (string * string)) : M unit :=
  match kvs with
  | [] => mret tt
  | (k, v) :: r =>
      on_err (StoreAttribute (meta p) bucket key (metaHdr ++ "." ++ k)
                (bytes_of v))
        (λ e, fail (Wrap ("set user attr " ++ quoted k) e)) ≫= λ _,
      put_user_meta p bucket key r
  end.

Definition PutObject (p : Posix) (po : PutObjectInput) : M string :=
  match po_Bucket po, po_Key po with
  | None, _ => fail (APIError ErrInvalidBucketName)
  | Some _, None => fail (APIError ErrNoSuchKey)
  | Some bucket, Some key =>
      let tagsStr := default "" (po_Tagging po) in
      stat_bucket bucket ≫= λ _,
      tags ← reads (λ _, if String.eqb tagsStr "" then Ok ∅
                         else parse_tags (split_on "&"%char tagsStr) ∅);
      let name := filepath_Join [bucket; key] in
      let contentLength := default 0 (po_ContentLength po) in
      if strings_HasSuffix key "/" then
        (* object is directory *)
        if negb (contentLength =? 0)
        then fail (APIError ErrDirectoryObjectContainsData)
        else
          on_err (backend_MkdirAll name) (λ e,
            if is_EDQUOT e then fail (APIError ErrQuotaExceeded)
            else fail e) ≫= λ _,
          put_user_meta p bucket key (map_to_list (po_Metadata po)) ≫= λ _,
          (* set etag attribute to signify this dir was specifically put *)
          on_err (StoreAttribute (meta p) bucket key etagkey (bytes_of emptyMD5))
            (λ e, fail (Wrap "set etag attr" e)) ≫= λ _,
          mret emptyMD5
      else
        (* object is file *)
        d ← attempt (reads (os_Stat name));
        if match d with Ok fi => IsDir fi | Err _ => false end
        then fail (APIError ErrExistingObjectIsDirectory)
        else
            f ← on_err (openTmpFile (filepath_Join [bucket; metaTmpDir])
                          bucket key contentLength) (λ e,
                   if is_EDQUOT e then fail (APIError ErrQuotaExceeded)
                   else fail (Wrap "open temp file" e));
            let f := tmp_write f (po_Body po) in
            let dir := filepath_Dir name in
            (if String.eqb dir "" then mret tt
             else on_err (backend_MkdirAll dir) (λ _,
                    fail (APIError ErrExistingObjectIsDirectory))) ≫= λ _,
            on_err (tmp_link f) (λ _,
              fail (APIError ErrExistingObjectIsDirectory)) ≫= λ _,
            put_user_meta p bucket key (map_to_list (po_Metadata po)) ≫= λ _,
            (* Set object tagging *)
            (if String.eqb tagsStr "" then mret tt
             else PutObjectTagging p bucket key (Some tags)) ≫= λ _,
            (* Set object legal hold *)
            (if String.eqb (po_ObjectLockLegalHoldStatus po) "ON"
             then PutObjectLegalHold p bucket key "" true
             else mret tt) ≫= λ _,
            (* Set object retention *)
            (if String.eqb (po_ObjectLockMode po) "" then mret tt
             else
               let retParsed :=
                 json_Marshal_retention (po_ObjectLockMode po)
                   (po_ObjectLockRetainUntilDate po) in
               PutObjectRetention p bucket key "" retParsed) ≫= λ _,
            let dataSum := md5_Sum (po_Body po) in
            let etag := hex_EncodeToString dataSum in
            on_err (StoreAttribute (meta p) bucket key etagkey (bytes_of etag))
              (λ e, fail (Wrap "set etag attr" e)) ≫= λ _,
            mret etag
  end.

(** *** GetObject *)

Definition digit_value (c : ascii) : option Z :=
  let n := Z.of_nat (nat_of_ascii c) in
  if (48 <=? n) && (n <=? 57) then Some (n - 48) else None.

Fixpoint parse_digits (s : string) (acc : Z) : option Z :=
  match s with
  | EmptyString => Some acc
  | String c r =>
      match digit_value c with
      | Some d => parse_digits r (10 * acc + d)
      | None => None
      end
  end.

(** A decimal number that fits an [int64]. *)
Definition parse_offset (s : string) : option Z :=
  match s with
  | EmptyString => None
  | _ =>
      match parse_digits s 0 with
      | Some n => if n <? 2 ^ 63 then Some n else None
      | None => None
      end
  end.

(** Modelled from the spec: [backend.ParseRange], which is not among the
    sources.  Section 4.5: a standard parse of an HTTP byte range that
    returns the start and the length, the length -1 meaning up to the
    end, and [InvalidRange] for a header it cannot read.  The empty
    header, which the caller tells from the others, selects the whole
    object. *)
Definition ParseRange (size : Z) (acceptRange : string) : result (Z * Z) :=
  if String.eqb acceptRange "" then Ok (0, size)
  else match split_on "="%char acceptRange with
       | [unit; spec] =>
           if negb (String.eqb unit "bytes") then Err (APIError ErrInvalidRange)
           else match split_on "-"%char spec with
                | [first; last] =>
                    match parse_offset first with
                    | None => Err (APIError ErrInvalidRange)
                    | Some startOffset =>
                        if String.eqb last "" then Ok (startOffset, -1)
                        else match parse_offset last with
                             | None => Err (APIError ErrInvalidRange)
                             | Some endOffset =>
                                 if endOffset <? startOffset
                                 then Err (APIError ErrInvalidRange)
                                 else Ok (startOffset, endOffset - startOffset + 1)
                             end
                    end
                | _ => Err (APIError ErrInvalidRange)
                end
       | _ => Err (APIError ErrInvalidRange)
       end.

(** What [io.Copy] reads from [io.NewSectionReader(f, off, n)]. *)
Definition section (data : bytes) (off n : Z) : bytes :=
  take (Z.to_nat n) (drop (Z.to_nat off) data).

(** The metadata of the answer, assembled the same way for a directory
    object and for a file. *)
Definition object_output (p : Posix) (bucket object acceptRange : string)
    (length : Z) (contentRange : string) (fs : fsys) : result GetObjectOutput :=
  let '(userMetaData, contentType, contentEncoding) :=
    loadUserMetaData p bucket object ∅ fs in
  let etag := stored_etag p bucket object fs in
  let finish (tagCount : option Z) :=
    Ok {| goo_AcceptRanges := acceptRange;
          goo_ContentLength := length;
          goo_ContentEncoding := contentEncoding;
          goo_ContentType := contentType;
          goo_ETag := etag;
          goo_Metadata := userMetaData;
          goo_TagCount := tagCount;
          goo_ContentRange := contentRange |} in
  match getAttrTags p bucket object fs with
  | Err e =>
      if negb (is_APIError e ErrBucketTaggingNotFound) then Err e
      else finish None
  | Ok tags => finish (Some (Z.of_nat (size tags)))
  end.

(** [GetObject]: the answer and the bytes written to the writer. *)
Definition GetObject (p : Posix) (input : GetObjectInput)
  : M (GetObjectOutput * bytes) :=
  match goi_Bucket input, goi_Key input, goi_Range input with
  | None, _, _ => fail (APIError ErrInvalidBucketName)
  | Some _, None, _ => fail (APIError ErrNoSuchKey)
  | Some _, Some _, None => fail (APIError ErrInvalidRange)
  | Some bucket, Some object, Some acceptRange =>
      stat_bucket bucket ≫= λ _,
      let objPath := filepath_Join [bucket; object] in
      fi ← on_err (reads (os_Stat objPath)) (λ e,
             if is_ErrNotExist e then fail (APIError ErrNoSuchKey)
             else fail (Wrap "stat object" e));
      '(startOffset, length) ← reads (λ _, ParseRange (Size fi) acceptRange);
      let objSize := if IsDir fi then 0 else Size fi in
      let length := if IsDir fi then 0 else length in
      let length := if length =? -1 then objSize - startOffset + 1 else length in
      if objSize + 1 <? startOffset + length
      then fail (APIError ErrInvalidRange)
      else
        let contentRange :=
          if String.eqb acceptRange "" then ""
          else "bytes " ++ itoa startOffset ++ "-"
               ++ itoa (startOffset + length - 1) ++ "/" ++ itoa objSize in
        if IsDir fi then
          out ← reads (object_output p bucket object acceptRange length contentRange);
          mret (out, [])
        else
          data ← on_err (reads (os_ReadFile objPath)) (λ e,
                   if is_ErrNotExist e then fail (APIError ErrNoSuchKey)
                   else fail (Wrap "open object" e));
          let written := section data startOffset length in
          out ← reads (object_output p bucket object acceptRange length contentRange);
          mret (out, written)
  end.

(** *** DeleteObject and DeleteObjects *)

(** The loop of [removeParents]; every turn but the last removes a
    directory, so the loop ends within as many turns as the tree has
    entries, plus one. *)
Fixpoint removeParents_loop (fuel : nat) (p : Posix)
    (bucket objPath : string) : M unit := λ fs,
  match fuel with
  | O => (Ok tt, fs)
  | S fuel' =>
      let parent := filepath_Dir objPath in
      if String.eqb parent "/" then
        (* stop removing parents if we hit the bucket directory. *)
        (Ok tt, fs)
      else
        match RetrieveAttribute (meta p) bucket parent etagkey fs with
        | Ok _ =>
            (* a directory with a valid etag was specifically uploaded
               with a put object: leave this directory in place. *)
            (Ok tt, fs)
        | Err _ =>
            match os_Remove (filepath_Join [bucket; parent]) fs with
            | (Err _, fs') => (Ok tt, fs')
            | (Ok _, fs') => removeParents_loop fuel' p bucket parent fs'
            end
        end
  end.

Definition removeParents (p : Posix) (bucket object : string) : M unit := λ fs,
  removeParents_loop (S (size fs)) p bucket object fs.

Definition DeleteObject (p : Posix) (input : DeleteObjectInput) : M unit :=
  match doi_Bucket input, doi_Key input with
  | None, _ => fail (APIError ErrInvalidBucketName)
  | Some _, None => fail (APIError ErrNoSuchKey)
  | Some bucket, Some object =>
      stat_bucket bucket ≫= λ _,
      on_err (os_Remove (filepath_Join [bucket; object])) (λ e,
        if is_ErrNotExist e then fail (APIError ErrNoSuchKey)
        else fail (Wrap "delete object" e)) ≫= λ _,
      on_err (DeleteAttributes (meta p) bucket object) (λ e,
        fail (Wrap "delete object attributes" e)) ≫= λ _,
      removeParents p bucket object
  end.




(** *** ListObjectsV2 *)

Definition fileToObj (p : Posix) (bucket : string) (fs : fsys)
    (path : string) (isDir : bool) : result (option Object) :=
  if isDir then
    match RetrieveAttribute (meta p) bucket path etagkey fs with
    | Err e =>
        if is_MetaErrNoSuchKey e || is_ErrNotExist e then Ok None
        else Err (Wrap "get etag" e)
    | Ok etagBytes =>
        Ok (Some {| obj_ETag := string_of etagBytes;
                    obj_Key := path ++ "/";
                    obj_Size := None |})
    end
  else
    match RetrieveAttribute (meta p) bucket path etagkey fs with
    | Err e =>
        if is_ErrNotExist e then Ok None
        else if negb (is_MetaErrNoSuchKey e) then Err (Wrap "get etag" e)
        else
          match os_Stat (filepath_Join [bucket; path]) fs with
          | Err _ => Ok None
          | Ok fi => Ok (Some {| obj_ETag := ""; obj_Key := path;
                                 obj_Size := Some (Size fi) |})
          end
    | Ok etagBytes =>
        match os_Stat (filepath_Join [bucket; path]) fs with
        | Err _ => Ok None
        | Ok fi => Ok (Some {| obj_ETag := string_of etagBytes; obj_Key := path;
                               obj_Size := Some (Size fi) |})
        end
    end.

(** The marker the listing starts after. *)
Definition v2_marker (input : ListObjectsV2Input) : string :=
  match lv2_ContinuationToken input with
  | Some continuationToken =>
      match lv2_StartAfter input with
      | Some startAfter =>
          if string_gtb startAfter continuationToken then startAfter
          else continuationToken
      | None => continuationToken
      end
  | None => ""
  end.

(** The walk of a bucket from a marker and the answer made of it. *)
Definition walk_page (p : Posix) (bucket prefix delim marker : string)
    (maxkeys : Z) : M ListObjectsV2Output :=
  stat_bucket bucket ≫= λ _,
  results ← on_err
    (reads (λ fs, backend_Walk fs bucket prefix delim marker maxkeys
                    (fileToObj p bucket fs) [metaTmpDir]))
    (λ e, fail (Wrap ("walk " ++ bucket) e));
  let count := Z.of_nat (length (Objects results)) in
  mret {| lvo_CommonPrefixes := CommonPrefixes results;
          lvo_Contents := Objects results;
          lvo_Delimiter := delim;
          lvo_IsTruncated := Truncated results;
          lvo_ContinuationToken := marker;
          lvo_MaxKeys := maxkeys;
          lvo_Name := bucket;
          lvo_NextContinuationToken := NextMarker results;
          lvo_Prefix := prefix;
          lvo_KeyCount := count |}.

Definition ListObjectsV2 (p : Posix) (input : ListObjectsV2Input)
  : M ListObjectsV2Output :=
  match lv2_Bucket input with
  | None => fail (APIError ErrInvalidBucketName)
  | Some bucket =>
      let prefix := default "" (lv2_Prefix input) in
      let marker := v2_marker input in
      let delim := default "" (lv2_Delimiter input) in
      let maxkeys := default 0 (lv2_MaxKeys input) in
      walk_page p bucket prefix delim marker maxkeys
  end.

(** *** What the design says of a list of parts *)

(** The size of the part file, when there is one. *)
Definition part_size (bucket objdir uploadID : string) (part : CompletedPart)
    (fs : fsys) : option Z :=
  match os_Lstat (filepath_Join [bucket; partObjPath objdir uploadID part]) fs with
  | Ok fi => Some (Size fi)
  | Err _ => None
  end.

(** A pair of part number and etag matches an existing part: the part
    file is there and the etag kept with it is the one supplied. *)
Definition part_matches (p : Posix) (bucket objdir uploadID : string)
    (part : CompletedPart) (fs : fsys) : Prop :=
  is_Some (part_size bucket objdir uploadID part fs)
  ∧ stored_etag p bucket (partObjPath objdir uploadID part) fs = ETag part.

(** Some part of the list is not acceptable: a pair that matches no
    existing part, or a part before the last whose size is not the size
    of the first. *)
Definition invalid_parts (p : Posix) (bucket objdir uploadID : string)
    (parts : list CompletedPart) (fs : fsys) : Prop :=
  ∃ (j : nat) (part : CompletedPart),
    parts !! j = Some part
    ∧ (¬ part_matches p bucket objdir uploadID part fs
       ∨ ((j < length parts - 1)%nat
          ∧ ∃ first, parts !! 0%nat = Some first
              ∧ part_size bucket objdir uploadID first fs
                ≠ part_size bucket objdir uploadID part fs)).


(** *** What the design says of the lock of a bucket *)

(** The bucket carries no [bucket-lock] attribute, or one that says
    [enabled = false]. *)
Definition lock_disabled (p : Posix) (bucket : string) (fs : fsys) : Prop :=
  (∃ e, RetrieveAttribute (meta p) bucket "" bucketLockKey fs = Err e
        ∧ is_MetaErrNoSuchKey e = true)
  ∨ (∃ cfg c, RetrieveAttribute (meta p) bucket "" bucketLockKey fs = Ok cfg
              ∧ json_Unmarshal_BucketLockConfig cfg = Some c
              ∧ Enabled c = false).

(** The bucket carries a [bucket-lock] attribute that says
    [enabled = true]. *)
Definition lock_enabled (p : Posix) (bucket : string) (fs : fsys) : Prop :=
  ∃ cfg c, RetrieveAttribute (meta p) bucket "" bucketLockKey fs = Ok cfg
           ∧ json_Unmarshal_BucketLockConfig cfg = Some c
           ∧ Enabled c = true.

(** The path does not exist: [os.Stat] answers [fs.ErrNotExist]. *)
Definition not_exist (name : string) (fs : fsys) : Prop :=
  ∃ e, os_Stat name fs = Err e ∧ is_ErrNotExist e = true.


(** *** What the design says of a put *)

(** The [X-Amz-Tagging] header of a request can be read. *)
Definition valid_tagging (tagging : option string) : Prop :=
  default "" tagging = ""
  ∨ is_Ok (parse_tags (split_on "&"%char (default "" tagging)) ∅) = true.

(** A directory can be made at the path: the path stays below the
    gateway root and no regular file stands on it. *)
Definition can_mkdir (name : string) (fs : fsys) : Prop :=
  ∃ q, resolve name = Some q ∧ q ≠ []
       ∧ ∀ q' d a, q' `prefix_of` q → fs !! q' ≠ Some (File d a).

(** The attributes a put stores for user metadata. *)
Definition store_all (kvs : list (string * string)) (a : xattrs) : xattrs :=
  fold_left (λ acc kv, <[metaHdr ++ "." ++ kv.1 := bytes_of kv.2]> acc) kvs a.


(** *** What the design says of a completed upload *)

(** The parts of an upload as [UploadPart] leaves them: the file of each
    part of the list holds the data of the part, and the etag kept with
    it is the hexadecimal MD5 of these data. *)
Definition parts_uploaded (p : Posix) (bucket objdir uploadID : string)
    (parts : list CompletedPart) (datas : list bytes) (fs : fsys) : Prop :=
  Forall2 (λ part d,
    os_ReadFile (filepath_Join [bucket; partObjPath objdir uploadID part]) fs
    = Ok d
    ∧ stored_etag p bucket (partObjPath objdir uploadID part) fs
      = hex_EncodeToString (md5_Sum d)) parts datas.

(** The two paths a complete call clears at its end, the upload
    directory taken from the working directory and the container of the
    key, are not on the path of the object. *)
Definition cleanup_spares (bucket object uploadID : string) : Prop :=
  let objdir := filepath_Join [metaTmpMultipartDir; sha256_hex object] in
  resolve (filepath_Join [bucket; objdir])
  ≠ resolve (filepath_Join [bucket; object])
  ∧ ∀ k q, resolve (filepath_Join [objdir; uploadID]) = Some k →
           resolve (filepath_Join [bucket; object]) = Some q →
           ¬ k `prefix_of` q.


(** *** Names *)

Fixpoint no_slash (s : string) : bool :=
  match s with
  | EmptyString => true
  | String c r => negb (Ascii.eqb c slash) && no_slash r
  end.

(** One element of a key or the name of a bucket: not empty, without a
    slash, and neither [.] nor [..]. *)
Definition valid_name (s : string) : bool :=
  no_slash s && negb (String.eqb s "") && negb (String.eqb s ".")
  && negb (String.eqb s "..").


(** *** What the design says of the parents of a deleted object *)

(** The path is a directory without an [etag] attribute: made on the
    way to an object, not put as a directory object. *)
Definition no_etag (fs : fsys) (q : path) : Prop :=
  ∃ a, fs !! q = Some (Dir a) ∧ a !! etagkey = None.

(** The parents [l] of a key of bucket [B], the deepest last: each is a
    directory, and below the parents there is nothing but [below]: the
    parents themselves and, in [below], the object. *)
Definition parent_chain (fs : fsys) (B : string) (l below : list string) : Prop :=
  (∀ l', l' `prefix_of` l → l' ≠ [] → ∃ a, fs !! (B :: l') = Some (Dir a))
  ∧ (∀ l' c, l' `prefix_of` l → l' ≠ [] →
             is_Some (fs !! (B :: l' ++ [c])%list) →
             (l' ++ [c])%list `prefix_of` below).

(** From [fs] to [fs'] a parent is gone exactly when neither it nor a
    parent below it carried an etag; a parent that is still there is as
    it was. *)
Definition parents_removed (fs fs' : fsys) (B : string) (l : list string) : Prop :=
  ∀ l', l' `prefix_of` l → l' ≠ [] →
    (fs' !! (B :: l') = None
     ↔ ∀ l'', l' `prefix_of` l'' → l'' `prefix_of` l → no_etag fs (B :: l''))
    ∧ (fs' !! (B :: l') = None ∨ fs' !! (B :: l') = fs !! (B :: l')).

(** The bucket holds nothing but, possibly, its staging directory. *)
Definition otherwise_empty (fs : fsys) (B : string) : Prop :=
  ∀ c rest, is_Some (fs !! (B :: c :: rest)) → c = metaTmpDir.


End Backend.

(** ** Further operations of the backend *)

Definition aclkey : string := "acl".
Definition policykey : string := "policy".

Record HeadBucketInput := { hbi_Bucket : option string }.

Record GetBucketAclInput := { gba_Bucket : option string }.

Record CreateMultipartUploadInput := {
  cmi_Bucket : option string;
  cmi_Key : option string;
  cmi_Metadata : gmap string string;
}.

Record CreateMultipartUploadOutput := {
  cmr_Bucket : string;
  cmr_Key : string;
  cmr_UploadId : string;
}.

Record AbortMultipartUploadInput := {
  ami_Bucket : option string;
  ami_Key : option string;
  ami_UploadId : option string;
}.

(** [os.MkdirAll]: the directories of the path, made where they are
    missing; a regular file on the way is an error. *)
Definition os_MkdirAll (name : string) : M unit := λ fs,
  if String.eqb name "" then (Err (PathError "mkdir" name ENOENT), fs)
  else match resolve name with
       | None => (Err (PathError "mkdir" name EACCES), fs)
       | Some p => mkdir_all [] p name fs
       end.

(** [compareUserMetadata]: the loop runs over the first map and reads the
    second with [meta2[key]], which is the empty string for a key that
    is not there. *)
Definition compareUserMetadata (meta1 meta2 : gmap string string) : bool :=
  if negb (size meta1 =? size meta2)%nat then false
  else forallb (λ kv, String.eqb (default "" (meta2 !! kv.1)) kv.2)
         (map_to_list meta1).

(** [getString] *)
Definition getString (str : option string) : string := default "" str.

(** [auth.Account], as far as the backend reads it, and the fields of
    [Posix] that decide the owner of what an upload creates. *)
Record Account := { UserID : Z; GroupID : Z }.

Record ChownOpts := {
  chownuid : bool;
  chowngid : bool;
  euid : Z;
  egid : Z;
}.

(** [getChownIDs]: the uid and the gid for what an upload creates, and
    whether a chown is needed. *)
Definition getChownIDs (p : ChownOpts) (acct : Account) : Z * Z * bool :=
  let uid := euid p in
  let gid := egid p in
  let needsChown := false in
  let '(uid, needsChown) :=
    if chownuid p && negb (UserID acct =? euid p)
    then (UserID acct, true) else (uid, needsChown) in
  let '(gid, needsChown) :=
    if chowngid p && negb (GroupID acct =? egid p)
    then (GroupID acct, true) else (gid, needsChown) in
  (uid, gid, needsChown).

Section Buckets.

Context `{Externals}.

Definition HeadBucket (input : HeadBucketInput) : M unit :=
  match hbi_Bucket input with
  | None => fail (APIError ErrInvalidBucketName)
  | Some bucket =>
      on_err (reads (os_Lstat bucket)) (λ e,
        if is_ErrNotExist e then fail (APIError ErrNoSuchBucket)
        else fail (Wrap "stat bucket" e)) ≫= λ _, mret tt
  end.

Definition PutBucketAcl (p : Posix) (bucket : string) (data : bytes) : M unit :=
  stat_bucket bucket ≫= λ _,
  on_err (StoreAttribute (meta p) bucket "" aclkey data)
    (λ e, fail (Wrap "set acl" e)).

Definition GetBucketAcl (p : Posix) (input : GetBucketAclInput) : M bytes :=
  match gba_Bucket input with
  | None => fail (APIError ErrInvalidBucketName)
  | Some bucket =>
      stat_bucket bucket ≫= λ _,
      on_err (reads (RetrieveAttribute (meta p) bucket "" aclkey)) (λ e,
        if is_MetaErrNoSuchKey e then mret []
        else fail (Wrap "get acl" e))
  end.

Definition PutBucketTagging (p : Posix) (bucket : string)
    (tags : option (gmap string string)) : M unit :=
  stat_bucket bucket ≫= λ _,
  match tags with
  | None =>
      on_err (DeleteAttribute (meta p) bucket "" tagHdr) (λ e,
        if negb (is_MetaErrNoSuchKey e) then fail (Wrap "remove tags" e)
        else mret tt)
  | Some tags =>
      let b := json_Marshal_tags tags in
      on_err (StoreAttribute (meta p) bucket "" tagHdr b)
        (λ e, fail (Wrap "set tags" e))
  end.

Definition GetBucketTagging (p : Posix) (bucket : string)
  : M (gmap string string) :=
  stat_bucket bucket ≫= λ _,
  reads (getAttrTags p bucket "").

Definition DeleteBucketTagging (p : Posix) (bucket : string) : M unit :=
  PutBucketTagging p bucket None.

Definition GetObjectTagging (p : Posix) (bucket object : string)
  : M (gmap string string) :=
  stat_bucket bucket ≫= λ _,
  reads (getAttrTags p bucket object).

Definition DeleteObjectTagging (p : Posix) (bucket object : string) : M unit :=
  PutObjectTagging p bucket object None.

Definition PutBucketPolicy (p : Posix) (bucket : string)
    (policy : option bytes) : M unit :=
  stat_bucket bucket ≫= λ _,
  match policy with
  | None =>
      on_err (DeleteAttribute (meta p) bucket "" policykey) (λ e,
        if is_MetaErrNoSuchKey e then mret tt
        else fail (Wrap "remove policy" e))
  | Some policy =>
      on_err (StoreAttribute (meta p) bucket "" policykey policy)
        (λ e, fail (Wrap "set policy" e))
  end.

Definition DeleteBucketPolicy (p : Posix) (bucket : string) : M unit :=
  PutBucketPolicy p bucket None.

(** *** The start and the end of a multipart upload *)

(** The loop of [CreateMultipartUpload] that stores the user attributes
    on the directory of the upload. *)
Fixpoint create_user_attrs (p : Posix) (bucket objdir uploadID tmppath : string)
    (kvs : list (string * string)) : M unit :=
  match kvs with
  | [] => mret tt
  | (k, v) :: r =>
      on_err (StoreAttribute (meta p) bucket (filepath_Join [objdir; uploadID])
                k (bytes_of v))
        (λ e,
          (* cleanup object if returning error *)
          ignore_err (os_RemoveAll (filepath_Join [tmppath; uploadID])) ≫= λ _,
          ignore_err (os_Remove tmppath) ≫= λ _,
          fail (Wrap ("set user attr " ++ quoted k) e)) ≫= λ _,
      create_user_attrs p bucket objdir uploadID tmppath r
  end.

(** [CreateMultipartUpload]; [uploadID] is the identifier that
    [uuid.New()] draws. *)
Definition CreateMultipartUpload (p : Posix) (mpu : CreateMultipartUploadInput)
    (uploadID : string) : M CreateMultipartUploadOutput :=
  match cmi_Bucket mpu, cmi_Key mpu with
  | None, _ => fail (APIError ErrInvalidBucketName)
  | Some _, None => fail (APIError ErrNoSuchKey)
  | Some bucket, Some object =>
      stat_bucket bucket ≫= λ _,
      if strings_HasSuffix object "/" then
        (* directory objects can't be uploaded with mutlipart uploads *)
        fail (APIError ErrDirectoryObjectContainsData)
      else
        (* hash object name for multipart container *)
        let objNameSum := sha256_hex object in
        let objdir := filepath_Join [metaTmpMultipartDir; objNameSum] in
        let tmppath := filepath_Join [bucket; objdir] in
        on_err (os_MkdirAll (filepath_Join [tmppath; uploadID]))
          (λ e, fail (Wrap "create upload temp dir" e)) ≫= λ _,
        (* set an attribute with the original object name *)
        on_err (StoreAttribute (meta p) bucket objdir onameAttr (bytes_of object))
          (λ e,
            ignore_err (os_RemoveAll (filepath_Join [tmppath; uploadID])) ≫= λ _,
            ignore_err (os_Remove tmppath) ≫= λ _,
            fail (Wrap "set name attr for upload" e)) ≫= λ _,
        (* set user attrs *)
        create_user_attrs p bucket objdir uploadID tmppath
          (map_to_list (cmi_Metadata mpu)) ≫= λ _,
        mret {| cmr_Bucket := bucket; cmr_Key := object;
                cmr_UploadId := uploadID |}
  end.

Definition AbortMultipartUpload (p : Posix) (mpu : AbortMultipartUploadInput)
  : M unit :=
  match ami_Bucket mpu, ami_Key mpu, ami_UploadId mpu with
  | None, _, _ => fail (APIError ErrInvalidBucketName)
  | Some _, None, _ => fail (APIError ErrNoSuchKey)
  | Some _, Some _, None => fail (APIError ErrNoSuchUpload)
  | Some bucket, Some object, Some uploadID =>
      stat_bucket bucket ≫= λ _,
      let sum := sha256_hex object in
      let objdir := filepath_Join [bucket; metaTmpMultipartDir; sum] in
      on_err (reads (os_Stat (filepath_Join [objdir; uploadID])))
        (λ _, fail (APIError ErrNoSuchUpload)) ≫= λ _,
      on_err (os_RemoveAll (filepath_Join [objdir; uploadID]))
        (λ e, fail (Wrap "remove multipart upload container" e)) ≫= λ _,
      ignore_err (os_Remove objdir) ≫= λ _,
      mret tt
  end.

(** *** The places of a multipart upload in the tree

    For a bucket, a container and an upload whose names are plain: the
    directory of the upload and the file of one of its parts. *)

Definition upload_container (bucket object : string) : path :=
  [bucket; metaTmpDir; "multipart"; sha256_hex object].

Definition upload_dir (bucket object uploadID : string) : path :=
  (upload_container bucket object ++ [uploadID])%list.

Definition part_file (bucket object uploadID : string) (n : Z) : path :=
  (upload_dir bucket object uploadID ++ [itoa n])%list.

(** The upload is open: its directory is there, below directories. *)
Definition upload_open (fs : fsys) (bucket object uploadID : string) : Prop :=
  ∀ q, q ≠ [] → q `prefix_of` upload_dir bucket object uploadID →
       ∃ a, fs !! q = Some (Dir a).

(** The attributes [CreateMultipartUpload] stores for user metadata. *)
Definition store_plain (kvs : list (string * string)) (a : xattrs) : xattrs :=
  fold_left (λ acc kv, <[kv.1 := bytes_of kv.2]> acc) kvs a.

End Buckets.

(** ** Operations that return further errors

    The operations below return constants of [s3err] besides those
    above, and some of them can stop with a run-time panic.  They are
    computations of the same kind over a wider type of errors; a
    computation of the first kind is one of them. *)

Inductive ErrorCode2 :=
  | ErrBucketAlreadyExists
  | ErrBucketNotEmpty
  | ErrNoSuchBucketPolicy
  | ErrObjectLockConfigurationNotAllowed
  | ErrObjectLockConfigurationNotFound
  | ErrNoSuchObjectLockConfiguration
  | ErrInvalidPartNumberMarker.

(** An error of these operations: an error as before, an API error of
    [s3err.GetAPIError] for one of the further constants, or a panic of
    the Go run time. *)
Inductive error2 :=
  | Earlier (e : error)
  | APIError2 (c : ErrorCode2)
  | Panic (msg : string).

Inductive result2 (A : Type) :=
  | Ok2 (a : A)
  | Err2 (e : error2).
Arguments Ok2 {A} a.
Arguments Err2 {A} e.

Definition M2 (A : Type) : Type := fsys → result2 A * fsys.

Global Instance M2_ret : MRet M2 := λ A a fs, (Ok2 a, fs).

Global Instance M2_bind : MBind M2 := λ A B f m fs,
  match m fs with
  | (Ok2 a, fs') => f a fs'
  | (Err2 e, fs') => (Err2 e, fs')
  end.

Definition fail2 {A} (e : error2) : M2 A := λ fs, (Err2 e, fs).

(** A call of the first kind and the [if err != nil { ... }] after it. *)
Definition on_err2 {A} (m : M A) (h : error → M2 A) : M2 A := λ fs,
  match m fs with
  | (Ok a, fs') => (Ok2 a, fs')
  | (Err e, fs') => h e fs'
  end.

(** A call of the first kind whose error is returned as it is. *)
Definition lift {A} (m : M A) : M2 A := on_err2 m (λ e, fail2 (Earlier e)).

(** *** More of package [os] *)

(** [os.IsExist]: the error of a system call that says the path is
    there. *)
Definition os_IsExist (e : error) : bool :=
  match e with
  | PathError _ _ n => bool_decide (n = EEXIST) || bool_decide (n = ENOTEMPTY)
  | _ => false
  end.

(** [os.Mkdir] *)
Definition os_Mkdir (name : string) : M unit := λ fs,
  if String.eqb name "" then (Err (PathError "mkdir" name ENOENT), fs)
  else match resolve name with
       | None => (Err (PathError "mkdir" name EACCES), fs)
       | Some [] => (Err (PathError "mkdir" name EEXIST), fs)
       | Some p =>
           match fs !! p with
           | Some _ => (Err (PathError "mkdir" name EEXIST), fs)
           | None =>
               if is_dir fs (removelast p) then (Ok tt, <[p := Dir ∅]> fs)
               else (Err (PathError "mkdir" name (missing fs p)), fs)
           end
       end.

(** A sort that keeps the order of elements it does not tell apart, as
    [sort.SliceStable] does: each element is put before the first one
    it is not greater than. *)
Fixpoint insert_by {A} (le : A → A → bool) (x : A) (l : list A) : list A :=
  match l with
  | [] => [x]
  | y :: r => if le x y then x :: l else y :: insert_by le x r
  end.

Definition sort_by {A} (le : A → A → bool) (l : list A) : list A :=
  foldr (insert_by le) [] l.

(** [a <= b] on strings, in the order of Go. *)
Definition string_leb (a b : string) : bool := negb (string_gtb a b).

(** A directory entry: the name and what [Info] tells of it. *)
Abbreviation DirEntry := (string * node)%type.

Definition name_leb (a b : DirEntry) : bool := string_leb a.1 b.1.

(** The entries of the directory at [p], in the order of the map. *)
Definition dir_entries (fs : fsys) (p : path) : list DirEntry :=
  omap (λ kv : path * node,
          if bool_decide (is_child p kv.1)
          then Some (default "" (last kv.1), kv.2) else None)
       (map_to_list fs).

(** [os.ReadDir]: the entries of a directory, sorted by file name. *)
Definition os_ReadDir (name : string) (fs : fsys) : result (list DirEntry) :=
  if String.eqb name "" then Err (PathError "open" name ENOENT)
  else match resolve name with
       | None => Err (PathError "open" name EACCES)
       | Some p =>
           match lookup_node fs p with
           | Some (Dir _) => Ok (sort_by name_leb (dir_entries fs p))
           | Some (File _ _) => Err (PathError "readdirent" name ENOTDIR)
           | None => Err (PathError "open" name (missing fs p))
           end
       end.

(** *** What these operations take from other packages *)

(** [s3response.Bucket] *)
Record Bucket := {
  bkt_Name : string;
  bkt_Owner : string;
}.

Class Externals2 := {
  (** [json.Marshal] of an [auth.BucketLockConfig] with its time of
      creation *)
  json_Marshal_BucketLockConfig : BucketLockConfig → Z → bytes;
  (** [json.Unmarshal] into a [types.ObjectLockRetention]: the mode and
      the date *)
  json_Unmarshal_retention : bytes → option (string * option Z);
  (** [auth.ACL], its owner, and its JSON form *)
  ACL : Type;
  acl_Owner : ACL → string;
  acl_set_Owner : string → ACL → ACL;
  json_Unmarshal_ACL : bytes → option ACL;
  json_Marshal_ACL : ACL → bytes;
  (** What [fi.Size()] tells of a directory, which is up to the file
      system *)
  dir_size : Z;
}.

Record CreateBucketInput := {
  cbi_Bucket : option string;
  cbi_ObjectLockEnabledForBucket : option bool;
}.

Record DeleteBucketInput := { dbi_Bucket : option string }.

Record HeadObjectInput := {
  hoi_Bucket : option string;
  hoi_Key : option string;
  hoi_PartNumber : option Z;
}.

Record HeadObjectOutput := {
  hoo_ContentLength : Z;
  hoo_ContentType : option string;
  hoo_ContentEncoding : option string;
  hoo_ETag : string;
  hoo_Metadata : gmap string string;
  hoo_ObjectLockLegalHoldStatus : string;
  hoo_ObjectLockMode : string;
  hoo_ObjectLockRetainUntilDate : option Z;
  hoo_PartsCount : option Z;
}.

Record ListPartsInput := {
  lpi_Bucket : option string;
  lpi_Key : option string;
  lpi_UploadId : option string;
  lpi_PartNumberMarker : option string;
  lpi_MaxParts : option Z;
}.

(** [s3response.Part], without its time stamp *)
Record Part := {
  part_PartNumber : Z;
  part_ETag : string;
  part_Size : Z;
}.

Record ListPartsResult := {
  lpr_Bucket : string;
  lpr_IsTruncated : bool;
  lpr_Key : string;
  lpr_MaxParts : Z;
  lpr_NextPartNumberMarker : Z;
  lpr_PartNumberMarker : Z;
  lpr_Parts : list Part;
  lpr_UploadID : string;
}.

Definition part_leb (a b : Part) : bool :=
  part_PartNumber a <=? part_PartNumber b.

(** [strconv.Atoi]: the value and whether the text is a number that
    fits; the value is 0 for a text that is no number and the nearest
    bound for one that does not fit. *)
Definition strconv_Atoi (s : string) : Z * bool :=
  let '(neg, digits) :=
    match s with
    | String c r =>
        if Ascii.eqb c "-"%char then (true, r)
        else if Ascii.eqb c "+"%char then (false, r)
        else (false, s)
    | EmptyString => (false, s)
    end in
  match digits with
  | EmptyString => (0, false)
  | _ =>
      match parse_digits digits 0 with
      | None => (0, false)
      | Some n =>
          if neg then
            if 2 ^ 63 <? n then (- 2 ^ 63, false) else (- n, true)
          else
            if 2 ^ 63 <=? n then (2 ^ 63 - 1, false) else (n, true)
      end
  end.

Section Backend2.

Context `{Externals} `{Externals2}.

(** [fi.Size()] *)
Definition FileInfo_Size (n : node) : Z :=
  match n with File d _ => Z.of_nat (length d) | Dir _ => dir_size end.

(** *** Buckets *)

(** [CreateBucket]; [now] is the time [time.Now()] tells. *)
Definition CreateBucket (p : Posix) (input : CreateBucketInput) (acl : bytes)
    (now : Z) : M2 unit :=
  match cbi_Bucket input with
  | None => fail2 (Earlier (APIError ErrInvalidBucketName))
  | Some bucket =>
      on_err2 (os_Mkdir bucket) (λ e,
        if os_IsExist e then fail2 (APIError2 ErrBucketAlreadyExists)
        else fail2 (Earlier (Wrap "mkdir bucket" e))) ≫= λ _,
      lift (on_err (StoreAttribute (meta p) bucket "" aclkey acl)
              (λ e, fail (Wrap "set acl" e))) ≫= λ _,
      if default false (cbi_ObjectLockEnabledForBucket input) then
        let defaultLockParsed :=
          json_Marshal_BucketLockConfig {| Enabled := true |} now in
        lift (on_err (StoreAttribute (meta p) bucket "" bucketLockKey
                        defaultLockParsed)
                (λ e, fail (Wrap "set default bucket lock" e)))
      else mret tt
  end.

Definition DeleteBucket (p : Posix) (input : DeleteBucketInput) : M2 unit :=
  match dbi_Bucket input with
  | None => fail2 (Earlier (APIError ErrInvalidBucketName))
  | Some bucket =>
      names ← lift (on_err (reads (os_ReadDir bucket)) (λ e,
                 if is_ErrNotExist e then fail (APIError ErrNoSuchBucket)
                 else fail (Wrap "readdir bucket" e)));
      lift (match names with
            | [entry] =>
                if String.eqb entry.1 metaTmpDir then
                  (* if .sgwtmp is only item in directory
                     then clean this up before trying to remove the bucket *)
                  on_err (os_RemoveAll (filepath_Join [bucket; metaTmpDir]))
                    (λ e, if negb (is_ErrNotExist e)
                          then fail (Wrap "remove temp dir" e) else mret tt)
                else mret tt
            | _ => mret tt
            end) ≫= λ _,
      on_err2 (os_Remove bucket) (λ e,
        match e with
        | PathError _ _ ENOTEMPTY => fail2 (APIError2 ErrBucketNotEmpty)
        | _ => fail2 (Earlier (Wrap "remove bucket" e))
        end) ≫= λ _,
      lift (on_err (DeleteAttributes (meta p) bucket "")
              (λ e, fail (Wrap "remove bucket attributes" e)))
  end.

(** *** The policy and the lock configuration of a bucket *)

Definition GetBucketPolicy (p : Posix) (bucket : string) : M2 bytes :=
  lift (stat_bucket bucket) ≫= λ _,
  on_err2 (reads (RetrieveAttribute (meta p) bucket "" policykey)) (λ e,
    if is_MetaErrNoSuchKey e then fail2 (APIError2 ErrNoSuchBucketPolicy)
    else if is_ErrNotExist e then fail2 (Earlier (APIError ErrNoSuchBucket))
    else fail2 (Earlier (Wrap "get bucket policy" e))).

Definition PutObjectLockConfiguration (p : Posix) (bucket : string)
    (config : bytes) : M2 unit :=
  lift (stat_bucket bucket) ≫= λ _,
  cfg ← on_err2 (reads (RetrieveAttribute (meta p) bucket "" bucketLockKey))
          (λ e, if is_MetaErrNoSuchKey e
                then fail2 (APIError2 ErrObjectLockConfigurationNotAllowed)
                else fail2 (Earlier (Wrap "get object lock config" e)));
  match json_Unmarshal_BucketLockConfig cfg with
  | None => fail2 (Earlier (Wrap "unmarshal object lock config" JSONError))
  | Some bucketLockCfg =>
      if negb (Enabled bucketLockCfg)
      then fail2 (APIError2 ErrObjectLockConfigurationNotAllowed)
      else lift (on_err (StoreAttribute (meta p) bucket "" bucketLockKey config)
                   (λ e, fail (Wrap "set object lock config" e)))
  end.

Definition GetObjectLockConfiguration (p : Posix) (bucket : string)
  : M2 bytes :=
  lift (stat_bucket bucket) ≫= λ _,
  on_err2 (reads (RetrieveAttribute (meta p) bucket "" bucketLockKey)) (λ e,
    if is_MetaErrNoSuchKey e
    then fail2 (APIError2 ErrObjectLockConfigurationNotFound)
    else fail2 (Earlier (Wrap "get object lock config" e))).

(** *** Reading the lock of an object *)

Definition GetObjectLegalHold (p : Posix) (bucket object versionId : string)
  : M2 bool :=
  lift (stat_bucket bucket) ≫= λ _,
  data ← on_err2
    (reads (RetrieveAttribute (meta p) bucket object objectLegalHoldKey))
    (λ e, if is_ErrNotExist e then fail2 (Earlier (APIError ErrNoSuchKey))
          else if is_MetaErrNoSuchKey e
          then fail2 (APIError2 ErrNoSuchObjectLockConfiguration)
          else fail2 (Earlier (Wrap "get object lock config" e)));
  match data with
  | b :: _ => mret (Byte.eqb b x01)
  | [] => fail2 (Panic "index out of range [0] with length 0")
  end.

Definition GetObjectRetention (p : Posix) (bucket object versionId : string)
  : M2 bytes :=
  lift (stat_bucket bucket) ≫= λ _,
  on_err2
    (reads (RetrieveAttribute (meta p) bucket object objectRetentionKey))
    (λ e, if is_ErrNotExist e then fail2 (Earlier (APIError ErrNoSuchKey))
          else if is_MetaErrNoSuchKey e
          then fail2 (APIError2 ErrNoSuchObjectLockConfiguration)
          else fail2 (Earlier (Wrap "get object lock config" e))).

(** *** HeadObject *)

Definition retrieveUploadId (bucket object : string) (fs : fsys)
  : result (string * string) :=
  let sum := sha256_hex object in
  let objdir := filepath_Join [bucket; metaTmpMultipartDir; sum] in
  match os_ReadDir objdir fs with
  | Err _ | Ok [] => Err (APIError ErrNoSuchKey)
  | Ok (entry :: _) => Ok (entry.1, sum)
  end.

(** The legal hold of an object as [HeadObject] tells it: an error of
    [GetObjectLegalHold] leaves the field empty. *)
Definition legal_hold_status (p : Posix) (bucket object : string) : M2 string :=
  λ fs,
    match GetObjectLegalHold p bucket object "" fs with
    | (Ok2 true, fs') => (Ok2 "ON", fs')
    | (Ok2 false, fs') => (Ok2 "OFF", fs')
    | (Err2 (Panic msg), fs') => (Err2 (Panic msg), fs')
    | (Err2 _, fs') => (Ok2 "", fs')
    end.

(** The mode and the date of the retention as [HeadObject] tells them:
    an error of [GetObjectRetention] or of the decoder leaves them
    empty. *)
Definition retention_config (p : Posix) (bucket object : string)
  : M2 (string * option Z) :=
  λ fs,
    match GetObjectRetention p bucket object "" fs with
    | (Ok2 retention, fs') =>
        match json_Unmarshal_retention retention with
        | Some config => (Ok2 config, fs')
        | None => (Ok2 ("", None), fs')
        end
    | (Err2 (Panic msg), fs') => (Err2 (Panic msg), fs')
    | (Err2 _, fs') => (Ok2 ("", None), fs')
    end.

Definition HeadObject (p : Posix) (input : HeadObjectInput)
  : M2 HeadObjectOutput :=
  match hoi_Bucket input, hoi_Key input with
  | None, _ => fail2 (Earlier (APIError ErrInvalidBucketName))
  | Some _, None => fail2 (Earlier (APIError ErrNoSuchKey))
  | Some bucket, Some object =>
      match hoi_PartNumber input with
      | Some partNumber =>
          '(uploadId, sum) ← lift (reads (retrieveUploadId bucket object));
          ents ← lift (on_err
                   (reads (os_ReadDir (filepath_Join
                             [bucket; metaTmpMultipartDir; sum; uploadId])))
                   (λ e, if is_ErrNotExist e then fail (APIError ErrNoSuchKey)
                         else fail (Wrap "read parts" e)));
          let partPath :=
            filepath_Join [metaTmpMultipartDir; sum; uploadId; itoa partNumber] in
          part ← lift (on_err (reads (os_Stat (filepath_Join [bucket; partPath])))
                   (λ e, if is_ErrNotExist e then fail (APIError ErrInvalidPart)
                         else fail (Wrap "stat part" e)));
          etag ← lift (reads (λ fs, Ok (stored_etag p bucket partPath fs)));
          mret {| hoo_ContentLength := FileInfo_Size part;
                  hoo_ContentType := None;
                  hoo_ContentEncoding := None;
                  hoo_ETag := etag;
                  hoo_Metadata := ∅;
                  hoo_ObjectLockLegalHoldStatus := "";
                  hoo_ObjectLockMode := "";
                  hoo_ObjectLockRetainUntilDate := None;
                  hoo_PartsCount := Some (Z.of_nat (length ents)) |}
      | None =>
          lift (stat_bucket bucket) ≫= λ _,
          let objPath := filepath_Join [bucket; object] in
          fi ← lift (on_err (reads (os_Stat objPath)) (λ e,
                 if is_ErrNotExist e then fail (APIError ErrNoSuchKey)
                 else fail (Wrap "stat object" e)));
          '(userMetaData, contentType, contentEncoding) ←
            lift (reads (λ fs, Ok (loadUserMetaData p bucket object ∅ fs)));
          etag ← lift (reads (λ fs, Ok (stored_etag p bucket object fs)));
          let size := FileInfo_Size fi in
          objectLockLegalHoldStatus ← legal_hold_status p bucket object;
          '(objectLockMode, objectLockRetainUntilDate) ←
            retention_config p bucket object;
          mret {| hoo_ContentLength := size;
                  hoo_ContentType := Some contentType;
                  hoo_ContentEncoding := Some contentEncoding;
                  hoo_ETag := etag;
                  hoo_Metadata := userMetaData;
                  hoo_ObjectLockLegalHoldStatus := objectLockLegalHoldStatus;
                  hoo_ObjectLockMode := objectLockMode;
                  hoo_ObjectLockRetainUntilDate := objectLockRetainUntilDate;
                  hoo_PartsCount := None |}
      end
  end.

(** *** ListParts *)

(** The loop of [ListParts] over the entries of the upload. *)
Fixpoint list_parts_loop (p : Posix) (bucket objdir uploadID : string)
    (partNumberMarker : Z) (ents : list DirEntry) (fs : fsys) : list Part :=
  match ents with
  | [] => []
  | e :: r =>
      let rest :=
        list_parts_loop p bucket objdir uploadID partNumberMarker r fs in
      let pn := (strconv_Atoi e.1).1 in
      if pn <=? partNumberMarker then rest
      else
        let partPath := filepath_Join [objdir; uploadID; e.1] in
        let etag := stored_etag p bucket partPath fs in
        match os_Lstat (filepath_Join [bucket; partPath]) fs with
        | Err _ => rest
        | Ok fi =>
            {| part_PartNumber := pn; part_ETag := etag;
               part_Size := FileInfo_Size fi |} :: rest
        end
  end.

(** [ListParts].  [sort.Slice] does not say in which order it leaves
    parts of the same number; here they stay as they were. *)
Definition ListParts (p : Posix) (input : ListPartsInput) : M2 ListPartsResult :=
  match lpi_Bucket input, lpi_Key input, lpi_UploadId input with
  | None, _, _ => fail2 (Earlier (APIError ErrInvalidBucketName))
  | Some _, None, _ => fail2 (Earlier (APIError ErrNoSuchKey))
  | Some _, Some _, None => fail2 (Earlier (APIError ErrNoSuchUpload))
  | Some bucket, Some object, Some uploadID =>
      let stringMarker := default "" (lpi_PartNumberMarker input) in
      let maxParts := default 0 (lpi_MaxParts input) in
      partNumberMarker ←
        (if String.eqb stringMarker "" then mret 0
         else match strconv_Atoi stringMarker with
              | (n, true) => mret n
              | (_, false) => fail2 (APIError2 ErrInvalidPartNumberMarker)
              end);
      lift (stat_bucket bucket) ≫= λ _,
      sum ← lift (checkUploadIDExists bucket object uploadID);
      let objdir := filepath_Join [metaTmpMultipartDir; sum] in
      let tmpdir := filepath_Join [bucket; objdir] in
      ents ← lift (on_err (reads (os_ReadDir (filepath_Join [tmpdir; uploadID])))
               (λ e, if is_ErrNotExist e then fail (APIError ErrNoSuchUpload)
                     else fail (Wrap "readdir upload" e)));
      parts ← lift (reads (λ fs,
                 Ok (list_parts_loop p bucket objdir uploadID partNumberMarker
                       ents fs)));
      let parts := sort_by part_leb parts in
      let oldLen := length parts in
      let parts :=
        if (0 <? maxParts) && (maxParts <? Z.of_nat (length parts))
        then take (Z.to_nat maxParts) parts else parts in
      let newLen := length parts in
      let nextpart :=
        match last parts with
        | Some part => part_PartNumber part
        | None => 0
        end in
      mret {| lpr_Bucket := bucket;
              lpr_IsTruncated := negb (oldLen =? newLen)%nat;
              lpr_Key := object;
              lpr_MaxParts := maxParts;
              lpr_NextPartNumberMarker := nextpart;
              lpr_PartNumberMarker := partNumberMarker;
              lpr_Parts := parts;
              lpr_UploadID := uploadID |}
  end.

(** *** The owners of the buckets *)

Definition ChangeBucketOwner (p : Posix) (bucket newOwner : string) : M unit :=
  stat_bucket bucket ≫= λ _,
  aclTag ← on_err (reads (RetrieveAttribute (meta p) bucket "" aclkey))
             (λ e, fail (Wrap "get acl" e));
  match json_Unmarshal_ACL aclTag with
  | None => fail (Wrap "unmarshal acl" JSONError)
  | Some acl =>
      let acl := acl_set_Owner newOwner acl in
      let newAcl := json_Marshal_ACL acl in
      on_err (StoreAttribute (meta p) bucket "" aclkey newAcl)
        (λ e, fail (Wrap "set acl" e))
  end.

(** The loop of [ListBucketsAndOwners] over the entries of the root.
    On a tree that stays as it is [entry.Info()] does not fail, and
    the name it tells is the name of the entry. *)
Fixpoint buckets_and_owners (p : Posix) (entries : list DirEntry)
    (buckets : list Bucket) (fs : fsys) : result (list Bucket) :=
  match entries with
  | [] => Ok buckets
  | entry :: r =>
      if negb (IsDir entry.2) then buckets_and_owners p r buckets fs
      else
        match RetrieveAttribute (meta p) entry.1 "" aclkey fs with
        | Err e => Err (Wrap "get acl tag" e)
        | Ok aclTag =>
            match json_Unmarshal_ACL aclTag with
            | None => Err (Wrap "parse acl tag" JSONError)
            | Some acl =>
                buckets_and_owners p r
                  (buckets ++ [{| bkt_Name := entry.1;
                                  bkt_Owner := acl_Owner acl |}])%list fs
            end
        end
  end.

Definition bucket_leb (a b : Bucket) : bool :=
  string_leb (bkt_Name a) (bkt_Name b).

(** [ListBucketsAndOwners] *)
Definition ListBucketsAndOwners (p : Posix) : M (list Bucket) :=
  entries ← on_err (reads (os_ReadDir "."))
              (λ e, fail (Wrap "readdir buckets" e));
  buckets ← reads (buckets_and_owners p entries []);
  mret (sort_by bucket_leb buckets).

End Backend2.

(** ** A small instance for examples

    Stand-ins for the library functions, enough to run the operations on
    concrete trees. *)

Module Sample.

Definition encode_tags (t : gmap string string) : bytes :=
  bytes_of (String.concat "&" (map (λ kv, kv.1 ++ "=" ++ kv.2) (map_to_list t))).

Definition decode_tags (b : bytes) : option (gmap string string) :=
  Some (list_to_map
          (omap (λ s, match split_on "="%char s with
                      | [k; v] => Some (k, v)
                      | _ => None
                      end)
                (split_on "&"%char (string_of b)))).

Definition decode_lock (b : bytes) : option BucketLockConfig :=
  match b with
  | [x] => Some {| Enabled := negb (Z.eqb (byte_val x) 0) |}
  | _ => None
  end.

Definition env : Externals := {|
  sha256_hex := λ s, hex_EncodeToString (md5_Sum (bytes_of s));
  json_Marshal_tags := encode_tags;
  json_Unmarshal_tags := decode_tags;
  json_Unmarshal_BucketLockConfig := decode_lock;
  json_Marshal_retention := λ mode _, bytes_of mode;
  s3err_Code := λ _, "Code";
  s3err_Description := λ _, "Description";
  backend_Walk := λ _ _ _ _ _ _ _ _,
    Ok {| CommonPrefixes := []; Objects := []; Truncated := false;
          NextMarker := "" |};
|}.

(** A bucket [b] that holds nothing. *)
Definition empty_bucket : fsys := {[ ["b"] := Dir ∅ ]}.

(** A bucket [b] with the object [k] of five bytes. *)
Definition hello_bucket : fsys :=
  {[ ["b"] := Dir ∅;
     ["b"; "k"] := File (bytes_of "hello")
                        {[ etagkey := bytes_of "5d41402abc4b2a76b9719d911017c592" ]} ]}.

(** A bucket [b] with object lock enabled, and one with the lock
    switched off. *)
Definition locked_bucket : fsys :=
  {[ ["b"] := Dir {[ bucketLockKey := [x01] ]} ]}.


Definition put_input (key body : string) (len : Z) : PutObjectInput :=
  {| po_Bucket := Some "b"; po_Key := Some key; po_Body := bytes_of body;
     po_ContentLength := Some len;
     po_Metadata := {[ "color" := "red" ]};
     po_Tagging := Some "team=storage";
     po_ObjectLockLegalHoldStatus := "";
     po_ObjectLockMode := "";
     po_ObjectLockRetainUntilDate := None |}.

(** The bucket after a put of [a/b/c/k], and after a further put of the
    directory object [a/b/]. *)
Definition deep_bucket : fsys :=
  (PutObject (H := env) posix_xattr (put_input "a/b/c/k" "hello" 5) empty_bucket).2.

Definition marked_bucket : fsys :=
  (PutObject (H := env) posix_xattr (put_input "a/b/" "" 0) deep_bucket).2.

(** An upload [u1] of the key [k] with three parts of 4, 2 and 4 bytes,
    as [UploadPart] leaves them. *)
Definition container : string := sha256_hex (Externals := env) "k".

Definition part_input (n : Z) (body : string) : UploadPartInput :=
  {| upi_Bucket := Some "b"; upi_Key := Some "k"; upi_UploadId := "u1";
     upi_PartNumber := n; upi_ContentLength := None;
     upi_Body := bytes_of body |}.

Definition upload_dirs : fsys :=
  (backend_MkdirAll
     (filepath_Join ["b"; metaTmpMultipartDir; container; "u1"]) empty_bucket).2.

Definition upload_tree : fsys :=
  let s1 := (UploadPart (H := env) posix_xattr (part_input 1 "aaaa") upload_dirs).2 in
  let s2 := (UploadPart (H := env) posix_xattr (part_input 2 "bb") s1).2 in
  (UploadPart (H := env) posix_xattr (part_input 3 "cccc") s2).2.

Definition etag_of (body : string) : string :=
  hex_EncodeToString (md5_Sum (bytes_of body)).

Definition part (n : Z) (body : string) : CompletedPart :=
  {| PartNumber := n; ETag := etag_of body |}.

Definition complete_input (parts : list CompletedPart)
  : CompleteMultipartUploadInput :=
  {| cmu_Bucket := Some "b"; cmu_Key := Some "k"; cmu_UploadId := Some "u1";
     cmu_MultipartUpload := Some parts |}.


End Sample.

(** Stand-ins for the library functions of the further operations: the
    lock configuration of a bucket is one byte, an access control list
    is the name of its owner, a retention is its mode. *)

Module Sample2.

Definition env2 : Externals2 := {|
  json_Marshal_BucketLockConfig := λ c _, [if Enabled c then x01 else x00];
  json_Unmarshal_retention := λ b, Some (string_of b, None);
  ACL := string;
  acl_Owner := λ a, a;
  acl_set_Owner := λ o _, o;
  json_Unmarshal_ACL := λ b, Some (string_of b);
  json_Marshal_ACL := bytes_of;
  dir_size := 4096;
|}.

(** Two buckets with their owners, and a file beside them. *)
Definition owned_buckets : fsys :=
  {[ ["a"] := Dir {[ aclkey := bytes_of "alice" ]};
     ["b"] := Dir {[ aclkey := bytes_of "bob" ]};
     ["notes"] := File [] ∅ ]}.

(** The same with a third bucket that has no access control list. *)
Definition unowned_bucket : fsys := <[ ["c"] := Dir ∅ ]> owned_buckets.

(** A bucket [b] with object lock enabled and the object [k]. *)
Definition locked_object : fsys :=
  {[ ["b"] := Dir {[ bucketLockKey := [x01] ]};
     ["b"; "k"] := File (bytes_of "hello") ∅ ]}.

(** A bucket [b] with the objects [j] and [k]. *)
Definition two_objects : fsys :=
  {[ ["b"] := Dir ∅;
     ["b"; "j"] := File (bytes_of "hi") ∅;
     ["b"; "k"] := File (bytes_of "hello") ∅ ]}.

(** A bucket [b] with the directory object [a/d/] below the plain
    directory [a]. *)
Definition dir_object : fsys :=
  {[ ["b"] := Dir ∅;
     ["b"; "a"] := Dir ∅;
     ["b"; "a"; "d"] := Dir {[ etagkey := bytes_of emptyMD5 ]} ]}.

(** A put of [k] that asks for a legal hold and a retention. *)
Definition held_input : PutObjectInput :=
  {| po_Bucket := Some "b"; po_Key := Some "k"; po_Body := bytes_of "hello";
     po_ContentLength := Some 5;
     po_Metadata := {[ "color" := "red" ]};
     po_Tagging := None;
     po_ObjectLockLegalHoldStatus := "ON";
     po_ObjectLockMode := "GOVERNANCE";
     po_ObjectLockRetainUntilDate := None |}.

End Sample2.

(** * Properties *)

Section Properties.

Context `{Externals}.

(** ** Running a computation *)

Lemma bind_run {A B} (m : M A) (f : A → M B) fs :
  (m ≫= f) fs = match m fs with
                | (Ok a, fs') => f a fs'
                | (Err e, fs') => (Err e, fs')
                end.
Proof. reflexivity. Qed.

Lemma bind_ok {A B} (m : M A) (f : A → M B) fs a fs' :
  m fs = (Ok a, fs') → (m ≫= f) fs = f a fs'.
Proof. intros E. rewrite bind_run, E. reflexivity. Qed.

Lemma bind_err {A B} (m : M A) (f : A → M B) fs e fs' :
  m fs = (Err e, fs') → (m ≫= f) fs = (Err e, fs').
Proof. intros E. rewrite bind_run, E. reflexivity. Qed.

Lemma stat_bucket_run bucket fs :
  stat_bucket bucket fs =
    match os_Stat bucket fs with
    | Ok _ => (Ok tt, fs)
    | Err e => if is_ErrNotExist e then (Err (APIError ErrNoSuchBucket), fs)
               else (Err (Wrap "stat bucket" e), fs)
    end.
Proof.
  unfold stat_bucket. rewrite bind_run. unfold on_err, reads.
  destruct (os_Stat bucket fs) as [n|e]; [reflexivity|].
  destruct (is_ErrNotExist e); reflexivity.
Qed.

Lemma stat_bucket_ok bucket fs :
  is_Ok (os_Stat bucket fs) = true → stat_bucket bucket fs = (Ok tt, fs).
Proof.
  intros E. rewrite stat_bucket_run. destruct (os_Stat bucket fs); [reflexivity|].
  discriminate.
Qed.

(** A computation that only fails or succeeds without touching the
    tree. *)
Lemma stat_bucket_state bucket fs : (stat_bucket bucket fs).2 = fs.
Proof.
  rewrite stat_bucket_run. destruct (os_Stat bucket fs) as [n|e]; [reflexivity|].
  destruct (is_ErrNotExist e); reflexivity.
Qed.

(** ** The order of strings *)

Lemma nat_of_ascii_inj x y : nat_of_ascii x = nat_of_ascii y → x = y.
Proof.
  intros E. rewrite <- (ascii_nat_embedding x), <- (ascii_nat_embedding y).
  congruence.
Qed.

Lemma lex_le_refl a : lex_le a a.
Proof. induction a; constructor; assumption. Qed.

Lemma string_gtb_true a : ∀ b, string_gtb a b = true → lex_le b a.
Proof.
  induction a as [|x a IH]; intros [|y b]; simpl; try discriminate.
  - intros _. constructor.
  - destruct (Nat.ltb_spec (nat_of_ascii y) (nat_of_ascii x)) as [L|L].
    + intros _. apply lex_le_lt. assumption.
    + destruct (Nat.ltb_spec (nat_of_ascii x) (nat_of_ascii y)) as [L'|L'];
        [discriminate|].
      intros E. assert (y = x) as -> by (apply nat_of_ascii_inj; lia).
      apply lex_le_eq, IH, E.
Qed.

Lemma string_gtb_false a : ∀ b, string_gtb a b = false → lex_le a b.
Proof.
  induction a as [|x a IH]; intros [|y b]; simpl; try discriminate.
  - intros _. constructor.
  - intros _. constructor.
  - destruct (Nat.ltb_spec (nat_of_ascii y) (nat_of_ascii x)) as [L|L];
      [discriminate|].
    destruct (Nat.ltb_spec (nat_of_ascii x) (nat_of_ascii y)) as [L'|L'].
    + intros _. apply lex_le_lt. assumption.
    + intros E. assert (x = y) as -> by (apply nat_of_ascii_inj; lia).
      apply lex_le_eq, IH, E.
Qed.

(** ** The marker of a listing *)

(** C5.  When a listing request carries both a start-after key and a
    continuation token, the walk starts from the greater of the two in
    the lexicographic order: the marker handed to the walk is one of the
    two strings and both are below or equal to it. *)
Theorem ListObjectsV2_marker_both (p : Posix)
    (bucket startAfter token : string)
    (prefix delim : option string) (maxkeys : option Z) :
  ∃ marker,
    ListObjectsV2 p {| lv2_Bucket := Some bucket; lv2_Prefix := prefix;
                       lv2_ContinuationToken := Some token;
                       lv2_StartAfter := Some startAfter;
                       lv2_Delimiter := delim; lv2_MaxKeys := maxkeys |}
    = walk_page p bucket (default "" prefix) (default "" delim) marker
        (default 0 maxkeys)
    ∧ (marker = startAfter ∨ marker = token)
    ∧ lex_le startAfter marker
    ∧ lex_le token marker.
Proof.
  unfold ListObjectsV2, v2_marker; simpl.
  destruct (string_gtb startAfter token) eqn:E.
  - exists startAfter. split; [reflexivity|]. split; [left; reflexivity|].
    split; [apply lex_le_refl|]. apply string_gtb_true, E.
  - exists token. split; [reflexivity|]. split; [right; reflexivity|].
    split; [|apply lex_le_refl]. apply string_gtb_false, E.
Qed.

(** C10.  Without a continuation token the walk starts from the empty
    marker, whether or not the request carries a start-after key. *)
Theorem ListObjectsV2_marker_no_token (p : Posix) (bucket : string)
    (startAfter prefix delim : option string) (maxkeys : option Z) :
  ListObjectsV2 p {| lv2_Bucket := Some bucket; lv2_Prefix := prefix;
                     lv2_ContinuationToken := None;
                     lv2_StartAfter := startAfter;
                     lv2_Delimiter := delim; lv2_MaxKeys := maxkeys |}
  = walk_page p bucket (default "" prefix) (default "" delim) ""
      (default 0 maxkeys).
Proof. reflexivity. Qed.

(** The marker reaches the walk and is echoed in the answer. *)
Lemma walk_page_marker p bucket prefix delim marker maxkeys fs out fs' :
  walk_page p bucket prefix delim marker maxkeys fs = (Ok out, fs') →
  lvo_ContinuationToken out = marker
  ∧ ∃ results,
      backend_Walk fs bucket prefix delim marker maxkeys
        (fileToObj p bucket fs) [metaTmpDir] = Ok results
      ∧ lvo_Contents out = Objects results.
Proof.
  unfold walk_page. rewrite bind_run, stat_bucket_run.
  destruct (os_Stat bucket fs) as [n|e].
  - rewrite bind_run. unfold on_err, reads.
    destruct (backend_Walk _ _ _ _ _ _ _ _) as [r|e] eqn:W.
    + intros [= <- <-]. simpl. split; [reflexivity|]. exists r. split; reflexivity.
    + discriminate.
  - destruct (is_ErrNotExist e); discriminate.
Qed.

(** ** DeleteObjects *)



(** ** The check of the parts of a multipart upload *)

Lemma check_parts_result p bucket objdir uploadID last parts fs :
  ∀ i ps ts,
    (∃ t, check_parts p bucket objdir uploadID last i ps ts parts fs = Ok t)
    ∨ check_parts p bucket objdir uploadID last i ps ts parts fs
      = Err (APIError ErrInvalidPart).
Proof.
  induction parts as [|part rest IH]; intros i ps ts; simpl.
  - left. eexists. reflexivity.
  - destruct (os_Lstat _ fs) as [fi|e]; [|right; reflexivity].
    destruct ((i <? last) && negb (_ =? Size fi)); [right; reflexivity|].
    destruct (negb (String.eqb _ _)); [right; reflexivity|].
    apply IH.
Qed.

(** Past the first part the loop compares every size with [ps]. *)
Lemma check_parts_ok_rest p bucket objdir uploadID last parts fs :
  ∀ i ps ts t,
    0 < i →
    check_parts p bucket objdir uploadID last i ps ts parts fs = Ok t →
    ∀ (j : nat) part,
      parts !! j = Some part →
      part_matches p bucket objdir uploadID part fs
      ∧ (i + Z.of_nat j < last →
         part_size bucket objdir uploadID part fs = Some ps).
Proof.
  induction parts as [|part rest IH]; intros i ps ts t Hi E j q Hj.
  - destruct j; discriminate.
  - cbn [check_parts] in E. unfold part_matches, part_size.
    destruct (os_Lstat (filepath_Join [bucket; partObjPath objdir uploadID part]) fs)
      as [fi|e] eqn:L; [|discriminate].
    assert ((i =? 0) = false) as Hz by (apply Z.eqb_neq; lia).
    rewrite Hz in E.
    destruct ((i <? last) && negb (ps =? Size fi)) eqn:Hs; [discriminate|].
    destruct (String.eqb (stored_etag p bucket (partObjPath objdir uploadID part) fs)
                (ETag part)) eqn:He; [|discriminate].
    simpl in E. destruct j as [|j].
    + simpl in Hj. injection Hj as <-. rewrite L. split.
      * split; [eexists; reflexivity|]. apply String.eqb_eq, He.
      * intros Hl. f_equal.
        apply andb_false_iff in Hs as [Hs|Hs].
        -- apply Z.ltb_ge in Hs. lia.
        -- apply negb_false_iff, Z.eqb_eq in Hs. congruence.
    + simpl in Hj.
      destruct (IH (i + 1) ps (ts + Size fi) t ltac:(lia) E j q Hj) as [Hm Hp].
      split; [exact Hm|]. intros Hl. apply Hp. lia.
Qed.

(** When the loop accepts a list, every pair matches a part and every
    part before the last has the size of the first. *)
Lemma check_parts_ok p bucket objdir uploadID parts fs t :
  check_parts p bucket objdir uploadID (Z.of_nat (length parts) - 1) 0 0 0 parts fs
  = Ok t →
  ¬ invalid_parts p bucket objdir uploadID parts fs.
Proof.
  intros E (j & q & Hj & Hbad).
  destruct parts as [|first rest]; [destruct j; discriminate|].
  cbn [check_parts] in E.
  destruct (os_Lstat (filepath_Join [bucket; partObjPath objdir uploadID first]) fs)
    as [fi|e] eqn:L; [|discriminate].
  rewrite Z.eqb_refl, andb_false_r in E.
  destruct (String.eqb (stored_etag p bucket (partObjPath objdir uploadID first) fs)
              (ETag first)) eqn:He; [|discriminate].
  simpl in E.
  assert (part_matches p bucket objdir uploadID first fs) as Hfirst.
  { unfold part_matches, part_size. rewrite L.
    split; [eexists; reflexivity|]. apply String.eqb_eq, He. }
  assert (part_size bucket objdir uploadID first fs = Some (Size fi)) as Hsz.
  { unfold part_size. rewrite L. reflexivity. }
  destruct j as [|j].
  - simpl in Hj. injection Hj as <-. destruct Hbad as [Hbad|(_ & f & Hf & Hne)].
    + apply Hbad, Hfirst.
    + simpl in Hf. injection Hf as <-. apply Hne. reflexivity.
  - simpl in Hj. assert (0 < 0 + 1) as H01 by lia.
    destruct (check_parts_ok_rest _ _ _ _ _ _ _ _ _ _ _ H01 E j q Hj)
      as [Hm Hp].
    destruct Hbad as [Hbad|(Hlt & f & Hf & Hne)].
    + apply Hbad, Hm.
    + simpl in Hf. injection Hf as <-. apply Hne. rewrite Hsz. symmetry. apply Hp.
      simpl in Hlt. simpl length. lia.
Qed.

Lemma checkUploadIDExists_ok bucket object uploadID fs :
  is_Ok (os_Stat (filepath_Join
                    [filepath_Join [bucket; metaTmpMultipartDir; sha256_hex object];
                     uploadID]) fs) = true →
  checkUploadIDExists bucket object uploadID fs = (Ok (sha256_hex object), fs).
Proof.
  intros E. unfold checkUploadIDExists. rewrite bind_run. unfold on_err, reads.
  destruct (os_Stat _ fs); [reflexivity|discriminate].
Qed.

(** C1.  When the list of parts of a complete call is not acceptable
    (some pair of part number and etag matches no existing part, a part
    without a stored etag counting as one with the empty etag, or some
    part before the last has not the size of the first), the call on an
    existing upload of an existing bucket returns [InvalidPart] and
    leaves the tree as it was: no object is created and nothing of the
    upload is removed.  This holds for every metadata store. *)
Theorem CompleteMultipartUpload_invalid_part (p : Posix)
    (bucket object uploadID : string) (parts : list CompletedPart) (fs : fsys) :
  is_Ok (os_Stat bucket fs) = true →
  is_Ok (os_Stat (filepath_Join
                    [filepath_Join [bucket; metaTmpMultipartDir; sha256_hex object];
                     uploadID]) fs) = true →
  invalid_parts p bucket
    (filepath_Join [metaTmpMultipartDir; sha256_hex object]) uploadID parts fs →
  CompleteMultipartUpload p
    {| cmu_Bucket := Some bucket; cmu_Key := Some object;
       cmu_UploadId := Some uploadID; cmu_MultipartUpload := Some parts |} fs
  = (Err (APIError ErrInvalidPart), fs).
Proof.
  intros Hb Hu Hbad. unfold CompleteMultipartUpload.
  cbn [cmu_Bucket cmu_Key cmu_UploadId cmu_MultipartUpload].
  rewrite (bind_ok _ _ _ _ _ (stat_bucket_ok _ _ Hb)).
  rewrite (bind_ok _ _ _ _ _ (checkUploadIDExists_ok _ _ _ _ Hu)).
  rewrite bind_run. unfold reads at 1.
  destruct (check_parts_result p bucket
              (filepath_Join [metaTmpMultipartDir; sha256_hex object]) uploadID
              (Z.of_nat (length parts) - 1) parts fs 0 0 0) as [[t E]|E].
  - exfalso. eapply check_parts_ok; eassumption.
  - rewrite E. reflexivity.
Qed.


(** ** Object lock *)

Lemma require_bucket_lock_disabled p bucket fs :
  lock_disabled p bucket fs →
  require_bucket_lock p bucket fs
  = (Err (APIError ErrInvalidBucketObjectLockConfiguration), fs).
Proof.
  unfold require_bucket_lock. rewrite bind_run. unfold on_err, reads.
  intros [(e & -> & He)|(cfg & c & -> & Hc & Hen)].
  - rewrite He. reflexivity.
  - rewrite Hc, Hen. reflexivity.
Qed.

Lemma require_bucket_lock_enabled p bucket fs :
  lock_enabled p bucket fs → require_bucket_lock p bucket fs = (Ok tt, fs).
Proof.
  unfold require_bucket_lock. rewrite bind_run. unfold on_err, reads.
  intros (cfg & c & -> & Hc & Hen). rewrite Hc, Hen. reflexivity.
Qed.




(** ** The file system and the extended attributes *)

Lemma resolve_empty : resolve "" = Some [].
Proof. reflexivity. Qed.

Lemma resolve_name_nonempty name q :
  resolve name = Some q → q ≠ [] → String.eqb name "" = false.
Proof.
  intros Hr Hq. destruct (String.eqb_spec name "") as [->|]; [|reflexivity].
  rewrite resolve_empty in Hr. congruence.
Qed.

Lemma lookup_node_nonempty fs q : q ≠ [] → lookup_node fs q = fs !! q.
Proof. destruct q; [congruence|reflexivity]. Qed.

Lemma os_Stat_lookup name q n fs :
  resolve name = Some q → q ≠ [] → fs !! q = Some n → os_Stat name fs = Ok n.
Proof.
  intros Hr Hq Hl. unfold os_Stat.
  rewrite (resolve_name_nonempty _ _ Hr Hq), Hr, lookup_node_nonempty, Hl by done.
  reflexivity.
Qed.

Lemma xattr_update_run op bucket object f q n a fs :
  resolve (filepath_Join [bucket; object]) = Some q → q ≠ [] →
  fs !! q = Some n → f (node_attrs n) = Ok a →
  Xattr.update op bucket object f fs = (Ok tt, <[q := set_attrs a n]> fs).
Proof.
  intros Hr Hq Hl Hf. unfold Xattr.update.
  rewrite (resolve_name_nonempty _ _ Hr Hq), Hr.
  destruct q as [|c q]; [congruence|]. rewrite Hl, Hf. reflexivity.
Qed.

Lemma xattr_set_run bucket object k v q n fs :
  resolve (filepath_Join [bucket; object]) = Some q → q ≠ [] →
  fs !! q = Some n →
  Xattr.set bucket object k v fs
  = (Ok tt, <[q := set_attrs (<[k := v]> (node_attrs n)) n]> fs).
Proof. intros. eapply xattr_update_run; eauto. Qed.

Lemma xattr_get_run bucket object k q n fs :
  resolve (filepath_Join [bucket; object]) = Some q → q ≠ [] →
  fs !! q = Some n →
  Xattr.get bucket object k fs
  = match node_attrs n !! k with
    | Some v => Ok v
    | None => Err MetaErrNoSuchKey
    end.
Proof.
  intros Hr Hq Hl. unfold Xattr.get.
  rewrite (os_Stat_lookup _ _ _ _ Hr Hq Hl). reflexivity.
Qed.

Lemma node_attrs_set a n : node_attrs (set_attrs a n) = a.
Proof. destruct n; reflexivity. Qed.

Lemma set_attrs_set a b n : set_attrs a (set_attrs b n) = set_attrs a n.
Proof. destruct n; reflexivity. Qed.

Lemma IsDir_set_attrs a n : IsDir (set_attrs a n) = IsDir n.
Proof. destruct n; reflexivity. Qed.

(** [mkdir_all] keeps what is there and succeeds when no regular file
    stands on the way; the directory is there afterwards. *)
Lemma mkdir_all_keeps rest name : ∀ pre fs r fs' k n,
  mkdir_all pre rest name fs = (r, fs') → fs !! k = Some n → fs' !! k = Some n.
Proof.
  induction rest as [|c rest IH]; intros pre fs r fs' k n; simpl.
  - intros [= _ <-]. done.
  - destruct (fs !! (pre ++ [c])%list) as [[d a|a]|] eqn:E.
    + intros [= _ <-]. done.
    + apply IH.
    + intros Hm Hk. eapply IH; [exact Hm|].
      rewrite lookup_insert_ne; [exact Hk|]. congruence.
Qed.

Lemma mkdir_all_ok rest name : ∀ pre fs,
  (∀ q' d a, q' `prefix_of` (pre ++ rest)%list → fs !! q' ≠ Some (File d a)) →
  ∃ fs', mkdir_all pre rest name fs = (Ok tt, fs')
         ∧ (rest ≠ [] → ∃ a, fs' !! (pre ++ rest)%list = Some (Dir a)).
Proof.
  induction rest as [|c rest IH]; intros pre fs Hfree; simpl.
  - eexists. split; [reflexivity|]. congruence.
  - assert (∀ fs1,
              (∀ q' d a, q' `prefix_of` ((pre ++ [c]) ++ rest)%list →
                         fs1 !! q' ≠ Some (File d a)) →
              (∃ a, fs1 !! (pre ++ [c])%list = Some (Dir a)) →
              ∃ fs', mkdir_all (pre ++ [c])%list rest name fs1 = (Ok tt, fs')
                     ∧ (c :: rest ≠ [] →
                        ∃ a, fs' !! (pre ++ c :: rest)%list = Some (Dir a)))
      as Hstep.
    { intros fs1 Hfree1 [a Ha].
      destruct (IH (pre ++ [c])%list fs1 Hfree1) as (fs' & Hm & Hd).
      exists fs'. split; [exact Hm|]. intros _.
      destruct rest as [|c' rest'].
      - simpl in Hm. injection Hm as <-. exists a. exact Ha.
      - rewrite (cons_middle c pre), app_assoc. apply Hd. congruence. }
    destruct (fs !! (pre ++ [c])%list) as [[d a|a]|] eqn:E.
    + exfalso. eapply (Hfree (pre ++ [c])%list); [|exact E].
      apply prefix_app, prefix_cons, prefix_nil.
    + apply Hstep; [|eauto].
      intros q' d' a'. rewrite <- app_assoc. apply Hfree.
    + apply Hstep.
      * intros q' d' a' Hp.
        destruct (decide (q' = (pre ++ [c])%list)) as [->|Hne].
        -- rewrite lookup_insert_eq. congruence.
        -- rewrite lookup_insert_ne by congruence.
           apply Hfree. rewrite <- app_assoc in Hp. exact Hp.
      * exists ∅. apply lookup_insert_eq.
Qed.

Lemma backend_MkdirAll_ok name fs :
  can_mkdir name fs →
  ∃ fs' q a, backend_MkdirAll name fs = (Ok tt, fs')
             ∧ resolve name = Some q ∧ q ≠ []
             ∧ fs' !! q = Some (Dir a)
             ∧ ∀ k n, fs !! k = Some n → fs' !! k = Some n.
Proof.
  intros (q & Hr & Hq & Hfree). unfold backend_MkdirAll.
  rewrite (resolve_name_nonempty _ _ Hr Hq), Hr.
  destruct (mkdir_all_ok q name [] fs Hfree) as (fs' & Hm & Hd).
  destruct (Hd Hq) as [a Ha].
  exists fs', q, a. split; [exact Hm|]. split; [reflexivity|].
  split; [exact Hq|]. split; [exact Ha|].
  intros k n. eapply mkdir_all_keeps, Hm.
Qed.


(** ** User metadata *)

Lemma string_app_inv_head (pre a b : string) : pre ++ a = pre ++ b → a = b.
Proof. induction pre as [|c pre IH]; simpl; [done|]. intros [= E]. auto. Qed.

Lemma store_all_other kvs key : ∀ a,
  (∀ k v, (k, v) ∈ kvs → metaHdr ++ "." ++ k ≠ key) →
  store_all kvs a !! key = a !! key.
Proof.
  induction kvs as [|[k0 v0] r IH]; intros a Hne; [reflexivity|].
  unfold store_all in *. cbn [fold_left]. rewrite IH.
  - apply lookup_insert_ne. apply (Hne k0 v0). left.
  - intros k v Hin. apply (Hne k v). right. exact Hin.
Qed.

Lemma store_all_lookup kvs k v : ∀ a,
  NoDup kvs.*1 → (k, v) ∈ kvs →
  store_all kvs a !! (metaHdr ++ "." ++ k) = Some (bytes_of v).
Proof.
  induction kvs as [|[k0 v0] r IH]; intros a Hnd Hin.
  - inversion Hin.
  - apply NoDup_cons in Hnd as [Hk0 Hnd].
    apply elem_of_cons in Hin as [[= -> ->]|Hin].
    + unfold store_all. cbn [fold_left]. fold (store_all r).
      rewrite store_all_other.
      * apply lookup_insert_eq.
      * intros k v Hin E. apply string_app_inv_head in E.
        apply (string_app_inv_head ".") in E. subst k.
        apply Hk0. apply list_elem_of_fmap. exists (k0, v). done.
    + unfold store_all. cbn [fold_left]. apply IH; assumption.
Qed.

Lemma put_user_meta_run bucket key kvs : ∀ fs q n,
  resolve (filepath_Join [bucket; key]) = Some q → q ≠ [] →
  fs !! q = Some n →
  put_user_meta posix_xattr bucket key kvs fs
  = (Ok tt, <[q := set_attrs (store_all kvs (node_attrs n)) n]> fs).
Proof.
  induction kvs as [|[k v] r IH]; intros fs q n Hr Hq Hl.
  - simpl. unfold mret, M_ret. f_equal. symmetry. apply insert_id.
    rewrite Hl. destruct n; reflexivity.
  - cbn [put_user_meta]. rewrite bind_run. unfold on_err.
    cbn [meta posix_xattr StoreAttribute XattrMeta].
    rewrite (xattr_set_run _ _ _ _ _ _ _ Hr Hq Hl).
    rewrite (IH _ q _ Hr Hq (lookup_insert_eq _ _ _)).
    rewrite insert_insert_eq, node_attrs_set, set_attrs_set. reflexivity.
Qed.

(** ** PutObject of a directory object *)

Lemma parse_tags_run tagging fs :
  valid_tagging tagging →
  ∃ tags,
    reads (λ _, if String.eqb (default "" tagging) "" then Ok ∅
                else parse_tags (split_on "&"%char (default "" tagging)) ∅) fs
    = (Ok tags, fs).
Proof.
  unfold reads. intros [->|Hv].
  - exists ∅. reflexivity.
  - destruct (String.eqb _ ""); [exists ∅; reflexivity|].
    destruct (parse_tags _ ∅) as [t|e]; [|discriminate]. exists t. reflexivity.
Qed.

Lemma emptyMD5_is_md5 : emptyMD5 = hex_EncodeToString (md5_Sum []).
Proof. vm_compute. reflexivity. Qed.

(** C7.  A put of a key that ends with a slash, on an existing bucket
    and with a tagging header that can be read: with a content length
    other than zero it returns [DirectoryObjectContainsData] and changes
    nothing, with any metadata store; with the content length zero (no
    body) and the extended-attribute store, wherever a directory can be
    made, the directory is there afterwards, it carries every user
    metadata attribute of the request, and the etag stored on it and
    returned is the MD5 of the empty string,
    d41d8cd98f00b204e9800998ecf8427e. *)
Theorem PutObject_directory (p : Posix) (po : PutObjectInput)
    (bucket key : string) (fs : fsys) :
  po_Bucket po = Some bucket →
  po_Key po = Some key →
  strings_HasSuffix key "/" = true →
  is_Ok (os_Stat bucket fs) = true →
  valid_tagging (po_Tagging po) →
  (default 0 (po_ContentLength po) ≠ 0 →
   PutObject p po fs = (Err (APIError ErrDirectoryObjectContainsData), fs))
  ∧ (default 0 (po_ContentLength po) = 0 →
     can_mkdir (filepath_Join [bucket; key]) fs →
     ∃ fs' attrs,
       PutObject posix_xattr po fs = (Ok emptyMD5, fs')
       ∧ emptyMD5 = hex_EncodeToString (md5_Sum [])
       ∧ emptyMD5 = "d41d8cd98f00b204e9800998ecf8427e"
       ∧ os_Stat (filepath_Join [bucket; key]) fs' = Ok (Dir attrs)
       ∧ attrs !! etagkey = Some (bytes_of emptyMD5)
       ∧ ∀ k v, po_Metadata po !! k = Some v →
                attrs !! (metaHdr ++ "." ++ k) = Some (bytes_of v)).
Proof.
  intros HB HK Hsuf Hb Htag. split.
  - intros Hlen. unfold PutObject. rewrite HB, HK.
    rewrite (bind_ok _ _ _ _ _ (stat_bucket_ok _ _ Hb)).
    destruct (parse_tags_run _ fs Htag) as [tags Ht].
    rewrite (bind_ok _ _ _ _ _ Ht). rewrite Hsuf.
    apply Z.eqb_neq in Hlen. rewrite Hlen. reflexivity.
  - intros Hlen Hmk. unfold PutObject. rewrite HB, HK.
    rewrite (bind_ok _ _ _ _ _ (stat_bucket_ok _ _ Hb)).
    destruct (parse_tags_run _ fs Htag) as [tags Ht].
    rewrite (bind_ok _ _ _ _ _ Ht). rewrite Hsuf, Hlen. cbn [Z.eqb negb].
    destruct (backend_MkdirAll_ok _ _ Hmk) as (fs1 & q & a & Hm & Hr & Hq & Hd & _).
    rewrite bind_run. unfold on_err at 1. rewrite Hm.
    rewrite (bind_ok _ _ _ _ _ (put_user_meta_run _ _ _ _ _ _ Hr Hq Hd)).
    rewrite bind_run. unfold on_err at 1.
    cbn [meta posix_xattr StoreAttribute XattrMeta].
    rewrite (xattr_set_run _ _ _ _ _ _ _ Hr Hq (lookup_insert_eq _ _ _)).
    cbn [set_attrs node_attrs]. rewrite insert_insert_eq.
    eexists _, _. split; [reflexivity|].
    split; [apply emptyMD5_is_md5|]. split; [reflexivity|].
    split; [apply (os_Stat_lookup _ _ _ _ Hr Hq), lookup_insert_eq|].
    split; [apply lookup_insert_eq|].
    intros k v Hkv. rewrite lookup_insert_ne by (unfold metaHdr, etagkey; discriminate).
    apply store_all_lookup.
    + apply NoDup_fst_map_to_list.
    + apply elem_of_map_to_list. exact Hkv.
Qed.


(** ** PutObject of a file, then GetObject *)

Lemma os_Stat_insert name q n fs :
  is_Ok (os_Stat name fs) = true → is_Ok (os_Stat name (<[q := n]> fs)) = true.
Proof.
  unfold os_Stat. destruct (String.eqb name ""); [done|].
  destruct (resolve name) as [k|]; [|done].
  destruct k as [|c k]; [done|]. cbn [lookup_node].
  destruct (decide (q = c :: k)) as [->|Hne].
  - rewrite lookup_insert_eq. done.
  - rewrite lookup_insert_ne by done. destruct (fs !! (c :: k)); done.
Qed.

Lemma os_Stat_keeps name fs fs' :
  (∀ k n, fs !! k = Some n → fs' !! k = Some n) →
  is_Ok (os_Stat name fs) = true → is_Ok (os_Stat name fs') = true.
Proof.
  intros Hk. unfold os_Stat. destruct (String.eqb name ""); [done|].
  destruct (resolve name) as [k|]; [|done].
  destruct k as [|c k]; [done|]. cbn [lookup_node].
  destruct (fs !! (c :: k)) as [n|] eqn:E; [|done].
  rewrite (Hk _ _ E). done.
Qed.

Lemma backend_MkdirAll_keeps name fs r fs' k n :
  backend_MkdirAll name fs = (r, fs') → fs !! k = Some n → fs' !! k = Some n.
Proof.
  unfold backend_MkdirAll. destruct (String.eqb name ""); [intros [= _ <-]; done|].
  destruct (resolve name) as [q|]; [|intros [= _ <-]; done].
  apply mkdir_all_keeps.
Qed.

Lemma openTmpFile_ok dir bucket obj size fs f fs' :
  openTmpFile dir bucket obj size fs = (Ok f, fs') →
  f = {| tmp_bucket := bucket; tmp_objname := obj; tmp_data := [] |}
  ∧ ∀ k n, fs !! k = Some n → fs' !! k = Some n.
Proof.
  unfold openTmpFile. rewrite bind_run. unfold on_err.
  destruct (backend_MkdirAll dir fs) as [[[]|e] fs1] eqn:E.
  - intros [= <- <-]. split; [reflexivity|].
    intros k n. eapply backend_MkdirAll_keeps, E.
  - discriminate.
Qed.

Lemma openTmpFile_mkdir dir bucket obj size fs f fs' :
  openTmpFile dir bucket obj size fs = (Ok f, fs') →
  f = {| tmp_bucket := bucket; tmp_objname := obj; tmp_data := [] |}
  ∧ backend_MkdirAll dir fs = (Ok tt, fs').
Proof.
  unfold openTmpFile. rewrite bind_run. unfold on_err.
  destruct (backend_MkdirAll dir fs) as [[[]|e] fs1] eqn:E.
  - intros [= <- <-]. done.
  - discriminate.
Qed.

Lemma tmp_link_ok f fs fs' :
  tmp_link f fs = (Ok tt, fs') →
  ∃ q, resolve (filepath_Join [tmp_bucket f; tmp_objname f]) = Some q
       ∧ q ≠ [] ∧ fs' = <[q := File (tmp_data f) ∅]> fs.
Proof.
  unfold tmp_link.
  destruct (resolve _) as [q|]; [|discriminate].
  destruct q as [|c q]; [discriminate|].
  destruct (negb _); [discriminate|].
  destruct (fs !! (c :: q)) as [[d a|a]|]; try discriminate;
    intros [= <-]; exists (c :: q); done.
Qed.

Lemma tmp_link_parent f fs fs' q :
  tmp_link f fs = (Ok tt, fs') →
  resolve (filepath_Join [tmp_bucket f; tmp_objname f]) = Some q →
  is_dir fs (removelast q) = true.
Proof.
  unfold tmp_link. intros E Hr. rewrite Hr in E.
  destruct q as [|c q]; [discriminate|].
  destruct (is_dir fs (removelast (c :: q))); [reflexivity|discriminate].
Qed.

(** A store of an attribute on the object by one of the operations that
    [PutObject] calls after the link. *)
Lemma store_step bucket key K V q n fs (h : error → M unit) r fs' :
  resolve (filepath_Join [bucket; key]) = Some q → q ≠ [] →
  fs !! q = Some n →
  on_err (StoreAttribute (meta posix_xattr) bucket key K V) h fs = (r, fs') →
  r = Ok tt ∧ fs' = <[q := set_attrs (<[K := V]> (node_attrs n)) n]> fs.
Proof.
  intros Hr Hq Hl. unfold on_err. cbn [meta posix_xattr StoreAttribute XattrMeta].
  rewrite (xattr_set_run _ _ _ _ _ _ _ Hr Hq Hl). intros [= <- <-]. done.
Qed.

Lemma PutObjectTagging_ok bucket key tags q n fs fs' :
  resolve (filepath_Join [bucket; key]) = Some q → q ≠ [] →
  fs !! q = Some n →
  PutObjectTagging posix_xattr bucket key (Some tags) fs = (Ok tt, fs') →
  fs' = <[q := set_attrs (<[tagHdr := json_Marshal_tags tags]> (node_attrs n)) n]> fs.
Proof.
  intros Hr Hq Hl. unfold PutObjectTagging. rewrite bind_run, stat_bucket_run.
  destruct (os_Stat bucket fs) as [b|e].
  - intros E. eapply store_step in E as [_ ->]; eauto.
  - destruct (is_ErrNotExist e); discriminate.
Qed.

Lemma require_bucket_lock_state p bucket fs : (require_bucket_lock p bucket fs).2 = fs.
Proof.
  unfold require_bucket_lock. rewrite bind_run. unfold on_err, reads.
  destruct (RetrieveAttribute _ _ _ _ fs) as [cfg|e].
  - destruct (json_Unmarshal_BucketLockConfig cfg) as [c|]; [|reflexivity].
    destruct (negb (Enabled c)); reflexivity.
  - destruct (is_MetaErrNoSuchKey e); reflexivity.
Qed.

Lemma PutObjectLegalHold_ok bucket key v status q n fs fs' :
  resolve (filepath_Join [bucket; key]) = Some q → q ≠ [] →
  fs !! q = Some n →
  PutObjectLegalHold posix_xattr bucket key v status fs = (Ok tt, fs') →
  fs' = <[q := set_attrs (<[objectLegalHoldKey := if status then [x01] else [x00]]>
                             (node_attrs n)) n]> fs.
Proof.
  intros Hr Hq Hl. unfold PutObjectLegalHold. rewrite bind_run, stat_bucket_run.
  destruct (os_Stat bucket fs) as [b|e].
  - rewrite bind_run.
    pose proof (require_bucket_lock_state posix_xattr bucket fs) as Hs.
    destruct (require_bucket_lock posix_xattr bucket fs) as [[[]|e] fs1];
      simpl in Hs; subst fs1; [|discriminate].
    intros E. eapply store_step in E as [_ ->]; eauto.
  - destruct (is_ErrNotExist e); discriminate.
Qed.

Lemma PutObjectRetention_ok bucket key v retention q n fs fs' :
  resolve (filepath_Join [bucket; key]) = Some q → q ≠ [] →
  fs !! q = Some n →
  PutObjectRetention posix_xattr bucket key v retention fs = (Ok tt, fs') →
  fs' = <[q := set_attrs (<[objectRetentionKey := retention]> (node_attrs n)) n]> fs.
Proof.
  intros Hr Hq Hl. unfold PutObjectRetention. rewrite bind_run, stat_bucket_run.
  destruct (os_Stat bucket fs) as [b|e].
  - rewrite bind_run.
    pose proof (require_bucket_lock_state posix_xattr bucket fs) as Hs.
    destruct (require_bucket_lock posix_xattr bucket fs) as [[[]|e] fs1];
      simpl in Hs; subst fs1; [|discriminate].
    intros E. eapply store_step in E as [_ ->]; eauto.
  - destruct (is_ErrNotExist e); discriminate.
Qed.


(** What a successful put of a file leaves behind: the tree after the
    staging directory and the parents of the object were made, with the
    object linked into it. *)
Lemma PutObject_file_tree po bucket key fs etag fs' :
  po_Bucket po = Some bucket →
  po_Key po = Some key →
  strings_HasSuffix key "/" = false →
  PutObject posix_xattr po fs = (Ok etag, fs') →
  etag = hex_EncodeToString (md5_Sum (po_Body po))
  ∧ is_Ok (os_Stat bucket fs) = true
  ∧ ∃ q attrs fs1 fs2,
      resolve (filepath_Join [bucket; key]) = Some q ∧ q ≠ []
      ∧ backend_MkdirAll (filepath_Join [bucket; metaTmpDir]) fs = (Ok tt, fs1)
      ∧ (if String.eqb (filepath_Dir (filepath_Join [bucket; key])) ""
         then fs2 = fs1
         else backend_MkdirAll (filepath_Dir (filepath_Join [bucket; key])) fs1
              = (Ok tt, fs2))
      ∧ is_dir fs2 (removelast q) = true
      ∧ fs' = <[q := File (po_Body po) attrs]> fs2
      ∧ attrs !! etagkey = Some (bytes_of etag)
      ∧ (attrs !! tagHdr = None
         ∨ ∃ t, attrs !! tagHdr = Some (json_Marshal_tags t)).
Proof.
  intros HB HK Hsuf. unfold PutObject. rewrite HB, HK, Hsuf.
  rewrite bind_run, stat_bucket_run.
  destruct (os_Stat bucket fs) as [nb|e] eqn:Hb;
    [|destruct (is_ErrNotExist e); discriminate].
  rewrite bind_run. unfold reads at 1.
  match goal with |- context [if String.eqb ?t "" then Ok ∅ else ?pt] =>
    destruct (if String.eqb t "" then Ok ∅ else pt) as [tags|e] eqn:Ht end;
    [|discriminate].
  rewrite bind_run. unfold attempt at 1, reads at 1.
  destruct (match os_Stat (filepath_Join [bucket; key]) fs with
            | Ok fi => IsDir fi
            | Err _ => false
            end); [discriminate|].
  rewrite bind_run. unfold on_err at 1.
  destruct (openTmpFile _ bucket key _ fs) as [[f|e] fs1] eqn:Ho;
    [|destruct (is_EDQUOT e); discriminate].
  apply openTmpFile_mkdir in Ho as [-> Hmk1].
  rewrite bind_run.
  match goal with |- context [(if ?c then mret tt else ?m) fs1] =>
    destruct ((if c then mret tt else m) fs1) as [[[]|e] fs2] eqn:Hd end;
    [|discriminate].
  assert (if String.eqb (filepath_Dir (filepath_Join [bucket; key])) ""
          then fs2 = fs1
          else backend_MkdirAll (filepath_Dir (filepath_Join [bucket; key])) fs1
               = (Ok tt, fs2)) as Hmk2.
  { destruct (String.eqb (filepath_Dir (filepath_Join [bucket; key])) "").
    - injection Hd as <-. done.
    - unfold on_err in Hd.
      destruct (backend_MkdirAll _ fs1) as [[[]|e] fsx] eqn:Hm; [|discriminate].
      injection Hd as <-. reflexivity. }
  rewrite bind_run. unfold on_err at 1.
  destruct (tmp_link _ fs2) as [[[]|e] fs3] eqn:Hl; [|discriminate].
  pose proof Hl as Hl'.
  apply tmp_link_ok in Hl as (q & Hr & Hq & ->).
  pose proof (tmp_link_parent _ _ _ _ Hl' Hr) as Hpar. clear Hl'.
  cbn [tmp_write tmp_bucket tmp_objname tmp_data app] in Hr |- *.
  rewrite (bind_ok _ _ _ _ _
             (put_user_meta_run _ _ _ _ _ _ Hr Hq (lookup_insert_eq _ _ _))).
  rewrite insert_insert_eq. cbn [set_attrs node_attrs].
  assert (store_all (map_to_list (po_Metadata po)) ∅ !! tagHdr = None) as Htag0.
  { rewrite store_all_other; [apply lookup_empty|].
    intros k v _. unfold metaHdr, tagHdr. discriminate. }
  revert Htag0. generalize (store_all (map_to_list (po_Metadata po)) ∅).
  intros a0 Htag0.
  (* tagging *)
  rewrite bind_run.
  match goal with |- context [(if ?c then mret tt else ?m) ?st] =>
    destruct ((if c then mret tt else m) st) as [[[]|e] fs4] eqn:Hs end;
    [|discriminate].
  assert (∃ a1, fs4 = <[q := File (po_Body po) a1]> fs2
                ∧ (a1 !! tagHdr = None
                   ∨ ∃ t, a1 !! tagHdr = Some (json_Marshal_tags t))) as (a1 & -> & Htag1).
  { destruct (String.eqb (default "" (po_Tagging po)) "").
    - injection Hs as <-. exists a0. split; [reflexivity|left; exact Htag0].
    - eapply PutObjectTagging_ok in Hs; [|exact Hr|exact Hq|apply lookup_insert_eq].
      subst fs4. rewrite insert_insert_eq. cbn [set_attrs node_attrs].
      eexists. split; [reflexivity|]. right. exists tags. apply lookup_insert_eq. }
  clear Hs Htag0 a0.
  (* legal hold *)
  rewrite bind_run.
  match goal with |- context [(if ?c then ?m else mret tt) ?st] =>
    destruct ((if c then m else mret tt) st) as [[[]|e] fs5] eqn:Hs end;
    [|discriminate].
  assert (∃ a2, fs5 = <[q := File (po_Body po) a2]> fs2
                ∧ (a2 !! tagHdr = None
                   ∨ ∃ t, a2 !! tagHdr = Some (json_Marshal_tags t))) as (a2 & -> & Htag2).
  { destruct (String.eqb (po_ObjectLockLegalHoldStatus po) "ON").
    - eapply PutObjectLegalHold_ok in Hs; [|exact Hr|exact Hq|apply lookup_insert_eq].
      subst fs5. rewrite insert_insert_eq. cbn [set_attrs node_attrs].
      eexists. split; [reflexivity|].
      rewrite lookup_insert_ne by (unfold objectLegalHoldKey, tagHdr; discriminate).
      exact Htag1.
    - injection Hs as <-. exists a1. split; [reflexivity|exact Htag1]. }
  clear Hs Htag1 a1.
  (* retention *)
  rewrite bind_run.
  match goal with |- context [(if ?c then mret tt else ?m) ?st] =>
    destruct ((if c then mret tt else m) st) as [[[]|e] fs6] eqn:Hs end;
    [|discriminate].
  assert (∃ a3, fs6 = <[q := File (po_Body po) a3]> fs2
                ∧ (a3 !! tagHdr = None
                   ∨ ∃ t, a3 !! tagHdr = Some (json_Marshal_tags t))) as (a3 & -> & Htag3).
  { destruct (String.eqb (po_ObjectLockMode po) "").
    - injection Hs as <-. exists a2. split; [reflexivity|exact Htag2].
    - eapply PutObjectRetention_ok in Hs; [|exact Hr|exact Hq|apply lookup_insert_eq].
      subst fs6. rewrite insert_insert_eq. cbn [set_attrs node_attrs].
      eexists. split; [reflexivity|].
      rewrite lookup_insert_ne by (unfold objectRetentionKey, tagHdr; discriminate).
      exact Htag2. }
  clear Hs Htag2 a2.
  (* etag *)
  rewrite bind_run.
  match goal with |- context [on_err ?m ?h ?st] =>
    destruct (on_err m h st) as [r fs7] eqn:Hs end.
  eapply store_step in Hs as [-> ->]; [|exact Hr|exact Hq|apply lookup_insert_eq].
  rewrite insert_insert_eq. cbn [set_attrs node_attrs].
  intros [= <- <-]. split; [reflexivity|]. split; [reflexivity|].
  eexists q, _, fs1, fs2. split; [exact Hr|]. split; [exact Hq|].
  split; [exact Hmk1|]. split; [exact Hmk2|]. split; [exact Hpar|].
  split; [reflexivity|]. split; [apply lookup_insert_eq|].
  rewrite lookup_insert_ne by (unfold etagkey, tagHdr; discriminate).
  exact Htag3.
Qed.

Lemma PutObject_file_state po bucket key fs etag fs' :
  po_Bucket po = Some bucket →
  po_Key po = Some key →
  strings_HasSuffix key "/" = false →
  PutObject posix_xattr po fs = (Ok etag, fs') →
  etag = hex_EncodeToString (md5_Sum (po_Body po))
  ∧ is_Ok (os_Stat bucket fs') = true
  ∧ ∃ q attrs,
      resolve (filepath_Join [bucket; key]) = Some q ∧ q ≠ []
      ∧ fs' !! q = Some (File (po_Body po) attrs)
      ∧ attrs !! etagkey = Some (bytes_of etag)
      ∧ (attrs !! tagHdr = None
         ∨ ∃ t, attrs !! tagHdr = Some (json_Marshal_tags t)).
Proof.
  intros HB HK Hsuf Hput.
  destruct (PutObject_file_tree _ _ _ _ _ _ HB HK Hsuf Hput)
    as (Hetag & Hb & q & attrs & fs1 & fs2 & Hr & Hq & Hm1 & Hm2 & _ & -> & He & Ht).
  split; [exact Hetag|]. split.
  - apply os_Stat_insert.
    assert (∀ k n, fs1 !! k = Some n → fs2 !! k = Some n) as Hk2.
    { destruct (String.eqb (filepath_Dir (filepath_Join [bucket; key])) "").
      - subst fs2. done.
      - intros k n. eapply backend_MkdirAll_keeps, Hm2. }
    eapply os_Stat_keeps; [exact Hk2|].
    eapply os_Stat_keeps; [|exact Hb].
    intros k n. eapply backend_MkdirAll_keeps, Hm1.
  - exists q, attrs. split; [exact Hr|]. split; [exact Hq|].
    split; [apply lookup_insert_eq|]. split; [exact He|exact Ht].
Qed.


Lemma string_of_bytes_of s : string_of (bytes_of s) = s.
Proof. apply string_of_list_byte_of_string. Qed.

Lemma ParseRange_empty size : ParseRange size "" = Ok (0, size).
Proof. reflexivity. Qed.

Lemma ParseRange_from_zero size : ParseRange size "bytes=0-" = Ok (0, -1).
Proof. reflexivity. Qed.

Lemma ParseRange_first_byte size : ParseRange size "bytes=0-0" = Ok (0, 1).
Proof. reflexivity. Qed.

Lemma section_whole (data : bytes) n :
  Z.of_nat (length data) ≤ n → section data 0 n = data.
Proof. intros Hn. unfold section. simpl. apply take_ge. lia. Qed.

Lemma object_output_ok bucket key acceptRange len contentRange q n etag fs :
  (∀ t, is_Some (json_Unmarshal_tags (json_Marshal_tags t))) →
  resolve (filepath_Join [bucket; key]) = Some q → q ≠ [] →
  fs !! q = Some n →
  node_attrs n !! etagkey = Some (bytes_of etag) →
  (node_attrs n !! tagHdr = None
   ∨ ∃ t, node_attrs n !! tagHdr = Some (json_Marshal_tags t)) →
  ∃ out, object_output posix_xattr bucket key acceptRange len contentRange fs
         = Ok out
         ∧ goo_ETag out = etag ∧ goo_ContentLength out = len.
Proof.
  intros Hjson Hr Hq Hl He Ht. unfold object_output.
  destruct (loadUserMetaData posix_xattr bucket key ∅ fs) as [[um ct] ce].
  assert (stored_etag posix_xattr bucket key fs = etag) as Hse.
  { unfold stored_etag. cbn [meta posix_xattr RetrieveAttribute XattrMeta].
    rewrite (xattr_get_run _ _ _ _ _ _ Hr Hq Hl), He. apply string_of_bytes_of. }
  unfold getAttrTags. cbn [meta posix_xattr RetrieveAttribute XattrMeta].
  rewrite (xattr_get_run _ _ _ _ _ _ Hr Hq Hl).
  destruct Ht as [->|[t ->]].
  - simpl. eexists. split; [reflexivity|]. simpl. done.
  - destruct (Hjson t) as [t' ->]. eexists. split; [reflexivity|]. simpl. done.
Qed.

(** A whole-object read of a regular file: the empty range header or
    [bytes=0-]. *)
Lemma GetObject_whole bucket key range q body attrs etag fs :
  (∀ t, is_Some (json_Unmarshal_tags (json_Marshal_tags t))) →
  range = "" ∨ range = "bytes=0-" →
  is_Ok (os_Stat bucket fs) = true →
  resolve (filepath_Join [bucket; key]) = Some q → q ≠ [] →
  fs !! q = Some (File body attrs) →
  attrs !! etagkey = Some (bytes_of etag) →
  (attrs !! tagHdr = None ∨ ∃ t, attrs !! tagHdr = Some (json_Marshal_tags t)) →
  ∃ out,
    GetObject posix_xattr
      {| goi_Bucket := Some bucket; goi_Key := Some key;
         goi_Range := Some range |} fs
    = (Ok (out, body), fs)
    ∧ goo_ETag out = etag.
Proof.
  intros Hjson Hrange Hb Hr Hq Hl He Ht. unfold GetObject.
  cbn [goi_Bucket goi_Key goi_Range].
  rewrite (bind_ok _ _ _ _ _ (stat_bucket_ok _ _ Hb)).
  rewrite bind_run. unfold on_err at 1, reads at 1.
  rewrite (os_Stat_lookup _ _ _ _ Hr Hq Hl).
  rewrite bind_run. unfold reads at 1. cbn [IsDir Size].
  assert (os_ReadFile (filepath_Join [bucket; key]) fs = Ok body) as Hread.
  { unfold os_ReadFile. rewrite (os_Stat_lookup _ _ _ _ Hr Hq Hl). reflexivity. }
  destruct Hrange as [->| ->].
  - rewrite ParseRange_empty.
    assert ((Z.of_nat (length body) =? -1) = false) as -> by (apply Z.eqb_neq; lia).
    assert ((Z.of_nat (length body) + 1 <? 0 + Z.of_nat (length body)) = false)
      as -> by (apply Z.ltb_ge; lia).
    rewrite bind_run. unfold on_err at 1, reads at 1. rewrite Hread.
    rewrite bind_run. unfold reads at 1.
    edestruct (object_output_ok bucket key "" (Z.of_nat (length body)))
      as (out & -> & Hetag & _); [exact Hjson|exact Hr|exact Hq|exact Hl|exact He|exact Ht|].
    exists out. rewrite section_whole by lia. split; [reflexivity|exact Hetag].
  - rewrite ParseRange_from_zero. change (-1 =? -1) with true. cbv iota.
    assert ((Z.of_nat (length body) + 1 <? 0 + (Z.of_nat (length body) - 0 + 1))
            = false) as -> by (apply Z.ltb_ge; lia).
    rewrite bind_run. unfold on_err at 1, reads at 1. rewrite Hread.
    rewrite bind_run. unfold reads at 1.
    edestruct (object_output_ok bucket key "bytes=0-"
                 (Z.of_nat (length body) - 0 + 1))
      as (out & -> & Hetag & _); [exact Hjson|exact Hr|exact Hq|exact Hl|exact He|exact Ht|].
    exists out. rewrite section_whole by lia. split; [reflexivity|exact Hetag].
Qed.

(** C2.  After a successful put of a key that does not end with a slash
    (extended-attribute store), the etag returned is the lower-case
    hexadecimal MD5 of the body, the object carries it as its [etag]
    attribute, and a read of the whole object (no range, or [bytes=0-])
    writes exactly the body and returns the same etag.  The tag set a
    put stores is read back by the JSON decoder, as it is encoded by the
    JSON encoder. *)
Theorem PutObject_GetObject (po : PutObjectInput) (bucket key : string)
    (fs fs' : fsys) (etag range : string) :
  (∀ t, is_Some (json_Unmarshal_tags (json_Marshal_tags t))) →
  po_Bucket po = Some bucket →
  po_Key po = Some key →
  strings_HasSuffix key "/" = false →
  PutObject posix_xattr po fs = (Ok etag, fs') →
  range = "" ∨ range = "bytes=0-" →
  etag = hex_EncodeToString (md5_Sum (po_Body po))
  ∧ RetrieveAttribute (meta posix_xattr) bucket key etagkey fs'
    = Ok (bytes_of etag)
  ∧ ∃ out,
      GetObject posix_xattr
        {| goi_Bucket := Some bucket; goi_Key := Some key;
           goi_Range := Some range |} fs'
      = (Ok (out, po_Body po), fs')
      ∧ goo_ETag out = etag.
Proof.
  intros Hjson HB HK Hsuf Hput Hrange.
  destruct (PutObject_file_state _ _ _ _ _ _ HB HK Hsuf Hput)
    as (Hetag & Hb & q & attrs & Hr & Hq & Hl & He & Ht).
  split; [exact Hetag|]. split.
  - cbn [meta posix_xattr RetrieveAttribute XattrMeta].
    rewrite (xattr_get_run _ _ _ _ _ _ Hr Hq Hl). cbn [node_attrs].
    rewrite He. reflexivity.
  - eapply GetObject_whole; eauto.
Qed.


(** ** Completing a multipart upload *)

Lemma hex_decode_cons x r :
  hex_DecodeString (hex_EncodeToString (x :: r))
  = match hex_DecodeString (hex_EncodeToString r) with
    | Some t => Some (x :: t)
    | None => None
    end.
Proof. destruct x; reflexivity. Qed.

Lemma hex_decode_encode b : hex_DecodeString (hex_EncodeToString b) = Some b.
Proof.
  induction b as [|x r IH]; [reflexivity|]. rewrite hex_decode_cons, IH.
  reflexivity.
Qed.

Lemma etag_bytes_hex b : etag_bytes (hex_EncodeToString b) = b.
Proof. unfold etag_bytes. rewrite hex_decode_encode. reflexivity. Qed.

Lemma le_bytes_length n x : length (MD5.le_bytes n x) = n.
Proof. revert x. induction n; intros x; simpl; [reflexivity|]. rewrite IHn. done. Qed.

(** An MD5 digest has 16 bytes. *)
Lemma md5_Sum_length b : length (md5_Sum b) = 16%nat.
Proof.
  unfold md5_Sum, MD5.sum. destruct (MD5.blocks _ _ _) as [a b' c d].
  rewrite length_map, !length_app, !le_bytes_length. reflexivity.
Qed.

Lemma check_parts_etags p bucket objdir uploadID last parts fs :
  ∀ i ps ts t,
    check_parts p bucket objdir uploadID last i ps ts parts fs = Ok t →
    Forall (λ part,
      stored_etag p bucket (partObjPath objdir uploadID part) fs = ETag part) parts.
Proof.
  induction parts as [|part rest IH]; intros i ps ts t E; [constructor|].
  cbn [check_parts] in E.
  destruct (os_Lstat _ fs) as [fi|e]; [|discriminate].
  destruct (_ && _); [discriminate|].
  destruct (String.eqb (stored_etag p bucket (partObjPath objdir uploadID part) fs)
              (ETag part)) eqn:He; [|discriminate].
  simpl in E. constructor; [apply String.eqb_eq, He|]. eapply IH, E.
Qed.

Lemma os_ReadFile_keeps name d fs fs' :
  (∀ k n, fs !! k = Some n → fs' !! k = Some n) →
  os_ReadFile name fs = Ok d → os_ReadFile name fs' = Ok d.
Proof.
  intros Hk. unfold os_ReadFile, os_Stat.
  destruct (String.eqb name ""); [done|].
  destruct (resolve name) as [q|]; [|done].
  destruct q as [|c q]; [done|]. cbn [lookup_node].
  destruct (fs !! (c :: q)) as [n|] eqn:E; [|done].
  rewrite (Hk _ _ E). done.
Qed.

Lemma copy_parts_run bucket objdir uploadID parts : ∀ datas f fs,
  Forall2 (λ part d,
    os_ReadFile (filepath_Join [bucket; partObjPath objdir uploadID part]) fs
    = Ok d) parts datas →
  copy_parts bucket objdir uploadID parts f fs
  = (Ok {| tmp_bucket := tmp_bucket f; tmp_objname := tmp_objname f;
           tmp_data := (tmp_data f ++ concat datas)%list |}, fs).
Proof.
  induction parts as [|part rest IH]; intros datas f fs HF.
  - inversion HF; subst. simpl. rewrite app_nil_r. destruct f; reflexivity.
  - inversion HF as [|? d ? ds Hd Hrest]; subst.
    cbn [copy_parts]. rewrite bind_run. unfold on_err, reads. rewrite Hd.
    rewrite (IH ds _ fs Hrest). simpl. rewrite <- app_assoc. reflexivity.
Qed.

Lemma store_user_meta_run bucket object objname kvs : ∀ fs q n,
  resolve (filepath_Join [bucket; object]) = Some q → q ≠ [] →
  fs !! q = Some n →
  ∃ a, store_user_meta posix_xattr bucket object objname kvs fs
       = (Ok tt, <[q := set_attrs a n]> fs).
Proof.
  induction kvs as [|[k v] r IH]; intros fs q n Hr Hq Hl.
  - exists (node_attrs n). simpl. unfold mret, M_ret. f_equal. symmetry.
    apply insert_id. rewrite Hl. destruct n; reflexivity.
  - cbn [store_user_meta]. rewrite bind_run. unfold on_err.
    cbn [meta posix_xattr StoreAttribute XattrMeta].
    rewrite (xattr_set_run _ _ _ _ _ _ _ Hr Hq Hl).
    edestruct (IH (<[q := set_attrs (<[k := bytes_of v]> (node_attrs n)) n]> fs) q)
      as [a ->]; [exact Hr|exact Hq|apply lookup_insert_eq|].
    exists a. rewrite insert_insert_eq, set_attrs_set. reflexivity.
Qed.

Lemma os_RemoveAll_spares name q fs :
  (∀ k, resolve name = Some k → ¬ k `prefix_of` q) →
  (os_RemoveAll name fs).2 !! q = fs !! q.
Proof.
  intros Hs. unfold os_RemoveAll. destruct (String.eqb name ""); [done|].
  destruct (resolve name) as [k|]; [|done].
  destruct k as [|c k]; [done|]. cbn [snd].
  destruct (fs !! q) as [n|] eqn:E.
  - apply map_lookup_filter_Some. split; [exact E|]. apply Hs. reflexivity.
  - apply map_lookup_filter_None. left. exact E.
Qed.

Lemma os_Remove_spares name q fs :
  resolve name ≠ Some q → (os_Remove name fs).2 !! q = fs !! q.
Proof.
  intros Hs. unfold os_Remove. destruct (String.eqb name ""); [done|].
  destruct (resolve name) as [k|]; [|done].
  destruct k as [|c k]; [done|].
  assert (c :: k ≠ q) as Hne by congruence.
  destruct (fs !! (c :: k)) as [[d a|a]|]; cbn [snd]; try done.
  - apply lookup_delete_ne, Hne.
  - destruct (has_children fs (c :: k)); cbn [snd]; [done|].
    apply lookup_delete_ne, Hne.
Qed.

Lemma ignore_err_run {A} (m : M A) fs : ignore_err m fs = (Ok tt, (m fs).2).
Proof. unfold ignore_err. destruct (m fs). reflexivity. Qed.


Lemma checkUploadIDExists_inv bucket object uploadID fs s fs1 :
  checkUploadIDExists bucket object uploadID fs = (Ok s, fs1) →
  s = sha256_hex object ∧ fs1 = fs.
Proof.
  unfold checkUploadIDExists. rewrite bind_run. unfold on_err, reads.
  match goal with |- context [os_Stat ?n fs] => destruct (os_Stat n fs) as [nu|e] end.
  - intros [= <- <-]. done.
  - destruct (is_ErrNotExist e); discriminate.
Qed.

(** C3.  When a complete call succeeds on parts as [UploadPart] leaves
    them (extended-attribute store), the etag it returns, which is also
    the etag stored on the object, is the hexadecimal MD5 of the
    concatenation of the 16-byte MD5 digests of the parts, followed by a
    dash and the number of parts, and the published file holds the data
    of the parts in the order of the list.  The object is supposed not
    to lie on one of the paths the call clears at its end. *)
Theorem CompleteMultipartUpload_etag_and_content
    (bucket object uploadID : string) (parts : list CompletedPart)
    (datas : list bytes) (fs fs' : fsys) (out : CompleteMultipartUploadOutput) :
  parts_uploaded posix_xattr bucket
    (filepath_Join [metaTmpMultipartDir; sha256_hex object]) uploadID
    parts datas fs →
  cleanup_spares bucket object uploadID →
  CompleteMultipartUpload posix_xattr
    {| cmu_Bucket := Some bucket; cmu_Key := Some object;
       cmu_UploadId := Some uploadID; cmu_MultipartUpload := Some parts |} fs
  = (Ok out, fs') →
  cmo_ETag out
  = hex_EncodeToString (md5_Sum (concat (map md5_Sum datas)))
    ++ "-" ++ itoa (Z.of_nat (length datas))
  ∧ Forall (λ d, length (md5_Sum d) = 16%nat) datas
  ∧ os_ReadFile (filepath_Join [bucket; object]) fs' = Ok (concat datas)
  ∧ RetrieveAttribute (meta posix_xattr) bucket object etagkey fs'
    = Ok (bytes_of (cmo_ETag out)).
Proof.
  intros Hup [Hc1 Hc2]. unfold CompleteMultipartUpload.
  cbn [cmu_Bucket cmu_Key cmu_UploadId cmu_MultipartUpload].
  rewrite bind_run, stat_bucket_run.
  destruct (os_Stat bucket fs) as [nb|e] eqn:Hb;
    [|destruct (is_ErrNotExist e); discriminate].
  rewrite bind_run.
  destruct (checkUploadIDExists bucket object uploadID fs) as [[s|e] fs0] eqn:Hu;
    [|discriminate].
  apply checkUploadIDExists_inv in Hu as [-> ->].
  set (objdir := filepath_Join [metaTmpMultipartDir; sha256_hex object]) in *.
  rewrite bind_run. unfold reads at 1.
  destruct (check_parts posix_xattr bucket objdir uploadID _ 0 0 0 parts fs)
    as [total|e] eqn:Hcheck; [|discriminate].
  apply check_parts_etags in Hcheck.
  rewrite bind_run. unfold on_err at 1.
  destruct (openTmpFile _ bucket object total fs) as [[f|e] fs1] eqn:Ho;
    [|destruct (is_EDQUOT e); discriminate].
  apply openTmpFile_ok in Ho as [-> Hk1].
  rewrite bind_run.
  rewrite (copy_parts_run bucket objdir uploadID parts datas).
  2:{ eapply Forall2_impl; [exact Hup|]. intros part d [Hd _].
      eapply os_ReadFile_keeps; [exact Hk1|exact Hd]. }
  cbn [tmp_bucket tmp_objname tmp_data app].
  rewrite bind_run. unfold reads at 1.
  destruct (loadUserMetaData posix_xattr bucket objdir ∅ fs1) as [[um ct] ce].
  rewrite bind_run.
  match goal with |- context [(if ?c then mret tt else ?m) fs1] =>
    destruct ((if c then mret tt else m) fs1) as [[[]|e] fs2] eqn:Hd end;
    [|discriminate].
  rewrite bind_run. unfold on_err at 1.
  destruct (tmp_link _ fs2) as [[[]|e] fs3] eqn:Hl; [|discriminate].
  apply tmp_link_ok in Hl as (q & Hr & Hq & ->).
  cbn [tmp_bucket tmp_objname tmp_data] in Hr |- *.
  rewrite bind_run.
  edestruct (store_user_meta_run bucket object (filepath_Join [bucket; object])
               (map_to_list um)) as [a ->];
    [exact Hr|exact Hq|apply lookup_insert_eq|].
  rewrite insert_insert_eq. cbn [set_attrs].
  rewrite bind_run. unfold on_err at 1.
  cbn [meta posix_xattr StoreAttribute XattrMeta].
  rewrite (xattr_set_run _ _ _ _ _ _ _ Hr Hq (lookup_insert_eq _ _ _)).
  rewrite insert_insert_eq. cbn [set_attrs node_attrs].
  rewrite bind_run, ignore_err_run. rewrite bind_run, ignore_err_run.
  unfold mret at 1, M_ret at 1. intros [= <- <-]. cbn [cmo_ETag].
  assert (map (λ part, etag_bytes (ETag part)) parts = map md5_Sum datas) as Hmd5.
  { clear -Hup Hcheck. induction Hup as [|part d ps ds [_ Hs] _ IH]; [reflexivity|].
    apply Forall_cons in Hcheck as [He Hcheck]. cbn [map]. f_equal.
    - rewrite <- He, Hs. apply etag_bytes_hex.
    - apply IH, Hcheck. }
  assert (length parts = length datas) as Hlen by (eapply Forall2_length, Hup).
  unfold GetMultipartMD5. rewrite Hmd5, Hlen.
  split; [reflexivity|].
  split; [apply Forall_forall; intros; apply md5_Sum_length|].
  match goal with |- context [os_Remove ?n ?st] =>
    assert ((os_Remove n st).2 !! q = st !! q) as Hq1
      by (apply os_Remove_spares; rewrite <- Hr; exact Hc1) end.
  rewrite os_RemoveAll_spares in Hq1 by (intros k Hk; eapply Hc2; eauto).
  rewrite lookup_insert_eq in Hq1.
  split.
  - unfold os_ReadFile. rewrite (os_Stat_lookup _ _ _ _ Hr Hq Hq1). reflexivity.
  - cbn [meta posix_xattr RetrieveAttribute XattrMeta].
    rewrite (xattr_get_run _ _ _ _ _ _ Hr Hq Hq1). cbn [node_attrs].
    rewrite lookup_insert_eq. reflexivity.
Qed.

(** [UploadPart] leaves a part as the theorem above takes it: the part
    file holds the body, the etag kept with it and returned is the
    hexadecimal MD5 of the body. *)
Lemma UploadPart_leaves_part (input : UploadPartInput)
    (bucket object : string) (fs fs' : fsys) (etag : string) :
  upi_Bucket input = Some bucket →
  upi_Key input = Some object →
  UploadPart posix_xattr input fs = (Ok etag, fs') →
  let objdir := filepath_Join [metaTmpMultipartDir; sha256_hex object] in
  let part := {| PartNumber := upi_PartNumber input; ETag := etag |} in
  etag = hex_EncodeToString (md5_Sum (upi_Body input))
  ∧ parts_uploaded posix_xattr bucket objdir (upi_UploadId input)
      [part] [upi_Body input] fs'.
Proof.
  intros HB HK. unfold UploadPart. rewrite HB, HK.
  rewrite bind_run, stat_bucket_run.
  destruct (os_Stat bucket fs) as [nb|e] eqn:Hb;
    [|destruct (is_ErrNotExist e); discriminate].
  rewrite bind_run. unfold on_err at 1, reads at 1.
  match goal with |- context [os_Stat ?n fs] =>
    destruct (os_Stat n fs) as [nu|e] eqn:Hu end;
    [|destruct (is_ErrNotExist e); discriminate].
  rewrite bind_run. unfold on_err at 1.
  match goal with |- context [openTmpFile ?d ?b ?o ?s fs] =>
    destruct (openTmpFile d b o s fs) as [[f|e] fs1] eqn:Ho end;
    [|destruct (is_EDQUOT e); discriminate].
  apply openTmpFile_ok in Ho as [-> Hk1].
  rewrite bind_run. unfold on_err at 1.
  destruct (tmp_link _ fs1) as [[[]|e] fs2] eqn:Hl; [|discriminate].
  apply tmp_link_ok in Hl as (q & Hr & Hq & ->).
  cbn [tmp_write tmp_bucket tmp_objname tmp_data app] in Hr |- *.
  rewrite bind_run. unfold on_err at 1.
  cbn [meta posix_xattr StoreAttribute XattrMeta].
  rewrite (xattr_set_run _ _ _ _ _ _ _ Hr Hq (lookup_insert_eq _ _ _)).
  rewrite insert_insert_eq. cbn [set_attrs node_attrs].
  unfold mret at 1, M_ret at 1. intros [= <- <-].
  split; [reflexivity|]. constructor; [|constructor].
  unfold partObjPath. cbn [PartNumber]. split.
  - unfold os_ReadFile.
    rewrite (os_Stat_lookup _ _ _ _ Hr Hq (lookup_insert_eq _ _ _)). reflexivity.
  - unfold stored_etag. cbn [meta posix_xattr RetrieveAttribute XattrMeta].
    rewrite (xattr_get_run _ _ _ _ _ _ Hr Hq (lookup_insert_eq _ _ _)).
    cbn [node_attrs]. rewrite lookup_insert_eq. apply string_of_bytes_of.
Qed.


(** ** Paths made of plain names *)

Lemma string_app_assoc (a b c : string) : (a ++ b) ++ c = a ++ b ++ c.
Proof.
  induction a as [|x a IH]; [reflexivity|].
  change (String x ((a ++ b) ++ c) = String x (a ++ b ++ c)). f_equal. exact IH.
Qed.

Lemma join_slash_cons x y l :
  join_slash (x :: y :: l) = x ++ "/" ++ join_slash (y :: l).
Proof. reflexivity. Qed.

Lemma split_on_app x s :
  no_slash x = true →
  split_on slash (x ++ String slash s) = x :: split_on slash s.
Proof.
  induction x as [|c x IH]; simpl.
  - intros _. reflexivity.
  - intros Hx. apply andb_true_iff in Hx as [Hc Hx].
    apply negb_true_iff in Hc. rewrite Hc, (IH Hx). reflexivity.
Qed.

Lemma split_on_plain x : no_slash x = true → split_on slash x = [x].
Proof.
  induction x as [|c x IH]; simpl; [reflexivity|].
  intros Hx. apply andb_true_iff in Hx as [Hc Hx].
  apply negb_true_iff in Hc. rewrite Hc, (IH Hx). reflexivity.
Qed.

Lemma split_join l :
  l ≠ [] → Forall (λ x, no_slash x = true) l →
  split_on slash (join_slash l) = l.
Proof.
  induction l as [|x l IH]; [congruence|]. intros _ HF.
  apply Forall_cons in HF as [Hx HF]. destruct l as [|y l].
  - apply split_on_plain, Hx.
  - rewrite join_slash_cons. change ("/" ++ ?s) with (String slash s).
    rewrite (split_on_app _ _ Hx), IH; [reflexivity|congruence|exact HF].
Qed.

Lemma valid_name_no_slash x : valid_name x = true → no_slash x = true.
Proof. unfold valid_name. rewrite !andb_true_iff. tauto. Qed.

Lemma clean_step_valid r st x :
  valid_name x = true → clean_step r st x = x :: st.
Proof.
  unfold valid_name, clean_step. rewrite !andb_true_iff, !negb_true_iff.
  intros [[[_ ->] ->] ->]. reflexivity.
Qed.

Lemma clean_fold_valid r l : ∀ st,
  Forall (λ x, valid_name x = true) l →
  fold_left (clean_step r) l st = (rev l ++ st)%list.
Proof.
  induction l as [|x l IH]; intros st HF; [reflexivity|].
  apply Forall_cons in HF as [Hx HF]. cbn [fold_left].
  rewrite (clean_step_valid _ _ _ Hx), (IH _ HF). simpl.
  rewrite <- app_assoc. reflexivity.
Qed.

Lemma is_rooted_join x l :
  valid_name x = true → is_rooted (join_slash (x :: l)) = false.
Proof.
  intros Hx. assert (is_rooted x = false) as Hr.
  { destruct x as [|c x]; [reflexivity|]. simpl.
    apply valid_name_no_slash in Hx. simpl in Hx.
    apply andb_true_iff in Hx as [Hc _]. apply negb_true_iff, Hc. }
  destruct l as [|y l]; [exact Hr|]. rewrite join_slash_cons.
  destruct x; [discriminate|exact Hr].
Qed.

Lemma valid_names_no_slash l :
  Forall (λ x, valid_name x = true) l → Forall (λ x, no_slash x = true) l.
Proof.
  intros HF. eapply Forall_impl; [exact HF|]. intros x. apply valid_name_no_slash.
Qed.

Lemma clean_parts_join l :
  l ≠ [] → Forall (λ x, valid_name x = true) l →
  clean_parts (join_slash l) = (false, l).
Proof.
  intros Hl HF. unfold clean_parts, split_slash.
  destruct l as [|x l]; [congruence|].
  rewrite is_rooted_join by (apply Forall_cons in HF; tauto).
  rewrite split_join by (auto using valid_names_no_slash).
  rewrite clean_fold_valid by exact HF. rewrite app_nil_r, rev_involutive.
  reflexivity.
Qed.

(** The same path with a slash at its end. *)
Lemma clean_parts_join_slash l :
  l ≠ [] → Forall (λ x, valid_name x = true) l →
  clean_parts (join_slash l ++ "/") = (false, l).
Proof.
  intros Hl HF. unfold clean_parts, split_slash.
  assert (join_slash l ++ "/" = join_slash (l ++ [""])) as ->.
  { clear HF. induction l as [|x l IH]; [congruence|]. destruct l as [|y l].
    - reflexivity.
    - cbn [app]. rewrite !join_slash_cons. cbn [app] in IH.
      rewrite <- IH by congruence. rewrite !string_app_assoc. reflexivity. }
  destruct l as [|x l]; [congruence|]. cbn [app].
  rewrite is_rooted_join by (apply Forall_cons in HF; tauto).
  change (x :: (l ++ [""])%list) with ((x :: l) ++ [""])%list.
  rewrite split_join.
  - rewrite fold_left_app, (clean_fold_valid _ (x :: l) [] HF).
    cbn [fold_left]. unfold clean_step at 1. cbn [String.eqb orb].
    rewrite app_nil_r, rev_involutive. reflexivity.
  - destruct l; discriminate.
  - apply Forall_app. split; [auto using valid_names_no_slash|].
    constructor; [reflexivity|constructor].
Qed.

Lemma valid_name_not_dotdot x : valid_name x = true → String.eqb x ".." = false.
Proof.
  unfold valid_name. rewrite !andb_true_iff, !negb_true_iff. tauto.
Qed.

Lemma resolve_join l :
  l ≠ [] → Forall (λ x, valid_name x = true) l →
  resolve (join_slash l) = Some l.
Proof.
  intros Hl HF. unfold resolve. rewrite (clean_parts_join _ Hl HF).
  destruct l as [|x l]; [congruence|].
  apply Forall_cons in HF as [Hx _].
  rewrite (valid_name_not_dotdot _ Hx). reflexivity.
Qed.

Lemma Clean_join l :
  l ≠ [] → Forall (λ x, valid_name x = true) l →
  filepath_Clean (join_slash l) = join_slash l.
Proof.
  intros Hl HF. unfold filepath_Clean. rewrite (clean_parts_join _ Hl HF).
  destruct l; [congruence|reflexivity].
Qed.

Lemma valid_name_nonempty x : valid_name x = true → String.eqb x "" = false.
Proof.
  unfold valid_name. rewrite !andb_true_iff, !negb_true_iff. tauto.
Qed.

(** [filepath.Join(bucket, key)] for a key of plain names. *)
Lemma Join_bucket_key B l :
  valid_name B = true → l ≠ [] → Forall (λ x, valid_name x = true) l →
  filepath_Join [B; join_slash l] = join_slash (B :: l).
Proof.
  intros HB Hl HF. cbn [filepath_Join].
  rewrite (valid_name_nonempty _ HB).
  assert (join_slash [B; join_slash l] = join_slash (B :: l)) as ->.
  { destruct l; [congruence|reflexivity]. }
  apply Clean_join; [congruence|]. constructor; assumption.
Qed.

Lemma upto_last_slash_plain x : no_slash x = true → upto_last_slash x = None.
Proof.
  induction x as [|c x IH]; [reflexivity|]. simpl.
  intros Hx. apply andb_true_iff in Hx as [Hc Hx].
  rewrite (IH Hx). apply negb_true_iff in Hc. rewrite Hc. reflexivity.
Qed.

Lemma upto_last_slash_app x s t :
  upto_last_slash s = Some t → upto_last_slash (x ++ s) = Some (x ++ t).
Proof.
  intros Hs. induction x as [|c x IH]; [exact Hs|]. simpl. rewrite IH.
  reflexivity.
Qed.

Lemma upto_last_slash_join l x :
  l ≠ [] → no_slash x = true →
  upto_last_slash (join_slash (l ++ [x])) = Some (join_slash l ++ "/").
Proof.
  intros Hl Hx. induction l as [|y l IH]; [congruence|].
  destruct l as [|z l].
  - cbn [app]. rewrite join_slash_cons. cbn [join_slash String.concat].
    apply upto_last_slash_app. change ("/" ++ x) with (String slash x).
    cbn [upto_last_slash]. rewrite (upto_last_slash_plain _ Hx). reflexivity.
  - cbn [app] in *. rewrite !join_slash_cons.
    rewrite !string_app_assoc.
    apply upto_last_slash_app. apply (upto_last_slash_app "/").
    rewrite IH by congruence. reflexivity.
Qed.

(** [filepath.Dir] of a path of plain names. *)
Lemma Dir_join l x :
  l ≠ [] → Forall (λ y, valid_name y = true) l → no_slash x = true →
  filepath_Dir (join_slash (l ++ [x])) = join_slash l.
Proof.
  intros Hl HF Hx. unfold filepath_Dir.
  rewrite (upto_last_slash_join _ _ Hl Hx). cbn [default from_option id].
  unfold filepath_Clean. rewrite (clean_parts_join_slash _ Hl HF).
  destruct l; [congruence|reflexivity].
Qed.

Lemma Dir_plain x : no_slash x = true → filepath_Dir x = ".".
Proof.
  intros Hx. unfold filepath_Dir. rewrite (upto_last_slash_plain _ Hx).
  reflexivity.
Qed.

(** [filepath.Join(bucket, ".")] is the bucket. *)
Lemma resolve_Join_dot B :
  valid_name B = true → resolve (filepath_Join [B; "."]) = Some [B].
Proof.
  intros HB. cbn [filepath_Join]. rewrite (valid_name_nonempty _ HB).
  assert (clean_parts (join_slash [B; "."]) = (false, [B])) as Hc.
  { unfold clean_parts, split_slash.
    rewrite (is_rooted_join B ["."] HB).
    change (join_slash [B; "."]) with (B ++ String slash ".").
    rewrite split_on_app by (apply valid_name_no_slash, HB).
    cbn [split_on fold_left]. rewrite (clean_step_valid _ _ _ HB). reflexivity. }
  unfold filepath_Clean. rewrite Hc. cbn [join_slash String.concat].
  change B with (join_slash [B]) at 1.
  apply resolve_join; [congruence|]. constructor; [exact HB|constructor].
Qed.


(** ** Removing directories *)

Lemma has_children_false fs p :
  (∀ c, fs !! (p ++ [c])%list = None) → has_children fs p = false.
Proof.
  intros Hnone. unfold has_children. apply bool_decide_eq_false.
  intros (q & n & Hq & Hne & Hp).
  rewrite (app_removelast_last "" Hne), Hp, Hnone in Hq. discriminate.
Qed.

Lemma os_Remove_cases name fs :
  (∃ e, os_Remove name fs = (Err e, fs))
  ∨ (∃ q n, resolve name = Some q ∧ q ≠ [] ∧ fs !! q = Some n
            ∧ os_Remove name fs = (Ok tt, delete q fs)).
Proof.
  unfold os_Remove. destruct (String.eqb name ""); [left; eauto|].
  destruct (resolve name) as [q|]; [|left; eauto].
  destruct q as [|c q]; [left; eauto|].
  destruct (fs !! (c :: q)) as [[d a|a]|] eqn:E; [| |left; eauto].
  - right. exists (c :: q), (File d a). done.
  - destruct (has_children fs (c :: q)); [left; eauto|].
    right. exists (c :: q), (Dir a). done.
Qed.

Lemma os_Remove_empty_dir name q a fs :
  resolve name = Some q → q ≠ [] → fs !! q = Some (Dir a) →
  (∀ c, fs !! (q ++ [c])%list = None) →
  os_Remove name fs = (Ok tt, delete q fs).
Proof.
  intros Hr Hq Hl Hc. unfold os_Remove.
  rewrite (resolve_name_nonempty _ _ Hr Hq), Hr.
  destruct q as [|c q]; [congruence|].
  rewrite Hl, (has_children_false _ _ Hc). reflexivity.
Qed.

Lemma os_Remove_file name q d a fs :
  resolve name = Some q → q ≠ [] → fs !! q = Some (File d a) →
  os_Remove name fs = (Ok tt, delete q fs).
Proof.
  intros Hr Hq Hl. unfold os_Remove.
  rewrite (resolve_name_nonempty _ _ Hr Hq), Hr.
  destruct q as [|c q]; [congruence|]. rewrite Hl. reflexivity.
Qed.

(** The loop of [removeParents] ends before its fuel does: with more
    fuel than the tree has entries the result does not depend on the
    fuel. *)
Lemma removeParents_loop_fuel p bucket : ∀ f1 f2 objPath fs,
  (size fs < f1)%nat → (size fs < f2)%nat →
  removeParents_loop f1 p bucket objPath fs
  = removeParents_loop f2 p bucket objPath fs.
Proof.
  induction f1 as [|f1 IH]; intros f2 objPath fs H1 H2; [lia|].
  destruct f2 as [|f2]; [lia|]. cbn [removeParents_loop].
  destruct (String.eqb (filepath_Dir objPath) "/"); [reflexivity|].
  destruct (RetrieveAttribute _ _ _ _ fs); [reflexivity|].
  destruct (os_Remove_cases (filepath_Join [bucket; filepath_Dir objPath]) fs)
    as [(e' & ->)|(q & n & _ & _ & Hl & ->)]; [reflexivity|].
  pose proof (map_size_delete_Some q fs (ex_intro _ n Hl)) as Hs.
  pose proof (map_size_ne_0_lookup_2 fs q (ex_intro _ n Hl)) as Hz.
  apply IH; lia.
Qed.

(** The loop always returns, without an error, and only removes. *)
Lemma removeParents_loop_removes p bucket : ∀ fuel objPath fs,
  ∃ fs', removeParents_loop fuel p bucket objPath fs = (Ok tt, fs')
         ∧ ∀ k n, fs' !! k = Some n → fs !! k = Some n.
Proof.
  induction fuel as [|fuel IH]; intros objPath fs; cbn [removeParents_loop].
  - exists fs. done.
  - destruct (String.eqb (filepath_Dir objPath) "/"); [exists fs; done|].
    destruct (RetrieveAttribute _ _ _ _ fs); [exists fs; done|].
    destruct (os_Remove_cases (filepath_Join [bucket; filepath_Dir objPath]) fs)
      as [(e' & ->)|(q & n & _ & _ & Hl & ->)]; [exists fs; done|].
    destruct (IH (filepath_Dir objPath) (delete q fs)) as (fs' & -> & Hk).
    exists fs'. split; [reflexivity|]. intros k m Hm.
    apply Hk in Hm. apply lookup_delete_Some in Hm. tauto.
Qed.


Lemma prefix_snoc_inv {A} (p l : list A) y :
  p `prefix_of` (l ++ [y])%list → p = (l ++ [y])%list ∨ p `prefix_of` l.
Proof.
  intros [k Hk]. destruct (decide (k = [])) as [->|Hne].
  - left. rewrite app_nil_r in Hk. congruence.
  - right. destruct (exists_last Hne) as (k' & z & ->).
    rewrite app_assoc in Hk. apply app_inj_tail in Hk as [-> _].
    exists k'. reflexivity.
Qed.

Lemma join_slash_not_root l :
  l ≠ [] → Forall (λ x, valid_name x = true) l →
  String.eqb (join_slash l) "/" = false.
Proof.
  intros Hl HF. destruct l as [|x l]; [congruence|].
  apply Forall_cons in HF as [Hx _].
  pose proof (is_rooted_join x l Hx) as Hr.
  destruct (String.eqb_spec (join_slash (x :: l)) "/") as [E|]; [|reflexivity].
  rewrite E in Hr. discriminate.
Qed.

Lemma join_slash_not_root' l :
  l ≠ [] → Forall (λ x, valid_name x = true) l →
  String.eqb (join_slash l) "" = false.
Proof.
  intros Hl HF. destruct l as [|x l]; [congruence|].
  apply Forall_cons in HF as [Hx _].
  pose proof (valid_name_nonempty _ Hx) as Hn.
  destruct l as [|y l]; [exact Hn|]. rewrite join_slash_cons.
  destruct x; [discriminate|reflexivity].
Qed.

Lemma resolve_bucket_key B l :
  valid_name B = true → l ≠ [] → Forall (λ x, valid_name x = true) l →
  resolve (filepath_Join [B; join_slash l]) = Some (B :: l).
Proof.
  intros HB Hl HF. rewrite (Join_bucket_key _ _ HB Hl HF).
  apply resolve_join; [congruence|]. constructor; assumption.
Qed.

(** The loop of [removeParents] on a chain of parents. *)
Lemma removeParents_loop_chain B : ∀ l x fuel fs,
  valid_name B = true →
  Forall (λ y, valid_name y = true) l → no_slash x = true →
  parent_chain fs B l l →
  (length l + 2 ≤ fuel)%nat →
  ∃ fs', removeParents_loop fuel posix_xattr B (join_slash (l ++ [x])) fs
         = (Ok tt, fs')
         ∧ parents_removed fs fs' B l
         ∧ ∀ k n, fs' !! k = Some n → fs !! k = Some n.
Proof.
  intros l. induction l as [|y l0 IH] using rev_ind; intros x fuel fs HB HF Hx Hch Hfuel.
  - destruct (removeParents_loop_removes posix_xattr B fuel (join_slash ([] ++ [x])) fs)
      as (fs' & E & Hk).
    exists fs'. split; [exact E|]. split; [|exact Hk].
    intros l' Hp Hne. apply prefix_nil_inv in Hp. congruence.
  - destruct fuel as [|fuel]; [lia|]. cbn [removeParents_loop].
    set (l := (l0 ++ [y])%list) in *.
    assert (l ≠ []) as Hl by (subst l; destruct l0; discriminate).
    rewrite (Dir_join _ _ Hl HF Hx), (join_slash_not_root _ Hl HF).
    destruct Hch as [Hdirs Hkids].
    destruct (Hdirs l (reflexivity _) Hl) as [a Ha].
    pose proof (resolve_bucket_key _ _ HB Hl HF) as Hr.
    cbn [meta posix_xattr RetrieveAttribute XattrMeta].
    rewrite (xattr_get_run _ _ _ _ _ _ Hr ltac:(discriminate) Ha). cbn [node_attrs].
    destruct (a !! etagkey) as [v|] eqn:Hetag.
    + (* a parent with an etag: the removal stops *)
      exists fs. split; [reflexivity|]. split; [|done].
      intros l' Hp Hne. destruct (Hdirs l' Hp Hne) as [a' Ha']. split; [|right; done].
      rewrite Ha'. split; [discriminate|].
      intros Hall. destruct (Hall l Hp (reflexivity _)) as (a2 & Ha2 & Hn).
      rewrite Ha in Ha2. injection Ha2 as <-. congruence.
    + assert (∀ c, fs !! ((B :: l) ++ [c])%list = None) as Hnone.
      { intros c. destruct (fs !! ((B :: l) ++ [c])%list) eqn:E; [|reflexivity].
        exfalso. apply (prefix_snoc_not l c).
        apply (Hkids l c (reflexivity _) Hl). rewrite <- app_comm_cons in E.
        rewrite E. eauto. }
      rewrite (os_Remove_empty_dir _ _ _ _ Hr ltac:(discriminate) Ha Hnone).
      apply Forall_app in HF as [HF0 Hy]. apply Forall_cons in Hy as [Hy _].
      assert (∀ l', l' `prefix_of` l0 → B :: l' ≠ B :: l) as Hneq.
      { intros l' Hp E. injection E as ->. apply (prefix_snoc_not l0 y), Hp. }
      destruct (IH y fuel (delete (B :: l) fs) HB HF0
                  (valid_name_no_slash _ Hy)) as (fs' & E & Hrem & Hk).
      { split.
        - intros l' Hp Hne. rewrite lookup_delete_ne by (symmetry; auto).
          apply Hdirs; [|exact Hne]. subst l. apply prefix_app_r, Hp.
        - intros l' c Hp Hne Hs.
          destruct Hs as [n Hs]. apply lookup_delete_Some in Hs as [Hd Hs].
          assert ((l' ++ [c])%list `prefix_of` l) as Hpl.
          { apply Hkids; [|exact Hne|eauto]. subst l. apply prefix_app_r, Hp. }
          apply prefix_snoc_inv in Hpl as [Hpl|Hpl]; [|exact Hpl].
          exfalso. apply Hd. subst l. rewrite <- Hpl. reflexivity. }
      { subst l. rewrite length_app in Hfuel. simpl in Hfuel. lia. }
      subst l. rewrite E. exists fs'. split; [reflexivity|]. split.
      * intros l' Hp Hne. apply prefix_snoc_inv in Hp as [->|Hp].
        -- assert (fs' !! (B :: (l0 ++ [y])%list) = None) as Hgone.
           { destruct (fs' !! (B :: (l0 ++ [y])%list)) as [n|] eqn:En; [|reflexivity].
             apply Hk in En. rewrite lookup_delete_eq in En. discriminate. }
           split; [|left; exact Hgone]. split; [|intros _; exact Hgone].
           intros _ l'' H1 H2.
           assert (l'' = (l0 ++ [y])%list) as ->.
           { apply (anti_symm prefix); assumption. }
           exists a. done.
        -- destruct (Hrem l' Hp Hne) as [Hiff Hsame].
           rewrite lookup_delete_ne in Hsame by (symmetry; auto).
           split; [|exact Hsame]. rewrite Hiff. split.
           ++ intros Hall l'' H1 H2. apply prefix_snoc_inv in H2 as [->|H2].
              ** exists a. done.
              ** destruct (Hall l'' H1 H2) as (a2 & Ha2 & Hn).
                 rewrite lookup_delete_ne in Ha2 by (symmetry; auto).
                 exists a2. done.
           ++ intros Hall l'' H1 H2.
              destruct (Hall l'' H1 (prefix_app_r _ _ _ H2)) as (a2 & Ha2 & Hn).
              exists a2. rewrite lookup_delete_ne by (symmetry; auto). done.
      * intros k n Hn. apply Hk in Hn. apply lookup_delete_Some in Hn. tauto.
Qed.


(** ** DeleteObject and the parents of the object *)

(** What [mkdir_all] adds: empty directories on the way to its target. *)
Lemma mkdir_all_new rest name : ∀ pre fs r fs' k n,
  mkdir_all pre rest name fs = (r, fs') →
  fs !! k = None → fs' !! k = Some n →
  n = Dir ∅ ∧ ∃ r', r' ≠ [] ∧ r' `prefix_of` rest ∧ k = (pre ++ r')%list.
Proof.
  induction rest as [|c rest IH]; intros pre fs r fs' k n; cbn [mkdir_all].
  - intros [= _ <-] Hn Hs. congruence.
  - destruct (fs !! (pre ++ [c])%list) as [[d a|a]|] eqn:E.
    + intros [= _ <-] Hn Hs. congruence.
    + intros Hm Hn Hs.
      destruct (IH _ _ _ _ _ _ Hm Hn Hs) as (-> & r' & Hne & Hp & ->).
      split; [reflexivity|]. exists (c :: r'). split; [discriminate|].
      split; [apply prefix_cons, Hp|]. rewrite <- app_assoc. reflexivity.
    + intros Hm Hn Hs.
      destruct (decide (k = (pre ++ [c])%list)) as [->|Hne].
      * pose proof (mkdir_all_keeps _ _ _ _ _ _ (pre ++ [c])%list (Dir ∅) Hm
                      (lookup_insert_eq _ _ _)) as Hk.
        rewrite Hk in Hs. injection Hs as <-. split; [reflexivity|].
        exists [c]. split; [discriminate|].
        split; [apply prefix_cons, prefix_nil|reflexivity].
      * assert (<[(pre ++ [c])%list := Dir ∅]> fs !! k = None) as Hn'
          by (rewrite lookup_insert_ne by congruence; exact Hn).
        destruct (IH _ _ _ _ _ _ Hm Hn' Hs) as (-> & r' & Hne' & Hp & ->).
        split; [reflexivity|]. exists (c :: r'). split; [discriminate|].
        split; [apply prefix_cons, Hp|]. rewrite <- app_assoc. reflexivity.
Qed.

(** After [mkdir_all] every step to the target is a directory. *)
Lemma mkdir_all_dirs rest name : ∀ pre fs fs' r',
  mkdir_all pre rest name fs = (Ok tt, fs') →
  r' ≠ [] → r' `prefix_of` rest →
  ∃ a, fs' !! (pre ++ r')%list = Some (Dir a).
Proof.
  induction rest as [|c rest IH]; intros pre fs fs' r'; cbn [mkdir_all].
  - intros _ Hne Hp. apply prefix_nil_inv in Hp. congruence.
  - intros Hm Hne Hp. destruct r' as [|c' r'']; [congruence|].
    pose proof (prefix_cons_inv_1 _ _ _ _ Hp) as ->.
    apply prefix_cons_inv_2 in Hp.
    assert (∀ fs1 a, fs1 !! (pre ++ [c])%list = Some (Dir a) →
              mkdir_all (pre ++ [c])%list rest name fs1 = (Ok tt, fs') →
              ∃ a', fs' !! (pre ++ c :: r'')%list = Some (Dir a')) as Hstep.
    { intros fs1 a Ha Hm1. destruct r'' as [|c2 r3].
      - exists a. eapply mkdir_all_keeps; [exact Hm1|exact Ha].
      - rewrite (cons_middle c pre), app_assoc.
        eapply IH; [exact Hm1|discriminate|exact Hp]. }
    destruct (fs !! (pre ++ [c])%list) as [[d a|a]|] eqn:E.
    + discriminate.
    + eapply Hstep; [exact E|exact Hm].
    + eapply Hstep; [apply lookup_insert_eq|exact Hm].
Qed.

Lemma backend_MkdirAll_new name fs r fs' k n :
  backend_MkdirAll name fs = (r, fs') →
  fs !! k = None → fs' !! k = Some n →
  n = Dir ∅ ∧ ∃ q, resolve name = Some q ∧ k ≠ [] ∧ k `prefix_of` q.
Proof.
  unfold backend_MkdirAll. destruct (String.eqb name ""); [intros [= _ <-]; congruence|].
  destruct (resolve name) as [q|]; [|intros [= _ <-]; congruence].
  intros Hm Hn Hs. destruct (mkdir_all_new _ _ _ _ _ _ _ _ Hm Hn Hs)
    as (-> & r' & Hne & Hp & ->).
  split; [reflexivity|]. exists q. done.
Qed.

Lemma backend_MkdirAll_dirs name q fs fs' k :
  backend_MkdirAll name fs = (Ok tt, fs') →
  resolve name = Some q → k ≠ [] → k `prefix_of` q →
  ∃ a, fs' !! k = Some (Dir a).
Proof.
  unfold backend_MkdirAll. destruct (String.eqb name ""); [discriminate|].
  intros Hm Hr. rewrite Hr in Hm. intros Hne Hp.
  apply (mkdir_all_dirs _ _ [] _ _ k Hm Hne Hp).
Qed.

Lemma xattr_remove_all_gone bucket object q fs :
  resolve (filepath_Join [bucket; object]) = Some q → fs !! q = None →
  Xattr.remove_all bucket object fs = (Ok tt, fs).
Proof.
  intros Hr Hn. unfold Xattr.remove_all, Xattr.update. rewrite Hr.
  destruct (String.eqb _ ""); [reflexivity|].
  destruct q as [|c q]; [reflexivity|]. rewrite Hn. reflexivity.
Qed.

Lemma resolve_bucket B : valid_name B = true → resolve B = Some [B].
Proof.
  intros HB. change B with (join_slash [B]) at 1.
  apply resolve_join; [discriminate|]. constructor; [exact HB|constructor].
Qed.

(** [DeleteObject] of an object below a chain of parents. *)
Lemma DeleteObject_chain B l x d a fs :
  valid_name B = true →
  Forall (λ y, valid_name y = true) l → valid_name x = true →
  is_Some (fs !! [B]) →
  fs !! (B :: l ++ [x])%list = Some (File d a) →
  parent_chain fs B l (l ++ [x]) →
  ∃ fs',
    DeleteObject posix_xattr
      {| doi_Bucket := Some B; doi_Key := Some (join_slash (l ++ [x])) |} fs
    = (Ok tt, fs')
    ∧ parents_removed fs fs' B l
    ∧ fs' !! (B :: l ++ [x])%list = None.
Proof.
  intros HB HF Hx [nb Hb] Hfile [Hdirs Hkids]. unfold DeleteObject.
  cbn [doi_Bucket doi_Key].
  assert (Forall (λ y, valid_name y = true) (l ++ [x])) as HFx.
  { apply Forall_app. split; [exact HF|]. constructor; [exact Hx|constructor]. }
  assert ((l ++ [x])%list ≠ []) as Hlx by (destruct l; discriminate).
  pose proof (resolve_bucket_key _ _ HB Hlx HFx) as Hr.
  rewrite (bind_ok _ _ _ tt fs).
  2:{ apply stat_bucket_ok.
      rewrite (os_Stat_lookup _ _ _ _ (resolve_bucket _ HB) ltac:(discriminate) Hb).
      reflexivity. }
  rewrite bind_run. unfold on_err at 1.
  rewrite (os_Remove_file _ _ _ _ _ Hr ltac:(discriminate) Hfile).
  rewrite bind_run. unfold on_err at 1.
  cbn [meta posix_xattr DeleteAttributes XattrMeta].
  rewrite (xattr_remove_all_gone _ _ _ _ Hr (lookup_delete_eq _ _)).
  unfold removeParents.
  set (fsa := delete (B :: (l ++ [x])%list) fs).
  rewrite (removeParents_loop_fuel _ _ (S (size fsa)) (S (size fsa) + (length l + 2)))
    by lia.
  assert (∀ l', l' `prefix_of` l → B :: l' ≠ B :: (l ++ [x])%list) as Hneq.
  { intros l' Hp E. injection E as ->. apply (prefix_snoc_not l x), Hp. }
  destruct (removeParents_loop_chain B l x (S (size fsa) + (length l + 2)) fsa
              HB HF (valid_name_no_slash _ Hx)) as (fs' & E & Hrem & Hk).
  { split.
    - intros l' Hp Hne. unfold fsa. rewrite lookup_delete_ne by (symmetry; auto).
      apply Hdirs; assumption.
    - intros l' c Hp Hne [n Hs]. unfold fsa in Hs.
      apply lookup_delete_Some in Hs as [Hd Hs].
      assert ((l' ++ [c])%list `prefix_of` (l ++ [x])%list) as Hpl
        by (apply Hkids; eauto).
      apply prefix_snoc_inv in Hpl as [Hpl|Hpl]; [|exact Hpl].
      exfalso. apply Hd. rewrite <- Hpl. reflexivity. }
  { lia. }
  exists fs'. split; [exact E|]. split.
  - intros l' Hp Hne. destruct (Hrem l' Hp Hne) as [Hiff Hsame].
    unfold fsa in Hsame. rewrite lookup_delete_ne in Hsame by (symmetry; auto).
    split; [|exact Hsame]. rewrite Hiff.
    split; intros Hall l'' H1 H2; destruct (Hall l'' H1 H2) as (a2 & Ha2 & Hn);
      exists a2; (split; [|exact Hn]).
    + unfold fsa in Ha2. rewrite lookup_delete_ne in Ha2 by (symmetry; auto).
      exact Ha2.
    + unfold fsa. rewrite lookup_delete_ne by (symmetry; auto). exact Ha2.
  - destruct (fs' !! (B :: (l ++ [x])%list)) as [n|] eqn:En; [|reflexivity].
    apply Hk in En. unfold fsa in En. rewrite lookup_delete_eq in En. discriminate.
Qed.


Lemma HasSuffix_slash_app pre s :
  s ≠ "" → strings_HasSuffix (pre ++ s) "/" = strings_HasSuffix s "/".
Proof.
  intros Hs. induction pre as [|c pre IH]; [reflexivity|].
  change (String c pre ++ s) with (String c (pre ++ s)).
  cbn [strings_HasSuffix]. rewrite IH.
  destruct (pre ++ s) as [|c' r] eqn:E.
  - destruct pre as [|c0 pre]; [change ("" ++ s) with s in E; congruence|].
    change (String c0 pre ++ s) with (String c0 (pre ++ s)) in E. discriminate.
  - assert (String.eqb (String c (String c' r)) "/" = false) as ->.
    { simpl. destruct (Ascii.eqb c "/"); reflexivity. }
    reflexivity.
Qed.

Lemma HasSuffix_slash_plain x :
  no_slash x = true → strings_HasSuffix x "/" = false.
Proof.
  induction x as [|c x IH]; [reflexivity|]. intros Hx.
  cbn [no_slash] in Hx. apply andb_true_iff in Hx as [Hc Hx].
  cbn [strings_HasSuffix]. rewrite (IH Hx), orb_false_r.
  apply negb_true_iff in Hc. simpl. unfold slash in Hc. rewrite Hc. reflexivity.
Qed.

Lemma valid_name_neq_empty x : valid_name x = true → x ≠ "".
Proof. intros Hx ->. discriminate. Qed.

Lemma prefix_of_three (a b c : string) l' :
  l' `prefix_of` [a; b; c] → l' ≠ [] → ∃ t, l' = a :: t.
Proof.
  intros Hp Hne. destruct l' as [|y t]; [congruence|].
  apply prefix_cons_inv_1 in Hp as ->. eauto.
Qed.

(** C4.  For a key a/b/c/k of plain names in a bucket:
    - after a put of the key into an otherwise empty bucket and a delete
      of the same key, the parents a, a/b and a/b/c, which were not there
      before the put and which the put made without an etag, are gone;
    - whatever the parents carry when the object is deleted, and with
      nothing else below them, a parent is removed exactly when neither
      it nor a parent below it carries an etag: going upward, the first
      parent with an etag stops the removal and stays as it is, with
      the parents above it. *)
Theorem parents_after_delete (B a b c k : string) :
  valid_name B = true → valid_name a = true → valid_name b = true →
  valid_name c = true → valid_name k = true →
  (∀ po fs0 etag fs1,
     a ≠ metaTmpDir →
     otherwise_empty fs0 B →
     po_Bucket po = Some B →
     po_Key po = Some (a ++ "/" ++ b ++ "/" ++ c ++ "/" ++ k) →
     PutObject posix_xattr po fs0 = (Ok etag, fs1) →
     ∃ fs2,
       DeleteObject posix_xattr
         {| doi_Bucket := Some B;
            doi_Key := Some (a ++ "/" ++ b ++ "/" ++ c ++ "/" ++ k) |} fs1
       = (Ok tt, fs2)
       ∧ ∀ l', l' `prefix_of` [a; b; c] → l' ≠ [] →
               fs0 !! (B :: l') = None
               ∧ no_etag fs1 (B :: l')
               ∧ fs2 !! (B :: l') = None)
  ∧ (∀ fs d attrs,
       is_Some (fs !! [B]) →
       fs !! [B; a; b; c; k] = Some (File d attrs) →
       parent_chain fs B [a; b; c] [a; b; c; k] →
       ∃ fs',
         DeleteObject posix_xattr
           {| doi_Bucket := Some B;
              doi_Key := Some (a ++ "/" ++ b ++ "/" ++ c ++ "/" ++ k) |} fs
         = (Ok tt, fs')
         ∧ parents_removed fs fs' B [a; b; c]).
Proof.
  intros HB Ha Hb Hc Hk.
  assert (Forall (λ y, valid_name y = true) [a; b; c]) as HF
    by (repeat constructor; assumption).
  assert (∀ fs d attrs,
            is_Some (fs !! [B]) →
            fs !! [B; a; b; c; k] = Some (File d attrs) →
            parent_chain fs B [a; b; c] [a; b; c; k] →
            ∃ fs',
              DeleteObject posix_xattr
                {| doi_Bucket := Some B;
                   doi_Key := Some (a ++ "/" ++ b ++ "/" ++ c ++ "/" ++ k) |} fs
              = (Ok tt, fs')
              ∧ parents_removed fs fs' B [a; b; c]) as Hrule.
  { intros fs d attrs HsB Hfile Hch.
    destruct (DeleteObject_chain B [a; b; c] k d attrs fs HB HF Hk HsB Hfile Hch)
      as (fs' & E & Hrem & _).
    exists fs'. split; [exact E|exact Hrem]. }
  split; [|exact Hrule].
  intros po fs0 etag fs1 Hna Hempty HpB HpK Hput.
  assert (strings_HasSuffix (a ++ "/" ++ b ++ "/" ++ c ++ "/" ++ k) "/" = false)
    as Hsuf.
  { rewrite (HasSuffix_slash_app a) by discriminate.
    rewrite (HasSuffix_slash_app "/") by (destruct b; discriminate).
    rewrite (HasSuffix_slash_app b) by discriminate.
    rewrite (HasSuffix_slash_app "/") by (destruct c; discriminate).
    rewrite (HasSuffix_slash_app c) by discriminate.
    rewrite (HasSuffix_slash_app "/") by (apply valid_name_neq_empty, Hk).
    apply HasSuffix_slash_plain, valid_name_no_slash, Hk. }
  destruct (PutObject_file_tree _ _ _ _ _ _ HpB HpK Hsuf Hput)
    as (_ & HstatB & q & at1 & fst & fsd & Hr & Hq & Hm1 & Hm2 & _ & -> & _ & _).
  assert (Forall (λ y, valid_name y = true) [a; b; c; k]) as HF4
    by (repeat constructor; assumption).
  change (a ++ "/" ++ b ++ "/" ++ c ++ "/" ++ k) with (join_slash [a; b; c; k])
    in Hr, Hm2.
  rewrite (resolve_bucket_key B [a; b; c; k] HB ltac:(discriminate) HF4) in Hr.
  injection Hr as <-.
  rewrite (Join_bucket_key B [a; b; c; k] HB ltac:(discriminate) HF4) in Hm2.
  change (join_slash [B; a; b; c; k]) with (join_slash ([B; a; b; c] ++ [k])) in Hm2.
  assert (Forall (λ y, valid_name y = true) [B; a; b; c]) as HFB
    by (repeat constructor; assumption).
  rewrite (Dir_join [B; a; b; c] k ltac:(discriminate) HFB
             (valid_name_no_slash _ Hk)) in Hm2.
  rewrite (join_slash_not_root' [B; a; b; c] ltac:(discriminate) HFB) in Hm2.
  pose proof (resolve_join [B; a; b; c] ltac:(discriminate) HFB) as Hrd.
  assert (resolve (filepath_Join [B; metaTmpDir]) = Some [B; metaTmpDir]) as Hrt.
  { change metaTmpDir with (join_slash [metaTmpDir]) at 1.
    apply resolve_bucket_key; [exact HB|discriminate|].
    constructor; [reflexivity|constructor]. }
  (* the tree before the put holds none of the parents *)
  assert (∀ l', l' `prefix_of` [a; b; c] → l' ≠ [] →
                ∀ t, fs0 !! (B :: l' ++ t)%list = None) as Hfs0.
  { intros l' Hp Hne t. destruct (prefix_of_three _ _ _ _ Hp Hne) as [t' ->].
    destruct (fs0 !! (B :: (a :: t') ++ t)%list) eqn:E; [|reflexivity].
    exfalso. apply Hna. eapply Hempty. rewrite <- app_comm_cons in E.
    rewrite E. eauto. }
  assert (∀ l', l' `prefix_of` [a; b; c] → l' ≠ [] →
                ∀ t, fst !! (B :: l' ++ t)%list = None) as Hfst.
  { intros l' Hp Hne t.
    destruct (fst !! (B :: l' ++ t)%list) as [n|] eqn:E; [|reflexivity].
    exfalso.
    destruct (backend_MkdirAll_new _ _ _ _ _ _ Hm1 (Hfs0 l' Hp Hne t) E)
      as (_ & q' & Hq' & _ & Hpre).
    rewrite Hrt in Hq'. injection Hq' as <-.
    destruct (prefix_of_three _ _ _ _ Hp Hne) as [t' ->].
    apply prefix_cons_inv_2 in Hpre. rewrite <- app_comm_cons in Hpre.
    apply prefix_cons_inv_1 in Hpre. apply Hna, Hpre. }
  assert (∀ l', l' `prefix_of` [a; b; c] → l' ≠ [] →
                fsd !! (B :: l') = Some (Dir ∅)) as Hfsd.
  { intros l' Hp Hne.
    destruct (backend_MkdirAll_dirs _ _ _ _ (B :: l') Hm2 Hrd ltac:(discriminate)
                (prefix_cons _ _ _ Hp)) as [a' Ha'].
    pose proof (Hfst l' Hp Hne []) as Hn. rewrite app_nil_r in Hn.
    destruct (backend_MkdirAll_new _ _ _ _ _ _ Hm2 Hn Ha') as [E _].
    rewrite Ha'. f_equal. exact E. }
  assert (∀ l', l' `prefix_of` [a; b; c] → B :: l' ≠ [B; a; b; c; k]) as Hneq.
  { intros l' Hp E. injection E as ->. apply (prefix_snoc_not [a; b; c] k), Hp. }
  destruct (Hrule (<[[B; a; b; c; k] := File (po_Body po) at1]> fsd)
              (po_Body po) at1) as (fs2 & E & Hrem).
  { rewrite lookup_insert_ne by discriminate.
    unfold os_Stat in HstatB.
    rewrite (valid_name_nonempty _ HB), (resolve_bucket _ HB) in HstatB.
    cbn [lookup_node] in HstatB.
    destruct (fs0 !! [B]) as [nb|] eqn:EB; [|discriminate].
    exists nb. eapply backend_MkdirAll_keeps; [exact Hm2|].
    eapply backend_MkdirAll_keeps; [exact Hm1|exact EB]. }
  { apply lookup_insert_eq. }
  { split.
    - intros l' Hp Hne. exists ∅.
      rewrite lookup_insert_ne by (symmetry; auto). apply Hfsd; assumption.
    - intros l' c' Hp Hne [n Hs].
      destruct (decide ([B; a; b; c; k] = (B :: l' ++ [c'])%list)) as [Eq|Hd].
      + injection Eq as <-. reflexivity.
      + rewrite lookup_insert_ne in Hs by exact Hd.
        destruct (backend_MkdirAll_new _ _ _ _ _ _ Hm2 (Hfst l' Hp Hne [c']) Hs)
          as (_ & q' & Hq' & _ & Hpre).
        rewrite Hrd in Hq'. injection Hq' as <-.
        apply prefix_cons_inv_2 in Hpre.
        change [a; b; c; k] with ([a; b; c] ++ [k])%list.
        apply prefix_app_r, Hpre. }
  exists fs2. split; [exact E|]. intros l' Hp Hne.
  pose proof (Hfs0 l' Hp Hne []) as Hn0. rewrite app_nil_r in Hn0.
  split; [exact Hn0|].
  assert (∀ l'', l'' `prefix_of` [a; b; c] → l'' ≠ [] →
            no_etag (<[[B; a; b; c; k] := File (po_Body po) at1]> fsd) (B :: l''))
    as Hno.
  { intros l'' Hp'' Hne''. exists ∅.
    rewrite lookup_insert_ne by (symmetry; auto).
    split; [apply Hfsd; assumption|apply lookup_empty]. }
  split; [apply Hno; assumption|].
  apply (Hrem l' Hp Hne). intros l'' H1 H2. apply Hno; [exact H2|].
  intros ->. apply prefix_nil_inv in H1. congruence.
Qed.


(** ** Reading a concrete tree *)

Lemma is_Some_in_keys (fs : fsys) k :
  is_Some (fs !! k) → k ∈ (map_to_list fs).*1.
Proof.
  intros [n Hn]. apply list_elem_of_fmap. exists (k, n).
  split; [reflexivity|]. apply elem_of_map_to_list, Hn.
Qed.

Lemma prefix_of_three_cases {A} (a b c : A) l' :
  l' `prefix_of` [a; b; c] →
  l' = [] ∨ l' = [a] ∨ l' = [a; b] ∨ l' = [a; b; c].
Proof.
  intros Hp. destruct l' as [|x1 l']; [tauto|].
  pose proof (prefix_cons_inv_1 _ _ _ _ Hp) as ->. apply prefix_cons_inv_2 in Hp.
  destruct l' as [|x2 l']; [tauto|].
  pose proof (prefix_cons_inv_1 _ _ _ _ Hp) as ->. apply prefix_cons_inv_2 in Hp.
  destruct l' as [|x3 l']; [tauto|].
  pose proof (prefix_cons_inv_1 _ _ _ _ Hp) as ->. apply prefix_cons_inv_2 in Hp.
  apply prefix_nil_inv in Hp as ->. tauto.
Qed.


(** The result of a run, the tree it leaves being whatever it is. *)
Lemma run_result {A} (m : M A) fs r : (m fs).1 = r → m fs = (r, (m fs).2).
Proof. intros <-. destruct (m fs); reflexivity. Qed.


Lemma lookup_dir_bool (fs : fsys) k :
  match fs !! k with Some (Dir _) => true | _ => false end = true →
  ∃ a, fs !! k = Some (Dir a).
Proof. destruct (fs !! k) as [[d a|a]|]; try discriminate. eauto. Qed.

Lemma lookup_etag_bool (fs : fsys) k :
  match fs !! k with
  | Some (Dir a) => bool_decide (is_Some (a !! etagkey))
  | _ => false
  end = true →
  ¬ no_etag fs k.
Proof.
  intros Hb (a & Ha & Hn). rewrite Ha in Hb.
  apply bool_decide_eq_true in Hb as [v Hv]. congruence.
Qed.


End Properties.

(** * Worked examples *)

(** ** The library functions *)

Example md5_empty :
  hex_EncodeToString (md5_Sum []) = "d41d8cd98f00b204e9800998ecf8427e".
Proof. vm_compute. reflexivity. Qed.

Example md5_hello :
  hex_EncodeToString (md5_Sum (bytes_of "hello"))
  = "5d41402abc4b2a76b9719d911017c592".
Proof. vm_compute. reflexivity. Qed.

Example md5_two_blocks :
  hex_EncodeToString (md5_Sum (repeat "a"%byte 70))
  = "0f5c6c4e740bfcc08c3c26ccb2673d46".
Proof. vm_compute. reflexivity. Qed.

Example clean_examples :
  map filepath_Clean ["a//b/./c/.."; ""; "/../a"; "../../x"; "a/.."; "b/d/"]
  = ["a/b"; "."; "/a"; "../../x"; "."; "b/d"].
Proof. reflexivity. Qed.

Example dir_examples :
  map filepath_Dir ["a/b/c/k"; "a/b/c"; "a"; "."; "/a"; "d/"; ""]
  = ["a/b/c"; "a/b"; "."; "."; "/"; "d"; "."].
Proof. reflexivity. Qed.

Example join_examples :
  map filepath_Join [["b"; "a/b"]; ["b"; ""]; [""; ""]; ["b"; "."]; ["b"; "../c"]]
  = ["b/a/b"; "b"; ""; "b"; "c"].
Proof. reflexivity. Qed.

(** ** The operations on concrete trees *)

(** C6, at the end of a file.  The object [k] holds the five bytes of
    "hello".  A read of [bytes=5-5] starts past the last byte, which is at
    offset 4; the call does not answer [InvalidRange]: it writes nothing
    and reports a content length of 1.  A read of [bytes=10-] is accepted
    as well, with the content length -4; [bytes=6-6] is refused. *)
Theorem GetObject_range_at_end_accepted :
  (∃ out,
     GetObject (H := Sample.env) posix_xattr
       {| goi_Bucket := Some "b"; goi_Key := Some "k";
          goi_Range := Some "bytes=5-5" |} Sample.hello_bucket
     = (Ok (out, []), Sample.hello_bucket)
     ∧ goo_ContentLength out = 1
     ∧ goo_ContentRange out = "bytes 5-5/5")
  ∧ (∃ out,
       GetObject (H := Sample.env) posix_xattr
         {| goi_Bucket := Some "b"; goi_Key := Some "k";
            goi_Range := Some "bytes=10-" |} Sample.hello_bucket
       = (Ok (out, []), Sample.hello_bucket)
       ∧ goo_ContentLength out = -4)
  ∧ GetObject (H := Sample.env) posix_xattr
      {| goi_Bucket := Some "b"; goi_Key := Some "k";
         goi_Range := Some "bytes=6-6" |} Sample.hello_bucket
    = (Err (APIError ErrInvalidRange), Sample.hello_bucket).
Proof.
  split; [|split].
  - eexists. split; [vm_compute; reflexivity|]. split; reflexivity.
  - eexists. split; [vm_compute; reflexivity|]. reflexivity.
  - vm_compute. reflexivity.
Qed.

(** The two reads the design names, on the same object: [bytes=0-0]
    writes the first byte and no more, [bytes=0-] the whole file. *)
Example GetObject_first_byte_and_whole :
  (∃ out,
     GetObject (H := Sample.env) posix_xattr
       {| goi_Bucket := Some "b"; goi_Key := Some "k";
          goi_Range := Some "bytes=0-0" |} Sample.hello_bucket
     = (Ok (out, bytes_of "h"), Sample.hello_bucket))
  ∧ (∃ out,
       GetObject (H := Sample.env) posix_xattr
         {| goi_Bucket := Some "b"; goi_Key := Some "k";
            goi_Range := Some "bytes=0-" |} Sample.hello_bucket
       = (Ok (out, bytes_of "hello"), Sample.hello_bucket)).
Proof. split; eexists; vm_compute; reflexivity. Qed.

(** A list of three parts whose second part is shorter than the first. *)
Lemma CompleteMultipartUpload_invalid_part_witness :
  CompleteMultipartUpload (H := Sample.env) posix_xattr
    (Sample.complete_input
       [Sample.part 1 "aaaa"; Sample.part 2 "bb"; Sample.part 3 "cccc"])
    Sample.upload_tree
  = (Err (APIError ErrInvalidPart), Sample.upload_tree).
Proof.
  apply (CompleteMultipartUpload_invalid_part (H := Sample.env) posix_xattr
           "b" "k" "u1" _ Sample.upload_tree).
  - vm_compute. reflexivity.
  - vm_compute. reflexivity.
  - exists 1%nat, (Sample.part 2 "bb"). split; [reflexivity|]. right.
    split; [simpl; lia|]. exists (Sample.part 1 "aaaa"). split; [reflexivity|].
    vm_compute. discriminate.
Defined.

(** The same upload completed with its parts in the order 1, 3, 2. *)
Lemma CompleteMultipartUpload_etag_and_content_witness :
  os_ReadFile "b/k"
    (CompleteMultipartUpload (H := Sample.env) posix_xattr
       (Sample.complete_input
          [Sample.part 1 "aaaa"; Sample.part 3 "cccc"; Sample.part 2 "bb"])
       Sample.upload_tree).2
  = Ok (bytes_of "aaaaccccbb")
  ∧ hex_EncodeToString
      (md5_Sum (concat (map md5_Sum [bytes_of "aaaa"; bytes_of "cccc"; bytes_of "bb"])))
    ++ "-3" = "0559d3362b5240d67463fcd28c392f45-3".
Proof.
  destruct (CompleteMultipartUpload_etag_and_content (H := Sample.env)
              "b" "k" "u1"
              [Sample.part 1 "aaaa"; Sample.part 3 "cccc"; Sample.part 2 "bb"]
              [bytes_of "aaaa"; bytes_of "cccc"; bytes_of "bb"]
              Sample.upload_tree
              (CompleteMultipartUpload (H := Sample.env) posix_xattr
                 (Sample.complete_input
                    [Sample.part 1 "aaaa"; Sample.part 3 "cccc"; Sample.part 2 "bb"])
                 Sample.upload_tree).2
              {| cmo_Bucket := "b"; cmo_ETag := "0559d3362b5240d67463fcd28c392f45-3";
                 cmo_Key := "k" |})
    as (Hetag & _ & Hdata & _).
  - unfold parts_uploaded.
    constructor; [split; vm_compute; reflexivity|].
    constructor; [split; vm_compute; reflexivity|].
    constructor; [split; vm_compute; reflexivity|].
    constructor.
  - split.
    + vm_compute. discriminate.
    + intros k q Hk Hq. vm_compute in Hk, Hq.
      injection Hk as <-. injection Hq as <-.
      intros Hp. apply prefix_cons_inv_1 in Hp. discriminate.
  - apply run_result. vm_compute. reflexivity.
  - split; [exact Hdata|]. symmetry. exact Hetag.
Defined.

(** A put of the object [k] with the body "hello" into the empty bucket,
    then a read of the whole object. *)
Lemma PutObject_GetObject_witness :
  ∃ out,
    GetObject (H := Sample.env) posix_xattr
      {| goi_Bucket := Some "b"; goi_Key := Some "k"; goi_Range := Some "" |}
      (PutObject (H := Sample.env) posix_xattr
         (Sample.put_input "k" "hello" 5) Sample.empty_bucket).2
    = (Ok (out, bytes_of "hello"),
       (PutObject (H := Sample.env) posix_xattr
          (Sample.put_input "k" "hello" 5) Sample.empty_bucket).2)
    ∧ goo_ETag out = "5d41402abc4b2a76b9719d911017c592".
Proof.
  destruct (PutObject_GetObject (H := Sample.env)
              (Sample.put_input "k" "hello" 5) "b" "k" Sample.empty_bucket
              (PutObject (H := Sample.env) posix_xattr
                 (Sample.put_input "k" "hello" 5) Sample.empty_bucket).2
              "5d41402abc4b2a76b9719d911017c592" "")
    as (_ & _ & out & Hget & Hetag).
  - intros t. eexists. reflexivity.
  - reflexivity.
  - reflexivity.
  - reflexivity.
  - apply run_result. vm_compute. reflexivity.
  - left. reflexivity.
  - exists out. split; [exact Hget|exact Hetag].
Defined.

(** A put of the directory object [d/] into the empty bucket, with a
    content length of 3 and with none. *)
Lemma PutObject_directory_witness :
  PutObject (H := Sample.env) posix_xattr (Sample.put_input "d/" "abc" 3)
    Sample.empty_bucket
  = (Err (APIError ErrDirectoryObjectContainsData), Sample.empty_bucket)
  ∧ ∃ fs' attrs,
      PutObject (H := Sample.env) posix_xattr (Sample.put_input "d/" "" 0)
        Sample.empty_bucket
      = (Ok emptyMD5, fs')
      ∧ os_Stat "b/d" fs' = Ok (Dir attrs)
      ∧ attrs !! etagkey = Some (bytes_of emptyMD5)
      ∧ attrs !! "X-Amz-Meta.color" = Some (bytes_of "red").
Proof.
  split.
  - apply (PutObject_directory (H := Sample.env) posix_xattr
             (Sample.put_input "d/" "abc" 3) "b" "d/" Sample.empty_bucket).
    + reflexivity.
    + reflexivity.
    + reflexivity.
    + reflexivity.
    + right. reflexivity.
    + simpl. lia.
  - destruct (PutObject_directory (H := Sample.env) posix_xattr
                (Sample.put_input "d/" "" 0) "b" "d/" Sample.empty_bucket)
      as [_ Hdir].
    + reflexivity.
    + reflexivity.
    + reflexivity.
    + reflexivity.
    + right. reflexivity.
    + destruct Hdir as (fs' & attrs & Hput & _ & _ & Hstat & Hetag & Hmeta).
      * reflexivity.
      * exists ["b"; "d"]. split; [reflexivity|]. split; [discriminate|].
        intros q' d a _ Hl. unfold Sample.empty_bucket in Hl.
        apply lookup_singleton_Some in Hl as [_ Hl]. discriminate.
      * exists fs', attrs. split; [exact Hput|]. split; [exact Hstat|].
        split; [exact Hetag|]. apply (Hmeta "color" "red"). reflexivity.
Defined.


(** The key [a/b/c/k] put into the empty bucket and deleted again; and
    deleted after [a/b/] was put as a directory object: then [a/b/c] goes,
    [a/b] and [a] stay. *)
Lemma parents_after_delete_witness :
  (∃ fs2,
     DeleteObject posix_xattr
       {| doi_Bucket := Some "b"; doi_Key := Some "a/b/c/k" |} Sample.deep_bucket
     = (Ok tt, fs2)
     ∧ fs2 !! ["b"; "a"] = None
     ∧ fs2 !! ["b"; "a"; "b"] = None
     ∧ fs2 !! ["b"; "a"; "b"; "c"] = None)
  ∧ (∃ fs',
       DeleteObject posix_xattr
         {| doi_Bucket := Some "b"; doi_Key := Some "a/b/c/k" |}
         Sample.marked_bucket
       = (Ok tt, fs')
       ∧ fs' !! ["b"; "a"; "b"; "c"] = None
       ∧ is_Some (fs' !! ["b"; "a"; "b"])).
Proof.
  destruct (parents_after_delete (H := Sample.env) "b" "a" "b" "c" "k"
              eq_refl eq_refl eq_refl eq_refl eq_refl) as [Hput Hrule].
  split.
  - destruct (Hput (Sample.put_input "a/b/c/k" "hello" 5) Sample.empty_bucket
                "5d41402abc4b2a76b9719d911017c592" Sample.deep_bucket)
      as (fs2 & Hdel & Hgone).
    + discriminate.
    + intros c rest [n Hn]. unfold Sample.empty_bucket in Hn.
      apply lookup_singleton_Some in Hn as [Hn _]. discriminate.
    + reflexivity.
    + reflexivity.
    + apply run_result. vm_compute. reflexivity.
    + exists fs2. split; [exact Hdel|].
      split; [apply (Hgone ["a"]); [by exists ["b"; "c"]|discriminate]|].
      split; [apply (Hgone ["a"; "b"]); [by exists ["c"]|discriminate]|].
      apply (Hgone ["a"; "b"; "c"]); [reflexivity|discriminate].
  - assert ((map_to_list Sample.marked_bucket).*1
            = [["b"; ".sgwtmp"]; ["b"; "a"; "b"; "c"; "k"]; ["b"; "a"; "b"; "c"];
               ["b"; "a"; "b"]; ["b"]; ["b"; "a"]]) as Hkeys
      by (vm_compute; reflexivity).
    destruct (Hrule Sample.marked_bucket (bytes_of "hello")
                (node_attrs (default (Dir ∅)
                               (Sample.marked_bucket !! ["b"; "a"; "b"; "c"; "k"]))))
      as (fs' & Hdel & Hrem).
    + destruct (lookup_dir_bool Sample.marked_bucket ["b"]) as [a0 Ha0];
        [vm_compute; reflexivity|].
      rewrite Ha0. eauto.
    + destruct (Sample.marked_bucket !! ["b"; "a"; "b"; "c"; "k"])
        as [[d a|a]|] eqn:E.
      * cbn [default node_attrs from_option]. f_equal. f_equal.
        assert (match Sample.marked_bucket !! ["b"; "a"; "b"; "c"; "k"] with
                | Some (File d' _) => d'
                | _ => []
                end = bytes_of "hello") as Hd by (vm_compute; reflexivity).
        rewrite E in Hd. exact Hd.
      * exfalso.
        assert (match Sample.marked_bucket !! ["b"; "a"; "b"; "c"; "k"] with
                | Some (File _ _) => true
                | _ => false
                end = true) as Hd by (vm_compute; reflexivity).
        rewrite E in Hd. discriminate.
      * exfalso.
        assert (match Sample.marked_bucket !! ["b"; "a"; "b"; "c"; "k"] with
                | Some (File _ _) => true
                | _ => false
                end = true) as Hd by (vm_compute; reflexivity).
        rewrite E in Hd. discriminate.
    + split.
      * intros l' Hp Hne. apply lookup_dir_bool.
        destruct (prefix_of_three_cases _ _ _ _ Hp) as [->|[->|[->| ->]]];
          [congruence| | |]; vm_compute; reflexivity.
      * intros l' c' Hp Hne Hs. apply is_Some_in_keys in Hs. rewrite Hkeys in Hs.
        clear Hkeys Hput Hrule.
        rewrite !elem_of_cons, elem_of_nil in Hs.
        destruct (prefix_of_three_cases _ _ _ _ Hp) as [->|[->|[->| ->]]];
          [congruence| | |];
          destruct Hs as [Hs|[Hs|[Hs|[Hs|[Hs|[Hs|[]]]]]]];
          try discriminate Hs; injection Hs as ->.
        -- by exists ["c"; "k"].
        -- by exists ["k"].
        -- reflexivity.
    + exists fs'. split; [exact Hdel|]. split.
      * apply (Hrem ["a"; "b"; "c"]); [reflexivity|discriminate|].
        intros l'' H1 H2. assert (l'' = ["a"; "b"; "c"]) as ->
          by (apply (anti_symm prefix); assumption).
        exists ∅. split; [vm_compute; reflexivity|reflexivity].
      * destruct (Hrem ["a"; "b"]) as [Hiff Hsame];
          [by exists ["c"]|discriminate|].
        destruct (lookup_dir_bool Sample.marked_bucket ["b"; "a"; "b"])
          as [a Ha]; [vm_compute; reflexivity|].
        destruct Hsame as [Hnone|Hsame]; [|rewrite Hsame, Ha; eauto].
        exfalso. apply (lookup_etag_bool Sample.marked_bucket ["b"; "a"; "b"]);
          [vm_compute; reflexivity|].
        apply Hiff; [exact Hnone|reflexivity|by exists ["c"]].
Defined.

(** * Further properties

    Properties of the operations beyond those of the design: buckets,
    their access control lists, policies and locks, the tags and the
    locks of objects, the frame of a put and of a delete, and the life
    of a multipart upload. *)

Section Further.

Context `{Externals} `{Externals2}.

Lemma resolve_Join_bucket_empty B :
  valid_name B = true → resolve (filepath_Join [B; ""]) = Some [B].
Proof.
  intros V. unfold filepath_Join.
  rewrite (valid_name_nonempty _ V).
  unfold filepath_Clean.
  change (join_slash [B; ""]) with (join_slash [B] ++ "/").
  rewrite clean_parts_join_slash by (try discriminate; repeat constructor; exact V).
  change (join_slash [B]) with B. apply resolve_bucket, V.
Qed.

Lemma os_Stat_bucket B n fs :
  valid_name B = true → fs !! [B] = Some n → os_Stat B fs = Ok n.
Proof.
  intros V E. apply (os_Stat_lookup B [B]); [apply resolve_bucket, V|discriminate|exact E].
Qed.

Lemma stat_bucket_there B n fs :
  valid_name B = true → fs !! [B] = Some n → stat_bucket B fs = (Ok tt, fs).
Proof.
  intros V E. apply stat_bucket_ok. rewrite (os_Stat_bucket B n fs V E). reflexivity.
Qed.

Lemma xattr_remove_run bucket object k q n fs :
  resolve (filepath_Join [bucket; object]) = Some q → q ≠ [] →
  fs !! q = Some n →
  Xattr.remove bucket object k fs
  = match node_attrs n !! k with
    | Some _ => (Ok tt, <[q := set_attrs (delete k (node_attrs n)) n]> fs)
    | None => (Err MetaErrNoSuchKey, fs)
    end.
Proof.
  intros R Q E. unfold Xattr.remove.
  destruct (node_attrs n !! k) eqn:A.
  - apply (xattr_update_run _ _ _ _ q n); try assumption. rewrite A. reflexivity.
  - unfold Xattr.update.
    rewrite (resolve_name_nonempty _ _ R Q), R.
    destruct q; [congruence|]. rewrite E, A. reflexivity.
Qed.

(** X3.  The access control list of a bucket: a bucket that has none reads
    as the empty list; what is put is what is read, and nothing else in
    the tree changes. *)
Theorem PutBucketAcl_GetBucketAcl (B : string) (data : bytes) (n : node)
    (fs : fsys) :
  valid_name B = true →
  fs !! [B] = Some n →
  (node_attrs n !! aclkey = None →
   GetBucketAcl posix_xattr {| gba_Bucket := Some B |} fs = (Ok [], fs))
  ∧ ∃ fs',
      PutBucketAcl posix_xattr B data fs = (Ok tt, fs')
      ∧ GetBucketAcl posix_xattr {| gba_Bucket := Some B |} fs' = (Ok data, fs')
      ∧ ∀ k, k ≠ [B] → fs' !! k = fs !! k.
Proof.
  intros V E.
  pose proof (resolve_Join_bucket_empty B V) as R.
  split.
  - intros A. unfold GetBucketAcl. simpl.
    rewrite (bind_ok _ _ _ _ _ (stat_bucket_there B n fs V E)).
    unfold on_err, reads. simpl.
    rewrite (xattr_get_run B "" aclkey [B] n fs R ltac:(discriminate) E), A.
    reflexivity.
  - eexists. split; [|split].
    + unfold PutBucketAcl.
      rewrite (bind_ok _ _ _ _ _ (stat_bucket_there B n fs V E)).
      unfold on_err. simpl.
      rewrite (xattr_set_run B "" aclkey data [B] n fs R ltac:(discriminate) E).
      reflexivity.
    + unfold GetBucketAcl. simpl.
      erewrite bind_ok; [|eapply stat_bucket_there; [exact V|apply lookup_insert_eq]].
      unfold on_err, reads. simpl.
      erewrite xattr_get_run; [|exact R|discriminate|apply lookup_insert_eq].
      rewrite node_attrs_set, lookup_insert_eq. reflexivity.
    + intros k K. rewrite lookup_insert_ne; [reflexivity|congruence].
Qed.


Lemma getAttrTags_run bucket object q n fs :
  resolve (filepath_Join [bucket; object]) = Some q → q ≠ [] →
  fs !! q = Some n →
  getAttrTags posix_xattr bucket object fs
  = match node_attrs n !! tagHdr with
    | None => Err (APIError ErrBucketTaggingNotFound)
    | Some b => match json_Unmarshal_tags b with
                | None => Err (Wrap "unmarshal tags" JSONError)
                | Some tags => Ok tags
                end
    end.
Proof.
  intros R Q E. unfold getAttrTags. simpl.
  rewrite (xattr_get_run _ _ _ q n fs R Q E).
  destruct (node_attrs n !! tagHdr); reflexivity.
Qed.

(** X7.  The tags of a bucket: what is put is what is read; a delete
    succeeds whether or not there are tags, and a read after it finds
    none. *)
Theorem bucket_tagging_round_trip (B : string) (tags : gmap string string)
    (n : node) (fs : fsys) :
  valid_name B = true →
  fs !! [B] = Some n →
  json_Unmarshal_tags (json_Marshal_tags tags) = Some tags →
  ∃ fs1 fs2,
    PutBucketTagging posix_xattr B (Some tags) fs = (Ok tt, fs1)
    ∧ GetBucketTagging posix_xattr B fs1 = (Ok tags, fs1)
    ∧ DeleteBucketTagging posix_xattr B fs1 = (Ok tt, fs2)
    ∧ GetBucketTagging posix_xattr B fs2
      = (Err (APIError ErrBucketTaggingNotFound), fs2)
    ∧ DeleteBucketTagging posix_xattr B fs2 = (Ok tt, fs2)
    ∧ ∀ k, k ≠ [B] → fs2 !! k = fs !! k.
Proof.
  intros V E J.
  pose proof (resolve_Join_bucket_empty B V) as R.
  assert (Q : [B] ≠ []) by discriminate.
  set (n1 := set_attrs (<[tagHdr := json_Marshal_tags tags]> (node_attrs n)) n).
  set (n2 := set_attrs (delete tagHdr (node_attrs n1)) n1).
  exists (<[[B] := n1]> fs), (<[[B] := n2]> (<[[B] := n1]> fs)).
  assert (E1 : (<[[B] := n1]> fs) !! [B] = Some n1) by apply lookup_insert_eq.
  assert (E2 : (<[[B] := n2]> (<[[B] := n1]> fs)) !! [B] = Some n2)
    by apply lookup_insert_eq.
  assert (A1 : node_attrs n1 !! tagHdr = Some (json_Marshal_tags tags)).
  { unfold n1. rewrite node_attrs_set. apply lookup_insert_eq. }
  assert (A2 : node_attrs n2 !! tagHdr = None).
  { unfold n2. rewrite node_attrs_set. apply lookup_delete_eq. }
  repeat split.
  - unfold PutBucketTagging.
    rewrite (bind_ok _ _ _ _ _ (stat_bucket_there B n fs V E)).
    unfold on_err. simpl.
    rewrite (xattr_set_run B "" _ _ [B] n fs R Q E). reflexivity.
  - unfold GetBucketTagging.
    rewrite (bind_ok _ _ _ _ _ (stat_bucket_there B n1 _ V E1)).
    unfold reads. rewrite (getAttrTags_run B "" [B] n1 _ R Q E1), A1, J.
    reflexivity.
  - unfold DeleteBucketTagging, PutBucketTagging.
    rewrite (bind_ok _ _ _ _ _ (stat_bucket_there B n1 _ V E1)).
    unfold on_err. simpl.
    rewrite (xattr_remove_run B "" _ [B] n1 _ R Q E1), A1. reflexivity.
  - unfold GetBucketTagging.
    rewrite (bind_ok _ _ _ _ _ (stat_bucket_there B n2 _ V E2)).
    unfold reads. rewrite (getAttrTags_run B "" [B] n2 _ R Q E2), A2.
    reflexivity.
  - unfold DeleteBucketTagging, PutBucketTagging.
    rewrite (bind_ok _ _ _ _ _ (stat_bucket_there B n2 _ V E2)).
    unfold on_err. simpl.
    rewrite (xattr_remove_run B "" _ [B] n2 _ R Q E2), A2. reflexivity.
  - intros k K. rewrite !lookup_insert_ne by congruence. reflexivity.
Qed.

(** X8.  The tags of an object: what is put is what is read; after the
    delete a read finds none, the object has lost that attribute alone,
    and everything else stays as it is. *)
Theorem object_tagging_round_trip (B : string) (l : list string)
    (tags : gmap string string) (b n : node) (fs : fsys) :
  valid_name B = true →
  l ≠ [] → Forall (λ x, valid_name x = true) l →
  fs !! [B] = Some b →
  fs !! (B :: l) = Some n →
  json_Unmarshal_tags (json_Marshal_tags tags) = Some tags →
  ∃ fs1 fs2,
    PutObjectTagging posix_xattr B (join_slash l) (Some tags) fs = (Ok tt, fs1)
    ∧ GetObjectTagging posix_xattr B (join_slash l) fs1 = (Ok tags, fs1)
    ∧ DeleteObjectTagging posix_xattr B (join_slash l) fs1 = (Ok tt, fs2)
    ∧ GetObjectTagging posix_xattr B (join_slash l) fs2
      = (Err (APIError ErrBucketTaggingNotFound), fs2)
    ∧ fs2 !! (B :: l) = Some (set_attrs (delete tagHdr (node_attrs n)) n)
    ∧ ∀ k, k ≠ B :: l → fs2 !! k = fs !! k.
Proof.
  intros V L F Eb E J.
  pose proof (resolve_bucket_key B l V L F) as R.
  assert (Q : B :: l ≠ []) by discriminate.
  assert (N : [B] ≠ B :: l) by (destruct l; congruence).
  set (n1 := set_attrs (<[tagHdr := json_Marshal_tags tags]> (node_attrs n)) n).
  set (n2 := set_attrs (delete tagHdr (node_attrs n1)) n1).
  exists (<[B :: l := n1]> fs), (<[B :: l := n2]> (<[B :: l := n1]> fs)).
  assert (E1 : (<[B :: l := n1]> fs) !! (B :: l) = Some n1) by apply lookup_insert_eq.
  assert (E2 : (<[B :: l := n2]> (<[B :: l := n1]> fs)) !! (B :: l) = Some n2)
    by apply lookup_insert_eq.
  assert (B1 : (<[B :: l := n1]> fs) !! [B] = Some b)
    by (rewrite lookup_insert_ne by congruence; exact Eb).
  assert (B2 : (<[B :: l := n2]> (<[B :: l := n1]> fs)) !! [B] = Some b)
    by (rewrite lookup_insert_ne by congruence; exact B1).
  assert (A1 : node_attrs n1 !! tagHdr = Some (json_Marshal_tags tags)).
  { unfold n1. rewrite node_attrs_set. apply lookup_insert_eq. }
  assert (A2 : node_attrs n2 !! tagHdr = None).
  { unfold n2. rewrite node_attrs_set. apply lookup_delete_eq. }
  repeat split.
  - unfold PutObjectTagging.
    rewrite (bind_ok _ _ _ _ _ (stat_bucket_there B b fs V Eb)).
    unfold on_err. simpl.
    rewrite (xattr_set_run B _ _ _ (B :: l) n fs R Q E). reflexivity.
  - unfold GetObjectTagging.
    rewrite (bind_ok _ _ _ _ _ (stat_bucket_there B b _ V B1)).
    unfold reads. rewrite (getAttrTags_run B _ (B :: l) n1 _ R Q E1), A1, J.
    reflexivity.
  - unfold DeleteObjectTagging, PutObjectTagging.
    rewrite (bind_ok _ _ _ _ _ (stat_bucket_there B b _ V B1)).
    unfold on_err. simpl.
    rewrite (xattr_remove_run B _ _ (B :: l) n1 _ R Q E1), A1. reflexivity.
  - unfold GetObjectTagging.
    rewrite (bind_ok _ _ _ _ _ (stat_bucket_there B b _ V B2)).
    unfold reads. rewrite (getAttrTags_run B _ (B :: l) n2 _ R Q E2), A2.
    reflexivity.
  - rewrite E2. unfold n2, n1. rewrite node_attrs_set, set_attrs_set.
    rewrite delete_insert_eq. reflexivity.
  - intros k K. rewrite !lookup_insert_ne by congruence. reflexivity.
Qed.






Lemma removeParents_run p bucket object fs :
  ∃ fs', removeParents p bucket object fs = (Ok tt, fs')
         ∧ ∀ k n, fs' !! k = Some n → fs !! k = Some n.
Proof. unfold removeParents. apply removeParents_loop_removes. Qed.

Lemma DeleteObject_cases input fs r fs' :
  DeleteObject posix_xattr input fs = (r, fs') →
  (∀ k n, fs' !! k = Some n → fs !! k = Some n)
  ∧ (is_Ok r = false → fs' = fs).
Proof.
  unfold DeleteObject.
  destruct (doi_Bucket input) as [bucket|];
    [|intros [= <- <-]; split; [intros k n E; exact E|reflexivity]].
  destruct (doi_Key input) as [object|];
    [|intros [= <- <-]; split; [intros k n E; exact E|reflexivity]].
  rewrite bind_run, stat_bucket_run.
  destruct (os_Stat bucket fs) as [b|e].
  2:{ destruct (is_ErrNotExist e); intros [= <- <-];
      split; try (intros k n E; exact E); reflexivity. }
  rewrite bind_run. unfold on_err at 1.
  destruct (os_Remove_cases (filepath_Join [bucket; object]) fs)
    as [(e & ->)|(q & n & R & Q & E & ->)].
  { destruct (is_ErrNotExist e); intros [= <- <-];
      split; try (intros k n E; exact E); reflexivity. }
  rewrite bind_run. unfold on_err at 1. simpl.
  rewrite (xattr_remove_all_gone bucket object q (delete q fs) R)
    by apply lookup_delete_eq.
  destruct (removeParents_run posix_xattr bucket object (delete q fs))
    as (fs2 & -> & K).
  intros [= <- <-]. split.
  - intros k m E'. apply K in E'.
    apply lookup_delete_Some in E'. apply E'.
  - discriminate.
Qed.

(** X20.  [DeleteObject] never creates or changes an entry, and when it
    returns an error it has removed nothing. *)
Theorem DeleteObject_only_removes (input : DeleteObjectInput) (fs : fsys) :
  (∀ k n, (DeleteObject posix_xattr input fs).2 !! k = Some n →
          fs !! k = Some n)
  ∧ (is_Ok (DeleteObject posix_xattr input fs).1 = false →
     (DeleteObject posix_xattr input fs).2 = fs).
Proof.
  destruct (DeleteObject posix_xattr input fs) as [r fs'] eqn:E.
  exact (DeleteObject_cases input fs r fs' E).
Qed.

Lemma os_Stat_missing_bucket B fs :
  valid_name B = true → fs !! [B] = None →
  os_Stat B fs = Err (PathError "stat" B ENOENT).
Proof.
  intros V E. unfold os_Stat.
  rewrite (valid_name_nonempty _ V), (resolve_bucket _ V).
  cbn [lookup_node]. rewrite E. unfold missing. simpl. rewrite E. reflexivity.
Qed.

(** X21.  A delete that leaves the bucket empty removes the bucket: the
    loop of [removeParents] stops at the parent [/], and the parent of a
    key without a slash is [.], which names the bucket directory itself. *)
Theorem DeleteObject_last_key_removes_bucket (B k : string) (d : bytes)
    (a ab : xattrs) (fs : fsys) :
  valid_name B = true → valid_name k = true →
  fs !! [B] = Some (Dir ab) →
  ab !! etagkey = None →
  fs !! [B; k] = Some (File d a) →
  (∀ c rest, is_Some (fs !! (B :: c :: rest)) → c = k ∧ rest = []) →
  ∃ fs',
    DeleteObject posix_xattr {| doi_Bucket := Some B; doi_Key := Some k |} fs
    = (Ok tt, fs')
    ∧ fs' !! [B] = None
    ∧ HeadBucket {| hbi_Bucket := Some B |} fs'
      = (Err (APIError ErrNoSuchBucket), fs').
Proof.
  intros VB Vk EB Ae Ek Only.
  assert (Rk : resolve (filepath_Join [B; k]) = Some [B; k]).
  { apply (resolve_bucket_key B [k] VB); [discriminate|]. repeat constructor. exact Vk. }
  pose proof (resolve_Join_dot B VB) as Rd.
  set (fs1 := delete [B; k] fs).
  assert (E1 : fs1 !! [B] = Some (Dir ab)).
  { unfold fs1. rewrite lookup_delete_ne by congruence. exact EB. }
  assert (C1 : ∀ c, fs1 !! ([B] ++ [c])%list = None).
  { intros c. simpl. unfold fs1.
    destruct (decide (c = k)) as [->|N].
    - apply lookup_delete_eq.
    - rewrite lookup_delete_ne by congruence.
      destruct (fs !! [B; c]) eqn:E; [|reflexivity].
      destruct (Only c []) as [-> _]; [rewrite E; eauto|congruence]. }
  destruct (removeParents_loop_removes posix_xattr B (size fs1) "."
              (delete [B] fs1)) as (fs' & L & K).
  assert (Gone : fs' !! [B] = None).
  { destruct (fs' !! [B]) eqn:E; [|reflexivity].
    apply K in E. rewrite lookup_delete_eq in E. discriminate. }
  exists fs'. split; [|split; [exact Gone|]].
  - unfold DeleteObject. cbn [doi_Bucket doi_Key].
    rewrite (bind_ok _ _ _ _ _ (stat_bucket_there B _ fs VB EB)).
    rewrite bind_run. unfold on_err at 1.
    rewrite (os_Remove_file _ [B; k] d a fs Rk ltac:(discriminate) Ek).
    rewrite bind_run. unfold on_err at 1. simpl.
    rewrite (xattr_remove_all_gone B k [B; k] _ Rk) by apply lookup_delete_eq.
    fold fs1. unfold removeParents. cbn [removeParents_loop].
    rewrite (Dir_plain k (valid_name_no_slash _ Vk)).
    change (String.eqb "." "/") with false. cbv iota.
    simpl RetrieveAttribute.
    rewrite (xattr_get_run B "." etagkey [B] _ fs1 Rd ltac:(discriminate) E1).
    simpl node_attrs. rewrite Ae.
    rewrite (os_Remove_empty_dir _ [B] ab fs1 Rd ltac:(discriminate) E1 C1).
    exact L.
  - unfold HeadBucket. simpl. unfold on_err, reads, os_Lstat.
    rewrite bind_run.
    rewrite (os_Stat_missing_bucket B fs' VB Gone). reflexivity.
Qed.


Lemma join_slash_nonempty l :
  l ≠ [] → Forall (λ x, valid_name x = true) l → join_slash l ≠ "".
Proof.
  intros L F E. pose proof (join_slash_not_root' l L F) as N.
  rewrite E in N. discriminate.
Qed.

Lemma HasSuffix_slash_join l :
  l ≠ [] → Forall (λ x, valid_name x = true) l →
  strings_HasSuffix (join_slash l) "/" = false.
Proof.
  induction l as [|x l IH]; [congruence|]. intros _ F.
  apply Forall_cons in F as [Vx F].
  destruct l as [|y l].
  - apply HasSuffix_slash_plain, valid_name_no_slash, Vx.
  - rewrite join_slash_cons.
    rewrite HasSuffix_slash_app.
    + rewrite (HasSuffix_slash_app "/").
      * apply IH; [discriminate|exact F].
      * apply join_slash_nonempty; [discriminate|exact F].
    + destruct (join_slash (y :: l)); discriminate.
Qed.

Lemma mkdir_all_file rest name : ∀ pre fs r' d a,
  r' ≠ [] → r' `prefix_of` rest →
  fs !! (pre ++ r')%list = Some (File d a) →
  ∃ fs', mkdir_all pre rest name fs = (Err (PathError "mkdir" name ENOTDIR), fs').
Proof.
  induction rest as [|c r IH]; intros pre fs r' d a N P E.
  - apply prefix_nil_inv in P. congruence.
  - destruct r' as [|c' r'']; [congruence|].
    apply prefix_cons_inv_1 in P as Hc. subst c'.
    apply prefix_cons_inv_2 in P.
    cbn [mkdir_all].
    destruct r'' as [|c2 r3].
    + rewrite E. eauto.
    + assert (E' : ∀ fs0 : fsys, fs0 !! ((pre ++ [c]) ++ c2 :: r3)%list = fs0 !! (pre ++ c :: c2 :: r3)%list).
      { intros fs0. rewrite <- app_assoc. reflexivity. }
      destruct (fs !! (pre ++ [c])%list) as [[d' a'|a']|] eqn:Eq.
      * eauto.
      * apply (IH _ _ (c2 :: r3) d a); [discriminate|exact P|].
        rewrite E'. exact E.
      * apply (IH _ _ (c2 :: r3) d a); [discriminate|exact P|].
        rewrite E'. rewrite lookup_insert_ne; [exact E|].
        intros Heq. apply (f_equal length) in Heq.
        rewrite !length_app in Heq. simpl in Heq. lia.
Qed.

Lemma openTmpFile_run dir bucket obj size fs fs1 :
  backend_MkdirAll dir fs = (Ok tt, fs1) →
  openTmpFile dir bucket obj size fs
  = (Ok {| tmp_bucket := bucket; tmp_objname := obj; tmp_data := [] |}, fs1).
Proof.
  intros E. unfold openTmpFile. rewrite bind_run. unfold on_err.
  rewrite E. reflexivity.
Qed.

(** X14.  A put of a key that names a directory, or whose path runs
    through a regular file, is refused with [ExistingObjectIsDirectory];
    no entry of the tree is changed and the key is not created. *)
Theorem PutObject_existing_object_is_directory (po : PutObjectInput)
    (B : string) (l : list string) (b : node) (fs : fsys) :
  valid_name B = true →
  l ≠ [] → Forall (λ x, valid_name x = true) l →
  po_Bucket po = Some B →
  po_Key po = Some (join_slash l) →
  valid_tagging (po_Tagging po) →
  fs !! [B] = Some b →
  (∀ a, fs !! (B :: l) = Some (Dir a) →
        PutObject posix_xattr po fs
        = (Err (APIError ErrExistingObjectIsDirectory), fs))
  ∧ (∀ l' d a,
       l' ≠ [] → l' `prefix_of` l → l' ≠ l →
       fs !! (B :: l') = Some (File d a) →
       fs !! (B :: l) = None →
       can_mkdir (filepath_Join [B; metaTmpDir]) fs →
       ∃ fs',
         PutObject posix_xattr po fs
         = (Err (APIError ErrExistingObjectIsDirectory), fs')
         ∧ (∀ k n, fs !! k = Some n → fs' !! k = Some n)
         ∧ fs' !! (B :: l) = None).
Proof.
  intros VB L F HB HK HT Eb.
  pose proof (resolve_bucket_key B l VB L F) as R.
  pose proof (HasSuffix_slash_join l L F) as Suf.
  split.
  - intros a E. unfold PutObject. rewrite HB, HK, Suf.
    rewrite (bind_ok _ _ _ _ _ (stat_bucket_there B b fs VB Eb)).
    destruct (parse_tags_run (po_Tagging po) fs HT) as (tags & Ht).
    rewrite (bind_ok _ _ _ _ _ Ht).
    rewrite bind_run. unfold attempt at 1, reads at 1.
    rewrite (os_Stat_lookup _ (B :: l) (Dir a) fs R ltac:(discriminate) E).
    reflexivity.
  - intros l' d a L' P NE E EN Can.
    destruct (backend_MkdirAll_ok _ fs Can) as (fs1 & qt & at' & Mk & Rt & _ & _ & K1).
    assert (Rt' : resolve (filepath_Join [B; metaTmpDir]) = Some [B; metaTmpDir]).
    { apply (resolve_bucket_key B [metaTmpDir] VB); [discriminate|].
      repeat constructor. }
    rewrite Rt' in Rt. injection Rt as <-.
    destruct (exists_last L) as (l1 & x & ->).
    apply prefix_snoc_inv in P as [->|P]; [congruence|].
    apply Forall_app in F as [F1 Fx]. apply Forall_cons in Fx as [Vx _].
    assert (Nm : filepath_Join [B; join_slash (l1 ++ [x])]
                 = join_slash ((B :: l1) ++ [x])).
    { rewrite Join_bucket_key; [reflexivity|exact VB|exact L|].
      apply Forall_app. split; [exact F1|]. repeat constructor. exact Vx. }
    assert (FB : Forall (λ y, valid_name y = true) (B :: l1))
      by (constructor; [exact VB|exact F1]).
    assert (Dr : filepath_Dir (filepath_Join [B; join_slash (l1 ++ [x])])
                 = join_slash (B :: l1)).
    { rewrite Nm. apply Dir_join; [discriminate|exact FB|].
      apply valid_name_no_slash, Vx. }
    assert (E1 : fs1 !! (B :: l1 ++ [x])%list = None).
    { destruct (fs1 !! (B :: l1 ++ [x])%list) eqn:E1; [|reflexivity].
      destruct (backend_MkdirAll_new _ _ _ _ _ _ Mk EN E1) as (_ & q & Rq & _ & Pq).
      rewrite Rt' in Rq. injection Rq as <-.
      apply prefix_cons_inv_2 in Pq.
      destruct l1 as [|y l1].
      - apply prefix_nil_inv in P. congruence.
      - apply prefix_length in Pq. rewrite length_app in Pq. simpl in Pq. lia. }
    destruct (mkdir_all_file (B :: l1) (join_slash (B :: l1)) [] fs1 (B :: l') d a)
      as (fs2 & Mk2).
    { discriminate. }
    { apply prefix_cons, P. }
    { apply K1, E. }
    assert (Mk2' : backend_MkdirAll (join_slash (B :: l1)) fs1
                   = (Err (PathError "mkdir" (join_slash (B :: l1)) ENOTDIR), fs2)).
    { unfold backend_MkdirAll.
      rewrite (join_slash_not_root' (B :: l1)) by (try discriminate; exact FB).
      rewrite (resolve_join (B :: l1)) by (try discriminate; exact FB).
      exact Mk2. }
    exists fs2. split; [|split].
    + unfold PutObject. rewrite HB, HK, Suf.
      rewrite (bind_ok _ _ _ _ _ (stat_bucket_there B b fs VB Eb)).
      destruct (parse_tags_run (po_Tagging po) fs HT) as (tags & Ht).
      rewrite (bind_ok _ _ _ _ _ Ht).
      rewrite bind_run. unfold attempt at 1, reads at 1.
      assert (St : os_Stat (filepath_Join [B; join_slash (l1 ++ [x])]) fs
                   = Err (PathError "stat" (filepath_Join [B; join_slash (l1 ++ [x])])
                            (missing fs (B :: l1 ++ [x])%list))).
      { unfold os_Stat.
        rewrite (resolve_name_nonempty _ _ R ltac:(discriminate)), R.
        cbn [lookup_node]. rewrite EN. reflexivity. }
      rewrite St. cbv iota.
      rewrite bind_run. unfold on_err at 1.
      rewrite (openTmpFile_run _ _ _ _ _ _ Mk).
      rewrite Dr.
      rewrite (join_slash_not_root' (B :: l1)) by (try discriminate; exact FB).
      rewrite bind_run. unfold on_err at 1. rewrite Mk2'. reflexivity.
    + intros k n Ek. eapply backend_MkdirAll_keeps; [exact Mk2'|]. apply K1, Ek.
    + destruct (fs2 !! (B :: l1 ++ [x])%list) eqn:E2; [|reflexivity].
      destruct (backend_MkdirAll_new _ _ _ _ _ _ Mk2' E1 E2) as (_ & q & Rq & _ & Pq).
      rewrite (resolve_join (B :: l1)) in Rq by (try discriminate; exact FB).
      injection Rq as <-. apply prefix_length in Pq.
      simpl in Pq. rewrite length_app in Pq. simpl in Pq. lia.
Qed.

(** X13.  A successful put of a file changes nothing but the object: every
    other entry stays as it is, and what is new besides the object are
    empty directories on the way to it or to the staging directory. *)
Theorem PutObject_keeps_others (po : PutObjectInput) (bucket key : string)
    (fs fs' : fsys) (etag : string) :
  po_Bucket po = Some bucket →
  po_Key po = Some key →
  strings_HasSuffix key "/" = false →
  PutObject posix_xattr po fs = (Ok etag, fs') →
  ∃ q,
    resolve (filepath_Join [bucket; key]) = Some q
    ∧ (∀ k n, k ≠ q → fs !! k = Some n → fs' !! k = Some n)
    ∧ (∀ k n, k ≠ q → fs !! k = None → fs' !! k = Some n →
         n = Dir ∅
         ∧ ∃ q0, k `prefix_of` q0
                 ∧ (resolve (filepath_Join [bucket; metaTmpDir]) = Some q0
                    ∨ resolve (filepath_Dir (filepath_Join [bucket; key]))
                      = Some q0)).
Proof.
  intros HB HK Suf P.
  destruct (PutObject_file_tree po bucket key fs etag fs' HB HK Suf P)
    as (_ & _ & q & attrs & fs1 & fs2 & R & Q & Mk1 & Mk2 & _ & -> & _).
  exists q. split; [exact R|]. split.
  - intros k n N E. rewrite lookup_insert_ne by congruence.
    apply (backend_MkdirAll_keeps _ _ _ _ _ _ Mk1) in E.
    destruct (String.eqb (filepath_Dir (filepath_Join [bucket; key])) "").
    + subst fs2. exact E.
    + apply (backend_MkdirAll_keeps _ _ _ _ _ _ Mk2), E.
  - intros k n N E E'. rewrite lookup_insert_ne in E' by congruence.
    destruct (fs1 !! k) as [n1|] eqn:E1.
    + destruct (backend_MkdirAll_new _ _ _ _ _ _ Mk1 E E1) as (-> & q0 & R0 & _ & P0).
      assert (fs2 !! k = Some (Dir ∅)) as E2.
      { destruct (String.eqb (filepath_Dir (filepath_Join [bucket; key])) "").
        - subst fs2. exact E1.
        - apply (backend_MkdirAll_keeps _ _ _ _ _ _ Mk2), E1. }
      rewrite E2 in E'. injection E' as <-.
      split; [reflexivity|]. exists q0. split; [exact P0|left; exact R0].
    + destruct (String.eqb (filepath_Dir (filepath_Join [bucket; key])) "").
      * subst fs2. congruence.
      * destruct (backend_MkdirAll_new _ _ _ _ _ _ Mk2 E1 E') as (-> & q0 & R0 & _ & P0).
        split; [reflexivity|]. exists q0. split; [exact P0|right; exact R0].
Qed.


(** [GetObject] on a regular file, once the range is parsed. *)
Lemma GetObject_file_run bucket key range q body attrs fs start len0 :
  is_Ok (os_Stat bucket fs) = true →
  resolve (filepath_Join [bucket; key]) = Some q → q ≠ [] →
  fs !! q = Some (File body attrs) →
  ParseRange (Z.of_nat (length body)) range = Ok (start, len0) →
  let size := Z.of_nat (length body) in
  let len := if len0 =? -1 then size - start + 1 else len0 in
  let contentRange :=
    if String.eqb range "" then ""
    else "bytes " ++ itoa start ++ "-" ++ itoa (start + len - 1)
         ++ "/" ++ itoa size in
  GetObject posix_xattr
    {| goi_Bucket := Some bucket; goi_Key := Some key;
       goi_Range := Some range |} fs
  = if size + 1 <? start + len then (Err (APIError ErrInvalidRange), fs)
    else match object_output posix_xattr bucket key range len contentRange fs with
         | Ok out => (Ok (out, section body start len), fs)
         | Err e => (Err e, fs)
         end.
Proof.
  intros Hb Hr Hq Hl HP. unfold GetObject.
  cbn [goi_Bucket goi_Key goi_Range].
  rewrite (bind_ok _ _ _ _ _ (stat_bucket_ok _ _ Hb)).
  rewrite bind_run. unfold on_err at 1, reads at 1.
  rewrite (os_Stat_lookup _ _ _ _ Hr Hq Hl).
  rewrite bind_run. unfold reads at 1. cbn [IsDir Size]. rewrite HP.
  cbv zeta.
  destruct (Z.of_nat (length body) + 1 <?
            start + (if len0 =? -1 then Z.of_nat (length body) - start + 1 else len0));
    [reflexivity|].
  assert (os_ReadFile (filepath_Join [bucket; key]) fs = Ok body) as Hread.
  { unfold os_ReadFile. rewrite (os_Stat_lookup _ _ _ _ Hr Hq Hl). reflexivity. }
  rewrite bind_run. unfold on_err at 1, reads at 1. rewrite Hread.
  rewrite bind_run. unfold reads at 1.
  destruct (object_output posix_xattr bucket key range _ _ fs); reflexivity.
Qed.

(** The answer of a read, for an object whose tags can be decoded. *)
Lemma object_output_run bucket key acceptRange len contentRange q n fs :
  (∀ t, is_Some (json_Unmarshal_tags (json_Marshal_tags t))) →
  resolve (filepath_Join [bucket; key]) = Some q → q ≠ [] →
  fs !! q = Some n →
  (node_attrs n !! tagHdr = None
   ∨ ∃ t, node_attrs n !! tagHdr = Some (json_Marshal_tags t)) →
  ∃ tagCount,
    object_output posix_xattr bucket key acceptRange len contentRange fs
    = Ok {| goo_AcceptRanges := acceptRange;
            goo_ContentLength := len;
            goo_ContentEncoding :=
              (loadUserMetaData posix_xattr bucket key ∅ fs).2;
            goo_ContentType :=
              (loadUserMetaData posix_xattr bucket key ∅ fs).1.2;
            goo_ETag := match node_attrs n !! etagkey with
                        | Some b => string_of b
                        | None => ""
                        end;
            goo_Metadata :=
              (loadUserMetaData posix_xattr bucket key ∅ fs).1.1;
            goo_TagCount := tagCount;
            goo_ContentRange := contentRange |}.
Proof.
  intros Hjson Hr Hq Hl Ht. unfold object_output.
  destruct (loadUserMetaData posix_xattr bucket key ∅ fs) as [[um ct] ce].
  assert (stored_etag posix_xattr bucket key fs
          = match node_attrs n !! etagkey with
            | Some b => string_of b
            | None => ""
            end) as ->.
  { unfold stored_etag. cbn [meta posix_xattr RetrieveAttribute XattrMeta].
    rewrite (xattr_get_run _ _ _ _ _ _ Hr Hq Hl).
    destruct (node_attrs n !! etagkey); reflexivity. }
  unfold getAttrTags. cbn [meta posix_xattr RetrieveAttribute XattrMeta].
  rewrite (xattr_get_run _ _ _ _ _ _ Hr Hq Hl).
  destruct Ht as [->|[t ->]].
  - simpl. eexists. reflexivity.
  - destruct (Hjson t) as [t' ->]. eexists. reflexivity.
Qed.



(** [strings.TrimPrefix] and [isValidMeta] on the name of a user
    attribute. *)
Lemma TrimPrefix_metaHdr k :
  strings_TrimPrefix (metaHdr ++ "." ++ k) (metaHdr ++ ".") = k.
Proof. destruct k; reflexivity. Qed.

Lemma isValidMeta_metaHdr k : isValidMeta (metaHdr ++ "." ++ k) = true.
Proof. destruct k; reflexivity. Qed.


Lemma store_all_inv kvs x b : ∀ a,
  store_all kvs a !! x = Some b →
  a !! x = Some b ∨ ∃ k v, (k, v) ∈ kvs ∧ x = metaHdr ++ "." ++ k.
Proof.
  induction kvs as [|[k v] r IH]; intros a E; [left; exact E|].
  unfold store_all in E. cbn [fold_left] in E.
  apply IH in E as [E|(k' & v' & I & ->)].
  - cbn [fst snd] in E.
    destruct (decide (x = metaHdr ++ "." ++ k)) as [->|N].
    + right. exists k, v. split; [left|reflexivity].
    + rewrite lookup_insert_ne in E by congruence. left. exact E.
  - right. exists k', v'. split; [right; exact I|reflexivity].
Qed.

(** The attributes of an object after a put, the four the gateway keeps
    for itself aside: the user metadata of the request. *)
Lemma PutObject_file_meta po bucket key fs etag fs' :
  po_Bucket po = Some bucket →
  po_Key po = Some key →
  strings_HasSuffix key "/" = false →
  PutObject posix_xattr po fs = (Ok etag, fs') →
  ∃ q attrs,
    resolve (filepath_Join [bucket; key]) = Some q
    ∧ fs' !! q = Some (File (po_Body po) attrs)
    ∧ ∀ x, x ≠ tagHdr → x ≠ objectLegalHoldKey → x ≠ objectRetentionKey →
           x ≠ etagkey →
           attrs !! x = store_all (map_to_list (po_Metadata po)) ∅ !! x.
Proof.
  intros HB HK Hsuf. unfold PutObject. rewrite HB, HK, Hsuf.
  rewrite bind_run, stat_bucket_run.
  destruct (os_Stat bucket fs) as [nb|e] eqn:Hb;
    [|destruct (is_ErrNotExist e); discriminate].
  rewrite bind_run. unfold reads at 1.
  match goal with |- context [if String.eqb ?t "" then Ok ∅ else ?pt] =>
    destruct (if String.eqb t "" then Ok ∅ else pt) as [tags|e] eqn:Ht end;
    [|discriminate].
  rewrite bind_run. unfold attempt at 1, reads at 1.
  destruct (match os_Stat (filepath_Join [bucket; key]) fs with
            | Ok fi => IsDir fi
            | Err _ => false
            end); [discriminate|].
  rewrite bind_run. unfold on_err at 1.
  destruct (openTmpFile _ bucket key _ fs) as [[f|e] fs1] eqn:Ho;
    [|destruct (is_EDQUOT e); discriminate].
  apply openTmpFile_mkdir in Ho as [-> Hmk1].
  rewrite bind_run.
  match goal with |- context [(if ?c then mret tt else ?m) fs1] =>
    destruct ((if c then mret tt else m) fs1) as [[[]|e] fs2] eqn:Hd end;
    [|discriminate].
  rewrite bind_run. unfold on_err at 1.
  destruct (tmp_link _ fs2) as [[[]|e] fs3] eqn:Hl; [|discriminate].
  apply tmp_link_ok in Hl as (q & Hr & Hq & ->).
  cbn [tmp_write tmp_bucket tmp_objname tmp_data app] in Hr |- *.
  rewrite (bind_ok _ _ _ _ _
             (put_user_meta_run _ _ _ _ _ _ Hr Hq (lookup_insert_eq _ _ _))).
  rewrite insert_insert_eq. cbn [set_attrs node_attrs].
  set (a0 := store_all (map_to_list (po_Metadata po)) ∅).
  set (plain := λ x : string, x ≠ tagHdr ∧ x ≠ objectLegalHoldKey
                              ∧ x ≠ objectRetentionKey ∧ x ≠ etagkey).
  (* tagging *)
  rewrite bind_run.
  match goal with |- context [(if ?c then mret tt else ?m) ?st] =>
    destruct ((if c then mret tt else m) st) as [[[]|e] fs4] eqn:Hs end;
    [|discriminate].
  assert (∃ a1, fs4 = <[q := File (po_Body po) a1]> fs2
                ∧ ∀ x, plain x → a1 !! x = a0 !! x) as (a1 & -> & I1).
  { destruct (String.eqb (default "" (po_Tagging po)) "").
    - injection Hs as <-. exists a0. split; [reflexivity|]. reflexivity.
    - eapply PutObjectTagging_ok in Hs; [|exact Hr|exact Hq|apply lookup_insert_eq].
      subst fs4. rewrite insert_insert_eq. cbn [set_attrs node_attrs].
      eexists. split; [reflexivity|]. intros x (N & _).
      apply lookup_insert_ne. congruence. }
  clear Hs.
  (* legal hold *)
  rewrite bind_run.
  match goal with |- context [(if ?c then ?m else mret tt) ?st] =>
    destruct ((if c then m else mret tt) st) as [[[]|e] fs5] eqn:Hs end;
    [|discriminate].
  assert (∃ a2, fs5 = <[q := File (po_Body po) a2]> fs2
                ∧ ∀ x, plain x → a2 !! x = a0 !! x) as (a2 & -> & I2).
  { destruct (String.eqb (po_ObjectLockLegalHoldStatus po) "ON").
    - eapply PutObjectLegalHold_ok in Hs; [|exact Hr|exact Hq|apply lookup_insert_eq].
      subst fs5. rewrite insert_insert_eq. cbn [set_attrs node_attrs].
      eexists. split; [reflexivity|]. intros x Px. pose proof Px as (_ & N & _).
      rewrite lookup_insert_ne by congruence. apply I1, Px.
    - injection Hs as <-. exists a1. split; [reflexivity|exact I1]. }
  clear Hs I1 a1.
  (* retention *)
  rewrite bind_run.
  match goal with |- context [(if ?c then mret tt else ?m) ?st] =>
    destruct ((if c then mret tt else m) st) as [[[]|e] fs6] eqn:Hs end;
    [|discriminate].
  assert (∃ a3, fs6 = <[q := File (po_Body po) a3]> fs2
                ∧ ∀ x, plain x → a3 !! x = a0 !! x) as (a3 & -> & I3).
  { destruct (String.eqb (po_ObjectLockMode po) "").
    - injection Hs as <-. exists a2. split; [reflexivity|exact I2].
    - eapply PutObjectRetention_ok in Hs; [|exact Hr|exact Hq|apply lookup_insert_eq].
      subst fs6. rewrite insert_insert_eq. cbn [set_attrs node_attrs].
      eexists. split; [reflexivity|]. intros x Px. pose proof Px as (_ & _ & N & _).
      rewrite lookup_insert_ne by congruence. apply I2, Px. }
  clear Hs I2 a2.
  (* etag *)
  rewrite bind_run.
  match goal with |- context [on_err ?m ?h ?st] =>
    destruct (on_err m h st) as [r fs7] eqn:Hs end.
  eapply store_step in Hs as [-> ->]; [|exact Hr|exact Hq|apply lookup_insert_eq].
  rewrite insert_insert_eq. cbn [set_attrs node_attrs].
  intros [= <- <-].
  eexists q, _. split; [exact Hr|]. split; [apply lookup_insert_eq|].
  intros x N1 N2 N3 N4.
  rewrite lookup_insert_ne by congruence. apply I3. repeat split; assumption.
Qed.


Lemma load_meta_entries_spec (md : gmap string string) bucket key q n fs :
  resolve (filepath_Join [bucket; key]) = Some q → q ≠ [] →
  fs !! q = Some n →
  (∀ e b, node_attrs n !! e = Some b → isValidMeta e = true →
          ∃ k v, e = metaHdr ++ "." ++ k ∧ md !! k = Some v ∧ b = bytes_of v) →
  ∀ ents m,
    (∀ e, e ∈ ents → is_Some (node_attrs n !! e)) →
    m ⊆ md →
    load_meta_entries posix_xattr bucket key ents m fs ⊆ md
    ∧ (∀ k v, m !! k = Some v →
              load_meta_entries posix_xattr bucket key ents m fs !! k = Some v)
    ∧ (∀ k v, metaHdr ++ "." ++ k ∈ ents → md !! k = Some v →
              load_meta_entries posix_xattr bucket key ents m fs !! k = Some v).
Proof.
  intros R Q E Valid. induction ents as [|e r IH]; intros m In Sub.
  - cbn [load_meta_entries]. split; [exact Sub|]. split; [auto|].
    intros k v I. apply elem_of_nil in I as [].
  - cbn [load_meta_entries].
    assert (Inr : ∀ e', e' ∈ r → is_Some (node_attrs n !! e'))
      by (intros e' I; apply In; right; exact I).
    destruct (isValidMeta e) eqn:Ve; cbn [negb].
    + cbn [meta posix_xattr RetrieveAttribute XattrMeta].
      rewrite (xattr_get_run _ _ _ _ _ _ R Q E).
      destruct (In e ltac:(left)) as [b Eb]. rewrite Eb.
      destruct (Valid e b Eb Ve) as (k0 & v0 & -> & Mk & ->).
      rewrite TrimPrefix_metaHdr, string_of_bytes_of.
      assert (Sub' : <[k0 := v0]> m ⊆ md).
      { apply insert_subseteq_l; assumption. }
      destruct (IH (<[k0 := v0]> m) Inr Sub') as (S1 & S2 & S3).
      split; [exact S1|]. split.
      * intros k v Em. apply S2.
        destruct (decide (k = k0)) as [->|N].
        -- rewrite lookup_insert_eq. f_equal.
           pose proof (lookup_weaken _ _ _ _ Em Sub) as Em'. congruence.
        -- rewrite lookup_insert_ne by congruence. exact Em.
      * intros k v I Em. apply elem_of_cons in I as [I|I].
        -- apply string_app_inv_head, string_app_inv_head in I. subst k0.
           apply S2. rewrite lookup_insert_eq. congruence.
        -- apply S3; assumption.
    + destruct (IH m Inr Sub) as (S1 & S2 & S3).
      split; [exact S1|]. split; [exact S2|].
      intros k v I Em. apply elem_of_cons in I as [I|I].
      * rewrite <- I, isValidMeta_metaHdr in Ve. discriminate.
      * apply S3; assumption.
Qed.

Lemma metaHdr_plain k :
  metaHdr ++ "." ++ k ≠ tagHdr ∧ metaHdr ++ "." ++ k ≠ objectLegalHoldKey
  ∧ metaHdr ++ "." ++ k ≠ objectRetentionKey ∧ metaHdr ++ "." ++ k ≠ etagkey
  ∧ metaHdr ++ "." ++ k ≠ contentTypeHdr ∧ metaHdr ++ "." ++ k ≠ contentEncHdr.
Proof. repeat split; discriminate. Qed.

(** What [loadUserMetaData] reads from an object as a put leaves it. *)
Lemma loadUserMetaData_after_put (md : gmap string string) bucket key q n fs :
  resolve (filepath_Join [bucket; key]) = Some q → q ≠ [] →
  fs !! q = Some n →
  is_Some (node_attrs n !! etagkey) →
  (∀ x, x ≠ tagHdr → x ≠ objectLegalHoldKey → x ≠ objectRetentionKey →
        x ≠ etagkey →
        node_attrs n !! x = store_all (map_to_list md) ∅ !! x) →
  loadUserMetaData posix_xattr bucket key ∅ fs = (md, "", "").
Proof.
  intros R Q E Et Plain. set (attrs := node_attrs n) in *.
  assert (ND : NoDup (map_to_list md).*1) by apply NoDup_fst_map_to_list.
  assert (Valid : ∀ e b, attrs !! e = Some b → isValidMeta e = true →
            ∃ k v, e = metaHdr ++ "." ++ k ∧ md !! k = Some v ∧ b = bytes_of v).
  { intros e b Eb Ve.
    rewrite Plain in Eb by (intros ->; discriminate).
    pose proof Eb as Eb'.
    apply store_all_inv in Eb as [Eb|(k & v & I & ->)].
    - rewrite lookup_empty in Eb. discriminate.
    - exists k, v. split; [reflexivity|].
      split; [apply elem_of_map_to_list, I|].
      rewrite (store_all_lookup _ k v ∅ ND I) in Eb'. congruence. }
  assert (Has : ∀ k v, md !! k = Some v →
            metaHdr ++ "." ++ k ∈ map fst (map_to_list attrs)).
  { intros k v Em. destruct (metaHdr_plain k) as (N1 & N2 & N3 & N4 & _).
    apply list_elem_of_fmap. exists (metaHdr ++ "." ++ k, bytes_of v).
    split; [reflexivity|]. apply elem_of_map_to_list.
    rewrite Plain by assumption.
    apply store_all_lookup; [exact ND|]. apply elem_of_map_to_list, Em. }
  assert (NoCT : ∀ x, x = contentTypeHdr ∨ x = contentEncHdr → attrs !! x = None).
  { intros x Hx. rewrite Plain by (destruct Hx as [-> | ->]; discriminate).
    rewrite store_all_other; [apply lookup_empty|].
    intros k v _. destruct (metaHdr_plain k) as (_ & _ & _ & _ & N5 & N6).
    destruct Hx as [-> | ->]; assumption. }
  unfold loadUserMetaData.
  cbn [meta posix_xattr ListAttributes RetrieveAttribute XattrMeta].
  unfold Xattr.list. rewrite (os_Stat_lookup _ _ _ _ R Q E). fold attrs.
  rewrite !(xattr_get_run _ _ _ _ _ _ R Q E). fold attrs.
  rewrite (NoCT contentTypeHdr) by (left; reflexivity).
  rewrite (NoCT contentEncHdr) by (right; reflexivity).
  destruct (load_meta_entries_spec md bucket key q n fs R Q E Valid
              (map fst (map_to_list attrs)) ∅) as (S1 & _ & S3).
  { intros e I. apply list_elem_of_fmap in I as ([e' b] & -> & I).
    apply elem_of_map_to_list in I. cbn [fst]. fold attrs. rewrite I. eauto. }
  { apply map_empty_subseteq. }
  assert (Eq : load_meta_entries posix_xattr bucket key
                 (map fst (map_to_list attrs)) ∅ fs = md).
  { apply (anti_symm (⊆)); [exact S1|].
    apply map_subseteq_spec. intros k v Em. apply (S3 k v); [|exact Em].
    apply (Has k v Em). }
  destruct (map fst (map_to_list attrs)) as [|e0 r] eqn:Ents.
  - exfalso. destruct Et as [b Eb].
    assert (I : etagkey ∈ map fst (map_to_list attrs)).
    { apply list_elem_of_fmap. exists (etagkey, b). split; [reflexivity|].
      apply elem_of_map_to_list, Eb. }
    rewrite Ents in I. apply elem_of_nil in I as [].
  - rewrite Eq. reflexivity.
Qed.

(** X16.  The user metadata of a put are the metadata of a read; the read
    of the whole object reports the length of the body and neither a
    content type nor an encoding nor a range. *)
Theorem PutObject_GetObject_metadata (po : PutObjectInput)
    (bucket key : string) (fs fs' : fsys) (etag : string) :
  (∀ t, is_Some (json_Unmarshal_tags (json_Marshal_tags t))) →
  po_Bucket po = Some bucket →
  po_Key po = Some key →
  strings_HasSuffix key "/" = false →
  PutObject posix_xattr po fs = (Ok etag, fs') →
  ∃ out,
    GetObject posix_xattr
      {| goi_Bucket := Some bucket; goi_Key := Some key;
         goi_Range := Some "" |} fs'
    = (Ok (out, po_Body po), fs')
    ∧ goo_Metadata out = po_Metadata po
    ∧ goo_ContentLength out = Z.of_nat (length (po_Body po))
    ∧ goo_ContentType out = ""
    ∧ goo_ContentEncoding out = ""
    ∧ goo_ContentRange out = "".
Proof.
  intros J HB HK Suf P.
  destruct (PutObject_file_state po bucket key fs etag fs' HB HK Suf P)
    as (_ & Sb & q & attrs & R & Q & E & Ae & At).
  destruct (PutObject_file_meta po bucket key fs etag fs' HB HK Suf P)
    as (q' & attrs' & R' & E' & Plain).
  rewrite R in R'. injection R' as <-. rewrite E in E'. injection E' as <-.
  pose proof (GetObject_file_run bucket key "" q _ attrs fs' 0 _
                Sb R Q E (ParseRange_empty _)) as G. cbv zeta in G.
  assert ((Z.of_nat (length (po_Body po)) =? -1) = false) as Hl
    by (apply Z.eqb_neq; lia).
  rewrite Hl in G.
  assert ((Z.of_nat (length (po_Body po)) + 1
           <? 0 + Z.of_nat (length (po_Body po))) = false) as Hc
    by (apply Z.ltb_ge; lia).
  rewrite Hc in G. change (String.eqb "" "") with true in G. cbv iota in G.
  edestruct (object_output_run bucket key "" (Z.of_nat (length (po_Body po))) "")
    as (tc & O); [exact J|exact R|exact Q|exact E|exact At|].
  rewrite O in G.
  rewrite (loadUserMetaData_after_put (po_Metadata po) bucket key q _ fs'
             R Q E ltac:(cbn [node_attrs]; rewrite Ae; eauto) Plain) in G.
  eexists. split.
  - rewrite G. rewrite section_whole by lia. reflexivity.
  - repeat split.
Qed.


Lemma backend_MkdirAll_bucket B ab fs :
  valid_name B = true → fs !! [B] = Some (Dir ab) →
  backend_MkdirAll B fs = (Ok tt, fs).
Proof.
  intros V E. unfold backend_MkdirAll.
  rewrite (valid_name_nonempty _ V), (resolve_bucket _ V).
  cbn [mkdir_all app]. rewrite E. reflexivity.
Qed.

(** X15.  A put that asks for a legal hold in a bucket without object lock
    is refused, but only after the object has been published: the data are
    in place under the key, without an etag, and a read returns them. *)
Theorem PutObject_lock_refused_after_publish (po : PutObjectInput)
    (B k : string) (ab : xattrs) (fs : fsys) :
  (∀ t, is_Some (json_Unmarshal_tags (json_Marshal_tags t))) →
  valid_name B = true → valid_name k = true → k ≠ metaTmpDir →
  po_Bucket po = Some B →
  po_Key po = Some k →
  po_Tagging po = None →
  po_ObjectLockLegalHoldStatus po = "ON" →
  fs !! [B] = Some (Dir ab) →
  ab !! bucketLockKey = None →
  (∀ a, fs !! [B; k] ≠ Some (Dir a)) →
  can_mkdir (filepath_Join [B; metaTmpDir]) fs →
  ∃ fs' attrs out,
    PutObject posix_xattr po fs
    = (Err (APIError ErrInvalidBucketObjectLockConfiguration), fs')
    ∧ fs' !! [B; k] = Some (File (po_Body po) attrs)
    ∧ attrs !! etagkey = None
    ∧ GetObject posix_xattr
        {| goi_Bucket := Some B; goi_Key := Some k; goi_Range := Some "" |} fs'
      = (Ok (out, po_Body po), fs')
    ∧ goo_ETag out = "".
Proof.
  intros J VB Vk NK HB HK HT HL EB Lock ND Can.
  assert (Rk : resolve (filepath_Join [B; k]) = Some [B; k]).
  { apply (resolve_bucket_key B [k] VB); [discriminate|]. repeat constructor. exact Vk. }
  assert (Qk : [B; k] ≠ []) by discriminate.
  assert (Rt : resolve (filepath_Join [B; metaTmpDir]) = Some [B; metaTmpDir]).
  { apply (resolve_bucket_key B [metaTmpDir] VB); [discriminate|]. repeat constructor. }
  pose proof (resolve_Join_bucket_empty B VB) as Rb.
  destruct (backend_MkdirAll_ok _ fs Can) as (fs1 & qt & at' & Mk & _ & _ & _ & K1).
  assert (EB1 : fs1 !! [B] = Some (Dir ab)) by (apply K1, EB).
  assert (ND1 : ∀ a, fs1 !! [B; k] ≠ Some (Dir a)).
  { intros a E1. destruct (fs !! [B; k]) as [n|] eqn:E0.
    - pose proof (K1 _ _ E0) as E0'. rewrite E0' in E1.
      injection E1 as E1. apply (ND a). congruence.
    - destruct (backend_MkdirAll_new _ _ _ _ _ _ Mk E0 E1) as (_ & q & Rq & _ & Pq).
      rewrite Rt in Rq. injection Rq as <-.
      apply prefix_cons_inv_2, prefix_cons_inv_1 in Pq. congruence. }
  assert (Dr : filepath_Dir (filepath_Join [B; k]) = B).
  { change k with (join_slash [k]) at 1.
    rewrite Join_bucket_key; [|exact VB|discriminate|repeat constructor; exact Vk].
    apply (Dir_join [B] k); [discriminate|repeat constructor; exact VB|].
    apply valid_name_no_slash, Vk. }
  set (f := {| tmp_bucket := B; tmp_objname := k; tmp_data := ([] ++ po_Body po)%list |}).
  assert (Lk : tmp_link f fs1 = (Ok tt, <[[B; k] := File (po_Body po) ∅]> fs1)).
  { unfold tmp_link. cbn [tmp_bucket tmp_objname tmp_data f].
    rewrite Rk. cbn [removelast]. unfold is_dir. cbn [lookup_node].
    rewrite EB1. cbn [negb].
    destruct (fs1 !! [B; k]) as [[d a|a]|] eqn:E1; try reflexivity.
    destruct (ND1 a eq_refl). }
  set (a0 := store_all (map_to_list (po_Metadata po)) ∅).
  set (fs3 := <[[B; k] := File (po_Body po) a0]> fs1).
  assert (E3 : fs3 !! [B; k] = Some (File (po_Body po) a0)) by apply lookup_insert_eq.
  assert (EB3 : fs3 !! [B] = Some (Dir ab)).
  { unfold fs3. rewrite lookup_insert_ne by congruence. exact EB1. }
  assert (A0e : a0 !! etagkey = None).
  { unfold a0. rewrite store_all_other; [apply lookup_empty|].
    intros x v _. apply metaHdr_plain. }
  assert (A0t : a0 !! tagHdr = None).
  { unfold a0. rewrite store_all_other; [apply lookup_empty|].
    intros x v _. apply metaHdr_plain. }
  assert (Hold : PutObjectLegalHold posix_xattr B k "" true fs3
                 = (Err (APIError ErrInvalidBucketObjectLockConfiguration), fs3)).
  { unfold PutObjectLegalHold.
    rewrite (bind_ok _ _ _ _ _ (stat_bucket_there B _ fs3 VB EB3)).
    rewrite bind_run.
    rewrite require_bucket_lock_disabled; [reflexivity|].
    left. exists MetaErrNoSuchKey. split; [|reflexivity].
    cbn [meta posix_xattr RetrieveAttribute XattrMeta].
    rewrite (xattr_get_run B "" _ [B] _ fs3 Rb ltac:(discriminate) EB3).
    cbn [node_attrs]. rewrite Lock. reflexivity. }
  assert (Put : PutObject posix_xattr po fs
                = (Err (APIError ErrInvalidBucketObjectLockConfiguration), fs3)).
  { unfold PutObject. rewrite HB, HK, HT, HL.
    rewrite (HasSuffix_slash_plain k (valid_name_no_slash _ Vk)).
    rewrite (bind_ok _ _ _ _ _ (stat_bucket_there B _ fs VB EB)).
    cbn [default]. change (String.eqb "" "") with true. cbv iota.
    rewrite bind_run. unfold reads at 1.
    rewrite bind_run. unfold attempt at 1, reads at 1.
    assert ((match os_Stat (filepath_Join [B; k]) fs with
             | Ok fi => IsDir fi
             | Err _ => false
             end) = false) as ->.
    { unfold os_Stat.
      rewrite (resolve_name_nonempty _ _ Rk Qk), Rk. cbn [lookup_node].
      destruct (fs !! [B; k]) as [[d a|a]|] eqn:E0; try reflexivity.
      destruct (ND a eq_refl). }
    rewrite bind_run. unfold on_err at 1.
    rewrite (openTmpFile_run _ _ _ _ _ _ Mk).
    rewrite Dr, (valid_name_nonempty _ VB).
    rewrite bind_run. unfold on_err at 1.
    rewrite (backend_MkdirAll_bucket B ab fs1 VB EB1).
    rewrite bind_run. unfold on_err at 1.
    change (tmp_write _ _) with f. rewrite Lk.
    rewrite (bind_ok _ _ _ _ _
               (put_user_meta_run _ _ _ _ _ _ Rk Qk (lookup_insert_eq _ _ _))).
    rewrite insert_insert_eq. cbn [set_attrs node_attrs]. fold a0. fold fs3.
    rewrite (bind_ok _ _ fs3 tt fs3 eq_refl).
    change (String.eqb "ON" "ON") with true. cbv iota.
    rewrite bind_run. rewrite Hold. reflexivity. }
  pose proof (GetObject_file_run B k "" [B; k] _ a0 fs3 0 _
                ltac:(rewrite (os_Stat_bucket B _ fs3 VB EB3); reflexivity)
                Rk Qk E3 (ParseRange_empty _)) as G. cbv zeta in G.
  assert ((Z.of_nat (length (po_Body po)) =? -1) = false) as Hl
    by (apply Z.eqb_neq; lia).
  rewrite Hl in G.
  assert ((Z.of_nat (length (po_Body po)) + 1
           <? 0 + Z.of_nat (length (po_Body po))) = false) as Hc
    by (apply Z.ltb_ge; lia).
  rewrite Hc in G. change (String.eqb "" "") with true in G. cbv iota in G.
  edestruct (object_output_run B k "" (Z.of_nat (length (po_Body po))) "")
    as (tc & O); [exact J|exact Rk|exact Qk|exact E3|left; exact A0t|].
  rewrite O in G. rewrite section_whole in G by lia.
  eexists fs3, a0, _. split; [exact Put|]. split; [exact E3|].
  split; [exact A0e|]. split; [exact G|].
  cbn [goo_ETag node_attrs]. rewrite A0e. reflexivity.
Qed.


(** *** The paths of a multipart upload *)

Lemma join_slash_app l l' :
  l ≠ [] → l' ≠ [] →
  join_slash (l ++ l') = join_slash l ++ "/" ++ join_slash l'.
Proof.
  intros L L'. induction l as [|x l IH]; [congruence|].
  destruct l as [|y l].
  - destruct l' as [|x' l']; [congruence|]. reflexivity.
  - change ((x :: y :: l) ++ l')%list with (x :: (y :: l) ++ l')%list.
    change ((y :: l) ++ l')%list with (y :: l ++ l')%list at 1.
    rewrite join_slash_cons.
    change (y :: l ++ l')%list with ((y :: l) ++ l')%list.
    rewrite IH by discriminate.
    rewrite join_slash_cons. rewrite !string_app_assoc. reflexivity.
Qed.

Lemma join_slash_concat ls :
  ls ≠ [] → Forall (λ l, l ≠ []) ls →
  join_slash (map join_slash ls) = join_slash (concat ls).
Proof.
  induction ls as [|l ls IH]; [congruence|]. intros _ F.
  apply Forall_cons in F as [L F].
  destruct ls as [|l2 ls].
  - simpl. rewrite app_nil_r. reflexivity.
  - cbn [map concat].
    change (join_slash (join_slash l :: join_slash l2 :: map join_slash ls))
      with (join_slash l ++ "/" ++ join_slash (map join_slash (l2 :: ls))).
    rewrite IH by (try discriminate; exact F).
    rewrite join_slash_app; [reflexivity|exact L|].
    apply Forall_cons in F as [L2 _]. cbn [concat].
    destruct l2; [congruence|discriminate].
Qed.

(** [filepath.Join] of paths that are clean already. *)
Lemma Join_valid ls :
  ls ≠ [] → Forall (λ l, l ≠ [] ∧ Forall (λ x, valid_name x = true) l) ls →
  filepath_Join (map join_slash ls) = join_slash (concat ls).
Proof.
  intros N F. destruct ls as [|l ls]; [congruence|].
  cbn [map filepath_Join].
  pose proof (Forall_inv F) as [L V].
  rewrite (join_slash_not_root' l L V).
  change (join_slash l :: map join_slash ls) with (map join_slash (l :: ls)).
  rewrite join_slash_concat.
  - apply Clean_join.
    + cbn [concat]. destruct l; [congruence|discriminate].
    + apply Forall_concat. eapply Forall_impl; [exact F|]. intros ? [_ ?]. assumption.
  - discriminate.
  - eapply Forall_impl; [exact F|]. intros ? [? _]. assumption.
Qed.

Lemma resolve_Join_valid ls :
  ls ≠ [] → Forall (λ l, l ≠ [] ∧ Forall (λ x, valid_name x = true) l) ls →
  resolve (filepath_Join (map join_slash ls)) = Some (concat ls).
Proof.
  intros N F. rewrite (Join_valid ls N F).
  pose proof (Forall_inv_head' := I).
  destruct ls as [|l ls]; [congruence|].
  pose proof (Forall_inv F) as [L V].
  apply resolve_join.
  - cbn [concat]. destruct l; [congruence|discriminate].
  - apply Forall_concat. eapply Forall_impl; [exact F|]. intros ? [_ ?]. assumption.
Qed.

Lemma digit_string_valid d :
  valid_name (NilZero.string_of_uint d) = true.
Proof.
  assert (P : ∀ d, no_slash (NilEmpty.string_of_uint d) = true).
  { intros d'. induction d' as [|? IH|? IH|? IH|? IH|? IH|? IH|? IH|? IH|? IH|? IH];
      cbn [NilEmpty.string_of_uint no_slash]; rewrite ?IH; reflexivity. }
  unfold valid_name, NilZero.string_of_uint.
  destruct d; try reflexivity; cbn [NilEmpty.string_of_uint no_slash];
    rewrite P; reflexivity.
Qed.

Lemma valid_name_itoa n : valid_name (itoa n) = true.
Proof.
  unfold itoa. destruct (Z.to_int n) as [d|d].
  - apply digit_string_valid.
  - cbn [NilZero.string_of_int].
    pose proof (digit_string_valid d) as V. unfold valid_name in *.
    apply andb_true_iff in V as [V _]. apply andb_true_iff in V as [V _].
    apply andb_true_iff in V as [V _].
    cbn [no_slash]. rewrite V. reflexivity.
Qed.


Lemma mkdir_all_existing name rest : ∀ pre fs,
  (∀ r', r' ≠ [] → r' `prefix_of` rest →
         ∃ a, fs !! (pre ++ r')%list = Some (Dir a)) →
  mkdir_all pre rest name fs = (Ok tt, fs).
Proof.
  induction rest as [|c r IH]; intros pre fs All; [reflexivity|].
  cbn [mkdir_all].
  destruct (All [c]) as [a ->]; [discriminate|apply prefix_cons, prefix_nil|].
  apply IH. intros r' N P. rewrite <- app_assoc. apply All; [discriminate|].
  apply prefix_cons, P.
Qed.

Section UploadPaths.

Variables (B object u : string).
Hypothesis VB : valid_name B = true.
Hypothesis VS : valid_name (sha256_hex object) = true.
Hypothesis Vu : valid_name u = true.

Let S := sha256_hex object.
Let objdir := filepath_Join [metaTmpMultipartDir; S].

Local Ltac valid_lists :=
  repeat first [ apply Forall_cons; split | apply Forall_nil | split
               | discriminate | assumption | reflexivity | apply valid_name_itoa ].

Lemma objdir_eq : objdir = join_slash [metaTmpDir; "multipart"; S].
Proof.
  unfold objdir.
  change [metaTmpMultipartDir; S]
    with (map join_slash [[metaTmpDir; "multipart"]; [S]]).
  rewrite Join_valid; [reflexivity|discriminate|]. subst S. valid_lists.
Qed.

Lemma upload_container_valid :
  Forall (λ x, valid_name x = true) (upload_container B object).
Proof. unfold upload_container. valid_lists. Qed.

Lemma upload_dir_valid :
  Forall (λ x, valid_name x = true) (upload_dir B object u).
Proof.
  unfold upload_dir. apply Forall_app. split; [apply upload_container_valid|].
  valid_lists.
Qed.

Lemma part_file_valid n :
  Forall (λ x, valid_name x = true) (part_file B object u n).
Proof.
  unfold part_file. apply Forall_app. split; [apply upload_dir_valid|].
  valid_lists.
Qed.

Lemma Join_bucket_objdir :
  filepath_Join [B; objdir] = join_slash (upload_container B object).
Proof.
  rewrite objdir_eq.
  change [B; join_slash [metaTmpDir; "multipart"; S]]
    with (map join_slash [[B]; [metaTmpDir; "multipart"; S]]).
  rewrite Join_valid; [reflexivity|discriminate|]. subst S. valid_lists.
Qed.

Lemma Join_bucket_multipart_sum :
  filepath_Join [B; metaTmpMultipartDir; S]
  = join_slash (upload_container B object).
Proof.
  change [B; metaTmpMultipartDir; S]
    with (map join_slash [[B]; [metaTmpDir; "multipart"]; [S]]).
  rewrite Join_valid; [reflexivity|discriminate|]. subst S. valid_lists.
Qed.

Lemma Join_container_upload :
  filepath_Join [join_slash (upload_container B object); u]
  = join_slash (upload_dir B object u).
Proof.
  change [join_slash (upload_container B object); u]
    with (map join_slash [upload_container B object; [u]]).
  rewrite Join_valid; [reflexivity|discriminate|].
  unfold upload_container. subst S. valid_lists.
Qed.

Lemma Join_bucket_objdir_upload :
  filepath_Join [B; objdir; u] = join_slash (upload_dir B object u).
Proof.
  rewrite objdir_eq.
  change [B; join_slash [metaTmpDir; "multipart"; S]; u]
    with (map join_slash [[B]; [metaTmpDir; "multipart"; S]; [u]]).
  rewrite Join_valid; [reflexivity|discriminate|]. subst S. valid_lists.
Qed.

Lemma Join_objdir_upload :
  filepath_Join [objdir; u] = join_slash [metaTmpDir; "multipart"; S; u].
Proof.
  rewrite objdir_eq.
  change [join_slash [metaTmpDir; "multipart"; S]; u]
    with (map join_slash [[metaTmpDir; "multipart"; S]; [u]]).
  rewrite Join_valid; [reflexivity|discriminate|]. subst S. valid_lists.
Qed.

Lemma Join_part_path n :
  filepath_Join [objdir; u; itoa n]
  = join_slash [metaTmpDir; "multipart"; S; u; itoa n].
Proof.
  rewrite objdir_eq.
  change [join_slash [metaTmpDir; "multipart"; S]; u; itoa n]
    with (map join_slash [[metaTmpDir; "multipart"; S]; [u]; [itoa n]]).
  rewrite Join_valid; [reflexivity|discriminate|]. subst S. valid_lists.
Qed.

Lemma resolve_upload_container :
  resolve (join_slash (upload_container B object))
  = Some (upload_container B object).
Proof. apply resolve_join; [discriminate|apply upload_container_valid]. Qed.

Lemma resolve_upload_dir :
  resolve (join_slash (upload_dir B object u)) = Some (upload_dir B object u).
Proof. apply resolve_join; [discriminate|apply upload_dir_valid]. Qed.

Lemma resolve_bucket_objdir :
  resolve (filepath_Join [B; objdir]) = Some (upload_container B object).
Proof. rewrite Join_bucket_objdir. apply resolve_upload_container. Qed.

Lemma resolve_bucket_upload :
  resolve (filepath_Join [B; filepath_Join [objdir; u]])
  = Some (upload_dir B object u).
Proof.
  rewrite Join_objdir_upload.
  apply (resolve_bucket_key B [metaTmpDir; "multipart"; S; u] VB); [discriminate|].
  subst S. valid_lists.
Qed.

Lemma resolve_bucket_part n :
  resolve (filepath_Join [B; filepath_Join [objdir; u; itoa n]])
  = Some (part_file B object u n).
Proof.
  rewrite Join_part_path.
  apply (resolve_bucket_key B [metaTmpDir; "multipart"; S; u; itoa n] VB);
    [discriminate|].
  subst S. valid_lists.
Qed.

End UploadPaths.


Lemma upload_open_bucket fs B object u :
  upload_open fs B object u → ∃ a, fs !! [B] = Some (Dir a).
Proof.
  intros O. apply O; [discriminate|].
  unfold upload_dir, upload_container. apply prefix_cons, prefix_nil.
Qed.

Lemma upload_open_dir fs B object u :
  upload_open fs B object u → ∃ a, fs !! upload_dir B object u = Some (Dir a).
Proof. intros O. apply O; [discriminate|reflexivity]. Qed.

Lemma upload_open_container fs B object u :
  upload_open fs B object u →
  ∀ r', r' ≠ [] → r' `prefix_of` upload_container B object →
        ∃ a, fs !! r' = Some (Dir a).
Proof.
  intros O r' N P. apply O; [exact N|].
  unfold upload_dir. apply prefix_app_r, P.
Qed.

(** X25.  A part uploaded to an open upload: the call returns the
    hexadecimal MD5 of the body, and the only change of the tree is the
    file of the part, with the body as its data and the etag as its
    attribute. *)
Theorem UploadPart_on_open_upload (B object u : string) (n : Z)
    (len : option Z) (body : bytes) (fs : fsys) :
  valid_name B = true →
  valid_name (sha256_hex object) = true →
  valid_name u = true →
  upload_open fs B object u →
  (∀ a, fs !! part_file B object u n ≠ Some (Dir a)) →
  UploadPart posix_xattr
    {| upi_Bucket := Some B; upi_Key := Some object; upi_UploadId := u;
       upi_PartNumber := n; upi_ContentLength := len; upi_Body := body |} fs
  = (Ok (hex_EncodeToString (md5_Sum body)),
     <[part_file B object u n :=
         File body {[ etagkey := bytes_of (hex_EncodeToString (md5_Sum body)) ]}]>
       fs).
Proof.
  intros VB VS Vu O ND.
  destruct (upload_open_bucket _ _ _ _ O) as [ab EB].
  destruct (upload_open_dir _ _ _ _ O) as [au EU].
  pose proof (resolve_bucket_part B object u VB VS Vu n) as RP.
  assert (QP : part_file B object u n ≠ []) by discriminate.
  unfold UploadPart.
  cbn [upi_Bucket upi_Key upi_UploadId upi_PartNumber upi_ContentLength upi_Body].
  rewrite (bind_ok _ _ _ _ _ (stat_bucket_there B _ fs VB EB)).
  rewrite bind_run. unfold on_err at 1, reads at 1.
  rewrite (Join_bucket_objdir_upload B object u VB VS Vu).
  rewrite (os_Stat_lookup _ _ _ fs (resolve_upload_dir B object u VB VS Vu)
             ltac:(discriminate) EU).
  rewrite bind_run. unfold on_err at 1.
  assert (Mk : backend_MkdirAll
                 (filepath_Join [B; filepath_Join [metaTmpMultipartDir; sha256_hex object]])
                 fs = (Ok tt, fs)).
  { unfold backend_MkdirAll.
    rewrite (resolve_name_nonempty _ _ (resolve_bucket_objdir B object VB VS)
               ltac:(discriminate)).
    rewrite (resolve_bucket_objdir B object VB VS).
    apply mkdir_all_existing. intros r' N P. cbn [app].
    apply (upload_open_container _ _ _ _ O r' N P). }
  rewrite (openTmpFile_run _ _ _ _ _ _ Mk).
  rewrite bind_run. unfold on_err at 1.
  set (f := tmp_write _ body).
  assert (Lk : tmp_link f fs
               = (Ok tt, <[part_file B object u n := File body ∅]> fs)).
  { unfold tmp_link. cbn [tmp_bucket tmp_objname tmp_data f tmp_write].
    rewrite RP. unfold part_file at 1 2.
    rewrite removelast_last. unfold is_dir.
    rewrite lookup_node_nonempty by discriminate. rewrite EU. cbn [negb].
    fold (part_file B object u n).
    destruct (fs !! part_file B object u n) as [[d a|a]|] eqn:E1; try reflexivity.
    destruct (ND a eq_refl). }
  rewrite Lk.
  rewrite bind_run. unfold on_err at 1.
  cbn [meta posix_xattr StoreAttribute XattrMeta].
  rewrite (xattr_set_run _ _ _ _ _ _ _ RP QP (lookup_insert_eq _ _ _)).
  rewrite insert_insert_eq. cbn [set_attrs node_attrs].
  reflexivity.
Qed.


Lemma mkdir_all_makes name rest : ∀ pre fs,
  (∀ r' d a, r' ≠ [] → r' `prefix_of` rest →
             fs !! (pre ++ r')%list ≠ Some (File d a)) →
  ∃ fs', mkdir_all pre rest name fs = (Ok tt, fs').
Proof.
  induction rest as [|c r IH]; intros pre fs NF; [eexists; reflexivity|].
  cbn [mkdir_all].
  assert (Step : ∀ fs0 : fsys,
            (∀ k, k ≠ (pre ++ [c])%list → fs0 !! k = fs !! k) →
            ∀ r' d a, r' ≠ [] → r' `prefix_of` r →
                      fs0 !! ((pre ++ [c]) ++ r')%list ≠ Some (File d a)).
  { intros fs0 Same r' d a N P. rewrite Same.
    - rewrite <- app_assoc. apply NF; [discriminate|]. apply prefix_cons, P.
    - intros E. apply (f_equal length) in E. rewrite !length_app in E.
      destruct r'; [congruence|]. simpl in E. lia. }
  destruct (fs !! (pre ++ [c])%list) as [[d a|a]|] eqn:E.
  - destruct (NF [c] d a); [discriminate|apply prefix_cons, prefix_nil|exact E].
  - apply IH, Step. reflexivity.
  - apply IH, Step. intros k N. apply lookup_insert_ne. congruence.
Qed.

Lemma store_plain_other kvs key : ∀ a,
  (∀ k v, (k, v) ∈ kvs → k ≠ key) →
  store_plain kvs a !! key = a !! key.
Proof.
  induction kvs as [|[k0 v0] r IH]; intros a Hne; [reflexivity|].
  unfold store_plain in *. cbn [fold_left]. rewrite IH.
  - apply lookup_insert_ne. apply (Hne k0 v0). left.
  - intros k v Hin. apply (Hne k v). right. exact Hin.
Qed.

Lemma store_plain_lookup kvs k v : ∀ a,
  NoDup kvs.*1 → (k, v) ∈ kvs →
  store_plain kvs a !! k = Some (bytes_of v).
Proof.
  induction kvs as [|[k0 v0] r IH]; intros a Hnd Hin.
  - inversion Hin.
  - apply NoDup_cons in Hnd as [Hk0 Hnd].
    apply elem_of_cons in Hin as [[= -> ->]|Hin].
    + unfold store_plain. cbn [fold_left]. fold (store_plain r).
      rewrite store_plain_other.
      * apply lookup_insert_eq.
      * intros k v Hin ->. apply Hk0. apply list_elem_of_fmap. exists (k0, v). done.
    + unfold store_plain. cbn [fold_left]. apply IH; assumption.
Qed.

Lemma create_user_attrs_run bucket objdir uploadID tmppath kvs : ∀ fs q n,
  resolve (filepath_Join [bucket; filepath_Join [objdir; uploadID]]) = Some q →
  q ≠ [] → fs !! q = Some n →
  create_user_attrs posix_xattr bucket objdir uploadID tmppath kvs fs
  = (Ok tt, <[q := set_attrs (store_plain kvs (node_attrs n)) n]> fs).
Proof.
  induction kvs as [|[k v] r IH]; intros fs q n Hr Hq Hl.
  - simpl. unfold mret, M_ret. f_equal. symmetry. apply insert_id.
    rewrite Hl. destruct n; reflexivity.
  - cbn [create_user_attrs]. rewrite bind_run. unfold on_err.
    cbn [meta posix_xattr StoreAttribute XattrMeta].
    rewrite (xattr_set_run _ _ _ _ _ _ _ Hr Hq Hl).
    rewrite (IH _ q _ Hr Hq (lookup_insert_eq _ _ _)).
    rewrite insert_insert_eq, node_attrs_set, set_attrs_set. reflexivity.
Qed.

(** X24.  The start of a multipart upload. A key that ends with a slash is
    refused. Otherwise the call makes the directory of the upload, which
    is open afterwards; the container carries the key as its [objname]
    attribute and the directory of the upload the user metadata of the
    request; everything else stays as it is. *)
Theorem CreateMultipartUpload_opens (B object u : string)
    (md : gmap string string) (ab : xattrs) (fs : fsys) :
  valid_name B = true →
  valid_name (sha256_hex object) = true →
  valid_name u = true →
  fs !! [B] = Some (Dir ab) →
  (strings_HasSuffix object "/" = true →
   CreateMultipartUpload posix_xattr
     {| cmi_Bucket := Some B; cmi_Key := Some object; cmi_Metadata := md |} u fs
   = (Err (APIError ErrDirectoryObjectContainsData), fs))
  ∧ (strings_HasSuffix object "/" = false →
     (∀ q d a, q ≠ [] → q `prefix_of` upload_dir B object u →
               fs !! q ≠ Some (File d a)) →
     ∃ fs' ac au,
       CreateMultipartUpload posix_xattr
         {| cmi_Bucket := Some B; cmi_Key := Some object; cmi_Metadata := md |}
         u fs
       = (Ok {| cmr_Bucket := B; cmr_Key := object; cmr_UploadId := u |}, fs')
       ∧ upload_open fs' B object u
       ∧ fs' !! upload_container B object = Some (Dir ac)
       ∧ ac !! onameAttr = Some (bytes_of object)
       ∧ fs' !! upload_dir B object u = Some (Dir au)
       ∧ (∀ k v, md !! k = Some v → au !! k = Some (bytes_of v))
       ∧ (∀ k n, fs !! k = Some n → k ≠ upload_container B object →
                 k ≠ upload_dir B object u → fs' !! k = Some n)).
Proof.
  intros VB VS Vu EB. split.
  - intros Suf. unfold CreateMultipartUpload. cbn [cmi_Bucket cmi_Key].
    rewrite (bind_ok _ _ _ _ _ (stat_bucket_there B _ fs VB EB)).
    rewrite Suf. reflexivity.
  - intros Suf NF.
    pose proof (resolve_upload_dir B object u VB VS Vu) as RU.
    pose proof (resolve_bucket_objdir B object VB VS) as RC.
    pose proof (resolve_bucket_upload B object u VB VS Vu) as RU'.
    destruct (mkdir_all_makes (join_slash (upload_dir B object u))
                (upload_dir B object u) [] fs) as (fs1 & Mk).
    { intros r' d a N P. apply NF; assumption. }
    assert (O1 : upload_open fs1 B object u).
    { intros q N P. apply (mkdir_all_dirs _ _ _ _ _ _ Mk N P). }
    destruct (upload_open_container _ _ _ _ O1 (upload_container B object))
      as [ac0 EC1]; [discriminate|reflexivity|].
    destruct (upload_open_dir _ _ _ _ O1) as [au0 EU1].
    assert (NCU : upload_container B object ≠ upload_dir B object u).
    { unfold upload_dir. intros E. apply (f_equal length) in E.
      rewrite length_app in E. simpl in E. lia. }
    set (fs2 := <[upload_container B object :=
                    Dir (<[onameAttr := bytes_of object]> ac0)]> fs1).
    assert (EU2 : fs2 !! upload_dir B object u = Some (Dir au0)).
    { unfold fs2. rewrite lookup_insert_ne by exact NCU. exact EU1. }
    set (au := store_plain (map_to_list md) au0).
    set (fs3 := <[upload_dir B object u := Dir au]> fs2).
    exists fs3, (<[onameAttr := bytes_of object]> ac0), au.
    split; [|split; [|split; [|split; [|split; [|split]]]]].
    + unfold CreateMultipartUpload. cbn [cmi_Bucket cmi_Key cmi_Metadata].
      rewrite (bind_ok _ _ _ _ _ (stat_bucket_there B _ fs VB EB)).
      rewrite Suf.
      rewrite (Join_bucket_objdir B object VB VS).
      rewrite (Join_container_upload B object u VB VS Vu).
      rewrite bind_run. unfold on_err at 1.
      assert (os_MkdirAll (join_slash (upload_dir B object u)) fs = (Ok tt, fs1)) as ->.
      { unfold os_MkdirAll.
        rewrite (resolve_name_nonempty _ _ RU ltac:(discriminate)), RU. exact Mk. }
      rewrite bind_run. unfold on_err at 1.
      cbn [meta posix_xattr StoreAttribute XattrMeta].
      rewrite (xattr_set_run _ _ _ _ _ _ _ RC ltac:(discriminate) EC1).
      cbn [set_attrs node_attrs]. fold fs2.
      rewrite (bind_ok _ _ _ _ _
                 (create_user_attrs_run _ _ _ _ _ _ _ _ RU' ltac:(discriminate) EU2)).
      reflexivity.
    + intros q N P. unfold fs3, fs2.
      destruct (decide (q = upload_dir B object u)) as [->|N1];
        [rewrite lookup_insert_eq; eauto|].
      rewrite lookup_insert_ne by congruence.
      destruct (decide (q = upload_container B object)) as [->|N2];
        [rewrite lookup_insert_eq; eauto|].
      rewrite lookup_insert_ne by congruence. apply O1; assumption.
    + unfold fs3. rewrite lookup_insert_ne by congruence.
      apply lookup_insert_eq.
    + apply lookup_insert_eq.
    + apply lookup_insert_eq.
    + intros k v Em. apply store_plain_lookup.
      * apply NoDup_fst_map_to_list.
      * apply elem_of_map_to_list, Em.
    + intros k n Ek N1 N2. unfold fs3, fs2.
      rewrite !lookup_insert_ne by congruence.
      apply (mkdir_all_keeps _ _ _ _ _ _ _ _ Mk Ek).
Qed.


(** X27.  The calls on an upload that is not there, in a bucket that is:
    [UploadPart], [CompleteMultipartUpload] and [AbortMultipartUpload] all
    answer [NoSuchUpload] and change nothing. *)
Theorem no_such_upload (B object u : string) (b : node) (fs : fsys) :
  valid_name B = true →
  valid_name (sha256_hex object) = true →
  valid_name u = true →
  fs !! [B] = Some b →
  not_exist (join_slash (upload_dir B object u)) fs →
  (∀ n len body,
     UploadPart posix_xattr
       {| upi_Bucket := Some B; upi_Key := Some object; upi_UploadId := u;
          upi_PartNumber := n; upi_ContentLength := len; upi_Body := body |} fs
     = (Err (APIError ErrNoSuchUpload), fs))
  ∧ (∀ parts,
       CompleteMultipartUpload posix_xattr
         {| cmu_Bucket := Some B; cmu_Key := Some object;
            cmu_UploadId := Some u; cmu_MultipartUpload := Some parts |} fs
       = (Err (APIError ErrNoSuchUpload), fs))
  ∧ AbortMultipartUpload posix_xattr
      {| ami_Bucket := Some B; ami_Key := Some object; ami_UploadId := Some u |}
      fs
    = (Err (APIError ErrNoSuchUpload), fs).
Proof.
  intros VB VS Vu EB (e & St & NE).
  split; [|split].
  - intros n len body. unfold UploadPart.
    cbn [upi_Bucket upi_Key upi_UploadId upi_PartNumber upi_ContentLength upi_Body].
    rewrite (bind_ok _ _ _ _ _ (stat_bucket_there B _ fs VB EB)).
    rewrite bind_run. unfold on_err at 1, reads at 1.
    rewrite (Join_bucket_objdir_upload B object u VB VS Vu), St, NE.
    reflexivity.
  - intros parts. unfold CompleteMultipartUpload.
    cbn [cmu_Bucket cmu_Key cmu_UploadId cmu_MultipartUpload].
    rewrite (bind_ok _ _ _ _ _ (stat_bucket_there B _ fs VB EB)).
    rewrite bind_run. unfold checkUploadIDExists.
    rewrite bind_run. unfold on_err at 1, reads at 1.
    rewrite (Join_bucket_multipart_sum B object VB VS).
    rewrite (Join_container_upload B object u VB VS Vu), St, NE.
    reflexivity.
  - unfold AbortMultipartUpload. cbn [ami_Bucket ami_Key ami_UploadId].
    rewrite (bind_ok _ _ _ _ _ (stat_bucket_there B _ fs VB EB)).
    rewrite bind_run. unfold on_err at 1, reads at 1.
    rewrite (Join_bucket_multipart_sum B object VB VS).
    rewrite (Join_container_upload B object u VB VS Vu), St.
    reflexivity.
Qed.

Lemma file_on_way_false (fs : fsys) rest : ∀ pre,
  (∀ r' d a, r' ≠ [] → r' `prefix_of` rest → r' ≠ rest →
             fs !! (pre ++ r')%list ≠ Some (File d a)) →
  file_on_way fs pre rest = false.
Proof.
  induction rest as [|c r IH]; intros pre NF; [reflexivity|].
  cbn [file_on_way].
  assert (Rec : file_on_way fs (pre ++ [c]) r = false).
  { apply IH. intros r' d a N P NE. rewrite <- app_assoc.
    apply NF; [discriminate|apply prefix_cons, P|cbn [app]; congruence]. }
  destruct (fs !! (pre ++ [c])%list) as [[d a|a]|] eqn:E; try exact Rec.
  destruct r as [|c2 r]; [reflexivity|].
  destruct (NF [c] d a); [discriminate|apply prefix_cons, prefix_nil|discriminate|exact E].
Qed.

Lemma os_RemoveAll_run name q fs :
  resolve name = Some q → q ≠ [] →
  os_RemoveAll name fs = (Ok tt, filter (λ kv, ¬ is_below q kv.1) fs).
Proof.
  intros R Q. unfold os_RemoveAll.
  rewrite (resolve_name_nonempty _ _ R Q), R.
  destruct q; [congruence|reflexivity].
Qed.

(** X28.  The end of an upload by abort: the directory of the upload goes
    with all that is below it, the container goes when nothing else is in
    it, everything else stays; the upload is not there afterwards. *)
Theorem AbortMultipartUpload_closes (B object u : string) (fs : fsys) :
  valid_name B = true →
  valid_name (sha256_hex object) = true →
  valid_name u = true →
  upload_open fs B object u →
  ∃ fs',
    AbortMultipartUpload posix_xattr
      {| ami_Bucket := Some B; ami_Key := Some object; ami_UploadId := Some u |}
      fs
    = (Ok tt, fs')
    ∧ (∀ k, upload_dir B object u `prefix_of` k → fs' !! k = None)
    ∧ (∀ k, ¬ upload_dir B object u `prefix_of` k →
            k ≠ upload_container B object → fs' !! k = fs !! k)
    ∧ ((∀ c, c ≠ u → fs !! (upload_container B object ++ [c])%list = None) →
       fs' !! upload_container B object = None)
    ∧ ((∃ c, c ≠ u ∧ is_Some (fs !! (upload_container B object ++ [c])%list)) →
       fs' !! upload_container B object = fs !! upload_container B object)
    ∧ not_exist (join_slash (upload_dir B object u)) fs'.
Proof.
  intros VB VS Vu O.
  destruct (upload_open_bucket _ _ _ _ O) as [ab EB].
  destruct (upload_open_dir _ _ _ _ O) as [au EU].
  destruct (upload_open_container _ _ _ _ O (upload_container B object))
    as [ac EC]; [discriminate|reflexivity|].
  pose proof (resolve_upload_dir B object u VB VS Vu) as RU.
  pose proof (resolve_upload_container B object VB VS) as RC.
  set (fs1 := filter (λ kv : path * node, ¬ is_below (upload_dir B object u) kv.1) fs).
  set (fs2 := (os_Remove (join_slash (upload_container B object)) fs1).2).
  assert (L1 : ∀ k, ¬ upload_dir B object u `prefix_of` k → fs1 !! k = fs !! k).
  { intros k NP. unfold fs1. destruct (fs !! k) as [n|] eqn:E.
    - apply map_lookup_filter_Some. split; [exact E|exact NP].
    - apply map_lookup_filter_None. left. exact E. }
  assert (G1 : ∀ k, upload_dir B object u `prefix_of` k → fs1 !! k = None).
  { intros k P. unfold fs1. apply map_lookup_filter_None. right.
    intros n _ NP. apply NP. exact P. }
  assert (NPC : ¬ upload_dir B object u `prefix_of` upload_container B object).
  { intros P. apply prefix_length in P. unfold upload_dir in P.
    rewrite length_app in P. simpl in P. lia. }
  assert (Sub : ∀ k n, fs2 !! k = Some n → fs1 !! k = Some n).
  { intros k n. unfold fs2.
    destruct (os_Remove_cases (join_slash (upload_container B object)) fs1)
      as [(e & ->)|(q & m & _ & _ & _ & ->)]; cbn [snd]; [auto|].
    intros E. apply lookup_delete_Some in E. apply E. }
  assert (L2 : ∀ k, k ≠ upload_container B object → fs2 !! k = fs1 !! k).
  { intros k N. unfold fs2. apply os_Remove_spares. rewrite RC.
    intros E. injection E as E. apply N. symmetry. exact E. }
  exists fs2. split; [|split; [|split; [|split; [|split]]]].
  - unfold AbortMultipartUpload. cbn [ami_Bucket ami_Key ami_UploadId].
    rewrite (bind_ok _ _ _ _ _ (stat_bucket_there B _ fs VB EB)).
    rewrite (Join_bucket_multipart_sum B object VB VS).
    rewrite (Join_container_upload B object u VB VS Vu).
    rewrite bind_run. unfold on_err at 1, reads at 1.
    rewrite (os_Stat_lookup _ _ _ fs RU ltac:(discriminate) EU).
    rewrite bind_run. unfold on_err at 1.
    rewrite (os_RemoveAll_run _ _ fs RU ltac:(discriminate)). fold fs1.
    rewrite bind_run, ignore_err_run. reflexivity.
  - intros k P. destruct (fs2 !! k) as [n|] eqn:E; [|reflexivity].
    apply Sub in E. rewrite (G1 k P) in E. discriminate.
  - intros k NP N. rewrite (L2 k N). apply L1, NP.
  - intros Only. unfold fs2.
    rewrite (os_Remove_empty_dir _ _ ac fs1 RC ltac:(discriminate)).
    + apply lookup_delete_eq.
    + rewrite (L1 _ NPC). exact EC.
    + intros c. destruct (decide (c = u)) as [->|N].
      * apply G1. reflexivity.
      * rewrite L1; [apply Only, N|].
        intros P. unfold upload_dir in P.
        apply prefix_snoc_inv in P as [P|P].
        -- apply app_inj_tail in P as [_ P]. congruence.
        -- apply prefix_length in P. rewrite !length_app in P. simpl in P. lia.
  - intros (c & N & [n Ec]).
    assert (Ec1 : fs1 !! (upload_container B object ++ [c])%list = Some n).
    { rewrite L1; [exact Ec|].
      intros P. unfold upload_dir in P.
      apply prefix_snoc_inv in P as [P|P].
      - apply app_inj_tail in P as [_ P]. congruence.
      - apply prefix_length in P. rewrite !length_app in P. simpl in P. lia. }
    unfold fs2, os_Remove.
    rewrite (resolve_name_nonempty _ _ RC ltac:(discriminate)), RC.
    cbn [upload_container].
    fold (upload_container B object).
    rewrite (L1 _ NPC), EC.
    assert (has_children fs1 (upload_container B object) = true) as ->.
    { unfold has_children. apply bool_decide_eq_true.
      exists (upload_container B object ++ [c])%list, n. split; [exact Ec1|].
      split; [discriminate|]. apply removelast_last. }
    cbn [snd]. rewrite (L1 _ NPC). exact EC.
  - eexists. split.
    + unfold os_Stat.
      rewrite (resolve_name_nonempty _ _ RU ltac:(discriminate)), RU.
      rewrite lookup_node_nonempty by discriminate.
      assert (fs2 !! upload_dir B object u = None) as ->.
      { destruct (fs2 !! upload_dir B object u) as [n|] eqn:E; [|reflexivity].
        apply Sub in E. rewrite (G1 _ ltac:(reflexivity)) in E. discriminate. }
      reflexivity.
    + unfold is_ErrNotExist, errors_Is_errno, missing.
      rewrite file_on_way_false; [reflexivity|].
      intros r' d a N P NE E. cbn [app] in E. apply Sub in E.
      rewrite L1 in E.
      * destruct (O r' N P) as [a' Ea]. congruence.
      * intros P'. apply NE. apply (anti_symm prefix); assumption.
Qed.


(** X29.  [compareUserMetadata] is true when the maps have the same size
    and the second map, read with the empty string for a key that is not
    there, gives every value of the first. For a first map without an
    empty value this is equality of the maps; with an empty value, maps
    that differ compare equal. *)
Theorem compareUserMetadata_spec (m1 m2 : gmap string string) :
  (compareUserMetadata m1 m2 = true
   ↔ size m1 = size m2
     ∧ ∀ k v, m1 !! k = Some v → default "" (m2 !! k) = v)
  ∧ ((∀ k, m1 !! k ≠ Some "") →
     (compareUserMetadata m1 m2 = true ↔ m1 = m2))
  ∧ ∀ a b x : string,
      a ≠ b → compareUserMetadata {[ a := "" ]} {[ b := x ]} = true.
Proof.
  assert (Spec : ∀ m1 m2 : gmap string string,
            compareUserMetadata m1 m2 = true
            ↔ size m1 = size m2
              ∧ ∀ k v, m1 !! k = Some v → default "" (m2 !! k) = v).
  { clear. intros m1 m2. unfold compareUserMetadata.
    destruct (Nat.eqb_spec (size m1) (size m2)) as [Es|Ns]; cbn [negb].
    - rewrite forallb_forall. split.
      + intros All. split; [exact Es|]. intros k v E.
        apply String.eqb_eq. apply (All (k, v)).
        apply list_elem_of_In, elem_of_map_to_list, E.
      + intros [_ All] [k v] I. apply String.eqb_eq. apply All.
        apply elem_of_map_to_list, list_elem_of_In, I.
    - split; [discriminate|]. intros [Es _]. contradiction. }
  split; [apply Spec|]. split.
  - intros NE. rewrite Spec. split.
    + intros [Es All]. apply map_subseteq_size_eq; [|lia].
      apply map_subseteq_spec. intros k v E.
      specialize (All k v E).
      destruct (m2 !! k) as [v'|]; simpl in All.
      * subst v'. reflexivity.
      * subst v. destruct (NE k E).
    + intros ->. split; [reflexivity|]. intros k v ->. reflexivity.
  - intros a b x N. apply Spec. split.
    + rewrite !map_size_singleton. reflexivity.
    + intros k v E. apply lookup_singleton_Some in E as [<- <-].
      rewrite lookup_singleton_ne by congruence. reflexivity.
Qed.

(** X30.  [getChownIDs] asks for a chown exactly when the owner it returns
    is not the owner the process runs as; without the two options it never
    does, and the ids are those of the process. *)
Theorem getChownIDs_spec (p : ChownOpts) (acct : Account) :
  let '(uid, gid, needsChown) := getChownIDs p acct in
  (needsChown = true ↔ (uid, gid) ≠ (euid p, egid p))
  ∧ (uid = euid p ∨ (chownuid p = true ∧ uid = UserID acct))
  ∧ (gid = egid p ∨ (chowngid p = true ∧ gid = GroupID acct))
  ∧ (chownuid p = false → chowngid p = false →
     (uid, gid, needsChown) = (euid p, egid p, false)).
Proof.
  unfold getChownIDs.
  destruct (chownuid p), (chowngid p); cbn [andb];
    destruct (Z.eqb_spec (UserID acct) (euid p)) as [Eu|Nu];
    destruct (Z.eqb_spec (GroupID acct) (egid p)) as [Eg|Ng]; cbn [negb];
    repeat split; try (intros; discriminate); try (intros; congruence);
    try (left; reflexivity); try (right; split; reflexivity);
    try (intros []; reflexivity); try reflexivity; auto.
Qed.


Lemma backend_MkdirAll_resolves name fs fs' :
  backend_MkdirAll name fs = (Ok tt, fs') → is_Some (resolve name).
Proof.
  unfold backend_MkdirAll. destruct (String.eqb name ""); [discriminate|].
  destruct (resolve name); [eauto|discriminate].
Qed.

(** The directory a put of a directory object leaves, when nothing was
    at the path before. *)
Lemma PutObject_dir_state po bucket key fs etag fs' :
  po_Bucket po = Some bucket →
  po_Key po = Some key →
  strings_HasSuffix key "/" = true →
  is_Ok (os_Stat (filepath_Join [bucket; key]) fs) = false →
  PutObject posix_xattr po fs = (Ok etag, fs') →
  etag = emptyMD5
  ∧ is_Ok (os_Stat bucket fs') = true
  ∧ ∃ q,
      resolve (filepath_Join [bucket; key]) = Some q ∧ q ≠ []
      ∧ fs' !! q
        = Some (Dir (<[etagkey := bytes_of emptyMD5]>
                       (store_all (map_to_list (po_Metadata po)) ∅))).
Proof.
  intros HB HK Suf New. unfold PutObject. rewrite HB, HK, Suf.
  rewrite bind_run, stat_bucket_run.
  destruct (os_Stat bucket fs) as [nb|e] eqn:Hb;
    [|destruct (is_ErrNotExist e); discriminate].
  rewrite bind_run. unfold reads at 1.
  match goal with |- context [if String.eqb ?t "" then Ok ∅ else ?pt] =>
    destruct (if String.eqb t "" then Ok ∅ else pt) as [tags|e] eqn:Ht end;
    [|discriminate].
  destruct (negb (default 0 (po_ContentLength po) =? 0)); [discriminate|].
  rewrite bind_run. unfold on_err at 1.
  destruct (backend_MkdirAll (filepath_Join [bucket; key]) fs)
    as [[[]|e] fs1] eqn:Mk; [|destruct (is_EDQUOT e); discriminate].
  destruct (backend_MkdirAll_resolves _ _ _ Mk) as [q R].
  assert (Q : q ≠ []).
  { intros ->. unfold os_Stat in New. rewrite R in New.
    destruct (String.eqb (filepath_Join [bucket; key]) "") eqn:En.
    - unfold backend_MkdirAll in Mk. rewrite En in Mk. discriminate.
    - discriminate. }
  assert (E0 : fs !! q = None).
  { unfold os_Stat in New. rewrite R in New.
    rewrite (resolve_name_nonempty _ _ R Q) in New.
    rewrite lookup_node_nonempty in New by exact Q.
    destruct (fs !! q); [discriminate|reflexivity]. }
  destruct (backend_MkdirAll_dirs _ q fs fs1 q Mk R Q ltac:(reflexivity)) as [a E1].
  destruct (backend_MkdirAll_new _ _ _ _ _ _ Mk E0 E1) as [[= ->] _].
  rewrite (bind_ok _ _ _ _ _ (put_user_meta_run _ _ _ _ _ _ R Q E1)).
  cbn [set_attrs node_attrs].
  rewrite bind_run.
  match goal with |- context [on_err ?m ?h ?st] =>
    destruct (on_err m h st) as [r fs7] eqn:Hs end.
  eapply store_step in Hs as [-> ->]; [|exact R|exact Q|apply lookup_insert_eq].
  rewrite insert_insert_eq. cbn [set_attrs node_attrs].
  intros [= <- <-]. split; [reflexivity|]. split.
  - apply os_Stat_insert. eapply os_Stat_keeps; [|rewrite Hb; reflexivity].
    intros k n. eapply backend_MkdirAll_keeps, Mk.
  - exists q. split; [exact R|]. split; [exact Q|]. apply lookup_insert_eq.
Qed.

(** X17.  A directory object that was put is read back as an object
    without data: nothing is written, the content length is zero, the etag
    is the MD5 of the empty string and the metadata are those of the put. *)
Theorem PutObject_GetObject_directory (po : PutObjectInput)
    (bucket key : string) (fs fs' : fsys) (etag : string) :
  (∀ t, is_Some (json_Unmarshal_tags (json_Marshal_tags t))) →
  po_Bucket po = Some bucket →
  po_Key po = Some key →
  strings_HasSuffix key "/" = true →
  is_Ok (os_Stat (filepath_Join [bucket; key]) fs) = false →
  PutObject posix_xattr po fs = (Ok etag, fs') →
  ∃ out,
    GetObject posix_xattr
      {| goi_Bucket := Some bucket; goi_Key := Some key;
         goi_Range := Some "" |} fs'
    = (Ok (out, []), fs')
    ∧ goo_ContentLength out = 0
    ∧ goo_ETag out = emptyMD5
    ∧ goo_ETag out = etag
    ∧ goo_Metadata out = po_Metadata po.
Proof.
  intros J HB HK Suf New P.
  destruct (PutObject_dir_state po bucket key fs etag fs' HB HK Suf New P)
    as (-> & Sb & q & R & Q & E).
  set (a0 := store_all (map_to_list (po_Metadata po)) ∅) in *.
  assert (A0t : a0 !! tagHdr = None).
  { unfold a0. rewrite store_all_other; [apply lookup_empty|].
    intros x v _. apply metaHdr_plain. }
  edestruct (object_output_run bucket key "" 0 "") as (tc & O);
    [exact J|exact R|exact Q|exact E| |].
  { left. cbn [node_attrs]. rewrite lookup_insert_ne by discriminate. exact A0t. }
  rewrite (loadUserMetaData_after_put (po_Metadata po) bucket key q _ fs' R Q E) in O.
  2:{ cbn [node_attrs]. rewrite lookup_insert_eq. eauto. }
  2:{ intros x _ _ _ N. cbn [node_attrs]. apply lookup_insert_ne. congruence. }
  cbn [node_attrs fst snd] in O. rewrite lookup_insert_eq in O.
  eexists. split.
  - unfold GetObject. cbn [goi_Bucket goi_Key goi_Range].
    rewrite (bind_ok _ _ _ _ _ (stat_bucket_ok _ _ Sb)).
    rewrite bind_run. unfold on_err at 1, reads at 1.
    rewrite (os_Stat_lookup _ _ _ _ R Q E).
    rewrite bind_run. unfold reads at 1. cbn [IsDir Size].
    rewrite ParseRange_empty.
    change (0 =? -1) with false. cbv iota.
    change (0 + 1 <? 0 + 0) with false. cbv iota.
    change (String.eqb "" "") with true. cbv iota.
    rewrite bind_run. unfold reads at 1. rewrite O. reflexivity.
  - cbn [goo_ContentLength goo_ETag goo_Metadata].
    rewrite string_of_bytes_of. repeat split.
Qed.

Lemma upto_last_slash_slash s : upto_last_slash (s ++ "/") = Some (s ++ "/").
Proof.
  induction s as [|c s IH]; [reflexivity|].
  change (String c s ++ "/") with (String c (s ++ "/")).
  cbn [upto_last_slash]. rewrite IH. reflexivity.
Qed.

(** X22.  A delete of a directory object removes the directory and nothing
    else: the loop over the parents starts at the directory itself, which
    is gone by then, and stops; the parents stay, with or without an etag. *)
Theorem DeleteObject_directory_object (B : string) (l : list string)
    (b : node) (a : xattrs) (fs : fsys) :
  valid_name B = true →
  l ≠ [] → Forall (λ x, valid_name x = true) l →
  fs !! [B] = Some b →
  fs !! (B :: l) = Some (Dir a) →
  (∀ c, fs !! (B :: l ++ [c])%list = None) →
  DeleteObject posix_xattr
    {| doi_Bucket := Some B; doi_Key := Some (join_slash l ++ "/") |} fs
  = (Ok tt, delete (B :: l) fs).
Proof.
  intros VB L F EB E NC.
  assert (FB : Forall (λ y, valid_name y = true) (B :: l))
    by (constructor; [exact VB|exact F]).
  assert (Jn : filepath_Join [B; join_slash l ++ "/"] = join_slash (B :: l)).
  { unfold filepath_Join. rewrite (valid_name_nonempty _ VB).
    unfold filepath_Clean.
    assert (join_slash [B; join_slash l ++ "/"] = join_slash (B :: l) ++ "/") as ->.
    { destruct l as [|x l]; [congruence|].
      rewrite (join_slash_cons B x l).
      change (join_slash [B; join_slash (x :: l) ++ "/"])
        with (B ++ "/" ++ (join_slash (x :: l) ++ "/")).
      rewrite !string_app_assoc. reflexivity. }
    rewrite clean_parts_join_slash by (try discriminate; exact FB).
    destruct l; [congruence|reflexivity]. }
  assert (R : resolve (join_slash (B :: l)) = Some (B :: l))
    by (apply resolve_join; [discriminate|exact FB]).
  assert (Rp : resolve (filepath_Join [B; join_slash l]) = Some (B :: l))
    by (apply resolve_bucket_key; assumption).
  assert (Dr : filepath_Dir (join_slash l ++ "/") = join_slash l).
  { unfold filepath_Dir. rewrite upto_last_slash_slash. cbn [default from_option id].
    unfold filepath_Clean. rewrite clean_parts_join_slash by assumption.
    destruct l; [congruence|reflexivity]. }
  set (fs1 := delete (B :: l) fs).
  assert (G : fs1 !! (B :: l) = None) by apply lookup_delete_eq.
  unfold DeleteObject. cbn [doi_Bucket doi_Key].
  rewrite (bind_ok _ _ _ _ _ (stat_bucket_there B _ fs VB EB)).
  rewrite bind_run. unfold on_err at 1. rewrite Jn.
  rewrite (os_Remove_empty_dir _ (B :: l) a fs R ltac:(discriminate) E NC).
  rewrite bind_run. unfold on_err at 1.
  cbn [meta posix_xattr DeleteAttributes XattrMeta].
  rewrite (xattr_remove_all_gone B _ (B :: l) fs1) by (rewrite ?Jn; assumption).
  unfold removeParents. cbn [removeParents_loop].
  rewrite Dr. rewrite (join_slash_not_root l L F).
  cbn [meta posix_xattr RetrieveAttribute XattrMeta].
  unfold Xattr.get, os_Stat.
  rewrite (resolve_name_nonempty _ _ Rp ltac:(discriminate)), Rp.
  rewrite lookup_node_nonempty by discriminate. rewrite G.
  unfold os_Remove.
  rewrite (resolve_name_nonempty _ _ Rp ltac:(discriminate)), Rp.
  rewrite G. reflexivity.
Qed.


(** X23.  After a delete the key is not there: a read and a second delete
    answer [NoSuchKey]; when the delete has emptied the bucket and removed
    it with the parents, they answer [NoSuchBucket]. *)
Theorem DeleteObject_then_GetObject (B : string) (l : list string) (x : string)
    (d : bytes) (a ab : xattrs) (fs : fsys) (range : string) :
  valid_name B = true →
  Forall (λ y, valid_name y = true) l → valid_name x = true →
  fs !! [B] = Some (Dir ab) →
  fs !! (B :: l ++ [x])%list = Some (File d a) →
  parent_chain fs B l (l ++ [x]) →
  ∃ fs',
    DeleteObject posix_xattr
      {| doi_Bucket := Some B; doi_Key := Some (join_slash (l ++ [x])) |} fs
    = (Ok tt, fs')
    ∧ (is_Some (fs' !! [B]) →
       GetObject posix_xattr
         {| goi_Bucket := Some B; goi_Key := Some (join_slash (l ++ [x]));
            goi_Range := Some range |} fs'
       = (Err (APIError ErrNoSuchKey), fs')
       ∧ DeleteObject posix_xattr
           {| doi_Bucket := Some B; doi_Key := Some (join_slash (l ++ [x])) |} fs'
         = (Err (APIError ErrNoSuchKey), fs'))
    ∧ (fs' !! [B] = None →
       GetObject posix_xattr
         {| goi_Bucket := Some B; goi_Key := Some (join_slash (l ++ [x]));
            goi_Range := Some range |} fs'
       = (Err (APIError ErrNoSuchBucket), fs')
       ∧ DeleteObject posix_xattr
           {| doi_Bucket := Some B; doi_Key := Some (join_slash (l ++ [x])) |} fs'
         = (Err (APIError ErrNoSuchBucket), fs')).
Proof.
  intros VB F Vx EB E PC.
  destruct (DeleteObject_chain B l x d a fs VB F Vx ltac:(rewrite EB; eauto) E PC)
    as (fs' & Del & _ & G).
  destruct (DeleteObject_cases _ _ _ _ Del) as [Sub _].
  assert (Fk : Forall (λ y, valid_name y = true) (l ++ [x])).
  { apply Forall_app. split; [exact F|]. repeat constructor. exact Vx. }
  assert (Nk : (l ++ [x])%list ≠ []) by (destruct l; discriminate).
  pose proof (resolve_bucket_key B (l ++ [x]) VB Nk Fk) as R.
  assert (Q : B :: l ++ [x] ≠ []) by discriminate.
  assert (NoFile : ∀ r' d' a', r' ≠ [] → r' `prefix_of` B :: l ++ [x] →
            r' ≠ B :: l ++ [x] → fs' !! r' ≠ Some (File d' a')).
  { intros r' d' a' N P NE E'. apply Sub in E'.
    destruct r' as [|c r']; [congruence|].
    apply prefix_cons_inv_1 in P as Hc. subst c.
    apply prefix_cons_inv_2 in P.
    destruct r' as [|c r'].
    - congruence.
    - apply prefix_snoc_inv in P as [P|P]; [congruence|].
      destruct PC as [Dirs _].
      destruct (Dirs (c :: r') P ltac:(discriminate)) as [a'' Ea]. congruence. }
  assert (St : os_Stat (filepath_Join [B; join_slash (l ++ [x])]) fs'
               = Err (PathError "stat" (filepath_Join [B; join_slash (l ++ [x])])
                        ENOENT)).
  { unfold os_Stat. rewrite (resolve_name_nonempty _ _ R Q), R.
    rewrite lookup_node_nonempty by exact Q. rewrite G.
    unfold missing. rewrite file_on_way_false; [reflexivity|].
    intros r' d' a' N P NE. cbn [app]. apply NoFile; assumption. }
  assert (Rm : os_Remove (filepath_Join [B; join_slash (l ++ [x])]) fs'
               = (Err (PathError "remove" (filepath_Join [B; join_slash (l ++ [x])])
                         ENOENT), fs')).
  { unfold os_Remove. rewrite (resolve_name_nonempty _ _ R Q), R. rewrite G.
    unfold missing. rewrite file_on_way_false; [reflexivity|].
    intros r' d' a' N P NE. cbn [app]. apply NoFile; assumption. }
  exists fs'. split; [exact Del|]. split.
  - intros [nb Eb]. split.
    + unfold GetObject. cbn [goi_Bucket goi_Key goi_Range].
      rewrite (bind_ok _ _ _ _ _ (stat_bucket_there B _ fs' VB Eb)).
      rewrite bind_run. unfold on_err at 1, reads at 1. rewrite St. reflexivity.
    + unfold DeleteObject. cbn [doi_Bucket doi_Key].
      rewrite (bind_ok _ _ _ _ _ (stat_bucket_there B _ fs' VB Eb)).
      rewrite bind_run. unfold on_err at 1. rewrite Rm. reflexivity.
  - intros Eb.
    assert (Sb : stat_bucket B fs' = (Err (APIError ErrNoSuchBucket), fs')).
    { rewrite stat_bucket_run, (os_Stat_missing_bucket B fs' VB Eb). reflexivity. }
    split.
    + unfold GetObject. cbn [goi_Bucket goi_Key goi_Range].
      rewrite (bind_err _ _ _ _ _ Sb). reflexivity.
    + unfold DeleteObject. cbn [doi_Bucket doi_Key].
      rewrite (bind_err _ _ _ _ _ Sb). reflexivity.
Qed.


Lemma bind2_run {A B} (m : M2 A) (f : A → M2 B) fs :
  (m ≫= f) fs = match m fs with
                | (Ok2 a, fs') => f a fs'
                | (Err2 e, fs') => (Err2 e, fs')
                end.
Proof. reflexivity. Qed.

Lemma bind2_ok {A B} (m : M2 A) (f : A → M2 B) fs a fs' :
  m fs = (Ok2 a, fs') → (m ≫= f) fs = f a fs'.
Proof. intros E. rewrite bind2_run, E. reflexivity. Qed.

Lemma lift_run {A} (m : M A) fs :
  lift m fs = match m fs with
              | (Ok a, fs') => (Ok2 a, fs')
              | (Err e, fs') => (Err2 (Earlier e), fs')
              end.
Proof. unfold lift, on_err2. destruct (m fs) as [[a|e] fs']; reflexivity. Qed.

Lemma lift_ok {A} (m : M A) fs a fs' :
  m fs = (Ok a, fs') → lift m fs = (Ok2 a, fs').
Proof. intros E. rewrite lift_run, E. reflexivity. Qed.

Lemma lift_err {A} (m : M A) fs e fs' :
  m fs = (Err e, fs') → lift m fs = (Err2 (Earlier e), fs').
Proof. intros E. rewrite lift_run, E. reflexivity. Qed.

Lemma HeadBucket_there B n fs :
  valid_name B = true → fs !! [B] = Some n →
  HeadBucket {| hbi_Bucket := Some B |} fs = (Ok tt, fs).
Proof.
  intros V E. unfold HeadBucket. cbn [hbi_Bucket].
  rewrite bind_run. unfold on_err, reads, os_Lstat.
  rewrite (os_Stat_bucket B n fs V E). reflexivity.
Qed.

Lemma GetBucketAcl_run B n fs :
  valid_name B = true → fs !! [B] = Some n →
  GetBucketAcl posix_xattr {| gba_Bucket := Some B |} fs
  = (Ok (default [] (node_attrs n !! aclkey)), fs).
Proof.
  intros V E. unfold GetBucketAcl. cbn [gba_Bucket].
  rewrite (bind_ok _ _ _ _ _ (stat_bucket_there B n fs V E)).
  unfold on_err, reads. cbn [meta posix_xattr RetrieveAttribute XattrMeta].
  rewrite (xattr_get_run B "" aclkey [B] n fs (resolve_Join_bucket_empty B V)
             ltac:(discriminate) E).
  destruct (node_attrs n !! aclkey); reflexivity.
Qed.

(** X1.  The making of a bucket. A name that is taken is refused and
    nothing changes. A new bucket is an empty directory with the access
    control list as its attribute; it is there for [HeadBucket], the list
    is what [GetBucketAcl] returns, and object lock is enabled in it
    exactly when the request asks for it. *)
Theorem CreateBucket_new_and_taken (B : string) (acl : bytes) (now : Z)
    (lock : option bool) (fs : fsys) :
  json_Unmarshal_BucketLockConfig
    (json_Marshal_BucketLockConfig {| Enabled := true |} now)
  = Some {| Enabled := true |} →
  valid_name B = true →
  (is_Some (fs !! [B]) →
   CreateBucket posix_xattr
     {| cbi_Bucket := Some B; cbi_ObjectLockEnabledForBucket := lock |} acl now fs
   = (Err2 (APIError2 ErrBucketAlreadyExists), fs))
  ∧ (fs !! [B] = None →
     ∃ fs' a,
       CreateBucket posix_xattr
         {| cbi_Bucket := Some B; cbi_ObjectLockEnabledForBucket := lock |}
         acl now fs
       = (Ok2 tt, fs')
       ∧ fs' !! [B] = Some (Dir a)
       ∧ (∀ k, k ≠ [B] → fs' !! k = fs !! k)
       ∧ HeadBucket {| hbi_Bucket := Some B |} fs' = (Ok tt, fs')
       ∧ GetBucketAcl posix_xattr {| gba_Bucket := Some B |} fs' = (Ok acl, fs')
       ∧ (default false lock = true → lock_enabled posix_xattr B fs')
       ∧ (default false lock = false → lock_disabled posix_xattr B fs')).
Proof.
  intros J V.
  pose proof (resolve_Join_bucket_empty B V) as R.
  pose proof (resolve_bucket B V) as RB.
  assert (Q : [B] ≠ []) by discriminate.
  split.
  - intros [n E]. unfold CreateBucket. cbn [cbi_Bucket].
    rewrite bind2_run. unfold on_err2 at 1, os_Mkdir.
    rewrite (valid_name_nonempty _ V), RB, E. reflexivity.
  - intros E.
    set (fs1 := <[[B] := Dir ∅]> fs).
    assert (Mk : os_Mkdir B fs = (Ok tt, fs1)).
    { unfold os_Mkdir. rewrite (valid_name_nonempty _ V), RB, E. reflexivity. }
    set (fs2 := <[[B] := Dir (<[aclkey := acl]> ∅)]> fs).
    assert (St : on_err (StoreAttribute (meta posix_xattr) B "" aclkey acl)
                   (λ e, fail (Wrap "set acl" e)) fs1 = (Ok tt, fs2)).
    { unfold on_err. cbn [meta posix_xattr StoreAttribute XattrMeta].
      rewrite (xattr_set_run B "" _ _ [B] _ fs1 R Q (lookup_insert_eq _ _ _)).
      unfold fs1. rewrite insert_insert_eq. reflexivity. }
    assert (E2 : fs2 !! [B] = Some (Dir (<[aclkey := acl]> ∅)))
      by apply lookup_insert_eq.
    destruct (default false lock) eqn:Lk.
    + set (cfg := json_Marshal_BucketLockConfig {| Enabled := true |} now).
      set (a3 := <[bucketLockKey := cfg]> (<[aclkey := acl]> (∅ : xattrs))).
      set (fs3 := <[[B] := Dir a3]> fs).
      assert (E3 : fs3 !! [B] = Some (Dir a3)) by apply lookup_insert_eq.
      exists fs3, a3. split; [|split; [|split; [|split; [|split; [|split]]]]].
      * unfold CreateBucket. cbn [cbi_Bucket cbi_ObjectLockEnabledForBucket].
        rewrite bind2_run. unfold on_err2 at 1. rewrite Mk.
        rewrite bind2_run, (lift_ok _ _ _ _ St). rewrite Lk.
        apply lift_ok. unfold on_err.
        cbn [meta posix_xattr StoreAttribute XattrMeta].
        rewrite (xattr_set_run B "" _ _ [B] _ fs2 R Q E2).
        unfold fs2. rewrite insert_insert_eq. reflexivity.
      * exact E3.
      * intros k N. unfold fs3. apply lookup_insert_ne. congruence.
      * apply (HeadBucket_there B _ fs3 V E3).
      * rewrite (GetBucketAcl_run B _ fs3 V E3). cbn [node_attrs]. unfold a3.
        rewrite lookup_insert_ne by discriminate. rewrite lookup_insert_eq.
        reflexivity.
      * intros _. exists cfg, {| Enabled := true |}. split; [|split].
        -- cbn [meta posix_xattr RetrieveAttribute XattrMeta].
           rewrite (xattr_get_run B "" _ [B] _ fs3 R Q E3). cbn [node_attrs].
           unfold a3. rewrite lookup_insert_eq. reflexivity.
        -- exact J.
        -- reflexivity.
      * discriminate.
    + exists fs2, (<[aclkey := acl]> (∅ : xattrs)).
      split; [|split; [|split; [|split; [|split; [|split]]]]].
      * unfold CreateBucket. cbn [cbi_Bucket cbi_ObjectLockEnabledForBucket].
        rewrite bind2_run. unfold on_err2 at 1. rewrite Mk.
        rewrite bind2_run, (lift_ok _ _ _ _ St). rewrite Lk. reflexivity.
      * exact E2.
      * intros k N. unfold fs2. apply lookup_insert_ne. congruence.
      * apply (HeadBucket_there B _ fs2 V E2).
      * rewrite (GetBucketAcl_run B _ fs2 V E2). cbn [node_attrs].
        rewrite lookup_insert_eq. reflexivity.
      * discriminate.
      * intros _. left. exists MetaErrNoSuchKey. split; [|reflexivity].
        cbn [meta posix_xattr RetrieveAttribute XattrMeta].
        rewrite (xattr_get_run B "" _ [B] _ fs2 R Q E2). cbn [node_attrs].
        rewrite lookup_insert_ne by discriminate. rewrite lookup_empty.
        reflexivity.
Qed.


(** *** Directory listings *)

Lemma insert_by_Permutation {A} (le : A → A → bool) x l :
  insert_by le x l ≡ₚ x :: l.
Proof.
  induction l as [|y r IH]; cbn [insert_by]; [reflexivity|].
  destruct (le x y); [reflexivity|]. rewrite IH. apply Permutation_swap.
Qed.

Lemma sort_by_Permutation {A} (le : A → A → bool) l : sort_by le l ≡ₚ l.
Proof.
  unfold sort_by. induction l as [|x r IH]; cbn [foldr]; [reflexivity|].
  rewrite insert_by_Permutation, IH. reflexivity.
Qed.

Lemma insert_by_Sorted {A} (le : A → A → bool) x l :
  (∀ a b, le a b = false → le b a = true) →
  Sorted (λ a b, le a b = true) l →
  Sorted (λ a b, le a b = true) (insert_by le x l).
Proof.
  intros T. induction 1 as [|y r S IH HR]; cbn [insert_by].
  - repeat constructor.
  - destruct (le x y) eqn:E.
    + constructor; [constructor; assumption|constructor; exact E].
    + constructor; [exact IH|].
      destruct r as [|z r']; cbn [insert_by].
      * constructor. apply T, E.
      * destruct (le x z); constructor; [apply T, E|].
        inversion HR; assumption.
Qed.

Lemma sort_by_Sorted {A} (le : A → A → bool) l :
  (∀ a b, le a b = false → le b a = true) →
  Sorted (λ a b, le a b = true) (sort_by le l).
Proof.
  intros T. unfold sort_by. induction l as [|x r IH]; cbn [foldr].
  - constructor.
  - apply insert_by_Sorted; assumption.
Qed.

Lemma child_path p q : is_child p q ↔ ∃ c, q = (p ++ [c])%list.
Proof.
  unfold is_child. split.
  - intros [N E]. destruct (exists_last N) as (r & c & ->).
    rewrite removelast_last in E. subst r. exists c. reflexivity.
  - intros [c ->]. split; [intros E; destruct p; discriminate E|].
    apply removelast_last.
Qed.

Lemma last_snoc_default (p : path) c : default "" (last (p ++ [c])%list) = c.
Proof. rewrite last_snoc. reflexivity. Qed.

(** The entries of a directory are its children in the tree. *)
Lemma elem_of_dir_entries fs p c n :
  (c, n) ∈ dir_entries fs p ↔ fs !! (p ++ [c])%list = Some n.
Proof.
  unfold dir_entries. rewrite list_elem_of_omap. split.
  - intros ([q m] & In & E). cbn [fst snd] in E.
    destruct (bool_decide (is_child p q)) eqn:D; [|discriminate E].
    apply bool_decide_eq_true in D. apply child_path in D as [c' ->].
    rewrite last_snoc_default in E. injection E as -> ->.
    apply elem_of_map_to_list in In. exact In.
  - intros E. exists ((p ++ [c])%list, n). split.
    + apply elem_of_map_to_list. exact E.
    + cbn [fst snd]. rewrite bool_decide_eq_true_2.
      * rewrite last_snoc_default. reflexivity.
      * apply child_path. exists c. reflexivity.
Qed.

Lemma NoDup_dir_entries fs p : NoDup (dir_entries fs p).*1.
Proof.
  unfold dir_entries.
  pose proof (NoDup_fst_map_to_list fs) as ND.
  induction (map_to_list fs) as [|[q m] l IH]; cbn [omap list_omap fmap list_fmap fst snd].
  - constructor.
  - cbn [fmap list_fmap fst] in ND. apply NoDup_cons in ND as [NI ND].
    specialize (IH ND).
    destruct (bool_decide (is_child p q)) eqn:D; [|exact IH].
    cbn [fmap list_fmap fst]. apply NoDup_cons. split; [|exact IH].
    apply bool_decide_eq_true in D. apply child_path in D as [c ->].
    rewrite last_snoc_default.
    intros In. apply list_elem_of_fmap in In as ([c' n] & Ec & In).
    cbn [fst] in Ec. subst c'.
    apply list_elem_of_omap in In as ([q' m'] & In & E).
    cbn [fst snd] in E.
    destruct (bool_decide (is_child p q')) eqn:D'; [|discriminate E].
    apply bool_decide_eq_true in D'. apply child_path in D' as [c' ->].
    rewrite last_snoc_default in E. injection E as -> ->.
    apply NI. apply list_elem_of_fmap. exists ((p ++ [c])%list, n). split; [reflexivity|exact In].
Qed.

Lemma has_children_true fs p c n :
  fs !! (p ++ [c])%list = Some n → has_children fs p = true.
Proof.
  intros E. unfold has_children. apply bool_decide_eq_true.
  exists (p ++ [c])%list, n. split; [exact E|]. apply child_path. exists c. reflexivity.
Qed.

(** A listing all of whose names are [c] has at most that entry. *)
Lemma entries_one_name (l : list DirEntry) c :
  NoDup l.*1 → (∀ x, x ∈ l → x.1 = c) → l = [] ∨ ∃ n, l = [(c, n)].
Proof.
  intros ND All. destruct l as [|[c1 n1] [|[c2 n2] r]].
  - left. reflexivity.
  - right. exists n1. pose proof (All (c1, n1) ltac:(left)) as E.
    cbn [fst] in E. subst c1. reflexivity.
  - exfalso. cbn [fmap list_fmap fst] in ND.
    apply NoDup_cons in ND as [NI _]. apply NI.
    pose proof (All (c1, n1) ltac:(left)) as E1.
    pose proof (All (c2, n2) ltac:(right; left)) as E2.
    cbn [fst] in E1, E2. subst c1 c2. left.
Qed.

Lemma os_ReadDir_bucket B a fs :
  valid_name B = true → fs !! [B] = Some (Dir a) →
  os_ReadDir B fs = Ok (sort_by name_leb (dir_entries fs [B])).
Proof.
  intros V E. unfold os_ReadDir.
  rewrite (valid_name_nonempty _ V), (resolve_bucket _ V).
  cbn [lookup_node]. rewrite E. reflexivity.
Qed.

Lemma sort_by_nil_inv {A} (le : A → A → bool) l : sort_by le l = [] → l = [].
Proof.
  intros E. apply Permutation_nil_r. rewrite <- E. symmetry. apply sort_by_Permutation.
Qed.

Lemma sort_by_singleton_inv {A} (le : A → A → bool) l x :
  sort_by le l = [x] → l = [x].
Proof.
  intros E. apply Permutation_singleton_r. rewrite <- E. symmetry.
  apply sort_by_Permutation.
Qed.

(** *** DeleteBucket *)

(** X2.  The removal of a bucket. A bucket with an entry other than the
    directory of temporary files is refused as not empty and nothing
    changes. A bucket with no entry, or with that directory alone, is
    removed together with the directory and all it holds; everything
    outside the bucket stays, and the bucket is gone for [HeadBucket]. *)
Theorem DeleteBucket_empty_or_not (B : string) (a : xattrs) (fs : fsys) :
  valid_name B = true →
  fs !! [B] = Some (Dir a) →
  ((∃ c n, fs !! [B; c] = Some n ∧ c ≠ metaTmpDir) →
   DeleteBucket posix_xattr {| dbi_Bucket := Some B |} fs
   = (Err2 (APIError2 ErrBucketNotEmpty), fs))
  ∧ ((∀ c n, fs !! [B; c] = Some n → c = metaTmpDir) →
     ∃ fs',
       DeleteBucket posix_xattr {| dbi_Bucket := Some B |} fs = (Ok2 tt, fs')
       ∧ fs' !! [B] = None
       ∧ (is_Some (fs !! [B; metaTmpDir]) →
          ∀ k, [B; metaTmpDir] `prefix_of` k → fs' !! k = None)
       ∧ (∀ k, ¬ [B] `prefix_of` k → fs' !! k = fs !! k)
       ∧ (∀ k n, fs' !! k = Some n → fs !! k = Some n)
       ∧ HeadBucket {| hbi_Bucket := Some B |} fs'
         = (Err (APIError ErrNoSuchBucket), fs')).
Proof.
  intros V E.
  pose proof (resolve_bucket B V) as RB.
  pose proof (os_ReadDir_bucket B a fs V E) as RD.
  assert (Gone : ∀ fs' : fsys, fs' !! [B] = None →
            HeadBucket {| hbi_Bucket := Some B |} fs'
            = (Err (APIError ErrNoSuchBucket), fs')).
  { intros fs' N. unfold HeadBucket. cbn [hbi_Bucket].
    rewrite bind_run. unfold on_err, reads, os_Lstat.
    rewrite (os_Stat_missing_bucket B fs' V N). reflexivity. }
  split.
  - intros (c & n & Ec & Nc).
    unfold DeleteBucket. cbn [dbi_Bucket].
    rewrite bind2_run, lift_run. unfold on_err at 1, reads. rewrite RD.
    cbv beta iota.
    set (names := sort_by name_leb (dir_entries fs [B])).
    assert (In : (c, n) ∈ names).
    { unfold names. rewrite sort_by_Permutation.
      apply elem_of_dir_entries. exact Ec. }
    assert (L : lift (match names with
                      | [entry] =>
                          if String.eqb entry.1 metaTmpDir
                          then on_err (os_RemoveAll (filepath_Join [B; metaTmpDir]))
                                 (λ e, if negb (is_ErrNotExist e)
                                       then fail (Wrap "remove temp dir" e)
                                       else mret tt)
                          else mret tt
                      | _ => mret tt
                      end) fs = (Ok2 tt, fs)).
    { destruct names as [|e [|e' r]]; [reflexivity| |reflexivity].
      apply list_elem_of_singleton in In. subst e. cbn [fst].
      destruct (String.eqb c metaTmpDir) eqn:D; [|reflexivity].
      apply String.eqb_eq in D. contradiction. }
    rewrite bind2_run, L. rewrite bind2_run. unfold on_err2, os_Remove.
    rewrite (valid_name_nonempty _ V), RB, E.
    rewrite (has_children_true fs [B] c n Ec). reflexivity.
  - intros Only.
    assert (ND := NoDup_dir_entries fs [B]).
    assert (All : ∀ x, x ∈ dir_entries fs [B] → x.1 = metaTmpDir).
    { intros [c n] In. apply elem_of_dir_entries in In. apply (Only c n In). }
    assert (NC : ∀ fs1 : fsys, (∀ k n, fs1 !! k = Some n → fs !! k = Some n) →
              fs1 !! [B; metaTmpDir] = None → has_children fs1 [B] = false).
    { intros fs1 Sub N. apply has_children_false. intros c.
      destruct (fs1 !! ([B] ++ [c])%list) as [n|] eqn:Ec; [|reflexivity].
      pose proof (Only c n (Sub _ _ Ec)) as ->. cbn [app] in Ec.
      rewrite N in Ec. discriminate Ec. }
    assert (Fin : ∀ fs1 : fsys, fs1 !! [B] = Some (Dir a) →
              has_children fs1 [B] = false →
              (on_err2 (os_Remove B) (λ e,
                 match e with
                 | PathError _ _ ENOTEMPTY => fail2 (APIError2 ErrBucketNotEmpty)
                 | _ => fail2 (Earlier (Wrap "remove bucket" e))
                 end) ≫= λ _,
               lift (on_err (DeleteAttributes (meta posix_xattr) B "")
                       (λ e, fail (Wrap "remove bucket attributes" e)))) fs1
              = (Ok2 tt, delete [B] fs1)).
    { intros fs1 E1 C1. rewrite bind2_run. unfold on_err2 at 1, os_Remove.
      rewrite (valid_name_nonempty _ V), RB, E1, C1.
      apply lift_ok. unfold on_err.
      cbn [meta posix_xattr DeleteAttributes XattrMeta].
      rewrite (xattr_remove_all_gone B "" [B] _ (resolve_Join_bucket_empty B V)
                 (lookup_delete_eq _ _)).
      reflexivity. }
    destruct (entries_one_name _ metaTmpDir ND All) as [E0|[n E1]].
    + exists (delete [B] fs).
      assert (N0 : fs !! [B; metaTmpDir] = None).
      { destruct (fs !! [B; metaTmpDir]) as [n|] eqn:En; [|reflexivity].
        apply (elem_of_dir_entries fs [B]) in En. rewrite E0 in En.
        apply elem_of_nil in En. contradiction. }
      split; [|split; [|split; [|split; [|split]]]].
      * unfold DeleteBucket. cbn [dbi_Bucket].
        rewrite bind2_run, lift_run. unfold on_err at 1, reads. rewrite RD, E0.
        cbn [sort_by foldr]. rewrite bind2_run.
        change (lift (mret tt) fs) with (@Ok2 unit tt, fs).
        apply (Fin fs E). apply (NC fs); [auto|exact N0].
      * apply lookup_delete_eq.
      * intros [m Em]. rewrite N0 in Em. discriminate Em.
      * intros k P. apply lookup_delete_ne. intros <-. apply P. reflexivity.
      * intros k m Ek. apply lookup_delete_Some in Ek as [_ Ek]. exact Ek.
      * apply Gone, lookup_delete_eq.
    + set (fs1 := filter (λ kv : path * node, ¬ is_below [B; metaTmpDir] kv.1) fs).
      assert (Sub : ∀ k m, fs1 !! k = Some m → fs !! k = Some m).
      { intros k m Ek. apply map_lookup_filter_Some in Ek as [Ek _]. exact Ek. }
      assert (N1 : ∀ k, [B; metaTmpDir] `prefix_of` k → fs1 !! k = None).
      { intros k P. apply map_lookup_filter_None. right. intros m _ NP.
        apply NP. exact P. }
      assert (K1 : ∀ k, ¬ [B; metaTmpDir] `prefix_of` k → fs1 !! k = fs !! k).
      { intros k NP. destruct (fs !! k) as [m|] eqn:Ek.
        - apply map_lookup_filter_Some. split; [exact Ek|exact NP].
        - apply map_lookup_filter_None. left. exact Ek. }
      assert (NB : ¬ [B; metaTmpDir] `prefix_of` [B]).
      { intros P. apply prefix_length in P. cbn in P. lia. }
      exists (delete [B] fs1).
      split; [|split; [|split; [|split; [|split]]]].
      * unfold DeleteBucket. cbn [dbi_Bucket].
        rewrite bind2_run, lift_run. unfold on_err at 1, reads. rewrite RD, E1.
        cbn [sort_by foldr insert_by fst].
        change (String.eqb metaTmpDir metaTmpDir) with true. cbv iota.
        rewrite bind2_run, lift_run. unfold on_err at 1.
        change metaTmpDir with (join_slash [metaTmpDir]) at 1.
        rewrite (os_RemoveAll_run _ [B; metaTmpDir] fs
                   (resolve_bucket_key B [metaTmpDir] V ltac:(discriminate)
                      ltac:(repeat constructor))
                   ltac:(discriminate)).
        fold fs1. apply (Fin fs1).
        -- rewrite (K1 _ NB). exact E.
        -- apply (NC fs1 Sub). apply N1. reflexivity.
      * apply lookup_delete_eq.
      * intros _ k P. rewrite lookup_delete_ne.
        -- apply N1, P.
        -- intros <-. apply NB, P.
      * intros k P. rewrite lookup_delete_ne.
        -- apply K1. intros P'. apply P. etransitivity; [|exact P'].
           exists [metaTmpDir]. reflexivity.
        -- intros <-. apply P. reflexivity.
      * intros k m Ek. apply lookup_delete_Some in Ek as [_ Ek].
        apply Sub, Ek.
      * apply Gone, lookup_delete_eq.
Qed.

(** *** The lock of an object *)

Lemma store_all_not_meta kvs x :
  (∀ k, x ≠ metaHdr ++ "." ++ k) → store_all kvs ∅ !! x = None.
Proof.
  intros N. destruct (store_all kvs ∅ !! x) as [b|] eqn:E; [|reflexivity].
  apply store_all_inv in E as [E|(k & v & _ & ->)].
  - rewrite lookup_empty in E. discriminate E.
  - exfalso. apply (N k). reflexivity.
Qed.

(** The lock attributes of a file that [PutObject] has written. *)
Lemma PutObject_file_lock po bucket key fs etag fs' :
  po_Bucket po = Some bucket →
  po_Key po = Some key →
  strings_HasSuffix key "/" = false →
  PutObject posix_xattr po fs = (Ok etag, fs') →
  ∃ q attrs,
    resolve (filepath_Join [bucket; key]) = Some q
    ∧ fs' !! q = Some (File (po_Body po) attrs)
    ∧ attrs !! objectLegalHoldKey
      = (if String.eqb (po_ObjectLockLegalHoldStatus po) "ON"
         then Some [x01] else None)
    ∧ attrs !! objectRetentionKey
      = (if String.eqb (po_ObjectLockMode po) "" then None
         else Some (json_Marshal_retention (po_ObjectLockMode po)
                      (po_ObjectLockRetainUntilDate po))).
Proof.
  intros HB HK Hsuf. unfold PutObject. rewrite HB, HK, Hsuf.
  rewrite bind_run, stat_bucket_run.
  destruct (os_Stat bucket fs) as [nb|e] eqn:Hb;
    [|destruct (is_ErrNotExist e); discriminate].
  rewrite bind_run. unfold reads at 1.
  match goal with |- context [if String.eqb ?t "" then Ok ∅ else ?pt] =>
    destruct (if String.eqb t "" then Ok ∅ else pt) as [tags|e] eqn:Ht end;
    [|discriminate].
  rewrite bind_run. unfold attempt at 1, reads at 1.
  destruct (match os_Stat (filepath_Join [bucket; key]) fs with
            | Ok fi => IsDir fi
            | Err _ => false
            end); [discriminate|].
  rewrite bind_run. unfold on_err at 1.
  destruct (openTmpFile _ bucket key _ fs) as [[f|e] fs1] eqn:Ho;
    [|destruct (is_EDQUOT e); discriminate].
  apply openTmpFile_mkdir in Ho as [-> Hmk1].
  rewrite bind_run.
  match goal with |- context [(if ?c then mret tt else ?m) fs1] =>
    destruct ((if c then mret tt else m) fs1) as [[[]|e] fs2] eqn:Hd end;
    [|discriminate].
  rewrite bind_run. unfold on_err at 1.
  destruct (tmp_link _ fs2) as [[[]|e] fs3] eqn:Hl; [|discriminate].
  apply tmp_link_ok in Hl as (q & Hr & Hq & ->).
  cbn [tmp_write tmp_bucket tmp_objname tmp_data app] in Hr |- *.
  rewrite (bind_ok _ _ _ _ _
             (put_user_meta_run _ _ _ _ _ _ Hr Hq (lookup_insert_eq _ _ _))).
  rewrite insert_insert_eq. cbn [set_attrs node_attrs].
  set (a0 := store_all (map_to_list (po_Metadata po)) ∅).
  assert (L0 : a0 !! objectLegalHoldKey = None).
  { apply store_all_not_meta. intros k. destruct k; discriminate. }
  assert (R0 : a0 !! objectRetentionKey = None).
  { apply store_all_not_meta. intros k. destruct k; discriminate. }
  (* tagging *)
  rewrite bind_run.
  match goal with |- context [(if ?c then mret tt else ?m) ?st] =>
    destruct ((if c then mret tt else m) st) as [[[]|e] fs4] eqn:Hs end;
    [|discriminate].
  assert (∃ a1, fs4 = <[q := File (po_Body po) a1]> fs2
                ∧ a1 !! objectLegalHoldKey = None
                ∧ a1 !! objectRetentionKey = None) as (a1 & -> & L1 & R1).
  { destruct (String.eqb (default "" (po_Tagging po)) "").
    - injection Hs as <-. exists a0. auto.
    - eapply PutObjectTagging_ok in Hs; [|exact Hr|exact Hq|apply lookup_insert_eq].
      subst fs4. rewrite insert_insert_eq. cbn [set_attrs node_attrs].
      eexists. split; [reflexivity|].
      rewrite !lookup_insert_ne by discriminate. auto. }
  clear Hs.
  (* legal hold *)
  rewrite bind_run.
  match goal with |- context [(if ?c then ?m else mret tt) ?st] =>
    destruct ((if c then m else mret tt) st) as [[[]|e] fs5] eqn:Hs end;
    [|discriminate].
  assert (∃ a2, fs5 = <[q := File (po_Body po) a2]> fs2
                ∧ a2 !! objectLegalHoldKey
                  = (if String.eqb (po_ObjectLockLegalHoldStatus po) "ON"
                     then Some [x01] else None)
                ∧ a2 !! objectRetentionKey = None) as (a2 & -> & L2 & R2).
  { destruct (String.eqb (po_ObjectLockLegalHoldStatus po) "ON").
    - eapply PutObjectLegalHold_ok in Hs; [|exact Hr|exact Hq|apply lookup_insert_eq].
      subst fs5. rewrite insert_insert_eq. cbn [set_attrs node_attrs].
      eexists. split; [reflexivity|]. rewrite lookup_insert_eq.
      rewrite lookup_insert_ne by discriminate. auto.
    - injection Hs as <-. exists a1. auto. }
  clear Hs L1 R1.
  (* retention *)
  rewrite bind_run.
  match goal with |- context [(if ?c then mret tt else ?m) ?st] =>
    destruct ((if c then mret tt else m) st) as [[[]|e] fs6] eqn:Hs end;
    [|discriminate].
  assert (∃ a3, fs6 = <[q := File (po_Body po) a3]> fs2
                ∧ a3 !! objectLegalHoldKey
                  = (if String.eqb (po_ObjectLockLegalHoldStatus po) "ON"
                     then Some [x01] else None)
                ∧ a3 !! objectRetentionKey
                  = (if String.eqb (po_ObjectLockMode po) "" then None
                     else Some (json_Marshal_retention (po_ObjectLockMode po)
                                  (po_ObjectLockRetainUntilDate po))))
    as (a3 & -> & L3 & R3).
  { destruct (String.eqb (po_ObjectLockMode po) "").
    - injection Hs as <-. exists a2. auto.
    - eapply PutObjectRetention_ok in Hs; [|exact Hr|exact Hq|apply lookup_insert_eq].
      subst fs6. rewrite insert_insert_eq. cbn [set_attrs node_attrs].
      eexists. split; [reflexivity|]. rewrite lookup_insert_eq.
      rewrite lookup_insert_ne by discriminate. auto. }
  clear Hs L2 R2.
  (* etag *)
  rewrite bind_run.
  match goal with |- context [on_err ?m ?h ?st] =>
    destruct (on_err m h st) as [r fs7] eqn:Hs end.
  eapply store_step in Hs as [-> ->]; [|exact Hr|exact Hq|apply lookup_insert_eq].
  rewrite insert_insert_eq. cbn [set_attrs node_attrs].
  intros [= <- <-].
  eexists q, _. split; [exact Hr|]. split; [apply lookup_insert_eq|].
  rewrite !lookup_insert_ne by discriminate. auto.
Qed.

Lemma GetObjectLegalHold_run bucket key v q n fs :
  is_Ok (os_Stat bucket fs) = true →
  resolve (filepath_Join [bucket; key]) = Some q → q ≠ [] →
  fs !! q = Some n →
  GetObjectLegalHold posix_xattr bucket key v fs
  = match node_attrs n !! objectLegalHoldKey with
    | None => (Err2 (APIError2 ErrNoSuchObjectLockConfiguration), fs)
    | Some [] => (Err2 (Panic "index out of range [0] with length 0"), fs)
    | Some (b :: _) => (Ok2 (Byte.eqb b x01), fs)
    end.
Proof.
  intros Sb R Q E. unfold GetObjectLegalHold.
  rewrite bind2_run, (lift_ok _ _ _ _ (stat_bucket_ok _ _ Sb)).
  rewrite bind2_run. unfold on_err2, reads.
  cbn [meta posix_xattr RetrieveAttribute XattrMeta].
  rewrite (xattr_get_run _ _ _ _ _ _ R Q E).
  destruct (node_attrs n !! objectLegalHoldKey) as [[|b r]|]; reflexivity.
Qed.

Lemma GetObjectRetention_run bucket key v q n fs :
  is_Ok (os_Stat bucket fs) = true →
  resolve (filepath_Join [bucket; key]) = Some q → q ≠ [] →
  fs !! q = Some n →
  GetObjectRetention posix_xattr bucket key v fs
  = match node_attrs n !! objectRetentionKey with
    | None => (Err2 (APIError2 ErrNoSuchObjectLockConfiguration), fs)
    | Some d => (Ok2 d, fs)
    end.
Proof.
  intros Sb R Q E. unfold GetObjectRetention.
  rewrite bind2_run, (lift_ok _ _ _ _ (stat_bucket_ok _ _ Sb)).
  unfold on_err2, reads.
  cbn [meta posix_xattr RetrieveAttribute XattrMeta].
  rewrite (xattr_get_run _ _ _ _ _ _ R Q E).
  destruct (node_attrs n !! objectRetentionKey); reflexivity.
Qed.

(** X19.  What [HeadObject] tells of an object that [PutObject] has
    written: the length of the body, the etag the put returned, the user
    metadata of the put, the legal hold when the put asked for it and the
    retention of the put. *)
Theorem HeadObject_after_PutObject (po : PutObjectInput)
    (bucket key : string) (fs fs' : fsys) (etag : string) :
  json_Unmarshal_retention
    (json_Marshal_retention (po_ObjectLockMode po)
       (po_ObjectLockRetainUntilDate po))
  = Some (po_ObjectLockMode po, po_ObjectLockRetainUntilDate po) →
  po_Bucket po = Some bucket →
  po_Key po = Some key →
  strings_HasSuffix key "/" = false →
  PutObject posix_xattr po fs = (Ok etag, fs') →
  HeadObject posix_xattr
    {| hoi_Bucket := Some bucket; hoi_Key := Some key; hoi_PartNumber := None |}
    fs'
  = (Ok2 {| hoo_ContentLength := Z.of_nat (length (po_Body po));
            hoo_ContentType := Some "";
            hoo_ContentEncoding := Some "";
            hoo_ETag := etag;
            hoo_Metadata := po_Metadata po;
            hoo_ObjectLockLegalHoldStatus :=
              if String.eqb (po_ObjectLockLegalHoldStatus po) "ON"
              then "ON" else "";
            hoo_ObjectLockMode := po_ObjectLockMode po;
            hoo_ObjectLockRetainUntilDate :=
              if String.eqb (po_ObjectLockMode po) "" then None
              else po_ObjectLockRetainUntilDate po;
            hoo_PartsCount := None |}, fs').
Proof.
  intros J HB HK Suf P.
  destruct (PutObject_file_state po bucket key fs etag fs' HB HK Suf P)
    as (Et & Sb & q & attrs & R & Q & E & Ae & At).
  destruct (PutObject_file_meta po bucket key fs etag fs' HB HK Suf P)
    as (q' & attrs' & R' & E' & Plain).
  rewrite R in R'. injection R' as <-. rewrite E in E'. injection E' as <-.
  destruct (PutObject_file_lock po bucket key fs etag fs' HB HK Suf P)
    as (q' & attrs' & R' & E' & LH & RT).
  rewrite R in R'. injection R' as <-. rewrite E in E'. injection E' as <-.
  unfold HeadObject. cbn [hoi_Bucket hoi_Key hoi_PartNumber].
  rewrite bind2_run, (lift_ok _ _ _ _ (stat_bucket_ok _ _ Sb)).
  cbv beta zeta.
  rewrite bind2_run, lift_run. unfold on_err at 1, reads at 1.
  rewrite (os_Stat_lookup _ _ _ _ R Q E). cbv beta iota.
  rewrite bind2_run, lift_run. unfold reads at 1.
  rewrite (loadUserMetaData_after_put (po_Metadata po) bucket key q _ fs'
             R Q E ltac:(cbn [node_attrs]; rewrite Ae; eauto) Plain).
  rewrite bind2_run, lift_run. unfold reads at 1.
  assert (SE : stored_etag posix_xattr bucket key fs' = etag).
  { unfold stored_etag. cbn [meta posix_xattr RetrieveAttribute XattrMeta].
    rewrite (xattr_get_run _ _ _ _ _ _ R Q E). cbn [node_attrs]. rewrite Ae.
    apply string_of_bytes_of. }
  rewrite SE. rewrite bind2_run. unfold legal_hold_status.
  rewrite (GetObjectLegalHold_run _ _ _ _ _ _ Sb R Q E). cbn [node_attrs].
  rewrite LH.
  assert (RC : retention_config posix_xattr bucket key fs'
               = (Ok2 (po_ObjectLockMode po,
                       if String.eqb (po_ObjectLockMode po) "" then None
                       else po_ObjectLockRetainUntilDate po), fs')).
  { unfold retention_config.
    rewrite (GetObjectRetention_run _ _ _ _ _ _ Sb R Q E). cbn [node_attrs].
    rewrite RT. destruct (String.eqb (po_ObjectLockMode po) "") eqn:M.
    - apply String.eqb_eq in M. rewrite M. reflexivity.
    - rewrite J. reflexivity. }
  destruct (String.eqb (po_ObjectLockLegalHoldStatus po) "ON");
    [change (Byte.eqb x01 x01) with true|];
    cbv beta iota; rewrite bind2_run, RC; reflexivity.
Qed.

(** *** Round trips of the lock and of the policy *)

Lemma lock_enabled_attr B nb fs :
  valid_name B = true → fs !! [B] = Some nb →
  lock_enabled posix_xattr B fs ↔
  ∃ cfg c, node_attrs nb !! bucketLockKey = Some cfg
           ∧ json_Unmarshal_BucketLockConfig cfg = Some c ∧ Enabled c = true.
Proof.
  intros V E. unfold lock_enabled.
  cbn [meta posix_xattr RetrieveAttribute XattrMeta].
  rewrite (xattr_get_run B "" _ [B] nb fs (resolve_Join_bucket_empty B V)
             ltac:(discriminate) E).
  split; intros (cfg & c & G & J & En); exists cfg, c.
  - destruct (node_attrs nb !! bucketLockKey); [|discriminate G].
    injection G as ->. auto.
  - rewrite G. auto.
Qed.

(** X11.  The legal hold and the retention of an object in a bucket with
    object lock: what is put is what is read, the one does not disturb the
    other, and an object that has neither answers that it has no lock
    configuration. *)
Theorem object_lock_round_trip (B : string) (l : list string)
    (status : bool) (retention : bytes) (nb n : node) (fs : fsys) :
  valid_name B = true →
  l ≠ [] → Forall (λ x, valid_name x = true) l →
  fs !! [B] = Some nb →
  fs !! (B :: l) = Some n →
  lock_enabled posix_xattr B fs →
  (node_attrs n !! objectLegalHoldKey = None →
   GetObjectLegalHold posix_xattr B (join_slash l) "" fs
   = (Err2 (APIError2 ErrNoSuchObjectLockConfiguration), fs))
  ∧ (node_attrs n !! objectRetentionKey = None →
     GetObjectRetention posix_xattr B (join_slash l) "" fs
     = (Err2 (APIError2 ErrNoSuchObjectLockConfiguration), fs))
  ∧ ∃ fs1 fs2,
      PutObjectLegalHold posix_xattr B (join_slash l) "" status fs = (Ok tt, fs1)
      ∧ GetObjectLegalHold posix_xattr B (join_slash l) "" fs1 = (Ok2 status, fs1)
      ∧ PutObjectRetention posix_xattr B (join_slash l) "" retention fs1
        = (Ok tt, fs2)
      ∧ GetObjectRetention posix_xattr B (join_slash l) "" fs2
        = (Ok2 retention, fs2)
      ∧ GetObjectLegalHold posix_xattr B (join_slash l) "" fs2 = (Ok2 status, fs2)
      ∧ ∀ k, k ≠ B :: l → fs2 !! k = fs !! k.
Proof.
  intros V L F Eb E En.
  pose proof (resolve_bucket_key B l V L F) as R.
  assert (Q : B :: l ≠ []) by discriminate.
  assert (NB : [B] ≠ B :: l) by (intros X; injection X as X; congruence).
  assert (Sb : ∀ fs0 : fsys, fs0 !! [B] = Some nb →
            is_Ok (os_Stat B fs0) = true).
  { intros fs0 E0. rewrite (os_Stat_bucket B nb fs0 V E0). reflexivity. }
  assert (En' : ∀ fs0 : fsys, fs0 !! [B] = Some nb →
            lock_enabled posix_xattr B fs0).
  { intros fs0 E0. apply (lock_enabled_attr B nb fs0 V E0).
    apply (lock_enabled_attr B nb fs V Eb). exact En. }
  split; [|split].
  - intros N. rewrite (GetObjectLegalHold_run _ _ _ _ _ _ (Sb _ Eb) R Q E), N.
    reflexivity.
  - intros N. rewrite (GetObjectRetention_run _ _ _ _ _ _ (Sb _ Eb) R Q E), N.
    reflexivity.
  - set (d := if status then [x01] else [x00]).
    set (n1 := set_attrs (<[objectLegalHoldKey := d]> (node_attrs n)) n).
    set (n2 := set_attrs (<[objectRetentionKey := retention]> (node_attrs n1)) n1).
    set (fs1 := <[B :: l := n1]> fs).
    set (fs2 := <[B :: l := n2]> fs1).
    assert (E1 : fs1 !! (B :: l) = Some n1) by apply lookup_insert_eq.
    assert (E2 : fs2 !! (B :: l) = Some n2) by apply lookup_insert_eq.
    assert (B1 : fs1 !! [B] = Some nb).
    { unfold fs1. rewrite lookup_insert_ne by congruence. exact Eb. }
    assert (B2 : fs2 !! [B] = Some nb).
    { unfold fs2. rewrite lookup_insert_ne by congruence. exact B1. }
    assert (A1 : node_attrs n1 !! objectLegalHoldKey = Some d).
    { unfold n1. rewrite node_attrs_set. apply lookup_insert_eq. }
    assert (A2 : node_attrs n2 !! objectLegalHoldKey = Some d).
    { unfold n2. rewrite node_attrs_set.
      rewrite lookup_insert_ne by discriminate. exact A1. }
    assert (A3 : node_attrs n2 !! objectRetentionKey = Some retention).
    { unfold n2. rewrite node_attrs_set. apply lookup_insert_eq. }
    assert (D : match d with
                | [] => (Err2 (Panic "index out of range [0] with length 0"), fs1)
                | b :: _ => (@Ok2 bool (Byte.eqb b x01), fs1)
                end = (Ok2 status, fs1)).
    { unfold d. destruct status; reflexivity. }
    exists fs1, fs2. split; [|split; [|split; [|split; [|split]]]].
    + unfold PutObjectLegalHold.
      rewrite (bind_ok _ _ _ _ _ (stat_bucket_ok _ _ (Sb _ Eb))).
      rewrite (bind_ok _ _ _ _ _ (require_bucket_lock_enabled _ _ _ En)).
      unfold on_err. cbn [meta posix_xattr StoreAttribute XattrMeta].
      rewrite (xattr_set_run _ _ _ _ _ _ _ R Q E). reflexivity.
    + rewrite (GetObjectLegalHold_run _ _ _ _ _ _ (Sb _ B1) R Q E1), A1.
      exact D.
    + unfold PutObjectRetention.
      rewrite (bind_ok _ _ _ _ _ (stat_bucket_ok _ _ (Sb _ B1))).
      rewrite (bind_ok _ _ _ _ _ (require_bucket_lock_enabled _ _ _ (En' _ B1))).
      unfold on_err. cbn [meta posix_xattr StoreAttribute XattrMeta].
      rewrite (xattr_set_run _ _ _ _ _ _ _ R Q E1). reflexivity.
    + rewrite (GetObjectRetention_run _ _ _ _ _ _ (Sb _ B2) R Q E2), A3.
      reflexivity.
    + rewrite (GetObjectLegalHold_run _ _ _ _ _ _ (Sb _ B2) R Q E2), A2.
      unfold d. destruct status; reflexivity.
    + intros k K. unfold fs2, fs1. rewrite !lookup_insert_ne by congruence.
      reflexivity.
Qed.


(** X6.  The policy of a bucket: a bucket without one answers that it has
    no policy; what is put is what is read; after the removal the policy
    is gone again, and a second removal is no error. *)
Theorem bucket_policy_round_trip (B : string) (policy : bytes)
    (n : node) (fs : fsys) :
  valid_name B = true →
  fs !! [B] = Some n →
  (node_attrs n !! policykey = None →
   GetBucketPolicy posix_xattr B fs
   = (Err2 (APIError2 ErrNoSuchBucketPolicy), fs))
  ∧ ∃ fs1 fs2,
      PutBucketPolicy posix_xattr B (Some policy) fs = (Ok tt, fs1)
      ∧ GetBucketPolicy posix_xattr B fs1 = (Ok2 policy, fs1)
      ∧ DeleteBucketPolicy posix_xattr B fs1 = (Ok tt, fs2)
      ∧ GetBucketPolicy posix_xattr B fs2
        = (Err2 (APIError2 ErrNoSuchBucketPolicy), fs2)
      ∧ DeleteBucketPolicy posix_xattr B fs2 = (Ok tt, fs2)
      ∧ ∀ k, k ≠ [B] → fs2 !! k = fs !! k.
Proof.
  intros V E.
  pose proof (resolve_Join_bucket_empty B V) as R.
  assert (Q : [B] ≠ []) by discriminate.
  assert (G : ∀ (m : node) (fs0 : fsys), fs0 !! [B] = Some m →
            GetBucketPolicy posix_xattr B fs0
            = match node_attrs m !! policykey with
              | Some v => (Ok2 v, fs0)
              | None => (Err2 (APIError2 ErrNoSuchBucketPolicy), fs0)
              end).
  { intros m fs0 E0. unfold GetBucketPolicy.
    rewrite bind2_run, (lift_ok _ _ _ _ (stat_bucket_there B m fs0 V E0)).
    unfold on_err2, reads. cbn [meta posix_xattr RetrieveAttribute XattrMeta].
    rewrite (xattr_get_run B "" _ [B] m fs0 R Q E0).
    destruct (node_attrs m !! policykey); reflexivity. }
  split.
  - intros N. rewrite (G n fs E), N. reflexivity.
  - set (n1 := set_attrs (<[policykey := policy]> (node_attrs n)) n).
    set (n2 := set_attrs (delete policykey (node_attrs n1)) n1).
    exists (<[[B] := n1]> fs), (<[[B] := n2]> (<[[B] := n1]> fs)).
    assert (E1 : (<[[B] := n1]> fs) !! [B] = Some n1) by apply lookup_insert_eq.
    assert (E2 : (<[[B] := n2]> (<[[B] := n1]> fs)) !! [B] = Some n2)
      by apply lookup_insert_eq.
    assert (A1 : node_attrs n1 !! policykey = Some policy).
    { unfold n1. rewrite node_attrs_set. apply lookup_insert_eq. }
    assert (A2 : node_attrs n2 !! policykey = None).
    { unfold n2. rewrite node_attrs_set. apply lookup_delete_eq. }
    split; [|split; [|split; [|split; [|split]]]].
    + unfold PutBucketPolicy.
      rewrite (bind_ok _ _ _ _ _ (stat_bucket_there B n fs V E)).
      unfold on_err. cbn [meta posix_xattr StoreAttribute XattrMeta].
      rewrite (xattr_set_run B "" _ _ [B] n fs R Q E). reflexivity.
    + rewrite (G n1 _ E1), A1. reflexivity.
    + unfold DeleteBucketPolicy, PutBucketPolicy.
      rewrite (bind_ok _ _ _ _ _ (stat_bucket_there B n1 _ V E1)).
      unfold on_err. cbn [meta posix_xattr DeleteAttribute XattrMeta].
      rewrite (xattr_remove_run B "" _ [B] n1 _ R Q E1), A1. reflexivity.
    + rewrite (G n2 _ E2), A2. reflexivity.
    + unfold DeleteBucketPolicy, PutBucketPolicy.
      rewrite (bind_ok _ _ _ _ _ (stat_bucket_there B n2 _ V E2)).
      unfold on_err. cbn [meta posix_xattr DeleteAttribute XattrMeta].
      rewrite (xattr_remove_run B "" _ [B] n2 _ R Q E2), A2. reflexivity.
    + intros k K. rewrite !lookup_insert_ne by congruence. reflexivity.
Qed.

(** X10.  The lock configuration of a bucket. A bucket made without object
    lock accepts none and has none to tell. A bucket with object lock
    enabled stores what is put and returns it; and when what was put
    decodes to a configuration that is not enabled, the bucket accepts no
    further configuration. *)
Theorem object_lock_configuration (B : string) (config config' : bytes)
    (nb : node) (fs : fsys) :
  valid_name B = true →
  fs !! [B] = Some nb →
  (lock_disabled posix_xattr B fs →
   PutObjectLockConfiguration posix_xattr B config fs
   = (Err2 (APIError2 ErrObjectLockConfigurationNotAllowed), fs))
  ∧ (node_attrs nb !! bucketLockKey = None →
     GetObjectLockConfiguration posix_xattr B fs
     = (Err2 (APIError2 ErrObjectLockConfigurationNotFound), fs))
  ∧ (lock_enabled posix_xattr B fs →
     ∃ fs1,
       PutObjectLockConfiguration posix_xattr B config fs = (Ok2 tt, fs1)
       ∧ GetObjectLockConfiguration posix_xattr B fs1 = (Ok2 config, fs1)
       ∧ (∀ k, k ≠ [B] → fs1 !! k = fs !! k)
       ∧ (∀ c, json_Unmarshal_BucketLockConfig config = Some c →
               Enabled c = false →
               PutObjectLockConfiguration posix_xattr B config' fs1
               = (Err2 (APIError2 ErrObjectLockConfigurationNotAllowed), fs1))).
Proof.
  intros V E.
  pose proof (resolve_Join_bucket_empty B V) as R.
  assert (Q : [B] ≠ []) by discriminate.
  assert (P : ∀ (m : node) (fs0 : fsys) cfg, fs0 !! [B] = Some m →
            PutObjectLockConfiguration posix_xattr B cfg fs0
            = match node_attrs m !! bucketLockKey with
              | None => (Err2 (APIError2 ErrObjectLockConfigurationNotAllowed), fs0)
              | Some old =>
                  match json_Unmarshal_BucketLockConfig old with
                  | None => (Err2 (Earlier (Wrap "unmarshal object lock config"
                                              JSONError)), fs0)
                  | Some c =>
                      if Enabled c
                      then (Ok2 tt, <[[B] := set_attrs (<[bucketLockKey := cfg]>
                                                         (node_attrs m)) m]> fs0)
                      else (Err2 (APIError2 ErrObjectLockConfigurationNotAllowed),
                            fs0)
                  end
              end).
  { intros m fs0 cfg E0. unfold PutObjectLockConfiguration.
    rewrite bind2_run, (lift_ok _ _ _ _ (stat_bucket_there B m fs0 V E0)).
    rewrite bind2_run. unfold on_err2, reads.
    cbn [meta posix_xattr RetrieveAttribute StoreAttribute XattrMeta].
    rewrite (xattr_get_run B "" _ [B] m fs0 R Q E0).
    destruct (node_attrs m !! bucketLockKey) as [old|]; [|reflexivity].
    cbv beta iota.
    destruct (json_Unmarshal_BucketLockConfig old) as [c|]; [|reflexivity].
    destruct (Enabled c); [|reflexivity]. cbn [negb].
    rewrite lift_run. unfold on_err.
    rewrite (xattr_set_run B "" _ _ [B] m fs0 R Q E0). reflexivity. }
  assert (G : ∀ (m : node) (fs0 : fsys), fs0 !! [B] = Some m →
            GetObjectLockConfiguration posix_xattr B fs0
            = match node_attrs m !! bucketLockKey with
              | Some v => (Ok2 v, fs0)
              | None => (Err2 (APIError2 ErrObjectLockConfigurationNotFound), fs0)
              end).
  { intros m fs0 E0. unfold GetObjectLockConfiguration.
    rewrite bind2_run, (lift_ok _ _ _ _ (stat_bucket_there B m fs0 V E0)).
    unfold on_err2, reads. cbn [meta posix_xattr RetrieveAttribute XattrMeta].
    rewrite (xattr_get_run B "" _ [B] m fs0 R Q E0).
    destruct (node_attrs m !! bucketLockKey); reflexivity. }
  split; [|split].
  - intros Dis. rewrite (P nb fs config E).
    unfold lock_disabled in Dis.
    cbn [meta posix_xattr RetrieveAttribute XattrMeta] in Dis.
    rewrite (xattr_get_run B "" _ [B] nb fs R Q E) in Dis.
    destruct (node_attrs nb !! bucketLockKey) as [old|]; [|reflexivity].
    destruct Dis as [(e & X & _)|(cfg & c & X & J & En)]; [discriminate X|].
    injection X as ->. rewrite J, En. reflexivity.
  - intros N. rewrite (G nb fs E), N. reflexivity.
  - intros En. apply (lock_enabled_attr B nb fs V E) in En
      as (old & c & A & J & En).
    set (n1 := set_attrs (<[bucketLockKey := config]> (node_attrs nb)) nb).
    exists (<[[B] := n1]> fs).
    assert (E1 : (<[[B] := n1]> fs) !! [B] = Some n1) by apply lookup_insert_eq.
    assert (A1 : node_attrs n1 !! bucketLockKey = Some config).
    { unfold n1. rewrite node_attrs_set. apply lookup_insert_eq. }
    split; [|split; [|split]].
    + rewrite (P nb fs config E), A, J, En. reflexivity.
    + rewrite (G n1 _ E1), A1. reflexivity.
    + intros k K. apply lookup_insert_ne. congruence.
    + intros c' J' En'. rewrite (P n1 _ config' E1), A1, J', En'. reflexivity.
Qed.

(** *** ListParts *)

Section UploadEntries.

Variables (B object u : string).
Hypothesis HvB : valid_name B = true.
Hypothesis HvS : valid_name (sha256_hex object) = true.
Hypothesis Hvu : valid_name u = true.

Lemma Join_entry_path c :
  valid_name c = true →
  filepath_Join [filepath_Join [metaTmpMultipartDir; sha256_hex object]; u; c]
  = join_slash [metaTmpDir; "multipart"; sha256_hex object; u; c].
Proof.
  intros Vc. rewrite (objdir_eq object HvS).
  change [join_slash [metaTmpDir; "multipart"; sha256_hex object]; u; c]
    with (map join_slash [[metaTmpDir; "multipart"; sha256_hex object]; [u]; [c]]).
  rewrite Join_valid; [reflexivity|discriminate|].
  repeat first [ apply Forall_cons; split | apply Forall_nil | split
               | discriminate | assumption | reflexivity ].
Qed.

Lemma resolve_bucket_entry c :
  valid_name c = true →
  resolve (filepath_Join
             [B; filepath_Join
                   [filepath_Join [metaTmpMultipartDir; sha256_hex object]; u; c]])
  = Some (upload_dir B object u ++ [c])%list.
Proof.
  intros Vc. rewrite (Join_entry_path c Vc).
  apply (resolve_bucket_key B [metaTmpDir; "multipart"; sha256_hex object; u; c] HvB);
    [discriminate|].
  repeat first [ apply Forall_cons; split | apply Forall_nil
               | assumption | reflexivity ].
Qed.

Lemma checkUploadIDExists_open fs :
  upload_open fs B object u →
  checkUploadIDExists B object u fs = (Ok (sha256_hex object), fs).
Proof.
  intros O. destruct (upload_open_dir _ _ _ _ O) as [au EU].
  unfold checkUploadIDExists. rewrite bind_run. unfold on_err, reads.
  rewrite (Join_bucket_multipart_sum B object HvB HvS).
  rewrite (Join_container_upload B object u HvB HvS Hvu).
  rewrite (os_Stat_lookup _ _ _ fs (resolve_upload_dir B object u HvB HvS Hvu)
             ltac:(discriminate) EU).
  reflexivity.
Qed.

Lemma os_ReadDir_upload fs :
  upload_open fs B object u →
  os_ReadDir (filepath_Join
                [filepath_Join
                   [B; filepath_Join [metaTmpMultipartDir; sha256_hex object]]; u])
    fs
  = Ok (sort_by name_leb (dir_entries fs (upload_dir B object u))).
Proof.
  intros O. destruct (upload_open_dir _ _ _ _ O) as [au EU].
  rewrite (Join_bucket_objdir B object HvB HvS).
  rewrite (Join_container_upload B object u HvB HvS Hvu).
  unfold os_ReadDir.
  rewrite (resolve_name_nonempty _ _ (resolve_upload_dir B object u HvB HvS Hvu)
             ltac:(discriminate)).
  rewrite (resolve_upload_dir B object u HvB HvS Hvu).
  rewrite lookup_node_nonempty by discriminate. rewrite EU. reflexivity.
Qed.

(** The loop of [ListParts] keeps the entries above the marker. *)
Lemma list_parts_loop_omap m fs ents :
  (∀ c n, (c, n) ∈ ents →
          fs !! (upload_dir B object u ++ [c])%list = Some n
          ∧ valid_name c = true) →
  list_parts_loop posix_xattr B
    (filepath_Join [metaTmpMultipartDir; sha256_hex object]) u m ents fs
  = omap (λ e : DirEntry,
            if (strconv_Atoi e.1).1 <=? m then None
            else Some {| part_PartNumber := (strconv_Atoi e.1).1;
                         part_ETag := match node_attrs e.2 !! etagkey with
                                      | Some b => string_of b
                                      | None => ""
                                      end;
                         part_Size := FileInfo_Size e.2 |}) ents.
Proof.
  induction ents as [|[c n] r IH]; intros All; [reflexivity|].
  cbn [list_parts_loop omap list_omap fst snd].
  rewrite IH by (intros c' n' I; apply All; right; exact I).
  destruct ((strconv_Atoi c).1 <=? m); [reflexivity|].
  destruct (All c n ltac:(left)) as [E Vc].
  pose proof (resolve_bucket_entry c Vc) as R.
  assert (Q : (upload_dir B object u ++ [c])%list ≠ [])
    by (intros X; apply app_eq_nil in X as [_ X]; discriminate X).
  unfold os_Lstat. rewrite (os_Stat_lookup _ _ _ fs R Q E).
  unfold stored_etag. cbn [meta posix_xattr RetrieveAttribute XattrMeta].
  rewrite (xattr_get_run _ _ _ _ _ _ R Q E).
  destruct (node_attrs n !! etagkey); reflexivity.
Qed.

End UploadEntries.

Lemma Sorted_take {A} (R : A → A → Prop) k l :
  Sorted R l → Sorted R (take k l).
Proof.
  intros S. revert k. induction S as [|x l S IH HR]; intros k.
  - rewrite take_nil. constructor.
  - destruct k as [|k]; [constructor|]. cbn [take]. constructor; [apply IH|].
    destruct HR as [|y l' Rxy]; [rewrite take_nil; constructor|].
    destruct k; constructor. exact Rxy.
Qed.

Lemma Sorted_weaken {A} (R R' : A → A → Prop) l :
  (∀ a b, R a b → R' a b) → Sorted R l → Sorted R' l.
Proof.
  intros W. induction 1 as [|x l S IH HR]; constructor; [exact IH|].
  destruct HR; constructor. apply W. assumption.
Qed.

(** X26.  The listing of the parts of an upload. A marker that is not a
    number is refused before anything is looked at. For an upload that is
    open, the parts come in the order of their numbers, each one is an
    entry of the directory of the upload whose number is above the marker,
    with the etag and the size of that entry; no more than [MaxParts] of
    them are returned when that is positive; and a listing that is not
    truncated has every such entry. *)
Theorem ListParts_of_open_upload (B object u s : string) (m : Z)
    (maxParts : option Z) (fs : fsys) :
  let input := {| lpi_Bucket := Some B; lpi_Key := Some object;
                  lpi_UploadId := Some u;
                  lpi_PartNumberMarker := Some s;
                  lpi_MaxParts := maxParts |} in
  let part_of (c : string) (n : node) :=
    {| part_PartNumber := (strconv_Atoi c).1;
       part_ETag := match node_attrs n !! etagkey with
                    | Some b => string_of b
                    | None => ""
                    end;
       part_Size := FileInfo_Size n |} in
  (s ≠ "" → (strconv_Atoi s).2 = false →
   ListParts posix_xattr input fs
   = (Err2 (APIError2 ErrInvalidPartNumberMarker), fs))
  ∧ (valid_name B = true →
     valid_name (sha256_hex object) = true →
     valid_name u = true →
     upload_open fs B object u →
     (∀ c n, fs !! (upload_dir B object u ++ [c])%list = Some n →
             valid_name c = true) →
     (if String.eqb s "" then (0, true) else strconv_Atoi s) = (m, true) →
     ∃ lpr,
       ListParts posix_xattr input fs = (Ok2 lpr, fs)
       ∧ lpr_PartNumberMarker lpr = m
       ∧ Sorted (λ a b, part_PartNumber a ≤ part_PartNumber b) (lpr_Parts lpr)
       ∧ (∀ p, p ∈ lpr_Parts lpr →
               m < part_PartNumber p
               ∧ ∃ c n, fs !! (upload_dir B object u ++ [c])%list = Some n
                        ∧ p = part_of c n)
       ∧ (lpr_IsTruncated lpr = false →
          ∀ c n, fs !! (upload_dir B object u ++ [c])%list = Some n →
                 m < (strconv_Atoi c).1 → part_of c n ∈ lpr_Parts lpr)
       ∧ (0 < default 0 maxParts →
          Z.of_nat (length (lpr_Parts lpr)) ≤ default 0 maxParts)
       ∧ (lpr_IsTruncated lpr = true →
          Z.of_nat (length (lpr_Parts lpr)) = default 0 maxParts)
       ∧ lpr_NextPartNumberMarker lpr
         = match last (lpr_Parts lpr) with
           | Some p => part_PartNumber p
           | None => 0
           end).
Proof.
  intros input part_of. split.
  - intros Ns Bad. unfold ListParts, input.
    cbn [lpi_Bucket lpi_Key lpi_UploadId lpi_PartNumberMarker lpi_MaxParts from_option id].
    rewrite bind2_run. apply String.eqb_neq in Ns. rewrite Ns.
    destruct (strconv_Atoi s) as [x []]; [discriminate Bad|reflexivity].
  - intros VB VS Vu O Names Mk.
    destruct (upload_open_bucket _ _ _ _ O) as [ab EB].
    set (ents := sort_by name_leb (dir_entries fs (upload_dir B object u))).
    assert (InE : ∀ c n, (c, n) ∈ ents ↔
                    fs !! (upload_dir B object u ++ [c])%list = Some n).
    { intros c n. unfold ents. rewrite sort_by_Permutation.
      apply elem_of_dir_entries. }
    set (g := λ e : DirEntry,
                if (strconv_Atoi e.1).1 <=? m then None
                else Some (part_of e.1 e.2)).
    set (all := sort_by part_leb (omap g ents)).
    assert (InA : ∀ p, p ∈ all ↔
                    ∃ c n, fs !! (upload_dir B object u ++ [c])%list = Some n
                           ∧ m < (strconv_Atoi c).1 ∧ p = part_of c n).
    { intros p. unfold all. rewrite sort_by_Permutation, list_elem_of_omap.
      split.
      - intros ([c n] & I & G). unfold g in G. cbn [fst snd] in G.
        destruct ((strconv_Atoi c).1 <=? m) eqn:L; [discriminate G|].
        injection G as <-. exists c, n. apply InE in I. apply Z.leb_gt in L.
        auto.
      - intros (c & n & E & L & ->). exists (c, n). split; [apply InE, E|].
        unfold g. cbn [fst snd]. apply Z.leb_gt in L. rewrite L. reflexivity. }
    assert (SA : Sorted (λ a b, part_PartNumber a ≤ part_PartNumber b) all).
    { apply (Sorted_weaken (λ a b, part_leb a b = true)).
      - intros a b L. apply Z.leb_le, L.
      - apply sort_by_Sorted. intros a b L. unfold part_leb in *.
        apply Z.leb_gt in L. apply Z.leb_le. lia. }
    set (mp := default 0 maxParts).
    set (cut := (0 <? mp) && (mp <? Z.of_nat (length all))).
    set (parts := if cut then take (Z.to_nat mp) all else all).
    exists {| lpr_Bucket := B;
              lpr_IsTruncated := negb (length all =? length parts)%nat;
              lpr_Key := object;
              lpr_MaxParts := mp;
              lpr_NextPartNumberMarker :=
                match last parts with
                | Some part => part_PartNumber part
                | None => 0
                end;
              lpr_PartNumberMarker := m;
              lpr_Parts := parts;
              lpr_UploadID := u |}.
    cbn [lpr_PartNumberMarker lpr_Parts lpr_IsTruncated lpr_NextPartNumberMarker].
    assert (Len : if cut then length parts = Z.to_nat mp
                              ∧ (length parts < length all)%nat ∧ 0 < mp
                  else parts = all ∧ (0 < mp → Z.of_nat (length all) ≤ mp)).
    { unfold parts. destruct cut eqn:C.
      - unfold cut in C. apply andb_true_iff in C as [C1 C2].
        apply Z.ltb_lt in C1, C2. rewrite length_take. lia.
      - split; [reflexivity|]. intros P. unfold cut in C.
        apply andb_false_iff in C as [C|C]; [apply Z.ltb_ge in C; lia|].
        apply Z.ltb_ge in C. exact C. }
    split; [|split; [|split; [|split; [|split; [|split; [|split]]]]]].
    + unfold ListParts, input.
      cbn [lpi_Bucket lpi_Key lpi_UploadId lpi_PartNumberMarker lpi_MaxParts from_option id].
      rewrite bind2_run.
      assert (M0 : (if String.eqb s "" then mret 0
                    else match strconv_Atoi s with
                         | (n, true) => mret n
                         | (_, false) => fail2 (APIError2 ErrInvalidPartNumberMarker)
                         end) fs = (@Ok2 Z m, fs)).
      { destruct (String.eqb s ""); [injection Mk as <-; reflexivity|].
        rewrite Mk. reflexivity. }
      rewrite M0.
      rewrite bind2_run, (lift_ok _ _ _ _ (stat_bucket_there B _ fs VB EB)).
      rewrite bind2_run,
        (lift_ok _ _ _ _ (checkUploadIDExists_open B object u VB VS Vu fs O)).
      cbv beta zeta.
      rewrite bind2_run, lift_run. unfold on_err at 1, reads at 1.
      rewrite (os_ReadDir_upload B object u VB VS Vu fs O). fold ents.
      cbv beta iota.
      rewrite bind2_run, lift_run. unfold reads at 1.
      rewrite (list_parts_loop_omap B object u VB VS Vu m fs ents).
      * reflexivity.
      * intros c n I. apply InE in I. split; [exact I|apply (Names c n I)].
    + reflexivity.
    + unfold parts. destruct cut; [apply Sorted_take|]; exact SA.
    + intros p I.
      assert (I' : p ∈ all).
      { unfold parts in I. destruct cut; [|exact I].
        apply (subseteq_take _ _ _ I). }
      apply InA in I' as (c & n & E & L & ->). split; [exact L|]. eauto.
    + intros T c n E L. apply negb_false_iff, Nat.eqb_eq in T.
      destruct cut; [lia|]. destruct Len as [-> _].
      apply InA. eauto.
    + intros P. fold mp in P |- *. destruct cut.
      * lia.
      * destruct Len as [-> Le]. apply Le, P.
    + intros T. apply negb_true_iff, Nat.eqb_neq in T. fold mp.
      destruct cut.
      * lia.
      * destruct Len as [Ep _]. rewrite Ep in T. congruence.
    + reflexivity.
Qed.

(** *** The owners of the buckets *)

Lemma string_gtb_asym a : ∀ b, string_gtb a b = true → string_gtb b a = false.
Proof.
  induction a as [|x a IH]; intros [|y b]; cbn [string_gtb]; try discriminate;
    try reflexivity.
  destruct (Nat.ltb_spec (nat_of_ascii y) (nat_of_ascii x)) as [L|L].
  - intros _. destruct (Nat.ltb_spec (nat_of_ascii x) (nat_of_ascii y)); [lia|].
    reflexivity.
  - destruct (Nat.ltb_spec (nat_of_ascii x) (nat_of_ascii y)) as [L'|L'];
      [discriminate|].
    apply IH.
Qed.

Lemma string_leb_total a b : string_leb a b = false → string_leb b a = true.
Proof.
  unfold string_leb. rewrite negb_false_iff, negb_true_iff. apply string_gtb_asym.
Qed.

Lemma os_ReadDir_root fs :
  os_ReadDir "." fs = Ok (sort_by name_leb (dir_entries fs [])).
Proof. reflexivity. Qed.

(** The owner the attributes of a bucket name. *)
Lemma buckets_and_owners_ok fs ents : ∀ acc,
  (∀ c n, (c, n) ∈ ents →
          fs !! [c] = Some n ∧ valid_name c = true
          ∧ (IsDir n = true →
             ∃ data acl, node_attrs n !! aclkey = Some data
                         ∧ json_Unmarshal_ACL data = Some acl)) →
  buckets_and_owners posix_xattr ents acc fs
  = Ok (acc ++ omap (λ e : DirEntry,
                       if IsDir e.2
                       then match node_attrs e.2 !! aclkey with
                            | Some data =>
                                match json_Unmarshal_ACL data with
                                | Some acl => Some {| bkt_Name := e.1;
                                                      bkt_Owner := acl_Owner acl |}
                                | None => None
                                end
                            | None => None
                            end
                       else None) ents)%list.
Proof.
  induction ents as [|[c n] r IH]; intros acc All.
  - cbn [buckets_and_owners omap list_omap]. rewrite app_nil_r. reflexivity.
  - cbn [buckets_and_owners omap list_omap fst snd].
    assert (All' : ∀ c' n', (c', n') ∈ r →
              fs !! [c'] = Some n' ∧ valid_name c' = true
              ∧ (IsDir n' = true →
                 ∃ data acl, node_attrs n' !! aclkey = Some data
                             ∧ json_Unmarshal_ACL data = Some acl))
      by (intros c' n' I; apply All; right; exact I).
    destruct (All c n ltac:(left)) as (E & Vc & D).
    destruct (IsDir n); cbn [negb]; [|apply IH, All'].
    destruct (D eq_refl) as (data & acl & A & J).
    cbn [meta posix_xattr RetrieveAttribute XattrMeta].
    rewrite (xattr_get_run c "" _ [c] n fs (resolve_Join_bucket_empty c Vc)
               ltac:(discriminate) E).
    rewrite A, J. rewrite (IH _ All'). rewrite <- app_assoc. reflexivity.
Qed.

Lemma buckets_and_owners_err fs ents : ∀ acc,
  (∀ c n, (c, n) ∈ ents → fs !! [c] = Some n ∧ valid_name c = true) →
  (∃ c n, (c, n) ∈ ents ∧ IsDir n = true
          ∧ (node_attrs n !! aclkey = None
             ∨ ∃ data, node_attrs n !! aclkey = Some data
                       ∧ json_Unmarshal_ACL data = None)) →
  ∃ e, buckets_and_owners posix_xattr ents acc fs = Err e.
Proof.
  induction ents as [|[c n] r IH]; intros acc All (c0 & n0 & I & D & Bad).
  - apply elem_of_nil in I as [].
  - cbn [buckets_and_owners fst snd].
    assert (All' : ∀ c' n', (c', n') ∈ r →
              fs !! [c'] = Some n' ∧ valid_name c' = true)
      by (intros c' n' I'; apply All; right; exact I').
    destruct (All c n ltac:(left)) as (E & Vc).
    cbn [meta posix_xattr RetrieveAttribute XattrMeta].
    rewrite (xattr_get_run c "" _ [c] n fs (resolve_Join_bucket_empty c Vc)
               ltac:(discriminate) E).
    apply elem_of_cons in I as [I|I].
    + injection I as <- <-. rewrite D. cbn [negb].
      destruct Bad as [-> | (data & -> & ->)]; eexists; reflexivity.
    + destruct (IsDir n); cbn [negb].
      * destruct (node_attrs n !! aclkey) as [data|]; [|eexists; reflexivity].
        destruct (json_Unmarshal_ACL data); [|eexists; reflexivity].
        apply IH; [exact All'|]. exists c0, n0. auto.
      * apply IH; [exact All'|]. exists c0, n0. auto.
Qed.

(** X5.  The buckets and their owners. When every bucket has an access
    control list that can be decoded, the listing has every bucket once,
    with the owner its list names, in the order of the names; files beside
    the buckets are left out. One bucket without such a list makes the
    whole listing fail. *)
Theorem ListBucketsAndOwners_lists_buckets (fs : fsys) :
  (∀ c n, fs !! [c] = Some n → valid_name c = true) →
  ((∀ c a, fs !! [c] = Some (Dir a) →
           ∃ data acl, a !! aclkey = Some data
                       ∧ json_Unmarshal_ACL data = Some acl) →
   ∃ l, ListBucketsAndOwners posix_xattr fs = (Ok l, fs)
        ∧ Sorted (λ a b, lex_le (bkt_Name a) (bkt_Name b)) l
        ∧ NoDup (bkt_Name <$> l)
        ∧ ∀ name owner,
            {| bkt_Name := name; bkt_Owner := owner |} ∈ l ↔
            ∃ a data acl, fs !! [name] = Some (Dir a)
                          ∧ a !! aclkey = Some data
                          ∧ json_Unmarshal_ACL data = Some acl
                          ∧ acl_Owner acl = owner)
  ∧ ((∃ c a, fs !! [c] = Some (Dir a)
             ∧ (a !! aclkey = None
                ∨ ∃ data, a !! aclkey = Some data
                          ∧ json_Unmarshal_ACL data = None)) →
     ∃ e, ListBucketsAndOwners posix_xattr fs = (Err e, fs)).
Proof.
  intros Names.
  set (ents := sort_by name_leb (dir_entries fs [])).
  assert (InE : ∀ c n, (c, n) ∈ ents ↔ fs !! [c] = Some n).
  { intros c n. unfold ents. rewrite sort_by_Permutation.
    apply (elem_of_dir_entries fs [] c n). }
  assert (NDE : NoDup ents.*1).
  { unfold ents. rewrite sort_by_Permutation. apply NoDup_dir_entries. }
  split.
  - intros Acl.
    set (g := λ e : DirEntry,
                if IsDir e.2
                then match node_attrs e.2 !! aclkey with
                     | Some data =>
                         match json_Unmarshal_ACL data with
                         | Some acl => Some {| bkt_Name := e.1;
                                               bkt_Owner := acl_Owner acl |}
                         | None => None
                         end
                     | None => None
                     end
                else None).
    exists (sort_by bucket_leb (omap g ents)).
    split; [|split; [|split]].
    + unfold ListBucketsAndOwners. rewrite bind_run. unfold on_err at 1, reads at 1.
      rewrite os_ReadDir_root. fold ents. cbv beta iota.
      rewrite bind_run. unfold reads at 1.
      rewrite (buckets_and_owners_ok fs ents []); [reflexivity|].
      intros c n I. apply InE in I. split; [exact I|]. split; [apply (Names c n I)|].
      intros D. destruct n as [d a|a]; [discriminate D|]. apply (Acl c a I).
    + apply (Sorted_weaken (λ a b, bucket_leb a b = true)).
      * intros a b L. apply string_gtb_false. unfold bucket_leb, string_leb in L.
        apply negb_true_iff in L. exact L.
      * apply sort_by_Sorted. intros a b. apply string_leb_total.
    + rewrite sort_by_Permutation.
      apply (sublist_NoDup _ ents.*1); [exact NDE|].
      clear. induction ents as [|[c n] r IH]; [constructor|].
      cbn [omap list_omap fmap list_fmap fst].
      destruct (g (c, n)) as [b|] eqn:G.
      * cbn [fmap list_fmap].
        assert (bkt_Name b = c) as ->.
        { unfold g in G. cbn [fst snd] in G.
          destruct (IsDir n); [|discriminate G].
          destruct (node_attrs n !! aclkey) as [data|]; [|discriminate G].
          destruct (json_Unmarshal_ACL data); [|discriminate G].
          injection G as <-. reflexivity. }
        apply sublist_skip, IH.
      * apply sublist_cons, IH.
    + intros name owner. rewrite sort_by_Permutation, list_elem_of_omap. split.
      * intros ([c n] & I & G). apply InE in I. unfold g in G. cbn [fst snd] in G.
        destruct n as [d a|a]; [discriminate G|]. cbn [IsDir node_attrs] in G.
        destruct (a !! aclkey) as [data|] eqn:A; [|discriminate G].
        destruct (json_Unmarshal_ACL data) as [acl|] eqn:J; [|discriminate G].
        injection G as <- <-. exists a, data, acl. auto.
      * intros (a & data & acl & E & A & J & <-). exists (name, Dir a).
        split; [apply InE, E|]. unfold g. cbn [fst snd IsDir node_attrs].
        rewrite A, J. reflexivity.
  - intros (c & a & E & Bad).
    destruct (buckets_and_owners_err fs ents []) as [e Er].
    + intros c' n' I. apply InE in I. split; [exact I|apply (Names c' n' I)].
    + exists c, (Dir a). split; [apply InE, E|]. split; [reflexivity|exact Bad].
    + exists e. unfold ListBucketsAndOwners. rewrite bind_run.
      unfold on_err at 1, reads at 1. rewrite os_ReadDir_root. fold ents.
      cbv beta iota. rewrite bind_run. unfold reads at 1. rewrite Er. reflexivity.
Qed.

(** X4.  The change of the owner of a bucket. The access control list of
    the bucket is replaced by the same list with the new owner, which is
    what [GetBucketAcl] returns afterwards; the rest of the tree stays. A
    bucket that has no list cannot change its owner, although
    [GetBucketAcl] reads an empty list from it. *)
Theorem ChangeBucketOwner_sets_owner (B newOwner : string) (nb : node)
    (fs : fsys) :
  valid_name B = true →
  fs !! [B] = Some nb →
  (node_attrs nb !! aclkey = None →
   ChangeBucketOwner posix_xattr B newOwner fs
   = (Err (Wrap "get acl" MetaErrNoSuchKey), fs)
   ∧ GetBucketAcl posix_xattr {| gba_Bucket := Some B |} fs = (Ok [], fs))
  ∧ (∀ data acl,
       node_attrs nb !! aclkey = Some data →
       json_Unmarshal_ACL data = Some acl →
       ∃ fs',
         ChangeBucketOwner posix_xattr B newOwner fs = (Ok tt, fs')
         ∧ GetBucketAcl posix_xattr {| gba_Bucket := Some B |} fs'
           = (Ok (json_Marshal_ACL (acl_set_Owner newOwner acl)), fs')
         ∧ fs' !! [B]
           = Some (set_attrs (<[aclkey := json_Marshal_ACL
                                            (acl_set_Owner newOwner acl)]>
                                (node_attrs nb)) nb)
         ∧ ∀ k, k ≠ [B] → fs' !! k = fs !! k).
Proof.
  intros V E.
  pose proof (resolve_Join_bucket_empty B V) as R.
  assert (Q : [B] ≠ []) by discriminate.
  split.
  - intros N. split.
    + unfold ChangeBucketOwner.
      rewrite (bind_ok _ _ _ _ _ (stat_bucket_there B nb fs V E)).
      rewrite bind_run. unfold on_err, reads.
      cbn [meta posix_xattr RetrieveAttribute XattrMeta].
      rewrite (xattr_get_run B "" _ [B] nb fs R Q E), N. reflexivity.
    + rewrite (GetBucketAcl_run B nb fs V E), N. reflexivity.
  - intros data acl A J.
    set (n1 := set_attrs (<[aclkey := json_Marshal_ACL (acl_set_Owner newOwner acl)]>
                            (node_attrs nb)) nb).
    exists (<[[B] := n1]> fs).
    assert (E1 : (<[[B] := n1]> fs) !! [B] = Some n1) by apply lookup_insert_eq.
    split; [|split; [|split]].
    + unfold ChangeBucketOwner.
      rewrite (bind_ok _ _ _ _ _ (stat_bucket_there B nb fs V E)).
      rewrite bind_run. unfold on_err at 1, reads.
      cbn [meta posix_xattr RetrieveAttribute StoreAttribute XattrMeta].
      rewrite (xattr_get_run B "" _ [B] nb fs R Q E), A. cbv beta iota.
      rewrite J. unfold on_err.
      rewrite (xattr_set_run B "" _ _ [B] nb fs R Q E). reflexivity.
    + rewrite (GetBucketAcl_run B n1 _ V E1). unfold n1.
      rewrite node_attrs_set, lookup_insert_eq. reflexivity.
    + exact E1.
    + intros k K. apply lookup_insert_ne. congruence.
Qed.

End Further.

(** * Further worked examples *)

(** A test of all entries of a tree, and of all prefixes of a path. *)
Lemma all_entries (P : path → node → bool) (fs : fsys) :
  forallb (λ kv, P kv.1 kv.2) (map_to_list fs) = true →
  ∀ k n, fs !! k = Some n → P k n = true.
Proof.
  intros All k n E. rewrite forallb_forall in All.
  apply (All (k, n)). apply list_elem_of_In, elem_of_map_to_list, E.
Qed.

Lemma all_prefixes (P : path → bool) (l : path) :
  forallb (λ i, P (take i l)) (seq 0 (S (length l))) = true →
  ∀ q, q `prefix_of` l → P q = true.
Proof.
  intros All q Pq. rewrite forallb_forall in All.
  pose proof (prefix_length _ _ Pq) as L. destruct Pq as [r ->].
  rewrite <- (take_app_length q r) at 1. apply All, in_seq. lia.
Qed.

Lemma upload_open_test `{Externals} (fs : fsys) (B object u : string) :
  forallb (λ i, is_dir fs (take i (upload_dir B object u)))
    (seq 0 (S (length (upload_dir B object u)))) = true →
  upload_open fs B object u.
Proof.
  intros T q N Pq. apply (all_prefixes (is_dir fs) _ T) in Pq.
  unfold is_dir in Pq. rewrite lookup_node_nonempty in Pq by exact N.
  destruct (fs !! q) as [[d a|a]|]; try discriminate Pq. eauto.
Qed.

(** X1.  The bucket [b] is taken; the bucket [c], made with object
    lock, returns its access control list and has the lock enabled. *)
Lemma CreateBucket_new_and_taken_witness :
  CreateBucket (H0 := Sample2.env2) posix_xattr
    {| cbi_Bucket := Some "b"; cbi_ObjectLockEnabledForBucket := Some true |}
    (bytes_of "root") 0 Sample.empty_bucket
  = (Err2 (APIError2 ErrBucketAlreadyExists), Sample.empty_bucket)
  ∧ ∃ fs',
      CreateBucket (H0 := Sample2.env2) posix_xattr
        {| cbi_Bucket := Some "c"; cbi_ObjectLockEnabledForBucket := Some true |}
        (bytes_of "root") 0 Sample.empty_bucket
      = (Ok2 tt, fs')
      ∧ GetBucketAcl posix_xattr {| gba_Bucket := Some "c" |} fs'
        = (Ok (bytes_of "root"), fs')
      ∧ lock_enabled (H := Sample.env) posix_xattr "c" fs'.
Proof.
  split.
  - destruct (CreateBucket_new_and_taken (H := Sample.env) (H0 := Sample2.env2)
                "b" (bytes_of "root") 0 (Some true) Sample.empty_bucket)
      as [T _]; [reflexivity|reflexivity|].
    apply T. eexists. reflexivity.
  - destruct (CreateBucket_new_and_taken (H := Sample.env) (H0 := Sample2.env2)
                "c" (bytes_of "root") 0 (Some true) Sample.empty_bucket)
      as [_ N]; [reflexivity|reflexivity|].
    destruct N as (fs' & a & C & _ & _ & _ & G & L & _); [reflexivity|].
    exists fs'. split; [exact C|]. split; [exact G|]. apply L. reflexivity.
Defined.

(** X2.  The bucket with the object [k] is not empty; the bucket that
    holds nothing but the directory of an upload is removed with it. *)
Lemma DeleteBucket_empty_or_not_witness :
  DeleteBucket posix_xattr {| dbi_Bucket := Some "b" |} Sample.hello_bucket
  = (Err2 (APIError2 ErrBucketNotEmpty), Sample.hello_bucket)
  ∧ ∃ fs',
      DeleteBucket posix_xattr {| dbi_Bucket := Some "b" |} Sample.upload_dirs
      = (Ok2 tt, fs')
      ∧ fs' !! ["b"; ".sgwtmp"; "multipart"] = None
      ∧ HeadBucket {| hbi_Bucket := Some "b" |} fs'
        = (Err (APIError ErrNoSuchBucket), fs').
Proof.
  split.
  - destruct (DeleteBucket_empty_or_not "b" ∅ Sample.hello_bucket) as [F _];
      [reflexivity|reflexivity|].
    apply F. exists "k", (File (bytes_of "hello")
                            {[ etagkey := bytes_of "5d41402abc4b2a76b9719d911017c592" ]}).
    split; [reflexivity|discriminate].
  - destruct (DeleteBucket_empty_or_not "b" ∅ Sample.upload_dirs) as [_ E];
      [reflexivity|vm_compute; reflexivity|].
    destruct E as (fs' & D & _ & T & _ & _ & G).
    + intros c n E.
      apply (all_entries
               (λ k _, match k with
                       | [b; c] => implb (String.eqb b "b") (String.eqb c metaTmpDir)
                       | _ => true
                       end) Sample.upload_dirs) in E; [|vm_compute; reflexivity].
      cbn in E. apply String.eqb_eq, E.
    + exists fs'. split; [exact D|]. split; [|exact G].
      apply T; [eexists; vm_compute; reflexivity|].
      exists ["multipart"]. reflexivity.
Defined.

(** X3.  The empty bucket has no access control list; it returns the
    one that is put. *)
Lemma PutBucketAcl_GetBucketAcl_witness :
  GetBucketAcl posix_xattr {| gba_Bucket := Some "b" |} Sample.empty_bucket
  = (Ok [], Sample.empty_bucket)
  ∧ ∃ fs',
      PutBucketAcl posix_xattr "b" (bytes_of "root") Sample.empty_bucket
      = (Ok tt, fs')
      ∧ GetBucketAcl posix_xattr {| gba_Bucket := Some "b" |} fs'
        = (Ok (bytes_of "root"), fs').
Proof.
  destruct (PutBucketAcl_GetBucketAcl "b" (bytes_of "root") (Dir ∅)
              Sample.empty_bucket) as [N (fs' & P & G & _)];
    [reflexivity|reflexivity|].
  split; [apply N; reflexivity|]. exists fs'. split; [exact P|exact G].
Defined.

(** X4.  The bucket [a] of alice goes to carol; the empty bucket, which
    has no list, cannot change its owner. *)
Lemma ChangeBucketOwner_sets_owner_witness :
  ChangeBucketOwner (H0 := Sample2.env2) posix_xattr "b" "carol"
    Sample.empty_bucket
  = (Err (Wrap "get acl" MetaErrNoSuchKey), Sample.empty_bucket)
  ∧ ∃ fs',
      ChangeBucketOwner (H0 := Sample2.env2) posix_xattr "a" "carol"
        Sample2.owned_buckets
      = (Ok tt, fs')
      ∧ GetBucketAcl posix_xattr {| gba_Bucket := Some "a" |} fs'
        = (Ok (bytes_of "carol"), fs').
Proof.
  split.
  - destruct (ChangeBucketOwner_sets_owner (H0 := Sample2.env2) "b" "carol"
                (Dir ∅) Sample.empty_bucket) as [N _];
      [reflexivity|reflexivity|].
    apply N. reflexivity.
  - destruct (ChangeBucketOwner_sets_owner (H0 := Sample2.env2) "a" "carol"
                (Dir {[ aclkey := bytes_of "alice" ]}) Sample2.owned_buckets)
      as [_ S]; [reflexivity|reflexivity|].
    destruct (S (bytes_of "alice") "alice") as (fs' & C & G & _);
      [reflexivity|reflexivity|].
    exists fs'. split; [exact C|exact G].
Defined.

(** X5.  The two buckets are listed with alice and bob, the file is
    not; with a bucket that has no list beside them the listing
    fails. *)
Lemma ListBucketsAndOwners_lists_buckets_witness :
  (∃ l,
     ListBucketsAndOwners (H0 := Sample2.env2) posix_xattr Sample2.owned_buckets
     = (Ok l, Sample2.owned_buckets)
     ∧ {| bkt_Name := "a"; bkt_Owner := "alice" |} ∈ l
     ∧ {| bkt_Name := "b"; bkt_Owner := "bob" |} ∈ l
     ∧ ∀ owner, {| bkt_Name := "notes"; bkt_Owner := owner |} ∉ l)
  ∧ ∃ e,
      ListBucketsAndOwners (H0 := Sample2.env2) posix_xattr Sample2.unowned_bucket
      = (Err e, Sample2.unowned_bucket).
Proof.
  split.
  - destruct (ListBucketsAndOwners_lists_buckets (H0 := Sample2.env2)
                Sample2.owned_buckets) as [L _].
    + intros c n E.
      apply (all_entries
               (λ k _, match k with [c] => valid_name c | _ => true end)
               Sample2.owned_buckets) in E; [exact E|vm_compute; reflexivity].
    + destruct L as (l & R & _ & _ & In).
      * intros c a E.
        apply (all_entries
                 (λ k n, match k, n with
                         | [c], Dir a => bool_decide (is_Some (a !! aclkey))
                         | _, _ => true
                         end) Sample2.owned_buckets) in E;
          [|vm_compute; reflexivity].
        cbn in E. apply bool_decide_eq_true in E as [data E].
        exists data, (string_of data). split; [exact E|reflexivity].
      * exists l. split; [exact R|]. split; [|split].
        -- apply In. exists {[ aclkey := bytes_of "alice" ]}, (bytes_of "alice"), "alice".
           repeat split.
        -- apply In. exists {[ aclkey := bytes_of "bob" ]}, (bytes_of "bob"), "bob".
           repeat split.
        -- intros owner I. apply In in I as (a & _ & _ & E & _).
           vm_compute in E. discriminate E.
  - destruct (ListBucketsAndOwners_lists_buckets (H0 := Sample2.env2)
                Sample2.unowned_bucket) as [_ F].
    + intros c n E.
      apply (all_entries
               (λ k _, match k with [c] => valid_name c | _ => true end)
               Sample2.unowned_bucket) in E; [exact E|vm_compute; reflexivity].
    + apply F. exists "c", ∅. split; [reflexivity|]. left. reflexivity.
Defined.

(** X6.  The empty bucket has no policy; it returns the one that is put
    and has none again after the removal. *)
Lemma bucket_policy_round_trip_witness :
  GetBucketPolicy posix_xattr "b" Sample.empty_bucket
  = (Err2 (APIError2 ErrNoSuchBucketPolicy), Sample.empty_bucket)
  ∧ ∃ fs1 fs2,
      PutBucketPolicy posix_xattr "b" (Some (bytes_of "allow")) Sample.empty_bucket
      = (Ok tt, fs1)
      ∧ GetBucketPolicy posix_xattr "b" fs1 = (Ok2 (bytes_of "allow"), fs1)
      ∧ DeleteBucketPolicy posix_xattr "b" fs1 = (Ok tt, fs2)
      ∧ GetBucketPolicy posix_xattr "b" fs2
        = (Err2 (APIError2 ErrNoSuchBucketPolicy), fs2).
Proof.
  destruct (bucket_policy_round_trip "b" (bytes_of "allow") (Dir ∅)
              Sample.empty_bucket)
    as [N (fs1 & fs2 & P & G & D & G' & _)]; [reflexivity|reflexivity|].
  split; [apply N; reflexivity|].
  exists fs1, fs2. split; [exact P|]. split; [exact G|]. split; [exact D|exact G'].
Defined.

(** X7.  The tag [team=storage] on the empty bucket. *)
Lemma bucket_tagging_round_trip_witness :
  ∃ fs1 fs2,
    PutBucketTagging (H := Sample.env) posix_xattr "b"
      (Some {[ "team" := "storage" ]}) Sample.empty_bucket
    = (Ok tt, fs1)
    ∧ GetBucketTagging (H := Sample.env) posix_xattr "b" fs1
      = (Ok {[ "team" := "storage" ]}, fs1)
    ∧ DeleteBucketTagging (H := Sample.env) posix_xattr "b" fs1 = (Ok tt, fs2)
    ∧ GetBucketTagging (H := Sample.env) posix_xattr "b" fs2
      = (Err (APIError ErrBucketTaggingNotFound), fs2).
Proof.
  destruct (bucket_tagging_round_trip (H := Sample.env) "b"
              {[ "team" := "storage" ]} (Dir ∅) Sample.empty_bucket)
    as (fs1 & fs2 & P & G & D & G' & _);
    [reflexivity|reflexivity|vm_compute; reflexivity|].
  exists fs1, fs2. split; [exact P|]. split; [exact G|]. split; [exact D|exact G'].
Defined.

(** X8.  The tag [team=storage] on the object [k]. *)
Lemma object_tagging_round_trip_witness :
  ∃ fs1 fs2,
    PutObjectTagging (H := Sample.env) posix_xattr "b" "k"
      (Some {[ "team" := "storage" ]}) Sample.hello_bucket
    = (Ok tt, fs1)
    ∧ GetObjectTagging (H := Sample.env) posix_xattr "b" "k" fs1
      = (Ok {[ "team" := "storage" ]}, fs1)
    ∧ DeleteObjectTagging (H := Sample.env) posix_xattr "b" "k" fs1 = (Ok tt, fs2)
    ∧ GetObjectTagging (H := Sample.env) posix_xattr "b" "k" fs2
      = (Err (APIError ErrBucketTaggingNotFound), fs2).
Proof.
  destruct (object_tagging_round_trip (H := Sample.env) "b" ["k"]
              {[ "team" := "storage" ]} (Dir ∅)
              (File (bytes_of "hello")
                 {[ etagkey := bytes_of "5d41402abc4b2a76b9719d911017c592" ]})
              Sample.hello_bucket)
    as (fs1 & fs2 & P & G & D & G' & _).
  - reflexivity.
  - discriminate.
  - repeat constructor.
  - reflexivity.
  - reflexivity.
  - vm_compute. reflexivity.
  - exists fs1, fs2. split; [exact P|]. split; [exact G|]. split; [exact D|exact G'].
Defined.


(** X10.  The empty bucket accepts no lock configuration; the locked
    bucket stores the one byte that switches the lock off, returns it,
    and accepts nothing after it. *)
Lemma object_lock_configuration_witness :
  PutObjectLockConfiguration (H := Sample.env) posix_xattr "b" [x01]
    Sample.empty_bucket
  = (Err2 (APIError2 ErrObjectLockConfigurationNotAllowed), Sample.empty_bucket)
  ∧ ∃ fs1,
      PutObjectLockConfiguration (H := Sample.env) posix_xattr "b" [x00]
        Sample.locked_bucket
      = (Ok2 tt, fs1)
      ∧ GetObjectLockConfiguration posix_xattr "b" fs1 = (Ok2 [x00], fs1)
      ∧ PutObjectLockConfiguration (H := Sample.env) posix_xattr "b" [x01] fs1
        = (Err2 (APIError2 ErrObjectLockConfigurationNotAllowed), fs1).
Proof.
  split.
  - destruct (object_lock_configuration (H := Sample.env) "b" [x01] [x01]
                (Dir ∅) Sample.empty_bucket) as (D & _ & _);
      [reflexivity|reflexivity|].
    apply D. left. eexists. split; reflexivity.
  - destruct (object_lock_configuration (H := Sample.env) "b" [x00] [x01]
                (Dir {[ bucketLockKey := [x01] ]}) Sample.locked_bucket)
      as (_ & _ & E); [reflexivity|reflexivity|].
    destruct E as (fs1 & P & G & _ & Off).
    + eexists _, _. split; [reflexivity|]. split; reflexivity.
    + exists fs1. split; [exact P|]. split; [exact G|].
      apply (Off {| Enabled := false |}); reflexivity.
Defined.

(** X11.  A legal hold and a retention on the object [k] of the locked
    bucket. *)
Lemma object_lock_round_trip_witness :
  GetObjectLegalHold posix_xattr "b" "k" "" Sample2.locked_object
  = (Err2 (APIError2 ErrNoSuchObjectLockConfiguration), Sample2.locked_object)
  ∧ ∃ fs1 fs2,
      PutObjectLegalHold (H := Sample.env) posix_xattr "b" "k" "" true
        Sample2.locked_object
      = (Ok tt, fs1)
      ∧ PutObjectRetention (H := Sample.env) posix_xattr "b" "k" ""
          (bytes_of "GOVERNANCE") fs1
        = (Ok tt, fs2)
      ∧ GetObjectRetention posix_xattr "b" "k" "" fs2
        = (Ok2 (bytes_of "GOVERNANCE"), fs2)
      ∧ GetObjectLegalHold posix_xattr "b" "k" "" fs2
        = (Ok2 true, fs2).
Proof.
  destruct (object_lock_round_trip (H := Sample.env) "b" ["k"] true
              (bytes_of "GOVERNANCE") (Dir {[ bucketLockKey := [x01] ]})
              (File (bytes_of "hello") ∅) Sample2.locked_object)
    as (N & _ & fs1 & fs2 & P & _ & R & GR & GL & _).
  - reflexivity.
  - discriminate.
  - repeat constructor.
  - reflexivity.
  - reflexivity.
  - eexists _, _. split; [reflexivity|]. split; reflexivity.
  - split; [apply N; reflexivity|].
    exists fs1, fs2. split; [exact P|]. split; [exact R|]. split; [exact GR|exact GL].
Defined.


(** X13.  A put of the key [j] beside the object [k]: the object [k]
    is as it was. *)
Lemma PutObject_keeps_others_witness :
  (PutObject (H := Sample.env) posix_xattr (Sample.put_input "j" "hi" 2)
     Sample.hello_bucket).2 !! ["b"; "k"]
  = Some (File (bytes_of "hello")
            {[ etagkey := bytes_of "5d41402abc4b2a76b9719d911017c592" ]}).
Proof.
  destruct (PutObject_keeps_others (H := Sample.env)
              (Sample.put_input "j" "hi" 2) "b" "j" Sample.hello_bucket
              (PutObject (H := Sample.env) posix_xattr
                 (Sample.put_input "j" "hi" 2) Sample.hello_bucket).2
              (Sample.etag_of "hi"))
    as (q & R & Keep & _).
  - reflexivity.
  - reflexivity.
  - reflexivity.
  - apply run_result. vm_compute. reflexivity.
  - vm_compute in R. injection R as <-. apply Keep; [discriminate|reflexivity].
Defined.

(** X14.  A put of the key [a], which is a directory of the bucket; and
    a put of [k/x], where [k] is an object. *)
Lemma PutObject_existing_object_is_directory_witness :
  PutObject (H := Sample.env) posix_xattr (Sample.put_input "a" "x" 1)
    Sample.deep_bucket
  = (Err (APIError ErrExistingObjectIsDirectory), Sample.deep_bucket)
  ∧ ∃ fs',
      PutObject (H := Sample.env) posix_xattr (Sample.put_input "k/x" "x" 1)
        Sample.hello_bucket
      = (Err (APIError ErrExistingObjectIsDirectory), fs')
      ∧ fs' !! ["b"; "k"; "x"] = None.
Proof.
  split.
  - destruct (PutObject_existing_object_is_directory (H := Sample.env)
                (Sample.put_input "a" "x" 1) "b" ["a"] (Dir ∅) Sample.deep_bucket)
      as [D _].
    + reflexivity.
    + discriminate.
    + repeat constructor.
    + reflexivity.
    + reflexivity.
    + right. reflexivity.
    + vm_compute. reflexivity.
    + apply (D ∅). vm_compute. reflexivity.
  - destruct (PutObject_existing_object_is_directory (H := Sample.env)
                (Sample.put_input "k/x" "x" 1) "b" ["k"; "x"] (Dir ∅)
                Sample.hello_bucket)
      as [_ F].
    + reflexivity.
    + discriminate.
    + repeat constructor.
    + reflexivity.
    + reflexivity.
    + right. reflexivity.
    + reflexivity.
    + destruct (F ["k"] (bytes_of "hello")
                  {[ etagkey := bytes_of "5d41402abc4b2a76b9719d911017c592" ]})
        as (fs' & P & _ & N).
      * discriminate.
      * exists ["x"]. reflexivity.
      * discriminate.
      * reflexivity.
      * reflexivity.
      * exists ["b"; ".sgwtmp"]. split; [reflexivity|]. split; [discriminate|].
        intros q' d a Pq E.
        apply (all_prefixes
                 (λ q : path, match Sample.hello_bucket !! q with
                       | Some (File _ _) => false
                       | _ => true
                       end) ["b"; ".sgwtmp"]) in Pq; [|vm_compute; reflexivity].
        rewrite E in Pq. discriminate Pq.
      * exists fs'. split; [exact P|exact N].
Defined.

(** X15.  A put with a legal hold into the bucket without object
    lock: the call fails and the object is there, without an etag. *)
Lemma PutObject_lock_refused_after_publish_witness :
  ∃ fs' out,
    PutObject (H := Sample.env) posix_xattr Sample2.held_input Sample.empty_bucket
    = (Err (APIError ErrInvalidBucketObjectLockConfiguration), fs')
    ∧ GetObject (H := Sample.env) posix_xattr
        {| goi_Bucket := Some "b"; goi_Key := Some "k"; goi_Range := Some "" |} fs'
      = (Ok (out, bytes_of "hello"), fs')
    ∧ goo_ETag out = "".
Proof.
  destruct (PutObject_lock_refused_after_publish (H := Sample.env)
              Sample2.held_input "b" "k" ∅ Sample.empty_bucket)
    as (fs' & attrs & out & P & _ & _ & G & E).
  - intros t. eexists. reflexivity.
  - reflexivity.
  - reflexivity.
  - discriminate.
  - reflexivity.
  - reflexivity.
  - reflexivity.
  - reflexivity.
  - reflexivity.
  - reflexivity.
  - intros a E. vm_compute in E. discriminate E.
  - exists ["b"; ".sgwtmp"]. split; [reflexivity|]. split; [discriminate|].
    intros q' d a Pq E.
    apply (all_prefixes
             (λ q : path, match Sample.empty_bucket !! q with
                   | Some (File _ _) => false
                   | _ => true
                   end) ["b"; ".sgwtmp"]) in Pq; [|vm_compute; reflexivity].
    rewrite E in Pq. discriminate Pq.
  - exists fs', out. split; [exact P|]. split; [exact G|exact E].
Defined.

(** X16.  The metadata [color=red] of a put of [k] are those of the
    read. *)
Lemma PutObject_GetObject_metadata_witness :
  ∃ out,
    GetObject (H := Sample.env) posix_xattr
      {| goi_Bucket := Some "b"; goi_Key := Some "k"; goi_Range := Some "" |}
      (PutObject (H := Sample.env) posix_xattr
         (Sample.put_input "k" "hello" 5) Sample.empty_bucket).2
    = (Ok (out, bytes_of "hello"),
       (PutObject (H := Sample.env) posix_xattr
          (Sample.put_input "k" "hello" 5) Sample.empty_bucket).2)
    ∧ goo_Metadata out = {[ "color" := "red" ]}
    ∧ goo_ContentLength out = 5.
Proof.
  destruct (PutObject_GetObject_metadata (H := Sample.env)
              (Sample.put_input "k" "hello" 5) "b" "k" Sample.empty_bucket
              (PutObject (H := Sample.env) posix_xattr
                 (Sample.put_input "k" "hello" 5) Sample.empty_bucket).2
              (Sample.etag_of "hello"))
    as (out & G & Md & Len & _).
  - intros t. eexists. reflexivity.
  - reflexivity.
  - reflexivity.
  - reflexivity.
  - apply run_result. vm_compute. reflexivity.
  - exists out. split; [exact G|]. split; [exact Md|exact Len].
Defined.

(** X17.  The directory object [d/] put into the empty bucket and read
    back. *)
Lemma PutObject_GetObject_directory_witness :
  ∃ out,
    GetObject (H := Sample.env) posix_xattr
      {| goi_Bucket := Some "b"; goi_Key := Some "d/"; goi_Range := Some "" |}
      (PutObject (H := Sample.env) posix_xattr
         (Sample.put_input "d/" "" 0) Sample.empty_bucket).2
    = (Ok (out, []),
       (PutObject (H := Sample.env) posix_xattr
          (Sample.put_input "d/" "" 0) Sample.empty_bucket).2)
    ∧ goo_ContentLength out = 0
    ∧ goo_ETag out = emptyMD5
    ∧ goo_Metadata out = {[ "color" := "red" ]}.
Proof.
  destruct (PutObject_GetObject_directory (H := Sample.env)
              (Sample.put_input "d/" "" 0) "b" "d/" Sample.empty_bucket
              (PutObject (H := Sample.env) posix_xattr
                 (Sample.put_input "d/" "" 0) Sample.empty_bucket).2
              emptyMD5)
    as (out & G & Len & Et & _ & Md).
  - intros t. eexists. reflexivity.
  - reflexivity.
  - reflexivity.
  - reflexivity.
  - reflexivity.
  - apply run_result. vm_compute. reflexivity.
  - exists out. split; [exact G|]. split; [exact Len|]. split; [exact Et|exact Md].
Defined.


(** X19.  A put with a legal hold and a retention into the locked
    bucket, and what [HeadObject] tells of it. *)
Lemma HeadObject_after_PutObject_witness :
  HeadObject (H := Sample.env) (H0 := Sample2.env2) posix_xattr
    {| hoi_Bucket := Some "b"; hoi_Key := Some "k"; hoi_PartNumber := None |}
    (PutObject (H := Sample.env) posix_xattr Sample2.held_input
       Sample.locked_bucket).2
  = (Ok2 {| hoo_ContentLength := 5;
            hoo_ContentType := Some "";
            hoo_ContentEncoding := Some "";
            hoo_ETag := "5d41402abc4b2a76b9719d911017c592";
            hoo_Metadata := {[ "color" := "red" ]};
            hoo_ObjectLockLegalHoldStatus := "ON";
            hoo_ObjectLockMode := "GOVERNANCE";
            hoo_ObjectLockRetainUntilDate := None;
            hoo_PartsCount := None |},
     (PutObject (H := Sample.env) posix_xattr Sample2.held_input
        Sample.locked_bucket).2).
Proof.
  apply (HeadObject_after_PutObject (H := Sample.env) (H0 := Sample2.env2)
           Sample2.held_input "b" "k" Sample.locked_bucket
           (PutObject (H := Sample.env) posix_xattr Sample2.held_input
              Sample.locked_bucket).2
           "5d41402abc4b2a76b9719d911017c592").
  - reflexivity.
  - reflexivity.
  - reflexivity.
  - reflexivity.
  - apply run_result. vm_compute. reflexivity.
Defined.

(** X21.  The delete of the only object of the bucket removes the
    bucket. *)
Lemma DeleteObject_last_key_removes_bucket_witness :
  ∃ fs',
    DeleteObject posix_xattr {| doi_Bucket := Some "b"; doi_Key := Some "k" |}
      Sample.hello_bucket
    = (Ok tt, fs')
    ∧ HeadBucket {| hbi_Bucket := Some "b" |} fs'
      = (Err (APIError ErrNoSuchBucket), fs').
Proof.
  destruct (DeleteObject_last_key_removes_bucket "b" "k" (bytes_of "hello")
              {[ etagkey := bytes_of "5d41402abc4b2a76b9719d911017c592" ]} ∅
              Sample.hello_bucket)
    as (fs' & D & _ & G).
  - reflexivity.
  - reflexivity.
  - reflexivity.
  - reflexivity.
  - reflexivity.
  - intros c rest [n E].
    apply (all_entries
             (λ k _, match k with
                     | b :: c :: rest =>
                         implb (String.eqb b "b")
                           (String.eqb c "k" && bool_decide (rest = []))
                     | _ => true
                     end) Sample.hello_bucket) in E; [|vm_compute; reflexivity].
    cbn in E. apply andb_true_iff in E as [Ec Er].
    apply String.eqb_eq in Ec. apply bool_decide_eq_true in Er. auto.
  - exists fs'. split; [exact D|exact G].
Defined.

(** X22.  The delete of the directory object [a/d/]: the directory [a]
    above it stays. *)
Lemma DeleteObject_directory_object_witness :
  DeleteObject posix_xattr {| doi_Bucket := Some "b"; doi_Key := Some "a/d/" |}
    Sample2.dir_object
  = (Ok tt, delete ["b"; "a"; "d"] Sample2.dir_object).
Proof.
  apply (DeleteObject_directory_object "b" ["a"; "d"] (Dir ∅)
           {[ etagkey := bytes_of emptyMD5 ]} Sample2.dir_object).
  - reflexivity.
  - discriminate.
  - repeat constructor.
  - reflexivity.
  - reflexivity.
  - intros c.
    destruct (Sample2.dir_object !! ("b" :: (["a"; "d"] ++ [c])%list))
      as [n|] eqn:E; [|reflexivity].
    apply (all_entries (λ k _, (length k <? 4)%nat) Sample2.dir_object) in E;
      [|vm_compute; reflexivity].
    discriminate E.
Defined.

(** X23.  The object [k] deleted from a bucket that holds [j] as well:
    a read and a second delete find no such key. *)
Lemma DeleteObject_then_GetObject_witness :
  ∃ fs',
    DeleteObject posix_xattr {| doi_Bucket := Some "b"; doi_Key := Some "k" |}
      Sample2.two_objects
    = (Ok tt, fs')
    ∧ GetObject (H := Sample.env) posix_xattr
        {| goi_Bucket := Some "b"; goi_Key := Some "k"; goi_Range := Some "" |} fs'
      = (Err (APIError ErrNoSuchKey), fs')
    ∧ DeleteObject posix_xattr {| doi_Bucket := Some "b"; doi_Key := Some "k" |} fs'
      = (Err (APIError ErrNoSuchKey), fs').
Proof.
  destruct (DeleteObject_then_GetObject (H := Sample.env) "b" [] "k"
              (bytes_of "hello") ∅ ∅ Sample2.two_objects "")
    as (fs' & D & There & _).
  - reflexivity.
  - constructor.
  - reflexivity.
  - reflexivity.
  - reflexivity.
  - split.
    + intros l' P N. apply prefix_nil_inv in P. contradiction.
    + intros l' c P N. apply prefix_nil_inv in P. contradiction.
  - change (DeleteObject posix_xattr
              {| doi_Bucket := Some "b"; doi_Key := Some "k" |}
              Sample2.two_objects = (Ok tt, fs')) in D.
    assert (E : fs' = (DeleteObject posix_xattr
                         {| doi_Bucket := Some "b"; doi_Key := Some "k" |}
                         Sample2.two_objects).2)
      by (rewrite D; reflexivity).
    destruct There as [G D2].
    + rewrite E. eexists. vm_compute. reflexivity.
    + exists fs'. split; [exact D|]. split; [exact G|exact D2].
Defined.

(** X24.  The upload [u1] of the key [k] is started in the empty
    bucket; a key that ends with a slash is refused. *)
Lemma CreateMultipartUpload_opens_witness :
  CreateMultipartUpload (H := Sample.env) posix_xattr
    {| cmi_Bucket := Some "b"; cmi_Key := Some "d/";
       cmi_Metadata := {[ "color" := "red" ]} |} "u1" Sample.empty_bucket
  = (Err (APIError ErrDirectoryObjectContainsData), Sample.empty_bucket)
  ∧ ∃ fs',
      CreateMultipartUpload (H := Sample.env) posix_xattr
        {| cmi_Bucket := Some "b"; cmi_Key := Some "k";
           cmi_Metadata := {[ "color" := "red" ]} |} "u1" Sample.empty_bucket
      = (Ok {| cmr_Bucket := "b"; cmr_Key := "k"; cmr_UploadId := "u1" |}, fs')
      ∧ upload_open (H := Sample.env) fs' "b" "k" "u1".
Proof.
  split.
  - destruct (CreateMultipartUpload_opens (H := Sample.env) "b" "d/" "u1"
                {[ "color" := "red" ]} ∅ Sample.empty_bucket) as [S _].
    + reflexivity.
    + vm_compute. reflexivity.
    + reflexivity.
    + reflexivity.
    + apply S. reflexivity.
  - destruct (CreateMultipartUpload_opens (H := Sample.env) "b" "k" "u1"
                {[ "color" := "red" ]} ∅ Sample.empty_bucket) as [_ O].
    + reflexivity.
    + vm_compute. reflexivity.
    + reflexivity.
    + reflexivity.
    + destruct O as (fs' & ac & au & C & Op & _); [reflexivity| |].
      * intros q d a N Pq E.
        apply (all_prefixes
                 (λ q : path, match Sample.empty_bucket !! q with
                              | Some (File _ _) => false
                              | _ => true
                              end)
                 (upload_dir (H := Sample.env) "b" "k" "u1")) in Pq;
          [|vm_compute; reflexivity].
        rewrite E in Pq. discriminate Pq.
      * exists fs'. split; [exact C|exact Op].
Defined.

(** X25.  The part 1 with the body "aaaa", uploaded to the open upload
    [u1]. *)
Lemma UploadPart_on_open_upload_witness :
  UploadPart (H := Sample.env) posix_xattr (Sample.part_input 1 "aaaa")
    Sample.upload_dirs
  = (Ok (Sample.etag_of "aaaa"),
     <[part_file (H := Sample.env) "b" "k" "u1" 1 :=
         File (bytes_of "aaaa") {[ etagkey := bytes_of (Sample.etag_of "aaaa") ]}]>
       Sample.upload_dirs).
Proof.
  apply (UploadPart_on_open_upload (H := Sample.env) "b" "k" "u1" 1 None
           (bytes_of "aaaa") Sample.upload_dirs).
  - reflexivity.
  - vm_compute. reflexivity.
  - reflexivity.
  - apply upload_open_test. vm_compute. reflexivity.
  - intros a E. vm_compute in E. discriminate E.
Defined.

(** X26.  The upload [u1] with the parts 1, 2 and 3: a marker that is
    no number is refused; listed after part 1 with at most one part,
    the parts returned are above 1 and no more than one. *)
Lemma ListParts_of_open_upload_witness :
  ListParts (H := Sample.env) (H0 := Sample2.env2) posix_xattr
    {| lpi_Bucket := Some "b"; lpi_Key := Some "k"; lpi_UploadId := Some "u1";
       lpi_PartNumberMarker := Some "x"; lpi_MaxParts := Some 1 |}
    Sample.upload_tree
  = (Err2 (APIError2 ErrInvalidPartNumberMarker), Sample.upload_tree)
  ∧ ∃ lpr,
      ListParts (H := Sample.env) (H0 := Sample2.env2) posix_xattr
        {| lpi_Bucket := Some "b"; lpi_Key := Some "k"; lpi_UploadId := Some "u1";
           lpi_PartNumberMarker := Some "1"; lpi_MaxParts := Some 1 |}
        Sample.upload_tree
      = (Ok2 lpr, Sample.upload_tree)
      ∧ (∀ p, p ∈ lpr_Parts lpr → 1 < part_PartNumber p)
      ∧ Z.of_nat (length (lpr_Parts lpr)) ≤ 1.
Proof.
  split.
  - destruct (ListParts_of_open_upload (H := Sample.env) (H0 := Sample2.env2)
                "b" "k" "u1" "x" 0 (Some 1) Sample.upload_tree) as [Bad _].
    apply Bad; [discriminate|reflexivity].
  - destruct (ListParts_of_open_upload (H := Sample.env) (H0 := Sample2.env2)
                "b" "k" "u1" "1" 1 (Some 1) Sample.upload_tree) as [_ L].
    destruct L as (lpr & R & _ & _ & Above & _ & Max & _).
    + reflexivity.
    + vm_compute. reflexivity.
    + reflexivity.
    + apply upload_open_test. vm_compute. reflexivity.
    + intros c n E.
      apply (all_entries
               (λ k _, if bool_decide
                            (removelast k
                             = upload_dir (H := Sample.env) "b" "k" "u1")
                       then valid_name (default "" (last k)) else true)
               Sample.upload_tree) in E; [|vm_compute; reflexivity].
      rewrite removelast_last, bool_decide_eq_true_2, last_snoc in E
        by reflexivity.
      exact E.
    + reflexivity.
    + exists lpr. split; [exact R|]. split.
      * intros p I. apply (Above p I).
      * apply Max. reflexivity.
Defined.

(** X27.  The upload [u1] of the key [k], which the empty bucket does
    not have. *)
Lemma no_such_upload_witness :
  UploadPart (H := Sample.env) posix_xattr (Sample.part_input 1 "aaaa")
    Sample.empty_bucket
  = (Err (APIError ErrNoSuchUpload), Sample.empty_bucket)
  ∧ AbortMultipartUpload (H := Sample.env) posix_xattr
      {| ami_Bucket := Some "b"; ami_Key := Some "k"; ami_UploadId := Some "u1" |}
      Sample.empty_bucket
    = (Err (APIError ErrNoSuchUpload), Sample.empty_bucket).
Proof.
  destruct (no_such_upload (H := Sample.env) "b" "k" "u1" (Dir ∅)
              Sample.empty_bucket) as (U & _ & A).
  - reflexivity.
  - vm_compute. reflexivity.
  - reflexivity.
  - reflexivity.
  - exists (PathError "stat"
              (join_slash (upload_dir (H := Sample.env) "b" "k" "u1")) ENOENT).
    split; vm_compute; reflexivity.
  - split; [apply (U 1 None (bytes_of "aaaa"))|exact A].
Defined.

(** X28.  The upload [u1] with its three parts is aborted: the parts
    and the container are gone. *)
Lemma AbortMultipartUpload_closes_witness :
  ∃ fs',
    AbortMultipartUpload (H := Sample.env) posix_xattr
      {| ami_Bucket := Some "b"; ami_Key := Some "k"; ami_UploadId := Some "u1" |}
      Sample.upload_tree
    = (Ok tt, fs')
    ∧ fs' !! part_file (H := Sample.env) "b" "k" "u1" 1 = None
    ∧ fs' !! upload_container (H := Sample.env) "b" "k" = None
    ∧ fs' !! ["b"] = Some (Dir ∅).
Proof.
  destruct (AbortMultipartUpload_closes (H := Sample.env) "b" "k" "u1"
              Sample.upload_tree)
    as (fs' & A & Gone & Keep & Cont & _).
  - reflexivity.
  - vm_compute. reflexivity.
  - reflexivity.
  - apply upload_open_test. vm_compute. reflexivity.
  - exists fs'. split; [exact A|]. split; [|split].
    + apply Gone. exists ["1"]. reflexivity.
    + apply Cont. intros c N.
      destruct (Sample.upload_tree
                  !! (upload_container (H := Sample.env) "b" "k" ++ [c])%list)
        as [n|] eqn:E; [|reflexivity].
      apply (all_entries
               (λ k _, if bool_decide
                            (removelast k
                             = upload_container (H := Sample.env) "b" "k")
                       then String.eqb (default "" (last k)) "u1" else true)
               Sample.upload_tree) in E; [|vm_compute; reflexivity].
      rewrite removelast_last, bool_decide_eq_true_2, last_snoc in E
        by reflexivity.
      apply String.eqb_eq in E. contradiction.
    + rewrite Keep.
      * vm_compute. reflexivity.
      * intros P. apply prefix_length in P. vm_compute in P. lia.
      * vm_compute. discriminate.
Defined.
